(* ===== verification/_CoqProject ===== *)
-Q . S2P
Prelude.v
CMem.v
LibMem.v
MemEquiv.v
Ctype.v
LibStr.v
Strtol.v
Printf.v
PrintfSpec.v
MemTypes.v
Soc.v
Io.v
Console.v
Hello.v
RustDemo.v
Fw.v
Elf.v
ElfTables.v
Boot.v
System.v
BootSpec.v
BootMain.v
Termios.v
UartSim.v
UartLine.v
UartRate.v
PpFifo.v
PpUart.v
PpUartTx.v
PpUartRx.v
PpSoc.v
PpConsole.v
PpGetchar.v
PpBoot.v
Verilator.v
Vhpi.v
LiteDram.v
SimBram.v
DmiBits.v
SimJtag.v
SimConsole.v
SimPpUart.v
Dmi.v
MwDebug.v
MwDebugSpec.v
MwDebugRegs.v
MwDebugTotal.v
DmiInit.v
DmiInitSpec.v
DmiLink.v
SimLink.v
JtagLink.v
DmiRefine.v
Mmu.v
MmuTest.v
MmuSpec.v
MmuMap.v
MmuRun.v
MmuRefine.v
Xics.v
XicsSpec.v
XicsClk.v
IsrEntry.v
FmtLog.v
LibcProps.v
FirmwareProps.v
BootProps.v
SimProps.v
BenchProps.v
SerialProps.v
DebugProps.v
MmuProps.v
XicsProps.v
