(* ===== verification/Prelude.v ===== *)
(** * Microwatt: firmware, libc, simulation back ends and debugging tools

    A verification library for the C code of the Microwatt repository: the
    software that runs on the core, the helpers its simulations call, the
    tools that debug it, and the tests of its MMU and of its interrupts.  The design
    itself is VHDL; where the C code depends on it, what it relies on is a type class
    ([Bus], [Uart], [SocDev], [DmiTarget], [WbTarget], [GprTarget], [LogTarget], [Dtm],
    [UrjRegister], [Toplevel]) with an instance, and the theorems hold for every
    instance.  The UART of the FPGA designs is modelled clock by clock, up to the bus.

    ** The program and its parts

    - The boot firmware ([litedram/gen-src/sdram_init/main.c]) runs first.  It
      prints what the SoC has, brings up the DRAM, identifies the SPI flash,
      loads an ELF image from flash and returns the entry point.
    - It is linked with a libc of its own ([.../libc/src]: memory, strings,
      numbers, [vsnprintf]), with the ELF headers ([.../include]), and with the
      console driver ([lib/console.c]) over [include/io.h] and
      [include/microwatt_soc.h].  [hello_world/hello_world.c] and
      [rust_lib_demo/hello_world.c] use the same console.
    - The VHDL simulation calls [sim_vhpi_c.c] (vectors and strings),
      [sim_bram_helpers_c.c] (memories), [sim_jtag_socket_c.c] (the debug port on
      a socket), [sim_console_c.c] (the terminal) and, for a board with DRAM,
      [litedram/extras/sim_litedram_c.cpp] (the generated LiteDRAM core).  The
      Verilator simulation is [verilator/microwatt-verilator.cpp] around the SoC,
      with [verilator/uart-verilator.c] at the ends of the serial line.
    - [scripts/mw_debug/mw_debug.c] talks to the debug module, over the socket of
      the simulation or over JTAG; it stops and steps cores, reads registers,
      moves files to and from memory, and saves the trace buffer, which
      [scripts/fmt_log/fmt_log.c] prints.
    - [tests/mmu/mmu.c] builds page tables, maps and unmaps pages and checks the faults
      of the MMU ([mmu.vhdl]); [tests/xics/xics.c] raises interrupts, serves them, and
      checks the interrupt controller ([xics.vhdl]).
    - The console driver meets one of three devices: the UART of the FPGA designs
      ([fpga/pp_soc_uart.vhd] with the buffers of [fpga/pp_fifo.vhd], behind
      [slave_io_latch] of [soc.vhdl]), its stand-in in the VHDL simulation
      ([sim_pp_uart.vhdl]), or a 16550.

    ** How it is modelled

    A C function is a Rocq function in the monad [M S A := S -> outcome S A] of this
    file: it returns a value and the next state, ends the program ([Exit]), gets
    [Stuck] on an access the C standard does not allow (an unmapped byte, an index
    outside an array, a signed overflow), or runs out of the iterations it was
    given ([OutOfFuel]).  A theorem that concludes [Ret] therefore says that the code
    returns and that none of these happens.  Integers are [Z] with the wrap-around
    of their width written out ([wrap], [swrap], [u8] .. [u64], [s32]).  Memory is a
    finite map from addresses to bytes ([CMem]); structures and strings are in
    it, little-endian as on ppc64le, where plain [char] is unsigned.

    - [Prelude]: integers, the monad, tactics and hints, generic lemmas.
    - [CMem]: byte memory, little-endian words, C strings.
    - [LibMem], [Ctype], [LibStr], [Strtol]: [libc/src], one definition per function
      and per loop of it.  [MemEquiv]: the word loops against byte loops.
      [MemTypes]: what every libc call keeps of the memory.
    - [Printf]: [vsnprintf.c]; [PrintfSpec]: formats as lists of items, the text
      they stand for ([render]), and the refinement proof.
    - [Soc], [Io]: the register map and the accesses of [include/]; a [machine] is
      memory, devices ([Bus]) and the trace of the device accesses.
    - [Console]: [lib/console.c] for every device of the class [Uart]; [sim_uart] is
      an instance.  [Hello], [RustDemo]: the two hello-world programs.
    - [Fw]: [_printf] of [main.c] and the class [PrintfOk], which it discharges.
      [Elf]: the ELF headers; [ElfTables]: the other structures of [elf64.h], with the
      layout C gives them (class [CStruct]).  [Boot]: [main.c].  [BootSpec]: what [boot_flash]
      loads, from the bytes of the image alone, for every console of [PrintfOk].
      [BootMain]: the class [SocDev], a SoC with system controller, UART and SPI
      flash, what [check_flash] and [main] do on it, and an instance.  [System]: the
      services of [system.h] for the DRAM initialisation, and [limits.h].
    - [Termios]: raw mode of the terminal.  [UartSim], [Vhpi], [SimBram], [SimJtag],
      [SimConsole]: the simulation back ends; the answers of the operating system
      are arguments.  [UartLine]: the decoder of the serial line on any samples;
      [UartRate]: the decoder on a line with another bit rate.
    - [PpFifo], [PpUart]: the buffer and the UART of the FPGA designs, a function per
      process and a step per clock.  [PpUartTx]: its transmitter refines a clock per
      bit and a queue, and what that puts on the line.  [PpUartRx]: its receiver on the
      sample clock, and what is in the buffer after a line.  [PpSoc]: the bus between core
      and UART, and accesses of a program as clocks of it.  [PpConsole]: the driver's
      accesses and its polling loop on that bus.  [PpGetchar]: [getchar] on it.
      [PpBoot]: reset, [console_init], and
      what has arrived after a string was printed.  [SimPpUart]: the UART of the VHDL
      simulation, an instance of [Uart] over [SimConsole].
    - [Verilator]: the test bench, for every SoC of the class [Toplevel].
      [LiteDram]: the procedures around the LiteDRAM core, which is a parameter.
    - [DmiBits]: the packets of the debug socket as [mw_debug.c] packs them.  [Dmi]:
      the backends, [dmi_read] and [dmi_write], the class [DmiTarget].  [MwDebug]: the
      commands and the command line.  [MwDebugSpec]: what they do, and the class
      [WbTarget] for the Wishbone master behind the debug module.  [MwDebugRegs]: the
      classes [GprTarget] and [LogTarget] for the registers and the trace of a core.
      [MwDebugTotal]: every command line ends.  [DmiInit]: opening the connection,
      the network and the UrJTAG library as parameters; [DmiInitSpec]: what it does.
    - [DmiLink]: accesses over a debug transport module, the class [Dtm]; a backend
      that exchanges 74 bits with one is a [Carrier], and makes whole accesses.
      [SimLink]: the debugger, the socket and the process of [sim_jtag.vhdl] put
      together are a carrier.  [JtagLink]: so is the debugger with a UrJTAG library of
      the class [UrjRegister].  [DmiRefine]: every command of the debugger over a carrier
      makes the same of the debug module as over direct accesses.
    - [FmtLog]: [fmt_log.c].
    - [Mmu]: the radix walk of [mmu.vhdl] as a function of memory, its TLB and the
      invalidations.  [MmuTest]: the page tables of [mmu.c], with [MmuSpec] and
      [MmuMap], what they hold after each operation.  [MmuRun]: the accesses and jumps
      of [tests/mmu/head.S], the tests and [main].  [MmuRefine]: an address space as a
      finite map from pages to their entries, and the refinement of its calls.
    - [Xics]: the interrupt controller of [xics.vhdl] for one core, the handler and the
      tests of [xics.c] as statements, and executions as a step relation in which an
      interrupt can come between any two of them.  [XicsSpec]: the exploration of all
      executions, what is presented, and the handler in any state of the controller.
      [XicsClk]: the two units of [xics.vhdl] clock by clock, with the latches [Xics]
      leaves out, and when the two agree.  [IsrEntry]: [__isr] of [tests/xics/head.S],
      instruction by instruction, around the compiled handler, which is a parameter.
    - [LibcProps], [FirmwareProps], [BootProps], [SimProps], [BenchProps],
      [SerialProps], [DebugProps], [MmuProps], [XicsProps]: the properties, numbered C1
      to C40 and each followed by an application to concrete inputs, and further
      lemmas on the interface of the components.

    ** What the theorems show

    - libc ([LibcProps]): each routine returns and has the effect its contract says
      ([memmove] for every overlap, [strstr] the first occurrence, repeated
      [strtok] the words of the string), and leaves the rest of memory alone; the
      word loops have every outcome of the byte loops ([memcpy] unless the destination
      starts inside the source); a number that is printed is
      read back; no call maps or unmaps an address or leaves anything but a byte.
    - Output ([FirmwareProps]): [vsnprintf] leaves exactly the rendered text in its
      buffer; [_printf] sends that text to the UART and touches no other device;
      the console neither loses nor repeats a character; [console_init] makes
      exactly the accesses listed.
    - Booting ([FirmwareProps], [BootProps]): [boot_flash] copies the segments of the leading
      [PT_LOAD] headers and nothing else, stops at the first header of another type, and
      refuses whatever does not start with the header of a little-endian PPC64 ELF file
      (erased flash too) with memory intact.  [check_flash] makes exactly the accesses
      that put the chip it finds into quad mode and configure the controller for it;
      [main], on a SoC without BRAM, boots the image in the flash, and falls back to the
      payload in the DRAM.
    - The serial line of the FPGA designs ([SerialProps]): the buffer is a bounded
      queue; the transmitter sends what is pushed, and the decoder of the test bench
      prints it although its bits are not quite as long; characters that arrive on the
      line are returned by [getchar]; from reset on, a program that
      sets up the console and prints has its text, and nothing else, decoded, whatever
      the pauses between its accesses.  On the simulated UART the hello-world program
      writes to the standard error output what it should.
    - Simulation ([SimProps], [BenchProps]): the serial line delivers every character
      once and in order; its decoder keeps its invariant on any line and recovers
      from noise, and tolerates a sender that is a little fast; the Verilator bench prints
      what it decodes, which is what the SoC sends when its line [carries] characters
      (back to back with bits of exactly its width, one would be printed twice); requests and
      responses of the LiteDRAM model arrive field by field; vectors and memories
      give back what was stored; the two ends of the debug socket understand each
      other; the terminal is raw while the simulations run and left as it was found.
    - Tools ([DebugProps]): an access to the debug module is whole whatever the
      delay, also through the packets of the simulation and over JTAG; an error ends the tool;
      every command line ends when the back end answers; the connection is opened by the
      calls of one script, or given up with a message; over the socket and over JTAG [load]
      then [save] gives the file back, since a session over a carrier does what it does
      over direct accesses ([refines_session]); the registers and the trace are shown as they are; the log formatter never leaves
      its tables and counts right.
    - MMU ([MmuProps]): after any calls of [map], [unmap] and [unmap_all], and accesses
      in between, the unit translates as the finite map of the address space says, in
      the TLB as in the tables; accesses reach the pages they are mapped to and leave
      the fault registers as they should; [zero_memory] clears exactly its bytes or
      never ends; the whole test program passes.
    - Interrupts ([XicsProps]): in every state the controller can reach the handler
      serves the most favoured interrupt and leaves CPPR as it was, once the latches of
      the controller have settled; four clocks are enough for that, and sooner a less
      favoured one can be presented.  The entry of the interrupt gives the interrupted
      code its registers back, all but XER, and overwrites five words of its stack.  The test program
      passes in every interleaving of the interrupts in which they arrive within its
      delays.
    - Some theorems state what the code does where it is not what it means to:
      [boot_flash_stops_at_other], [strcasecmp_spec], [strlen_spec],
      [strchr_spec], [bram_read_overruns], [uart_stop_bit_twice],
      [jtag_reply_link], [gpr_read_shows], [zero_memory_spec], [isr_entry_preserves],
      [xics_main_passes].

    ** Bounds and fuel

    Loops on strings take fuel, and their theorems ask for more than the length of
    the string.  Loops that poll a device take fuel, and ask for more than the
    delay the class bounds ([tx_bound], [rx_bound], [busy_bound]).  The digits of a
    64-bit number are at most 64, and so is the number of doublings of [log_size].
    Counting loops get their own counter.  The endless echo of the hello world is
    cut after any chosen number of characters.  [debug_main] gets the number of its
    arguments as fuel; the SPI flash polls of [check_flash] ask for more than the
    bound of [SocDev]; the loop of the Verilator bench for more than the cycles the
    SoC runs.  [zero_memory] takes two rounds when it ends at all; the instructions of
    the MMU tests are sixteen at most between two returns ([exec]); an execution of the
    interrupt test takes 120 steps at most.  The driver on the FPGA UART polls at most
    [drain_clocks] times, the clocks a full buffer takes to drain, for every poll takes
    several clocks; an access is acknowledged within the eight clocks of [io_access];
    after [(10 * DEPTH + 13) * bit_clocks] clocks without a push everything pushed has
    been sent and decoded.

    ** What is not modelled

    - The VHDL and Verilog design apart from the UARTs of [PpUart] and [SimPpUart], the
      bus to them, the interrupt controller of [XicsClk] for one core and without its
      reset, and what [Mmu] takes from [mmu.vhdl] and the fault registers of
      [loadstore1.vhdl] and [execute1.vhdl]: of the MMU not the state machines clock by
      clock, the sets and ways of the TLB (entries can go at any time instead), the page
      walk cache, the first-level TLBs and the cached table bases.  The generated
      LiteDRAM, LiteEth and LiteSDCard code.
    - The other test programs under [tests/], which check single instructions of the
      core, and the start-up code of [tests/xics/head.S] and [tests/mmu/head.S].
    - [sdram_init] and [ddrctrl_init_done_read], generated by LiteDRAM: parameters
      of [main].
    - Third-party code the tools call (the socket calls, [liburjtag], the code
      Verilator generates, the Rust library of the demonstration): parameters.
    - Of the host: a failing [poll] or [fstat], a failing allocation, opening and
      closing the trace file of the Verilator bench, and the newline and carriage
      return characters of the messages the host programs print.
    - The core between two accesses on the bus of [PpSoc]: a number of clocks, any for
      each access.  On that bus the receiving line is idle.  The 16550 and its stand-in in the simulation.
    - Constants of the ELF headers that no code uses, and header files that only
      declare functions. *)
From stdpp Require Export strings base tactics numbers list gmap.

#[export] Set Default Goal Selector "!".
Global Open Scope Z_scope.

(** ** Machine integers *)

(** [wrap w z] is the value of [z] converted to an unsigned [w]-bit type. *)
Definition wrap (w z : Z) : Z := z `mod` 2 ^ w.

(** [swrap w z] is the value of [z] converted to a signed [w]-bit type
    (two's complement, as every compiler the project uses defines it). *)
Definition swrap (w z : Z) : Z :=
  (z + 2 ^ (w - 1)) `mod` 2 ^ w - 2 ^ (w - 1).

Abbreviation u8 := (wrap 8).
Abbreviation u16 := (wrap 16).
Abbreviation u32 := (wrap 32).
Abbreviation u64 := (wrap 64).
Abbreviation s8 := (swrap 8).
Abbreviation s16 := (swrap 16).
Abbreviation s32 := (swrap 32).
Abbreviation s64 := (swrap 64).

(** The largest [int]. *)
Definition INT_MAX : Z := 2 ^ 31 - 1.

(** [tst v mask] is the C condition [v & mask]. *)
Definition tst (v mask : Z) : bool := negb (Z.land v mask =? 0).

Lemma wrap_range w z : 0 ≤ w → 0 ≤ wrap w z < 2 ^ w.
Proof. intros. apply Z.mod_pos_bound. lia. Qed.

Lemma wrap_small w z : 0 ≤ z < 2 ^ w → wrap w z = z.
Proof. intros. by apply Z.mod_small. Qed.

Lemma wrap_wrap w z : wrap w (wrap w z) = wrap w z.
Proof. unfold wrap. by rewrite Zmod_mod. Qed.

Lemma swrap_small w z :
  0 < w → - 2 ^ (w - 1) ≤ z < 2 ^ (w - 1) → swrap w z = z.
Proof.
  intros Hw Hz. unfold swrap.
  assert (2 ^ w = 2 * 2 ^ (w - 1)) as E
    by (rewrite <- Z.pow_succ_r by lia; f_equal; lia).
  rewrite Z.mod_small; lia.
Qed.

Lemma testbit_wrap w z i :
  0 ≤ w → Z.testbit (wrap w z) i = (i <? w) && Z.testbit z i.
Proof.
  intros Hw. unfold wrap. destruct (Z.ltb_spec i w); simpl.
  - destruct (decide (0 ≤ i)).
    + by rewrite Z.mod_pow2_bits_low by lia.
    + by rewrite !Z.testbit_neg_r by lia.
  - by rewrite Z.mod_pow2_bits_high by lia.
Qed.

Lemma wrap_wrap_le k w z : 0 ≤ k ≤ w → wrap k (wrap w z) = wrap k z.
Proof.
  intros H. apply Z.bits_inj'. intros i Hi. rewrite !testbit_wrap by lia.
  destruct (Z.ltb_spec i k); [|done]. by rewrite (proj2 (Z.ltb_lt i w)) by lia.
Qed.

Lemma wrap_testbit_high w z i :
  0 ≤ w → 0 ≤ z < 2 ^ w → w ≤ i → Z.testbit z i = false.
Proof.
  intros Hw Hz Hi. rewrite <- (wrap_small w z Hz), testbit_wrap by done.
  by rewrite (proj2 (Z.ltb_ge i w)) by done.
Qed.

(** Bit operations stay in 64 bits. *)
Lemma land_range a m : 0 ≤ a < 2 ^ 64 → 0 ≤ Z.land a m < 2 ^ 64.
Proof.
  intros Ha. assert (Z.land a m = u64 (Z.land a m)) as ->; [|by apply (wrap_range 64)].
  apply Z.bits_inj'. intros i Hi. rewrite testbit_wrap, Z.land_spec by lia.
  destruct (Z.ltb_spec i 64); [done|]. by rewrite (wrap_testbit_high 64 a) by lia.
Qed.

Lemma lor_range a c : 0 ≤ a < 2 ^ 64 → 0 ≤ c < 2 ^ 64 → 0 ≤ Z.lor a c < 2 ^ 64.
Proof.
  intros Ha Hc. assert (Z.lor a c = u64 (Z.lor a c)) as ->; [|by apply (wrap_range 64)].
  apply Z.bits_inj'. intros i Hi. rewrite testbit_wrap, Z.lor_spec by lia.
  destruct (Z.ltb_spec i 64); [done|]. by rewrite (wrap_testbit_high 64 a), (wrap_testbit_high 64 c) by lia.
Qed.

Lemma ldiff_range x y : 0 ≤ x < 2 ^ 64 → 0 ≤ Z.ldiff x y < 2 ^ 64.
Proof.
  intros Hx. assert (Z.ldiff x y = u64 (Z.ldiff x y)) as ->; [|by apply (wrap_range 64)].
  apply Z.bits_inj'. intros i Hi. rewrite testbit_wrap, Z.ldiff_spec by lia.
  destruct (Z.ltb_spec i 64); [done|]. by rewrite (wrap_testbit_high 64 x) by lia.
Qed.

(** Testing a single-bit mask is testing that bit. *)
Lemma tst_pow2 v k : 0 ≤ k → tst v (2 ^ k) = Z.testbit v k.
Proof.
  intros Hk. unfold tst.
  assert (Z.land v (2 ^ k) = if Z.testbit v k then 2 ^ k else 0) as ->.
  { apply Z.bits_inj'. intros i Hi.
    rewrite Z.land_spec, Z.pow2_bits_eqb by done.
    destruct (Z.eqb_spec k i) as [->|Hne].
    - destruct (Z.testbit v i).
      + by rewrite Z.pow2_bits_true.
      + by rewrite Z.bits_0.
    - rewrite andb_false_r. destruct (Z.testbit v k).
      + by rewrite Z.pow2_bits_false.
      + by rewrite Z.bits_0. }
  destruct (Z.testbit v k); [|done].
  destruct (Z.eqb_spec (2 ^ k) 0); [|done].
  assert (0 < 2 ^ k) by (apply Z.pow_pos_nonneg; lia). lia.
Qed.

(** Two values of the same width with the same low bits are equal. *)
Lemma bits_eq_wrap w a b :
  0 ≤ w → 0 ≤ a < 2 ^ w → 0 ≤ b < 2 ^ w →
  (∀ i, 0 ≤ i < w → Z.testbit a i = Z.testbit b i) → a = b.
Proof.
  intros Hw Ha Hb H. apply Z.bits_inj'. intros i Hi.
  destruct (decide (i < w)); [by apply H|].
  by rewrite !(wrap_testbit_high w) by lia.
Qed.

(** An OR of disjoint bit fields is their sum. *)
Lemma lor_shiftl_add k a b :
  0 ≤ k → 0 ≤ a < 2 ^ k → Z.lor a (Z.shiftl b k) = a + b * 2 ^ k.
Proof.
  intros Hk Ha.
  assert (Z.land a (Z.shiftl b k) = 0) as Hd.
  { apply Z.bits_inj'. intros i Hi.
    rewrite Z.land_spec, Z.shiftl_spec, Z.bits_0 by done.
    destruct (decide (i < k)).
    - rewrite (Z.testbit_neg_r _ (i - k)) by lia. apply andb_false_r.
    - by rewrite (wrap_testbit_high k a) by lia. }
  rewrite <- Z.lxor_lor, <- Z.add_nocarry_lxor by done.
  by rewrite Z.shiftl_mul_pow2.
Qed.

(** ** Bytes *)

Definition is_byte (b : Z) : Prop := 0 ≤ b < 256.

Lemma u8_byte z : is_byte (u8 z).
Proof. unfold is_byte. apply (wrap_range 8). lia. Qed.

Lemma u8_id b : is_byte b → u8 b = b.
Proof. intros. by apply wrap_small. Qed.

(** The bytes of a string literal of the source, without its terminator. *)
Definition lit (s : String.string) : list Z :=
  (λ a, Z.of_N (Ascii.N_of_ascii a)) <$> String.list_ascii_of_string s.

(** ** Programs

    A piece of C code that reads and changes a state of type [S] is a
    function from the state to an [outcome].  [Ret] is a normal return,
    [Exit] a call of [exit], [Stuck] an access the program has no right to
    make (an unmapped address, an index outside an array, arithmetic the C
    standard leaves undefined), and [OutOfFuel] a loop that has not ended
    within the iterations it was given. *)

Inductive outcome (S A : Type) : Type :=
  | Ret (a : A) (s : S)
  | Stuck
  | Exit (code : Z) (s : S)
  | OutOfFuel.
Arguments Ret {S A} a s.
Arguments Stuck {S A}.
Arguments Exit {S A} code s.
Arguments OutOfFuel {S A}.

Definition M (S A : Type) : Type := S → outcome S A.

Definition returns {S A} (m : M S A) (s : S) (a : A) (s' : S) : Prop :=
  m s = Ret a s'.

#[global] Instance M_ret S : MRet (M S) := λ A a s, Ret a s.
#[global] Instance M_bind S : MBind (M S) := λ A B f m s,
  match m s with
  | Ret a s' => f a s'
  | Stuck => Stuck
  | Exit c s' => Exit c s'
  | OutOfFuel => OutOfFuel
  end.

Definition stuck {S A} : M S A := λ _, Stuck.
Definition exit_ {S A} (code : Z) : M S A := λ s, Exit code s.
Definition out_of_fuel {S A} : M S A := λ _, OutOfFuel.
Definition get {S} : M S S := λ s, Ret s s.
Definition put {S} (s : S) : M S unit := λ _, Ret tt s.
Definition modify {S} (f : S → S) : M S unit := λ s, Ret tt (f s).

(** [m] on the part of the state that [sel] and [upd] describe. *)
Definition zoom {S T A} (sel : S → T) (upd : T → S → S) (m : M T A) : M S A :=
  λ s, match m (sel s) with
       | Ret a t => Ret a (upd t s)
       | Stuck => Stuck
       | Exit c t => Exit c (upd t s)
       | OutOfFuel => OutOfFuel
       end.

(** [of_option o] is stuck when the source reads what is not there. *)
Definition of_option {S A} (o : option A) : M S A :=
  λ s, match o with Some a => Ret a s | None => Stuck end.

Lemma bind_Ret {S A B} (m : M S A) (f : A → M S B) s a s' :
  m s = Ret a s' → (m ≫= f) s = f a s'.
Proof. unfold mbind, M_bind. by intros ->. Qed.

Lemma bind_Ret_inv {S A B} (m : M S A) (f : A → M S B) s b s2 :
  (m ≫= f) s = Ret b s2 → ∃ a s1, m s = Ret a s1 ∧ f a s1 = Ret b s2.
Proof. unfold mbind, M_bind. destruct (m s) eqn:E; naive_solver. Qed.

Lemma bind_Stuck {S A B} (m : M S A) (f : A → M S B) s :
  m s = Stuck → (m ≫= f) s = Stuck.
Proof. unfold mbind, M_bind. by intros ->. Qed.

Lemma bind_Exit {S A B} (m : M S A) (f : A → M S B) s c s' :
  m s = Exit c s' → (m ≫= f) s = Exit c s'.
Proof. unfold mbind, M_bind. by intros ->. Qed.

Lemma bind_mret {S A B} (a : A) (f : A → M S B) s :
  (mret a ≫= f) s = f a s.
Proof. done. Qed.

Lemma bind_assoc {S A B C} (m : M S A) (f : A → M S B) (g : B → M S C) s :
  ((m ≫= f) ≫= g) s = (m ≫= λ a, f a ≫= g) s.
Proof. unfold mbind, M_bind. by destruct (m s). Qed.

Lemma zoom_Ret {S T A} (sel : S → T) upd (m : M T A) s a t :
  m (sel s) = Ret a t → zoom sel upd m s = Ret a (upd t s).
Proof. unfold zoom. by intros ->. Qed.

(** [step_with H] runs the first command of a program, whose outcome is [H]. *)
Ltac step_with H :=
  first [ rewrite (bind_Ret _ _ _ _ _ H)
        | rewrite H ]; cbn beta iota.

(** Case analysis on the boolean tests a C condition is translated to. *)
Ltac cond_step :=
  match goal with
  | |- context [Z.eqb ?a ?b] => destruct (Z.eqb_spec a b)
  | |- context [Z.ltb ?a ?b] => destruct (Z.ltb_spec a b)
  | |- context [Z.leb ?a ?b] => destruct (Z.leb_spec a b)
  | H : context [Z.eqb ?a ?b] |- _ => destruct (Z.eqb_spec a b)
  | H : context [Z.ltb ?a ?b] |- _ => destruct (Z.ltb_spec a b)
  | H : context [Z.leb ?a ?b] |- _ => destruct (Z.leb_spec a b)
  end.
Ltac conds := repeat (cond_step; simpl in *; try lia).

(** Equalities of integer arguments up to linear arithmetic. *)
Ltac zeq := repeat (f_equal; try lia).

(** The database of the byte, string and memory facts of the library. *)
Create HintDb cmem.
#[export] Hint Resolve u8_byte : cmem.
