(* ===== verification/CMem.v ===== *)
(** * Byte-addressed memory

    The memory the C code of the firmware runs on: a finite map from the
    addresses that are mapped to the byte they hold.  A load or a store of an
    address that is not mapped is [Stuck], so that a theorem that says what a
    function returns also says that it touches nothing it does not own. *)
From S2P Require Import Prelude.

Abbreviation mem := (gmap Z Z).

(** The null pointer, and a pointer that may be null. *)
Definition NULL : Z := 0.
Definition ptr_of (o : option Z) : Z := default NULL o.

(** ** Loads and stores *)

Definition load8 (a : Z) : M mem Z := λ m,
  match m !! a with Some b => Ret b m | None => Stuck end.

Definition store8 (a v : Z) : M mem unit := λ m,
  match m !! a with Some _ => Ret tt (<[a := u8 v]> m) | None => Stuck end.

(** An [n]-byte little-endian access, all bytes of which must be mapped. *)
Fixpoint read_bytes (m : mem) (a : Z) (n : nat) : option (list Z) :=
  match n with
  | O => Some []
  | S n => b ← m !! a; bs ← read_bytes m (a + 1) n; Some (b :: bs)
  end.

Fixpoint write_bytes (a : Z) (bs : list Z) (m : mem) : mem :=
  match bs with
  | [] => m
  | b :: bs => write_bytes (a + 1) bs (<[a := b]> m)
  end.

Fixpoint le_combine (bs : list Z) : Z :=
  match bs with
  | [] => 0
  | b :: bs => Z.lor b (Z.shiftl (le_combine bs) 8)
  end.

Fixpoint le_split (n : nat) (v : Z) : list Z :=
  match n with
  | O => []
  | S n => u8 v :: le_split n (Z.shiftr v 8)
  end.

Definition load (n : nat) (a : Z) : M mem Z := λ m,
  match read_bytes m a n with
  | Some bs => Ret (le_combine bs) m
  | None => Stuck
  end.

Definition store (n : nat) (a v : Z) : M mem unit := λ m,
  match read_bytes m a n with
  | Some _ => Ret tt (write_bytes a (le_split n v) m)
  | None => Stuck
  end.

(** ** What memory holds *)

(** The bytes [bs] lie at address [a]. *)
Fixpoint bytes_at (m : mem) (a : Z) (bs : list Z) : Prop :=
  match bs with
  | [] => True
  | b :: bs => m !! a = Some b ∧ bytes_at m (a + 1) bs
  end.

(** The [n] addresses from [a] on are mapped. *)
Fixpoint mapped (m : mem) (a : Z) (n : nat) : Prop :=
  match n with
  | O => True
  | S n => (∃ b, m !! a = Some b) ∧ mapped m (a + 1) n
  end.

(** The NUL-terminated string [s] lies at address [a]. *)
Definition cstr (m : mem) (a : Z) (s : list Z) : Prop :=
  bytes_at m a (s ++ [0]) ∧ Forall (λ b, 0 < b < 256) s.

Definition bytes (bs : list Z) : Prop := Forall is_byte bs.

(** ** Little-endian encoding *)

Lemma length_le_split n v : length (le_split n v) = n.
Proof. revert v. induction n; intros; simpl; [done|]. by rewrite IHn. Qed.

Lemma le_split_bytes n v : bytes (le_split n v).
Proof.
  revert v. induction n; intros; simpl; constructor; auto using u8_byte.
  apply IHn.
Qed.

Lemma lookup_le_split n v i :
  (i < n)%nat → le_split n v !! i = Some (u8 (Z.shiftr v (8 * Z.of_nat i))).
Proof.
  revert v i. induction n as [|n IH]; intros v i Hi; [lia|].
  destruct i as [|i]; simpl.
  - by rewrite Z.shiftr_0_r.
  - rewrite IH by lia. rewrite Z.shiftr_shiftr by lia. do 3 f_equal. lia.
Qed.

Lemma testbit_le_combine bs i :
  bytes bs → 0 ≤ i →
  Z.testbit (le_combine bs) i =
    match bs !! Z.to_nat (i `div` 8) with
    | Some b => Z.testbit b (i `mod` 8)
    | None => false
    end.
Proof.
  intros Hbs. revert i. induction Hbs as [|b bs Hb Hbs IH]; intros i Hi; simpl.
  - by rewrite Z.bits_0.
  - rewrite Z.lor_spec, Z.shiftl_spec by done.
    destruct (decide (i < 8)) as [Hlt|Hge].
    + rewrite Z.div_small, Z.mod_small by lia.
      rewrite (Z.testbit_neg_r _ (i - 8)) by lia. by rewrite orb_false_r.
    + rewrite (wrap_testbit_high 8 b) by (unfold is_byte in Hb; simpl; lia).
      rewrite IH by lia. simpl.
      replace (i `div` 8) with (Z.succ ((i - 8) `div` 8))
        by (rewrite <- Z.add_1_l, <- Z.div_add_l by lia; f_equal; lia).
      replace ((i - 8) `mod` 8) with (i `mod` 8)
        by (rewrite <- (Z.mod_add (i - 8) 1 8) by lia; f_equal; lia).
      rewrite Z2Nat.inj_succ; [done|]. apply Z.div_pos; lia.
Qed.

Lemma le_combine_cons b bs :
  is_byte b → le_combine (b :: bs) = b + 256 * le_combine bs.
Proof.
  intros Hb. simpl. rewrite lor_shiftl_add by (unfold is_byte in Hb; simpl; lia).
  simpl. lia.
Qed.

Lemma le_combine_range bs :
  bytes bs → 0 ≤ le_combine bs < 2 ^ (8 * Z.of_nat (length bs)).
Proof.
  induction 1 as [|b bs Hb Hbs IH]; [simpl; lia|].
  rewrite le_combine_cons by done. cbn [length]. unfold is_byte in Hb.
  replace (8 * Z.of_nat (S (length bs))) with (8 + 8 * Z.of_nat (length bs)) by lia.
  rewrite Z.pow_add_r by lia. change (2 ^ 8) with 256. nia.
Qed.

(** Splitting what was combined, and combining what was split. *)
Lemma le_split_combine bs : bytes bs → le_split (length bs) (le_combine bs) = bs.
Proof.
  induction 1 as [|b bs Hb Hbs IH]; [done|].
  cbn [length le_split]. rewrite le_combine_cons by done. unfold is_byte in Hb.
  rewrite Z.shiftr_div_pow2 by lia. change (2 ^ 8) with 256.
  rewrite (Z.mul_comm 256), Z.div_add, Z.div_small, Z.add_0_l by lia.
  f_equal; [|done]. unfold wrap. change (2 ^ 8) with 256.
  rewrite Z.mod_add by lia. by rewrite Z.mod_small by lia.
Qed.

Lemma le_split_combine_n n bs :
  bytes bs → length bs = n → le_split n (le_combine bs) = bs.
Proof. intros ? <-. by apply le_split_combine. Qed.

Lemma le_combine_split n v : le_combine (le_split n v) = wrap (8 * Z.of_nat n) v.
Proof.
  revert v. induction n as [|n IH]; intros v.
  - unfold wrap. simpl. by rewrite Z.mod_1_r.
  - cbn [le_split]. rewrite le_combine_cons, IH by apply u8_byte.
    unfold wrap. rewrite Z.shiftr_div_pow2 by lia.
    replace (8 * Z.of_nat (S n)) with (8 + 8 * Z.of_nat n) by lia.
    rewrite Z.pow_add_r by lia. rewrite Z.rem_mul_r by (try apply Z.pow_nonzero; lia).
    simpl. lia.
Qed.

(** ** Reading *)

Lemma bytes_at_read m a bs :
  bytes_at m a bs ↔ read_bytes m a (length bs) = Some bs.
Proof.
  revert a. induction bs as [|b bs IH]; intros a; simpl; [done|].
  rewrite IH. destruct (m !! a) as [c|]; simpl; [|naive_solver].
  destruct (read_bytes m (a + 1) (length bs)); naive_solver.
Qed.

Lemma read_bytes_length m a n bs : read_bytes m a n = Some bs → length bs = n.
Proof.
  revert a bs. induction n as [|n IH]; intros a bs; simpl; [naive_solver|].
  destruct (m !! a); simpl; [|done].
  destruct (read_bytes m (a + 1) n) eqn:E; simpl; [|done].
  intros [= <-]. simpl. f_equal. eauto.
Qed.

Lemma bytes_at_lookup m a bs i b :
  bytes_at m a bs → bs !! i = Some b → m !! (a + Z.of_nat i) = Some b.
Proof.
  revert a i. induction bs as [|c bs IH]; intros a [|i] Hbs Hi; simplify_eq/=.
  - by rewrite Z.add_0_r; destruct Hbs.
  - destruct Hbs as [_ Hbs]. rewrite <- (IH (a + 1) i Hbs Hi). f_equal. lia.
Qed.

Lemma bytes_at_intro m a bs :
  (∀ i b, bs !! i = Some b → m !! (a + Z.of_nat i) = Some b) → bytes_at m a bs.
Proof.
  revert a. induction bs as [|c bs IH]; intros a H; simpl; [done|]. split.
  - rewrite <- (H 0%nat c) by done. f_equal. lia.
  - apply IH. intros i b Hi. rewrite <- (H (S i) b) by done. f_equal. lia.
Qed.

Lemma bytes_at_app m a bs1 bs2 :
  bytes_at m a (bs1 ++ bs2) ↔
  bytes_at m a bs1 ∧ bytes_at m (a + Z.of_nat (length bs1)) bs2.
Proof.
  revert a. induction bs1 as [|b bs1 IH]; intros a; cbn [app bytes_at length].
  - rewrite Z.add_0_r. tauto.
  - rewrite IH. replace (a + 1 + Z.of_nat (length bs1))
      with (a + Z.of_nat (S (length bs1))) by lia. tauto.
Qed.

Lemma bytes_at_mapped m a bs : bytes_at m a bs → mapped m a (length bs).
Proof.
  revert a. induction bs as [|b bs IH]; intros a; simpl; [done|]. intros [? ?]. eauto.
Qed.

Lemma mapped_bytes m a n :
  mapped m a n → ∃ bs, length bs = n ∧ bytes_at m a bs.
Proof.
  revert a. induction n as [|n IH]; intros a; simpl.
  - intros _. by exists [].
  - intros [[b Hb] H]. destruct (IH _ H) as (bs & <- & Hbs). by exists (b :: bs).
Qed.

Lemma mapped_lookup m a n i :
  mapped m a n → 0 ≤ i < Z.of_nat n → ∃ b, m !! (a + i) = Some b.
Proof.
  intros H Hi. destruct (mapped_bytes _ _ _ H) as (bs & Hl & Hbs).
  destruct (lookup_lt_is_Some_2 bs (Z.to_nat i)) as [b Hb]; [lia|].
  exists b. rewrite <- (bytes_at_lookup _ _ _ _ _ Hbs Hb). f_equal. lia.
Qed.

Lemma mapped_intro m a n :
  (∀ i, 0 ≤ i < Z.of_nat n → ∃ b, m !! (a + i) = Some b) → mapped m a n.
Proof.
  revert a. induction n as [|n IH]; intros a H; simpl; [done|]. split.
  - rewrite <- (Z.add_0_r a). apply H. lia.
  - apply IH. intros i Hi. rewrite <- Z.add_assoc. apply H. lia.
Qed.

Lemma mapped_app m a n1 n2 :
  mapped m a (n1 + n2) ↔ mapped m a n1 ∧ mapped m (a + Z.of_nat n1) n2.
Proof.
  revert a. induction n1 as [|n IH]; intros a; cbn [Nat.add mapped].
  - rewrite Z.add_0_r. tauto.
  - rewrite IH. replace (a + 1 + Z.of_nat n) with (a + Z.of_nat (S n)) by lia. tauto.
Qed.

(** ** Writing *)

Lemma mapped_le m p n k : mapped m p n → (k ≤ n)%nat → mapped m p k.
Proof.
  intros Hm Hk. replace n with (k + (n - k))%nat in Hm by lia. by apply mapped_app in Hm as [? _].
Qed.

Lemma lookup_write_bytes a bs m k :
  write_bytes a bs m !! k =
    if decide (a ≤ k < a + Z.of_nat (length bs)) then bs !! Z.to_nat (k - a)
    else m !! k.
Proof.
  revert a m. induction bs as [|b bs IH]; intros a m; cbn [write_bytes length].
  - by rewrite decide_False by lia.
  - rewrite IH. destruct (decide (k = a)) as [->|Hne].
    + rewrite decide_False, decide_True by lia.
      rewrite lookup_insert_eq. by rewrite Z.sub_diag.
    + rewrite lookup_insert_ne by done.
      destruct (decide (a + 1 ≤ k < a + 1 + Z.of_nat (length bs))).
      * rewrite decide_True by lia.
        replace (Z.to_nat (k - a)) with (S (Z.to_nat (k - (a + 1)))) by lia. done.
      * by rewrite decide_False by lia.
Qed.

Lemma lookup_write_bytes_out a bs m k :
  k < a ∨ a + Z.of_nat (length bs) ≤ k → write_bytes a bs m !! k = m !! k.
Proof. intros. rewrite lookup_write_bytes. by rewrite decide_False by lia. Qed.

Lemma lookup_write_bytes_in a bs m i :
  (i < length bs)%nat → write_bytes a bs m !! (a + Z.of_nat i) = bs !! i.
Proof.
  intros. rewrite lookup_write_bytes, decide_True by lia. f_equal. lia.
Qed.

Lemma bytes_at_write a bs m : bytes_at (write_bytes a bs m) a bs.
Proof.
  apply bytes_at_intro. intros i b Hi.
  rewrite lookup_write_bytes_in; [done|]. by eapply lookup_lt_Some.
Qed.

Lemma bytes_at_write_disj a bs m a' bs' :
  a' + Z.of_nat (length bs') ≤ a ∨ a + Z.of_nat (length bs) ≤ a' →
  bytes_at (write_bytes a bs m) a' bs' ↔ bytes_at m a' bs'.
Proof.
  intros Hd. revert a' Hd. induction bs' as [|b bs' IH]; intros a' Hd; [done|].
  cbn [bytes_at length] in *.
  rewrite lookup_write_bytes_out, IH by lia. done.
Qed.

Lemma mapped_write m a bs a' n :
  mapped m a' n → mapped (write_bytes a bs m) a' n.
Proof.
  intros H. apply mapped_intro. intros i Hi. rewrite lookup_write_bytes.
  case_decide; [|by eapply mapped_lookup].
  destruct (lookup_lt_is_Some_2 bs (Z.to_nat (a' + i - a))) as [b Hb]; [lia|]. eauto.
Qed.

Lemma write_bytes_app a bs1 bs2 m :
  write_bytes a (bs1 ++ bs2) m =
  write_bytes (a + Z.of_nat (length bs1)) bs2 (write_bytes a bs1 m).
Proof.
  revert a m. induction bs1 as [|b bs1 IH]; intros a m; cbn [app write_bytes length].
  - by rewrite Z.add_0_r.
  - rewrite IH. f_equal. lia.
Qed.

(** Equality of memories that differ by writes, pointwise. *)
Lemma write_bytes_ext a bs m m' :
  (∀ k, m' !! k = if decide (a ≤ k < a + Z.of_nat (length bs))
                  then bs !! Z.to_nat (k - a) else m !! k) →
  m' = write_bytes a bs m.
Proof. intros H. apply map_eq. intros k. by rewrite H, lookup_write_bytes. Qed.

Lemma write_bytes_overwrite a bs bs' m :
  length bs' = length bs →
  write_bytes a bs (write_bytes a bs' m) = write_bytes a bs m.
Proof.
  intros Hl. apply write_bytes_ext. intros k.
  rewrite !lookup_write_bytes, Hl. by case_decide.
Qed.

Lemma write_bytes_comm a bs a' bs' m :
  a' + Z.of_nat (length bs') ≤ a ∨ a + Z.of_nat (length bs) ≤ a' →
  write_bytes a bs (write_bytes a' bs' m) = write_bytes a' bs' (write_bytes a bs m).
Proof.
  intros Hd. apply map_eq. intros k. rewrite !lookup_write_bytes.
  repeat case_decide; lia || done.
Qed.

(** ** Running loads and stores *)

Lemma load8_Ret m a b : m !! a = Some b → load8 a m = Ret b m.
Proof. unfold load8. by intros ->. Qed.

Lemma load8_Stuck m a : m !! a = None → load8 a m = Stuck.
Proof. unfold load8. by intros ->. Qed.

Lemma store8_Ret m a v b : m !! a = Some b → store8 a v m = Ret tt (<[a := u8 v]> m).
Proof. unfold store8. by intros ->. Qed.

Lemma load_Ret m a bs n :
  bytes_at m a bs → length bs = n → load n a m = Ret (le_combine bs) m.
Proof.
  intros H <-. unfold load. by rewrite (proj1 (bytes_at_read m a bs) H).
Qed.

Lemma store_Ret m a n v :
  mapped m a n → store n a v m = Ret tt (write_bytes a (le_split n v) m).
Proof.
  intros H. destruct (mapped_bytes _ _ _ H) as (bs & <- & Hbs).
  unfold store. by rewrite (proj1 (bytes_at_read m a bs) Hbs).
Qed.

(** ** Strings *)

Lemma cstr_nil m a : cstr m a [] ↔ m !! a = Some 0.
Proof. unfold cstr. simpl. naive_solver. Qed.

Lemma cstr_cons m a b s :
  cstr m a (b :: s) ↔ m !! a = Some b ∧ 0 < b < 256 ∧ cstr m (a + 1) s.
Proof. unfold cstr. simpl. rewrite Forall_cons. tauto. Qed.

(** Reading the first character tells the empty string from a longer one. *)
Ltac load_head H :=
  lazymatch type of H with
  | cstr ?m ?a ?s =>
      destruct s;
      [apply cstr_nil in H; step_with (load8_Ret m a 0 H); rewrite ?Z.eqb_refl
      |let Ha := fresh "Ha" in let Hr := fresh "Hr" in
       apply cstr_cons in H as (Ha & Hr & H); step_with (load8_Ret m a _ Ha);
       lazymatch type of Ha with _ = Some ?c =>
         rewrite ?(proj2 (Z.eqb_neq c 0)) by lia end]; cbn [negb andb]
  end.

Lemma cstr_app m a s1 s2 :
  cstr m a (s1 ++ s2) →
  bytes_at m a s1 ∧ cstr m (a + Z.of_nat (length s1)) s2.
Proof.
  unfold cstr. rewrite <- app_assoc, bytes_at_app, Forall_app. tauto.
Qed.

Lemma cstr_lookup m a s i b :
  cstr m a s → s !! i = Some b → m !! (a + Z.of_nat i) = Some b ∧ 0 < b < 256.
Proof.
  intros [H1 H2] Hi. split.
  - eapply bytes_at_lookup; [done|]. by apply lookup_app_l_Some.
  - by eapply Forall_lookup_1 in H2.
Qed.

Lemma cstr_end m a s : cstr m a s → m !! (a + Z.of_nat (length s)) = Some 0.
Proof.
  intros [H _]. eapply bytes_at_lookup; [done|].
  by rewrite lookup_app_r, Nat.sub_diag by lia.
Qed.

Lemma cstr_drop m a s n :
  (n ≤ length s)%nat → cstr m a s → cstr m (a + Z.of_nat n) (drop n s).
Proof.
  intros Hn H. rewrite <- (take_drop n s) in H.
  apply cstr_app in H as [_ H]. by rewrite length_take_le in H by done.
Qed.

Lemma cstr_unique m a s1 s2 : cstr m a s1 → cstr m a s2 → s1 = s2.
Proof.
  revert a s2. induction s1 as [|b s1 IH]; intros a [|c s2];
    rewrite ?cstr_nil, ?cstr_cons; intros; destruct_and?; simplify_eq; try lia; [done|].
  f_equal. eauto.
Qed.

Lemma cstr_write_disj m a s a' bs :
  a + Z.of_nat (length s) < a' ∨ a' + Z.of_nat (length bs) ≤ a →
  cstr (write_bytes a' bs m) a s ↔ cstr m a s.
Proof.
  intros. unfold cstr. rewrite bytes_at_write_disj; [done|].
  rewrite length_app. simpl. lia.
Qed.

(** A string depends only on the bytes it occupies. *)
Lemma cstr_agree m m' a s :
  (∀ k, a ≤ k ≤ a + Z.of_nat (length s) → m' !! k = m !! k) →
  cstr m a s → cstr m' a s.
Proof.
  revert a. induction s as [|b s IH]; intros a H; cbn [length] in H.
  - rewrite !cstr_nil. by rewrite H by lia.
  - rewrite !cstr_cons, H by lia. intros (? & ? & ?). do 2 (split; [done|]).
    apply IH; [|done]. intros k Hk. apply H. lia.
Qed.

Lemma cstr_intro m a s :
  bytes_at m a s → Forall (λ b, 0 < b < 256) s →
  m !! (a + Z.of_nat (length s)) = Some 0 → cstr m a s.
Proof. intros H1 H2 H3. split; [|done]. apply bytes_at_app. split; [done|]. by split. Qed.

Lemma cstr_write m a s :
  Forall (λ b, 0 < b < 256) s → cstr (write_bytes a (s ++ [0]) m) a s.
Proof. intros. split; [apply bytes_at_write|done]. Qed.

(** A string behind characters without a NUL. *)
Lemma cstr_join m a s1 s2 :
  bytes_at m a s1 → Forall (λ b, 0 < b < 256) s1 →
  cstr m (a + Z.of_nat (length s1)) s2 → cstr m a (s1 ++ s2).
Proof.
  intros H1 H2 [H3 H4]. split; [|by apply Forall_app].
  rewrite <- app_assoc. by apply bytes_at_app.
Qed.

Lemma cstr_bytes m a s : cstr m a s → bytes s.
Proof.
  intros [_ H]. eapply Forall_impl; [done|]. unfold is_byte. simpl. lia.
Qed.

#[export] Hint Resolve bytes_at_write bytes_at_mapped mapped_write le_split_bytes
  cstr_bytes : cmem.

(** ** Deciding what memory holds *)

#[export] Instance is_byte_dec b : Decision (is_byte b).
Proof. unfold is_byte. apply _. Defined.

#[export] Instance bytes_dec bs : Decision (bytes bs).
Proof. unfold bytes. apply _. Defined.

#[export] Instance bytes_at_dec m a bs : Decision (bytes_at m a bs).
Proof.
  revert a. induction bs as [|b bs IH]; intros a; cbn [bytes_at]; [left; exact I|].
  destruct (decide (m !! a = Some b)); [destruct (IH (a + 1))|]; [left|right|right]; tauto.
Defined.

#[export] Instance mapped_dec m a n : Decision (mapped m a n).
Proof.
  revert a. induction n as [|n IH]; intros a; cbn [mapped]; [left; exact I|].
  destruct (m !! a) as [b|] eqn:E.
  - destruct (IH (a + 1)); [left; eauto|right; tauto].
  - right. intros [[b Hb] _]. congruence.
Defined.

#[export] Instance cstr_dec m a s : Decision (cstr m a s).
Proof. unfold cstr. apply _. Defined.

(** Closes a closed decidable goal by evaluation. *)
Ltac decided := apply (bool_decide_unpack _); vm_compute; exact I.
