(* ===== verification/LibMem.v ===== *)
(** * The memory routines of the firmware libc

    [litedram/gen-src/sdram_init/libc/src/mem*.c]: [memcpy], [memmove],
    [memset], [memcmp] and [memchr] on the byte memory of [CMem].  A pointer is
    its address; a [size_t] is an integer in [0, 2^64).  A loop that counts its
    length down is given that length as fuel: the theorems show it is enough,
    and that none of the accesses leaves the buffers. *)
From S2P Require Import Prelude CMem.

(** ** memcpy.c *)

(** [while (n >= 8)]: eight bytes per iteration. *)
Fixpoint memcpy_words (fuel : nat) (dest src n : Z) : M mem (Z * Z * Z) :=
  if 8 <=? n then
    match fuel with
    | O => out_of_fuel
    | S fuel =>
        v ← load 8 src;
        store 8 dest v;;
        memcpy_words fuel (dest + 8) (src + 8) (n - 8)
    end
  else mret (dest, src, n).

(** [while (n > 0)]: the bytes that are left. *)
Fixpoint memcpy_bytes (fuel : nat) (dest src n : Z) : M mem unit :=
  if 0 <? n then
    match fuel with
    | O => out_of_fuel
    | S fuel =>
        v ← load8 src;
        store8 dest v;;
        memcpy_bytes fuel (dest + 1) (src + 1) (n - 1)
    end
  else mret tt.

Definition memcpy (dest src n : Z) : M mem Z :=
  let ret := dest in
  '(dest, src, n) ← memcpy_words (Z.to_nat n) dest src n;
  memcpy_bytes (Z.to_nat n) dest src n;;
  mret ret.

(** ** memmove.c *)

(** [for (i = 0; i < n; i++) *cdest-- = *csrc--]; [i] is an [int], so that
    the loop overflows it when [n] is larger than [INT_MAX]. *)
Fixpoint memmove_back (fuel : nat) (cdest csrc i n : Z) : M mem unit :=
  if u64 i <? n then
    match fuel with
    | O => out_of_fuel
    | S fuel =>
        v ← load8 csrc;
        store8 cdest v;;
        if i =? INT_MAX then stuck
        else memmove_back fuel (cdest - 1) (csrc - 1) (i + 1) n
    end
  else mret tt.

Definition memmove (dest src n : Z) : M mem Z :=
  if (src <? dest) && (dest <=? src + n) then
    memmove_back (Z.to_nat n) (dest + n - 1) (src + n - 1) 0 n;;
    mret dest
  else memcpy dest src n.

(** ** memset.c *)

Definition memset_big_c (c : Z) : Z :=
  if c =? 0 then 0
  else
    let big_c := u64 c in
    let big_c := Z.lor big_c (Z.lor (u64 (Z.shiftl big_c 8)) big_c) in
    let big_c := Z.lor big_c (Z.lor (u64 (Z.shiftl big_c 16)) big_c) in
    Z.lor big_c (Z.lor (u64 (Z.shiftl big_c 32)) big_c).

Fixpoint memset_words (fuel : nat) (d big_c c size : Z) : M mem (Z * Z) :=
  if (8 <=? size) && (c =? 0) then
    match fuel with
    | O => out_of_fuel
    | S fuel =>
        store 8 d big_c;;
        memset_words fuel (d + 8) big_c c (size - 8)
    end
  else mret (d, size).

(** [while (size-- > 0)] *)
Fixpoint memset_bytes (fuel : nat) (d c size : Z) : M mem unit :=
  if 0 <? size then
    match fuel with
    | O => out_of_fuel
    | S fuel => store8 d (u8 c);; memset_bytes fuel (d + 1) c (size - 1)
    end
  else mret tt.

Definition memset (dest c size : Z) : M mem Z :=
  '(d, size) ← memset_words (Z.to_nat size) dest (memset_big_c c) c size;
  memset_bytes (Z.to_nat size) d c size;;
  mret dest.

(** ** memcmp.c *)

Fixpoint memcmp_loop (fuel : nat) (p1 p2 n : Z) : M mem Z :=
  if 0 <? n then
    match fuel with
    | O => out_of_fuel
    | S fuel =>
        b1 ← load8 p1;
        b2 ← load8 p2;
        if negb (b1 =? b2) then mret (b1 - b2)
        else memcmp_loop fuel (p1 + 1) (p2 + 1) (n - 1)
    end
  else mret 0.

Definition memcmp (ptr1 ptr2 n : Z) : M mem Z :=
  memcmp_loop (Z.to_nat n) ptr1 ptr2 n.

(** ** memchr.c *)

Fixpoint memchr_loop (fuel : nat) (p ch n : Z) : M mem Z :=
  if 0 <? n then
    match fuel with
    | O => out_of_fuel
    | S fuel =>
        b ← load8 p;
        if b =? ch then mret p
        else memchr_loop fuel (p + 1) ch (n - 1)
    end
  else mret NULL.

Definition memchr (ptr c n : Z) : M mem Z :=
  memchr_loop (Z.to_nat n) ptr (u8 c) n.

(** ** What they compute *)

(** Lexicographic order of byte strings. *)
Fixpoint lexcmp (l1 l2 : list Z) : comparison :=
  match l1, l2 with
  | [], [] => Eq
  | [], _ :: _ => Lt
  | _ :: _, [] => Gt
  | b1 :: l1, b2 :: l2 =>
      match b1 ?= b2 with Eq => lexcmp l1 l2 | c => c end
  end.

(** The address of the first [ch] of [bs], which lies at [a]. *)
Fixpoint find_byte (a ch : Z) (bs : list Z) : option Z :=
  match bs with
  | [] => None
  | b :: bs => if b =? ch then Some a else find_byte (a + 1) ch bs
  end.

Lemma lexcmp_eq l1 l2 : lexcmp l1 l2 = Eq ↔ l1 = l2.
Proof.
  revert l2. induction l1 as [|b1 l1 IH]; intros [|b2 l2]; simpl; try done.
  destruct (Z.compare_spec b1 b2); naive_solver lia.
Qed.

Lemma lexcmp_antisym l1 l2 : lexcmp l2 l1 = CompOpp (lexcmp l1 l2).
Proof.
  revert l2. induction l1 as [|b1 l1 IH]; intros [|b2 l2]; simpl; try done.
  rewrite Z.compare_antisym. destruct (b1 ?= b2); simpl; auto.
Qed.

(** ** The copy loops *)

Lemma memcpy_bytes_ok fuel dest src bs m :
  (length bs ≤ fuel)%nat → bytes bs →
  bytes_at m src bs → mapped m dest (length bs) →
  dest ≤ src ∨ src + Z.of_nat (length bs) ≤ dest →
  memcpy_bytes fuel dest src (Z.of_nat (length bs)) m = Ret tt (write_bytes dest bs m).
Proof.
  revert fuel dest src m.
  induction bs as [|b bs IH]; intros fuel dest src m Hf Hb Hs Hd Ho.
  { by destruct fuel. }
  destruct fuel as [|fuel]; cbn [length] in *; [lia|].
  destruct Hs as [Hs1 Hs2], Hd as [[x Hd1] Hd2]. apply Forall_cons in Hb as [Hb1 Hb2].
  cbn [memcpy_bytes]. rewrite (proj2 (Z.ltb_lt _ _)) by lia.
  step_with (load8_Ret m src b Hs1). step_with (store8_Ret m dest b x Hd1).
  rewrite u8_id by done.
  replace (Z.of_nat (S (length bs)) - 1) with (Z.of_nat (length bs)) by lia.
  change (<[dest:=b]> m) with (write_bytes dest [b] m).
  rewrite IH; [done|lia|done| |by apply mapped_write|lia].
  apply bytes_at_write_disj; [|done]. simpl. lia.
Qed.

Lemma memcpy_words_ok fuel dest src bs m :
  (length bs ≤ fuel)%nat → bytes bs →
  bytes_at m src bs → mapped m dest (length bs) →
  dest ≤ src ∨ src + Z.of_nat (length bs) ≤ dest →
  ∃ bs1 bs2, bs = bs1 ++ bs2 ∧ (length bs2 < 8)%nat ∧
    memcpy_words fuel dest src (Z.of_nat (length bs)) m =
    Ret (dest + Z.of_nat (length bs1), src + Z.of_nat (length bs1),
         Z.of_nat (length bs2)) (write_bytes dest bs1 m).
Proof.
  revert dest src bs m.
  induction fuel as [|fuel IH]; intros dest src bs m Hf Hb Hs Hd Ho; cbn [memcpy_words].
  { exists [], bs. rewrite (proj2 (Z.leb_gt _ _)) by lia.
    split_and!; [done|lia|]. cbn [length write_bytes]. by rewrite !Z.add_0_r. }
  destruct (Z.leb_spec 8 (Z.of_nat (length bs))); last first.
  { exists [], bs. split_and!; [done|lia|]. cbn [length write_bytes].
    by rewrite !Z.add_0_r. }
  rewrite <- (take_drop 8 bs) in Hs, Hb.
  apply bytes_at_app in Hs as [Hs1 Hs2]. apply Forall_app in Hb as [Hb1 Hb2].
  assert (length (take 8 bs) = 8%nat) as Ht by (rewrite length_take; lia).
  assert (length bs = 8 + length (drop 8 bs))%nat as Hl by (rewrite length_drop; lia).
  rewrite Ht in Hs2. rewrite Hl in Hd. apply mapped_app in Hd as [Hd1 Hd2].
  step_with (load_Ret _ _ _ _ Hs1 Ht). step_with (store_Ret _ dest 8 (le_combine (take 8 bs)) Hd1).
  rewrite (le_split_combine_n 8) by done.
  destruct (IH (dest + 8) (src + 8) (drop 8 bs) (write_bytes dest (take 8 bs) m))
    as (bs1 & bs2 & E & Hlt & Hrun); [lia|done| |by apply mapped_write|lia|].
  { apply bytes_at_write_disj; [|done]. lia. }
  exists (take 8 bs ++ bs1), bs2. split_and!.
  - by rewrite <- app_assoc, <- E, take_drop.
  - done.
  - replace (Z.of_nat (length bs) - 8) with (Z.of_nat (length (drop 8 bs))) by lia.
    rewrite Hrun, length_app, write_bytes_app, Ht. f_equal. zeq.
Qed.

Lemma memcpy_ok dest src n bs m :
  n = Z.of_nat (length bs) → bytes bs →
  bytes_at m src bs → mapped m dest (length bs) →
  dest ≤ src ∨ src + n ≤ dest →
  memcpy dest src n m = Ret dest (write_bytes dest bs m).
Proof.
  intros -> Hb Hs Hd Ho. unfold memcpy. rewrite Nat2Z.id.
  destruct (memcpy_words_ok (length bs) dest src bs m) as (bs1 & bs2 & -> & Hlt & Hrun);
    [lia|done..|].
  step_with Hrun. rewrite length_app in *.
  apply bytes_at_app in Hs as [Hs1 Hs2]. apply Forall_app in Hb as [Hb1 Hb2].
  apply mapped_app in Hd as [Hd1 Hd2].
  erewrite bind_Ret; [by rewrite write_bytes_app|].
  apply memcpy_bytes_ok; [lia|done| |by apply mapped_write|lia].
  apply bytes_at_write_disj; [lia|done].
Qed.

Lemma memmove_back_ok fuel dest src bs m i n :
  (length bs ≤ fuel)%nat → bytes bs →
  bytes_at m src bs → mapped m dest (length bs) →
  src < dest → 0 ≤ i → i + Z.of_nat (length bs) = n → n ≤ INT_MAX →
  memmove_back fuel (dest + Z.of_nat (length bs) - 1)
    (src + Z.of_nat (length bs) - 1) i n m = Ret tt (write_bytes dest bs m).
Proof.
  unfold INT_MAX. revert fuel m i.
  induction bs as [|b bs IH] using rev_ind; intros fuel m i Hf Hb Hs Hd Ho Hi Hn Hmax.
  { cbn [length] in *. destruct fuel; cbn [memmove_back];
      by rewrite (proj2 (Z.ltb_ge _ _)) by (rewrite wrap_small; lia). }
  rewrite length_app in *. cbn [length] in *.
  apply bytes_at_app in Hs as [Hs1 [Hs2 _]]. apply mapped_app in Hd as [Hd1 [[x Hd2] _]].
  apply Forall_app in Hb as [Hb1 Hb2]. apply Forall_cons in Hb2 as [Hb2 _].
  destruct fuel as [|fuel]; [lia|]. cbn [memmove_back].
  rewrite (proj2 (Z.ltb_lt _ _)) by (rewrite wrap_small; lia).
  replace (src + Z.of_nat (length bs + 1) - 1) with (src + Z.of_nat (length bs)) by lia.
  replace (dest + Z.of_nat (length bs + 1) - 1) with (dest + Z.of_nat (length bs)) by lia.
  step_with (load8_Ret m _ b Hs2). step_with (store8_Ret m _ b x Hd2).
  rewrite (proj2 (Z.eqb_neq _ _)) by (unfold INT_MAX; lia).
  rewrite u8_id by done.
  change (<[?a:=b]> m) with (write_bytes a [b] m).
  rewrite IH; [|lia|done| |by apply mapped_write|lia..].
  - rewrite write_bytes_app, write_bytes_comm; [done|]. cbn [length]. lia.
  - apply bytes_at_write_disj; [|done]. lia.
Qed.

(** Whatever way the buffers overlap, [memmove] leaves in the destination
    what the source held. *)
Lemma memmove_ok dest src n bs m :
  n = Z.of_nat (length bs) → bytes bs →
  bytes_at m src bs → mapped m dest (length bs) → n ≤ INT_MAX →
  memmove dest src n m = Ret dest (write_bytes dest bs m).
Proof.
  intros -> Hb Hs Hd Hn. unfold memmove.
  destruct (Z.ltb_spec src dest); cbn [andb]; [|apply memcpy_ok; auto; lia].
  destruct (Z.leb_spec dest (src + Z.of_nat (length bs)));
    [|apply memcpy_ok; auto; lia].
  rewrite Nat2Z.id. erewrite bind_Ret; [done|]. apply memmove_back_ok; done || lia.
Qed.

(** ** Filling *)

Lemma memset_bytes_ok fuel d c k m :
  (k ≤ fuel)%nat → mapped m d k →
  memset_bytes fuel d c (Z.of_nat k) m = Ret tt (write_bytes d (replicate k (u8 c)) m).
Proof.
  revert fuel d m. induction k as [|k IH]; intros fuel d m Hf Hd.
  { by destruct fuel. }
  destruct fuel as [|fuel]; [lia|]. cbn [memset_bytes replicate write_bytes].
  destruct Hd as [[x Hx] Hd]. rewrite (proj2 (Z.ltb_lt _ _)) by lia.
  step_with (store8_Ret m d (u8 c) x Hx). rewrite wrap_wrap.
  replace (Z.of_nat (S k) - 1) with (Z.of_nat k) by lia.
  change (<[d:=?b]> m) with (write_bytes d [b] m).
  by rewrite IH by (lia || by apply mapped_write).
Qed.

Lemma memset_words_ok fuel d k m :
  (k ≤ fuel)%nat → mapped m d k →
  ∃ k1 k2, k = (k1 + k2)%nat ∧
    memset_words fuel d 0 0 (Z.of_nat k) m =
    Ret (d + Z.of_nat k1, Z.of_nat k2) (write_bytes d (replicate k1 0) m).
Proof.
  revert d k m. induction fuel as [|fuel IH]; intros d k m Hf Hd; cbn [memset_words].
  { exists 0%nat, k. assert (k = 0%nat) as -> by lia. by rewrite Z.add_0_r. }
  destruct (Z.leb_spec 8 (Z.of_nat k)); cbn [andb]; last first.
  { exists 0%nat, k. by rewrite Z.add_0_r. }
  assert (k = 8 + (k - 8))%nat as Hk by lia. rewrite Hk in Hd.
  apply mapped_app in Hd as [Hd1 Hd2].
  rewrite Z.eqb_refl. step_with (store_Ret _ d 8 0 Hd1).
  destruct (IH (d + 8) (k - 8)%nat (write_bytes d (replicate 8 0) m))
    as (k1 & k2 & Hk12 & Hrun); [lia|by apply mapped_write|].
  exists (8 + k1)%nat, k2. split; [lia|].
  change (le_split 8 0) with (replicate 8 0).
  replace (Z.of_nat k - 8) with (Z.of_nat (k - 8)) by lia.
  rewrite Hrun, replicate_add, write_bytes_app, length_replicate. f_equal. zeq.
Qed.

Lemma memset_words_nonzero fuel d big_c c size m :
  c ≠ 0 → memset_words fuel d big_c c size m = Ret (d, size) m.
Proof.
  intros Hc. destruct fuel; cbn [memset_words];
    by rewrite (proj2 (Z.eqb_neq c 0) Hc), andb_false_r.
Qed.

Lemma memset_ok dest c size m :
  0 ≤ size → mapped m dest (Z.to_nat size) →
  memset dest c size m =
  Ret dest (write_bytes dest (replicate (Z.to_nat size) (u8 c)) m).
Proof.
  intros Hsz Hd. unfold memset.
  destruct (decide (c = 0)) as [->|Hc].
  - destruct (memset_words_ok (Z.to_nat size) dest (Z.to_nat size) m)
      as (k1 & k2 & Hk & Hrun); [lia|done|].
    change (memset_big_c 0) with 0. rewrite Z2Nat.id in Hrun by done.
    step_with Hrun. rewrite Hk in Hd. apply mapped_app in Hd as [Hd1 Hd2].
    erewrite bind_Ret; [|apply memset_bytes_ok; [lia|by apply mapped_write]].
    rewrite Hk, replicate_add, write_bytes_app, length_replicate. done.
  - step_with (memset_words_nonzero (Z.to_nat size) dest (memset_big_c c) c size m Hc).
    rewrite <- (Z2Nat.id size) at 2 by done.
    erewrite bind_Ret; [done|]. by apply memset_bytes_ok.
Qed.

(** ** Comparing and searching *)

Lemma memcmp_loop_ok fuel p1 p2 bs1 bs2 m :
  (length bs1 ≤ fuel)%nat → length bs1 = length bs2 →
  bytes_at m p1 bs1 → bytes_at m p2 bs2 →
  ∃ r, memcmp_loop fuel p1 p2 (Z.of_nat (length bs1)) m = Ret r m ∧
       (r ?= 0) = lexcmp bs1 bs2.
Proof.
  revert fuel p1 p2 bs2.
  induction bs1 as [|b1 bs1 IH]; intros fuel p1 p2 [|b2 bs2] Hf Hl H1 H2; try done.
  { exists 0. by destruct fuel. }
  destruct fuel as [|fuel]; cbn [length] in *; [lia|]. cbn [memcmp_loop lexcmp].
  destruct H1 as [H1a H1], H2 as [H2a H2].
  rewrite (proj2 (Z.ltb_lt _ _)) by lia.
  step_with (load8_Ret m p1 b1 H1a). step_with (load8_Ret m p2 b2 H2a).
  destruct (Z.eqb_spec b1 b2) as [->|Hne]; cbn [negb].
  - rewrite Z.compare_refl.
    replace (Z.of_nat (S (length bs1)) - 1) with (Z.of_nat (length bs1)) by lia.
    apply IH; auto; lia.
  - exists (b1 - b2). split; [done|].
    destruct (Z.compare_spec b1 b2); [done|..].
    + apply Z.compare_lt_iff. lia.
    + apply Z.compare_gt_iff. lia.
Qed.

Lemma memchr_loop_ok fuel p ch bs m :
  (length bs ≤ fuel)%nat → bytes_at m p bs →
  memchr_loop fuel p ch (Z.of_nat (length bs)) m = Ret (ptr_of (find_byte p ch bs)) m.
Proof.
  revert fuel p. induction bs as [|b bs IH]; intros fuel p Hf Hb.
  { by destruct fuel. }
  destruct fuel as [|fuel]; cbn [length] in *; [lia|]. cbn [memchr_loop find_byte].
  destruct Hb as [Hb1 Hb2]. rewrite (proj2 (Z.ltb_lt _ _)) by lia.
  step_with (load8_Ret m p b Hb1).
  destruct (b =? ch); [done|].
  replace (Z.of_nat (S (length bs)) - 1) with (Z.of_nat (length bs)) by lia.
  apply IH; auto; lia.
Qed.

(** [find_byte] is the first occurrence. *)
Lemma find_byte_Some a ch bs p :
  find_byte a ch bs = Some p ↔
  ∃ i, p = a + Z.of_nat i ∧ bs !! i = Some ch ∧ ch ∉ take i bs.
Proof.
  revert a. induction bs as [|b bs IH]; intros a; simpl.
  { split; [done|]. intros (i & _ & H & _). done. }
  destruct (Z.eqb_spec b ch) as [->|Hne].
  - split.
    + intros [= <-]. exists 0%nat. split_and!; [lia|done|set_solver].
    + intros ([|i] & -> & Hi & Hn); [f_equal; lia|]. simpl in *. set_solver.
  - rewrite IH. split.
    + intros (i & -> & Hi & Hn). exists (S i). simpl. split_and!; [lia|done|set_solver].
    + intros ([|i] & -> & Hi & Hn); simpl in *; [congruence|].
      exists i. split_and!; [lia|done|set_solver].
Qed.

Lemma find_byte_None a ch bs : find_byte a ch bs = None ↔ ch ∉ bs.
Proof.
  revert a. induction bs as [|b bs IH]; intros a; simpl; [set_solver|].
  destruct (Z.eqb_spec b ch); [set_solver|]. rewrite IH. set_solver.
Qed.
