(* ===== verification/MemEquiv.v ===== *)
(** * Word loops and byte loops

    The loops over words of [memcpy.c] and [memset.c] are an optimisation: every
    outcome is that of the byte loop alone, the undefined ones included, for
    [memcpy] where a forward copy does not overwrite what it has still to read.
    [touches] says of a loop that it returns only when the cells it was given are
    mapped, and never runs out of fuel. *)
From S2P Require Import Prelude CMem LibMem.

(** The addresses [a, a + n) are mapped. *)
Definition within (m : mem) (a n : Z) : Prop := ∀ i, 0 ≤ i < n → is_Some (m !! (a + i)).

(** What a loop may do: get stuck, or return having touched only mapped cells. *)
Definition touches {A} (o : outcome mem A) (m : mem) (P : A → Prop) : Prop :=
  match o with
  | Ret a m' => dom m' = dom m ∧ P a
  | Stuck => True
  | _ => False
  end.

Lemma within_mapped m a n : within m a n ↔ mapped m a (Z.to_nat n).
Proof.
  split.
  - intros H. apply mapped_intro. intros i Hi. apply H. lia.
  - intros H i Hi. eapply mapped_lookup; [done|lia].
Qed.

Lemma within_0 m a n : n ≤ 0 → within m a n.
Proof. intros Hn i Hi. lia. Qed.

Lemma within_dom m m' a n : dom m' = dom m → within m' a n → within m a n.
Proof. intros Hd H i Hi. apply elem_of_dom. rewrite <-Hd. by apply elem_of_dom, H. Qed.

Lemma within_app m a n k : within m a k → within m (a + k) (n - k) → within m a n.
Proof.
  intros H1 H2 i Hi. destruct (decide (i < k)); [apply H1; lia|].
  replace (a + i) with (a + k + (i - k)) by lia. apply H2. lia.
Qed.

Lemma touches_bind {A C} (p : M mem A) (f : A → M mem C) m (P : A → Prop) (Q : C → Prop) :
  touches (p m) m P → (∀ a m', P a → dom m' = dom m → touches (f a m') m' Q) →
  touches ((p ≫= f) m) m Q.
Proof.
  intros Hp Hf. unfold mbind, M_bind. destruct (p m) as [a m'| | |]; try done.
  destruct Hp as [Hd HP]. specialize (Hf a m' HP Hd). destruct (f a m'); try done.
  destruct Hf as [Hd' ?]. split; [congruence|done].
Qed.

Lemma touches_load8 a m : touches (load8 a m) m (λ _, within m a 1).
Proof.
  unfold load8. destruct (m !! a) eqn:E; [|done]. split; [done|]. intros i Hi.
  replace (a + i) with a by lia. by rewrite E.
Qed.

Lemma touches_store8 a v m : touches (store8 a v m) m (λ _, within m a 1).
Proof.
  unfold store8. destruct (m !! a) eqn:E; [|done]. split; [apply dom_insert_lookup_L; by rewrite E|].
  intros i Hi. replace (a + i) with a by lia. by rewrite E.
Qed.

Lemma read_bytes_within m a n bs : read_bytes m a n = Some bs → within m a (Z.of_nat n).
Proof.
  intros H. apply within_mapped. rewrite Nat2Z.id. pose proof (read_bytes_length _ _ _ _ H) as <-.
  by apply bytes_at_mapped, bytes_at_read.
Qed.

Lemma dom_write_bytes a bs m : within m a (Z.of_nat (length bs)) → dom (write_bytes a bs m) = dom m.
Proof.
  intros H. apply set_eq. intros k. rewrite !elem_of_dom, lookup_write_bytes. case_decide; [|done].
  split; intros _; [|apply lookup_lt_is_Some_2; lia]. replace k with (a + (k - a)) by lia. apply H. lia.
Qed.

Lemma touches_load n a m : touches (load n a m) m (λ _, within m a (Z.of_nat n)).
Proof. unfold load. destruct (read_bytes m a n) eqn:E; [|done]. split; [done|]. by eapply read_bytes_within. Qed.

Lemma touches_store n a v m : touches (store n a v m) m (λ _, within m a (Z.of_nat n)).
Proof.
  unfold store. destruct (read_bytes m a n) eqn:E; [|done]. apply read_bytes_within in E.
  split; [|done]. apply dom_write_bytes. by rewrite length_le_split.
Qed.

Lemma memcpy_bytes_touches fuel dest src n m : n ≤ Z.of_nat fuel →
  touches (memcpy_bytes fuel dest src n m) m (λ _, within m src n ∧ within m dest n).
Proof.
  revert dest src n m. induction fuel as [|fuel IH]; intros dest src n m Hn; cbn [memcpy_bytes].
  { rewrite (proj2 (Z.ltb_ge 0 n)) by lia. split; [done|]. by split; apply within_0. }
  destruct (Z.ltb_spec 0 n); [|split; [done|]; by split; apply within_0].
  eapply touches_bind; [apply touches_load8|]. intros v m1 Hs D1. cbn beta in Hs.
  eapply touches_bind; [apply touches_store8|]. intros [] m2 Hd D2. cbn beta in Hd.
  specialize (IH (dest + 1) (src + 1) (n - 1) m2 ltac:(lia)).
  destruct (memcpy_bytes _ _ _ _ _); try done. destruct IH as (D3 & Is & Id). split; [done|].
  rewrite D1 in D2. apply (within_dom m) in Hd, Is, Id; [|done..].
  split; by eapply within_app.
Qed.

Lemma memcpy_words_touches fuel dest src n m : n ≤ Z.of_nat fuel →
  touches (memcpy_words fuel dest src n m) m (λ '(d, s, k), ∃ w, 0 ≤ w ∧ k = n - w ∧ d = dest + w ∧ s = src + w ∧
    within m src w ∧ within m dest w).
Proof.
  revert dest src n m. induction fuel as [|fuel IH]; intros dest src n m Hn; cbn [memcpy_words].
  { rewrite (proj2 (Z.leb_gt 8 n)) by lia. split; [done|]. exists 0.
    split_and!; try lia; by apply within_0. }
  destruct (Z.leb_spec 8 n); last first.
  { split; [done|]. exists 0. split_and!; try lia; by apply within_0. }
  eapply touches_bind; [apply touches_load|]. intros v m1 Hs D1. cbn beta in Hs.
  eapply touches_bind; [apply touches_store|]. intros [] m2 Hd D2. cbn beta in Hd.
  specialize (IH (dest + 8) (src + 8) (n - 8) m2 ltac:(lia)).
  destruct (memcpy_words _ _ _ _ _) as [[[d s] k] m3| | |]; try done.
  destruct IH as (D3 & w & ? & -> & -> & -> & Is & Id). split; [done|]. rewrite D1 in D2.
  apply (within_dom m) in Hd, Is, Id; [|done..]. exists (8 + w). split_and!; try lia.
  - apply (within_app _ _ _ 8); [done|]. by replace (8 + w - 8) with w by lia.
  - apply (within_app _ _ _ 8); [done|]. by replace (8 + w - 8) with w by lia.
Qed.

Lemma memcpy_touches dest src n m :
  touches (memcpy dest src n m) m (λ r, r = dest ∧ within m src n ∧ within m dest n).
Proof.
  unfold memcpy. eapply touches_bind; [apply memcpy_words_touches; lia|].
  intros [[d s] k] m1 (w & ? & -> & -> & -> & Hs & Hd) D1.
  eapply touches_bind; [apply memcpy_bytes_touches; lia|].
  intros [] m2 [Is Id] D2. split; [done|]. split; [done|].
  apply (within_dom m) in Is, Id; [|done..]. split; by eapply within_app.
Qed.

(** Two programs that return only on mapped cells and agree there agree everywhere. *)
Lemma touches_equiv {A} (o1 o2 : outcome mem A) m (P : Prop) (Q1 Q2 : A → Prop) : Decision P →
  touches o1 m Q1 → touches o2 m Q2 → (∀ a, Q1 a → P) → (∀ a, Q2 a → P) → (P → o1 = o2) → o1 = o2.
Proof.
  intros [HP|HP] H1 H2 I1 I2 H; [auto|]. unfold touches in *.
  destruct o1, o2; try done; naive_solver.
Qed.

#[export] Instance mapped_dec m a n : Decision (mapped m a n).
Proof.
  revert a. induction n as [|n IH]; intros a; cbn [mapped]; [apply _|].
  destruct (m !! a) as [b|] eqn:E; [|right; naive_solver].
  destruct (IH (a + 1)); [left; eauto|right; naive_solver].
Defined.

(** The byte-at-a-time reference. *)
Definition byte_copy (dest src n : Z) : M mem Z := memcpy_bytes (Z.to_nat n) dest src n;; mret dest.
Definition byte_fill (dest c n : Z) : M mem Z := memset_bytes (Z.to_nat n) dest c n;; mret dest.

Lemma memcpy_equiv dest src n m :
  0 ≤ n → map_Forall (λ _ b, is_byte b) m → dest ≤ src ∨ src + n ≤ dest →
  memcpy dest src n m = byte_copy dest src n m.
Proof.
  intros H0 Hm Ho. unfold byte_copy.
  apply (touches_equiv _ _ m (mapped m src (Z.to_nat n) ∧ mapped m dest (Z.to_nat n))
    (λ r, r = dest ∧ within m src n ∧ within m dest n) (λ _, within m src n ∧ within m dest n)).
  - apply _.
  - apply memcpy_touches.
  - eapply touches_bind; [apply memcpy_bytes_touches; lia|]. done.
  - intros r (_ & ? & ?). by rewrite <-!within_mapped.
  - intros r (? & ?). by rewrite <-!within_mapped.
  - intros [Hs Hd]. destruct (mapped_bytes _ _ _ Hs) as (bs & Hl & Hb).
    assert (bytes bs).
    { apply Forall_lookup_2. intros i b Hi. eapply Hm. by eapply bytes_at_lookup. }
    assert (n = Z.of_nat (length bs)) as Hn by lia. rewrite <-Hl in Hd.
    rewrite (memcpy_ok dest src n bs m Hn) by done.
    erewrite bind_Ret; [done|]. rewrite Hn in *. rewrite Nat2Z.id. by apply memcpy_bytes_ok.
Qed.

Lemma memset_bytes_touches fuel d c n m : n ≤ Z.of_nat fuel →
  touches (memset_bytes fuel d c n m) m (λ _, within m d n).
Proof.
  revert d n m. induction fuel as [|fuel IH]; intros d n m Hn; cbn [memset_bytes].
  { rewrite (proj2 (Z.ltb_ge 0 n)) by lia. split; [done|]. by apply within_0. }
  destruct (Z.ltb_spec 0 n); [|split; [done|]; by apply within_0].
  eapply touches_bind; [apply touches_store8|]. intros [] m2 Hd D2. cbn beta in Hd.
  specialize (IH (d + 1) (n - 1) m2 ltac:(lia)).
  destruct (memset_bytes _ _ _ _ _); try done. destruct IH as (D3 & Id). split; [done|].
  apply (within_dom m) in Id; [|done]. by eapply within_app.
Qed.

Lemma memset_words_touches fuel d big_c c n m : n ≤ Z.of_nat fuel →
  touches (memset_words fuel d big_c c n m) m (λ '(d', k), ∃ w, 0 ≤ w ∧ k = n - w ∧ d' = d + w ∧ within m d w).
Proof.
  revert d n m. induction fuel as [|fuel IH]; intros d n m Hn; cbn [memset_words].
  { rewrite (proj2 (Z.leb_gt 8 n)) by lia. split; [done|]. exists 0. split_and!; try lia. by apply within_0. }
  destruct (Z.leb_spec 8 n), (c =? 0); cbn [andb];
    try (split; [done|]; exists 0; split_and!; try lia; by apply within_0).
  eapply touches_bind; [apply touches_store|]. intros [] m2 Hd D2. cbn beta in Hd.
  specialize (IH (d + 8) (n - 8) m2 ltac:(lia)).
  destruct (memset_words _ _ _ _ _) as [[d' k] m3| | |]; try done.
  destruct IH as (D3 & w & ? & -> & -> & Id). split; [done|].
  apply (within_dom m) in Id; [|done..]. exists (8 + w). split_and!; try lia.
  apply (within_app _ _ _ 8); [done|]. by replace (8 + w - 8) with w by lia.
Qed.

Lemma memset_touches dest c n m : touches (memset dest c n m) m (λ _, within m dest n).
Proof.
  unfold memset. eapply touches_bind; [apply memset_words_touches; lia|].
  intros [d k] m1 (w & ? & -> & -> & Hd) D1.
  eapply touches_bind; [apply memset_bytes_touches; lia|].
  intros [] m2 Id D2. split; [done|]. apply (within_dom m) in Id; [|done..]. by eapply within_app.
Qed.

Lemma memset_equiv dest c n m : 0 ≤ n → memset dest c n m = byte_fill dest c n m.
Proof.
  intros H0. unfold byte_fill.
  apply (touches_equiv _ _ m (mapped m dest (Z.to_nat n)) (λ _, within m dest n) (λ _, within m dest n)).
  - apply _.
  - apply memset_touches.
  - eapply touches_bind; [apply memset_bytes_touches; lia|]. done.
  - intros _. by rewrite within_mapped.
  - intros _. by rewrite within_mapped.
  - intros Hd. rewrite memset_ok by done. erewrite bind_Ret; [done|].
    rewrite <-(Z2Nat.id n) at 2 by done. by apply memset_bytes_ok.
Qed.
