(* ===== verification/Ctype.v ===== *)
(** * Character classes

    [litedram/gen-src/sdram_init/libc/src/is*.c], [tolower.c], [toupper.c].
    A character constant is its ASCII code; the results are the C [int]s. *)
From S2P Require Import Prelude.

Definition b2i (b : bool) : Z := if b then 1 else 0.

Definition isdigit (ch : Z) : Z :=
  if (ch =? 48) || (ch =? 49) || (ch =? 50) || (ch =? 51) || (ch =? 52)
     || (ch =? 53) || (ch =? 54) || (ch =? 55) || (ch =? 56) || (ch =? 57)
  then 1 else 0.

Definition isprint (ch : Z) : Z := b2i ((32 <=? ch) && (ch <? 127)).

(** [' '], ['\f'], ['\n'], ['\r'], ['\t'], ['\v'] *)
Definition isspace (ch : Z) : Z :=
  if (ch =? 32) || (ch =? 12) || (ch =? 10) || (ch =? 13) || (ch =? 9) || (ch =? 11)
  then 1 else 0.

Definition isxdigit (ch : Z) : Z :=
  Z.lor (Z.lor (b2i ((48 <=? ch) && (ch <=? 57)))
               (b2i ((65 <=? ch) && (ch <=? 70))))
        (b2i ((97 <=? ch) && (ch <=? 102))).

Definition tolower (c : Z) : Z :=
  if (65 <=? c) && (c <=? 90) then c - 65 + 97 else c.

Definition toupper (cha : Z) : Z :=
  if (97 <=? cha) && (cha <=? 122) then cha - 97 + 65 else cha.

Lemma isdigit_spec c : isdigit c = b2i ((48 <=? c) && (c <=? 57)).
Proof. unfold isdigit, b2i. conds. Qed.

Lemma toupper_idemp c : toupper (toupper c) = toupper c.
Proof. unfold toupper. conds. Qed.

(** Converting the case is invertible on the letters it changes. *)
Lemma tolower_toupper c : 97 ≤ c ≤ 122 → tolower (toupper c) = c.
Proof. unfold tolower, toupper. intros. conds. Qed.

Lemma toupper_zero c : 0 ≤ c → toupper c = 0 ↔ c = 0.
Proof. unfold toupper. intros. conds. Qed.
