(* ===== verification/LibStr.v ===== *)
(** * The string routines of the firmware libc

    [litedram/gen-src/sdram_init/libc/src/str*.c] on the byte memory of
    [CMem].  Plain [char] is unsigned, as on the ppc64le target the firmware
    is built for, so that a [char] is the byte it occupies.  A loop that runs
    to the terminator takes its fuel as an argument; every theorem asks for
    more fuel than the string has characters and concludes that the function
    returns. *)
From S2P Require Import Prelude CMem LibMem Ctype.

(** ** strlen.c *)

Fixpoint strlen_loop (fuel : nat) (s len : Z) : M mem Z :=
  match fuel with
  | O => out_of_fuel
  | S fuel =>
      c ← load8 s;
      if negb (c =? 0) then strlen_loop fuel (s + 1) (u64 (len + 1)) else mret len
  end.

Definition strlen (fuel : nat) (s : Z) : M mem Z := strlen_loop fuel s 0.

(** The source tests [*s] before [n]. *)
Fixpoint strnlen_loop (fuel : nat) (s len n : Z) : M mem Z :=
  match fuel with
  | O => out_of_fuel
  | S fuel =>
      c ← load8 s;
      if negb (c =? 0) && negb (n =? 0)
      then strnlen_loop fuel (s + 1) (u64 (len + 1)) (n - 1)
      else mret len
  end.

Definition strnlen (fuel : nat) (s n : Z) : M mem Z := strnlen_loop fuel s 0 n.

(** ** strcmp.c, strncmp.c *)

Fixpoint strcmp (fuel : nat) (s1 s2 : Z) : M mem Z :=
  match fuel with
  | O => out_of_fuel
  | S fuel =>
      c1 ← load8 s1;
      c2 ← load8 s2;
      if negb (c1 =? 0) && negb (c2 =? 0) && (c1 =? c2)
      then strcmp fuel (s1 + 1) (s2 + 1)
      else mret (c1 - c2)
  end.

Fixpoint strncmp_loop (fuel : nat) (s1 s2 n : Z) : M mem Z :=
  match fuel with
  | O => out_of_fuel
  | S fuel =>
      c1 ← load8 s1;
      c2 ← load8 s2;
      if negb (c1 =? 0) && negb (c2 =? 0) && (0 <? n - 1) && (c1 =? c2)
      then strncmp_loop fuel (s1 + 1) (s2 + 1) (n - 1)
      else mret (c1 - c2)
  end.

Definition strncmp (fuel : nat) (s1 s2 n : Z) : M mem Z :=
  if n <? 1 then mret 0 else strncmp_loop fuel s1 s2 n.

(** ** strcasecmp.c, strncasecmp.c *)

Fixpoint strcasecmp (fuel : nat) (s1 s2 : Z) : M mem Z :=
  match fuel with
  | O => out_of_fuel
  | S fuel =>
      c1 ← load8 s1;
      c2 ← load8 s2;
      if negb (c1 =? 0) && negb (c2 =? 0) && (toupper c1 =? toupper c2)
      then strcasecmp fuel (s1 + 1) (s2 + 1)
      else mret (c1 - c2)
  end.

Fixpoint strncasecmp_loop (fuel : nat) (s1 s2 n : Z) : M mem Z :=
  match fuel with
  | O => out_of_fuel
  | S fuel =>
      c1 ← load8 s1;
      c2 ← load8 s2;
      if negb (c1 =? 0) && negb (c2 =? 0) && (0 <? n - 1) && (toupper c1 =? toupper c2)
      then strncasecmp_loop fuel (s1 + 1) (s2 + 1) (n - 1)
      else mret (toupper c1 - toupper c2)
  end.

Definition strncasecmp (fuel : nat) (s1 s2 n : Z) : M mem Z :=
  if n <? 1 then mret 0 else strncasecmp_loop fuel s1 s2 n.

(** ** strcpy.c, strncpy.c, strcat.c *)

(** [do { *ptr++ = *src; } while ( *src++ != 0 )] *)
Fixpoint strcpy_loop (fuel : nat) (ptr src : Z) : M mem unit :=
  match fuel with
  | O => out_of_fuel
  | S fuel =>
      c ← load8 src;
      store8 ptr c;;
      c ← load8 src;
      if negb (c =? 0) then strcpy_loop fuel (ptr + 1) (src + 1) else mret tt
  end.

Definition strcpy (fuel : nat) (dst src : Z) : M mem Z :=
  strcpy_loop fuel dst src;; mret dst.

Fixpoint strncpy_copy (fuel : nat) (dst src n : Z) : M mem (Z * Z) :=
  match fuel with
  | O => out_of_fuel
  | S fuel =>
      c ← load8 src;
      if negb (c =? 0) && (0 <? n)
      then store8 dst c;; strncpy_copy fuel (dst + 1) (src + 1) (n - 1)
      else mret (dst, n)
  end.

Fixpoint strncpy_clear (fuel : nat) (dst n : Z) : M mem unit :=
  if 0 <? n then
    match fuel with
    | O => out_of_fuel
    | S fuel => store8 dst 0;; strncpy_clear fuel (dst + 1) (n - 1)
    end
  else mret tt.

Definition strncpy (fuel : nat) (dst src n : Z) : M mem Z :=
  let ret := dst in
  '(dst, n) ← strncpy_copy fuel dst src n;
  strncpy_clear (Z.to_nat n) dst n;;
  mret ret.

Definition strcat (fuel : nat) (dst src : Z) : M mem Z :=
  p ← strlen fuel dst;
  strcpy fuel (dst + p) src;;
  mret dst.

(** ** strchr.c, strrchr.c *)

Fixpoint strchr_loop (fuel : nat) (s cb : Z) : M mem Z :=
  match fuel with
  | O => out_of_fuel
  | S fuel =>
      c ← load8 s;
      if negb (c =? 0) then
        if c =? cb then mret s else strchr_loop fuel (s + 1) cb
      else mret NULL
  end.

Definition strchr (fuel : nat) (s c : Z) : M mem Z := strchr_loop fuel s (u8 c).

Fixpoint strrchr_loop (fuel : nat) (s cb last : Z) : M mem Z :=
  match fuel with
  | O => out_of_fuel
  | S fuel =>
      c ← load8 s;
      if negb (c =? 0)
      then strrchr_loop fuel (s + 1) cb (if c =? cb then s else last)
      else mret last
  end.

Definition strrchr (fuel : nat) (s c : Z) : M mem Z :=
  strrchr_loop fuel s (u8 c) NULL.

(** ** strstr.c *)

Fixpoint strstr_loop (k fuel : nat) (pos stop needle nlen : Z) : M mem Z :=
  if pos <? stop then
    match k with
    | O => out_of_fuel
    | S k =>
        r ← strncmp fuel pos needle nlen;
        if r =? 0 then mret pos
        else strstr_loop k fuel (pos + 1) stop needle nlen
    end
  else mret NULL.

Definition strstr (fuel : nat) (hay needle : Z) : M mem Z :=
  if (hay =? NULL) || (needle =? NULL) then mret NULL
  else
    hlen ← strlen fuel hay;
    nlen ← strlen fuel needle;
    if nlen <? 1 then mret hay
    else strstr_loop (Z.to_nat hlen) fuel hay (hay + hlen) needle nlen.

(** ** strtok.c

    The static [nxtTok] is an argument and the second result. *)

(** [while ( *pp ) { if ( *pp == *src ) break; pp++; }] gives the final [pp]. *)
Fixpoint strtok_scan (fuel : nat) (pp src : Z) : M mem Z :=
  match fuel with
  | O => out_of_fuel
  | S fuel =>
      p ← load8 pp;
      if negb (p =? 0) then
        c ← load8 src;
        if p =? c then mret pp else strtok_scan fuel (pp + 1) src
      else mret pp
  end.

Fixpoint strtok_loop (fuel : nat) (pfuel : nat) (src retVal pattern : Z) : M mem (Z * Z) :=
  match fuel with
  | O => out_of_fuel
  | S fuel =>
      c ← load8 src;
      if negb (c =? 0) then
        pp ← strtok_scan pfuel pattern src;
        p ← load8 pp;
        if p =? 0 then
          if retVal =? NULL then strtok_loop fuel pfuel (src + 1) src pattern
          else
            prev ← load8 (src - 1);
            if prev =? 0 then mret (retVal, src)
            else strtok_loop fuel pfuel (src + 1) retVal pattern
        else
          store8 src 0;;
          strtok_loop fuel pfuel (src + 1) retVal pattern
      else mret (retVal, src)
  end.

Definition strtok (fuel : nat) (src pattern nxtTok : Z) : M mem (Z * Z) :=
  if src =? NULL then
    if nxtTok =? NULL then mret (NULL, nxtTok)
    else strtok_loop fuel fuel nxtTok NULL pattern
  else strtok_loop fuel fuel src NULL pattern.

(** ** Lengths *)

Lemma strlen_loop_ok fuel m a s len :
  (length s < fuel)%nat → cstr m a s → 0 ≤ len →
  len + Z.of_nat (length s) < 2 ^ 64 →
  strlen_loop fuel a len m = Ret (len + Z.of_nat (length s)) m.
Proof.
  revert fuel a len. induction s as [|b s IH]; intros fuel a len Hf Hs Hl Hb;
    (destruct fuel as [|fuel]; cbn [length] in *; [lia|]); cbn [strlen_loop].
  - apply cstr_nil in Hs. step_with (load8_Ret m a 0 Hs). cbn. by rewrite Z.add_0_r.
  - apply cstr_cons in Hs as (Ha & Hr & Hs). step_with (load8_Ret m a b Ha).
    rewrite (proj2 (Z.eqb_neq b 0)) by lia. cbn [negb].
    rewrite wrap_small by lia. rewrite IH by (done || lia). f_equal. lia.
Qed.

Lemma strlen_ok fuel m a s :
  (length s < fuel)%nat → cstr m a s → Z.of_nat (length s) < 2 ^ 64 →
  strlen fuel a m = Ret (Z.of_nat (length s)) m.
Proof. intros. by apply (strlen_loop_ok fuel m a s 0). Qed.

Lemma strnlen_loop_ok fuel m a s len n :
  (length s < fuel)%nat → cstr m a s → 0 ≤ len → 0 ≤ n →
  len + Z.of_nat (length s) < 2 ^ 64 →
  strnlen_loop fuel a len n m = Ret (len + Z.min n (Z.of_nat (length s))) m.
Proof.
  revert fuel a len n. induction s as [|b s IH]; intros fuel a len n Hf Hs Hl Hn Hb;
    (destruct fuel as [|fuel]; cbn [length] in *; [lia|]); cbn [strnlen_loop].
  - apply cstr_nil in Hs. step_with (load8_Ret m a 0 Hs). cbn. f_equal. lia.
  - apply cstr_cons in Hs as (Ha & Hr & Hs). step_with (load8_Ret m a b Ha).
    rewrite (proj2 (Z.eqb_neq b 0)) by lia. cbn [negb andb].
    destruct (Z.eqb_spec n 0) as [->|Hn0]; cbn [negb].
    + unfold mret, M_ret. f_equal. lia.
    + rewrite wrap_small by lia. rewrite IH by (done || lia). f_equal. lia.
Qed.

(** The test of the character comes before the test of the count, so the
    byte after the last one allowed is read: on [n] characters with nothing
    mapped behind them the function is stuck. *)
Lemma strnlen_loop_overread fuel m a bs len n :
  (length bs < fuel)%nat → bytes_at m a bs → Forall (λ b, b ≠ 0) bs →
  m !! (a + Z.of_nat (length bs)) = None → n = Z.of_nat (length bs) →
  strnlen_loop fuel a len n m = Stuck.
Proof.
  revert fuel a len n. induction bs as [|b bs IH]; intros fuel a len n Hf Hb Hnz Hm ->;
    (destruct fuel as [|fuel]; cbn [length] in *; [lia|]); cbn [strnlen_loop].
  - rewrite Z.add_0_r in Hm. by rewrite (bind_Stuck _ _ _ (load8_Stuck _ _ Hm)).
  - destruct Hb as [Ha Hb]. apply Forall_cons in Hnz as [H0 Hnz].
    step_with (load8_Ret m a b Ha). rewrite (proj2 (Z.eqb_neq b 0)) by done.
    rewrite (proj2 (Z.eqb_neq _ 0)) by lia. cbn [negb andb].
    apply IH; [lia|done|done| |lia]. rewrite <- Hm. f_equal. lia.
Qed.

(** ** Comparisons *)

Lemma compare_sub_0 a b : (a - b ?= 0) = (a ?= b).
Proof.
  destruct (Z.compare_spec a b).
  - subst. by rewrite Z.sub_diag.
  - apply Z.compare_lt_iff. lia.
  - apply Z.compare_gt_iff. lia.
Qed.

Lemma strcmp_ok fuel m a1 a2 s1 s2 :
  (length s1 < fuel)%nat → cstr m a1 s1 → cstr m a2 s2 →
  ∃ r, strcmp fuel a1 a2 m = Ret r m ∧ (r ?= 0) = lexcmp s1 s2.
Proof.
  revert a1 a2 s1 s2. induction fuel as [|fuel IH]; intros a1 a2 s1 s2 Hf H1 H2; [lia|].
  cbn [strcmp]. load_head H1; load_head H2; cbn [lexcmp length] in *.
  - by exists 0.
  - eexists. split; [done|]. rewrite compare_sub_0. by apply Z.compare_lt_iff; lia.
  - eexists. split; [done|]. rewrite compare_sub_0. by apply Z.compare_gt_iff; lia.
  - destruct (Z.eqb_spec z z0) as [->|Hne].
    + rewrite Z.compare_refl. apply IH; auto; lia.
    + eexists. split; [done|]. rewrite compare_sub_0. by destruct (Z.compare_spec z z0).
Qed.

Lemma strncmp_loop_ok fuel m a1 a2 s1 s2 n :
  (length s1 < fuel)%nat → cstr m a1 s1 → cstr m a2 s2 →
  ∃ r, strncmp_loop fuel a1 a2 (Z.of_nat (S n)) m = Ret r m ∧
       (r ?= 0) = lexcmp (take (S n) s1) (take (S n) s2).
Proof.
  revert a1 a2 s1 s2 n.
  induction fuel as [|fuel IH]; intros a1 a2 s1 s2 n Hf H1 H2; [lia|].
  cbn [strncmp_loop]. load_head H1; load_head H2; cbn [lexcmp length take] in *.
  - by exists 0.
  - eexists. split; [done|]. rewrite compare_sub_0. by apply Z.compare_lt_iff; lia.
  - eexists. split; [done|]. rewrite compare_sub_0. by apply Z.compare_gt_iff; lia.
  - destruct n as [|n]; cbn [take].
    + eexists. split; [done|]. rewrite compare_sub_0. by destruct (z ?= z0).
    + rewrite (proj2 (Z.ltb_lt _ _)) by lia. cbn [andb].
      destruct (Z.eqb_spec z z0) as [->|Hne].
      * rewrite Z.compare_refl.
        replace (Z.of_nat (S (S n)) - 1) with (Z.of_nat (S n)) by lia.
        apply IH; auto; lia.
      * eexists. split; [done|]. rewrite compare_sub_0. by destruct (Z.compare_spec z z0).
Qed.

Lemma strncmp_ok fuel m a1 a2 s1 s2 n :
  (length s1 < fuel)%nat → cstr m a1 s1 → cstr m a2 s2 → 0 ≤ n →
  ∃ r, strncmp fuel a1 a2 n m = Ret r m ∧
       (r ?= 0) = lexcmp (take (Z.to_nat n) s1) (take (Z.to_nat n) s2).
Proof.
  intros Hf H1 H2 Hn. unfold strncmp. destruct (Z.ltb_spec n 1).
  - exists 0. assert (n = 0) as -> by lia. done.
  - destruct (strncmp_loop_ok fuel m a1 a2 s1 s2 (Nat.pred (Z.to_nat n)))
      as (r & Hr & Hc); [done..|].
    replace (S (Nat.pred (Z.to_nat n))) with (Z.to_nat n) in * by lia.
    rewrite Z2Nat.id in Hr by done. eauto.
Qed.

(** Case-insensitive order: the order of the strings in upper case. *)
Definition casecmp (l1 l2 : list Z) : comparison :=
  lexcmp (toupper <$> l1) (toupper <$> l2).

Lemma strncasecmp_loop_ok fuel m a1 a2 s1 s2 n :
  (length s1 < fuel)%nat → cstr m a1 s1 → cstr m a2 s2 →
  ∃ r, strncasecmp_loop fuel a1 a2 (Z.of_nat (S n)) m = Ret r m ∧
       (r ?= 0) = casecmp (take (S n) s1) (take (S n) s2).
Proof.
  revert a1 a2 s1 s2 n.
  induction fuel as [|fuel IH]; intros a1 a2 s1 s2 n Hf H1 H2; [lia|].
  assert (∀ c, 0 < c < 256 → 0 < toupper c) as Hup
    by (intros c ?; unfold toupper; conds).
  cbn [strncasecmp_loop]. unfold casecmp in *.
  load_head H1; load_head H2; cbn [lexcmp length take fmap list_fmap] in *.
  - by exists 0.
  - eexists. split; [done|]. rewrite compare_sub_0. by apply Z.compare_lt_iff, Hup.
  - eexists. split; [done|]. rewrite compare_sub_0. by apply Z.compare_gt_iff, Hup.
  - destruct n as [|n]; cbn [take].
    + eexists. split; [done|]. rewrite compare_sub_0. cbn. by destruct (_ ?= _).
    + rewrite (proj2 (Z.ltb_lt _ _)) by lia. cbn [andb].
      destruct (Z.eqb_spec (toupper z) (toupper z0)) as [->|Hne].
      * rewrite Z.compare_refl.
        replace (Z.of_nat (S (S n)) - 1) with (Z.of_nat (S n)) by lia.
        apply IH; auto; lia.
      * eexists. split; [done|]. rewrite compare_sub_0.
        by destruct (Z.compare_spec (toupper z) (toupper z0)).
Qed.

Lemma strncasecmp_ok fuel m a1 a2 s1 s2 n :
  (length s1 < fuel)%nat → cstr m a1 s1 → cstr m a2 s2 → 0 ≤ n →
  ∃ r, strncasecmp fuel a1 a2 n m = Ret r m ∧
       (r ?= 0) = casecmp (take (Z.to_nat n) s1) (take (Z.to_nat n) s2).
Proof.
  intros Hf H1 H2 Hn. unfold strncasecmp. destruct (Z.ltb_spec n 1).
  - exists 0. assert (n = 0) as -> by lia. done.
  - destruct (strncasecmp_loop_ok fuel m a1 a2 s1 s2 (Nat.pred (Z.to_nat n)))
      as (r & Hr & Hc); [done..|].
    replace (S (Nat.pred (Z.to_nat n))) with (Z.to_nat n) in * by lia.
    rewrite Z2Nat.id in Hr by done. eauto.
Qed.

(** [strcasecmp] subtracts the characters without folding their case, so only
    the equality of the strings, not their order, can be read off its result. *)
Lemma strcasecmp_eq fuel m a1 a2 s1 s2 :
  (length s1 < fuel)%nat → cstr m a1 s1 → cstr m a2 s2 →
  ∃ r, strcasecmp fuel a1 a2 m = Ret r m ∧
       (r = 0 ↔ toupper <$> s1 = toupper <$> s2).
Proof.
  revert a1 a2 s1 s2. induction fuel as [|fuel IH]; intros a1 a2 s1 s2 Hf H1 H2; [lia|].
  cbn [strcasecmp]. load_head H1; load_head H2; cbn [length] in *.
  - by exists 0.
  - eexists. split; [done|]. split; [lia|done].
  - eexists. split; [done|]. split; [lia|done].
  - destruct (Z.eqb_spec (toupper z) (toupper z0)) as [E|Hne].
    + destruct (IH (a1 + 1) (a2 + 1) s1 s2) as (r & Hrun & Hi); [lia|done..|].
      exists r. split; [done|]. rewrite Hi, !fmap_cons, E. split; [by intros ->|by intros [= ?]].
    + eexists. split; [done|]. rewrite !fmap_cons. split.
      * intros. assert (z = z0) by lia. congruence.
      * congruence.
Qed.

(** ** Copies *)

Lemma strcpy_loop_ok fuel m dst src s :
  (length s < fuel)%nat → cstr m src s → mapped m dst (S (length s)) →
  dst ≤ src ∨ src + Z.of_nat (length s) < dst →
  strcpy_loop fuel dst src m = Ret tt (write_bytes dst (s ++ [0]) m).
Proof.
  revert dst src s m.
  induction fuel as [|fuel IH]; intros dst src s m Hf Hs Hd Ho; [lia|].
  cbn [strcpy_loop]. destruct Hd as [[x Hx] Hd].
  assert (∀ c, 0 ≤ c < 256 → m !! src = Some c →
    load8 src (<[dst:=c]> m) = Ret c (<[dst:=c]> m)) as Hload.
  { intros c Hc Hsrc. apply load8_Ret. rewrite lookup_insert. by case_decide. }
  load_head Hs; cbn [length] in *.
  - step_with (store8_Ret m dst 0 x Hx). change (u8 0) with 0.
    by step_with (Hload 0 ltac:(lia) Hs).
  - step_with (store8_Ret m dst z x Hx). rewrite u8_id by (unfold is_byte; lia).
    step_with (Hload z ltac:(lia) Ha). rewrite (proj2 (Z.eqb_neq z 0)) by lia.
    cbn [negb app write_bytes]. change (<[dst:=z]> m) with (write_bytes dst [z] m).
    apply IH; [lia| |by apply mapped_write|lia].
    apply cstr_write_disj; [|done]. simpl. lia.
Qed.

Lemma strcpy_ok fuel m dst src s :
  (length s < fuel)%nat → cstr m src s → mapped m dst (S (length s)) →
  dst ≤ src ∨ src + Z.of_nat (length s) < dst →
  strcpy fuel dst src m = Ret dst (write_bytes dst (s ++ [0]) m).
Proof.
  intros. unfold strcpy. erewrite bind_Ret; [done|]. by apply strcpy_loop_ok.
Qed.

Lemma strcat_ok fuel m dst src s1 s2 :
  (length s1 < fuel)%nat → (length s2 < fuel)%nat →
  Z.of_nat (length s1) < 2 ^ 64 →
  cstr m dst s1 → cstr m src s2 →
  mapped m (dst + Z.of_nat (length s1)) (S (length s2)) →
  dst + Z.of_nat (length s1) ≤ src ∨ src + Z.of_nat (length s2) < dst + Z.of_nat (length s1) →
  strcat fuel dst src m =
  Ret dst (write_bytes (dst + Z.of_nat (length s1)) (s2 ++ [0]) m).
Proof.
  intros. unfold strcat. step_with (strlen_ok fuel m dst s1 ltac:(done) ltac:(done) ltac:(done)).
  erewrite bind_Ret; [done|]. by apply strcpy_ok.
Qed.

Lemma strncpy_copy_ok fuel m dst src s n :
  (length s < fuel)%nat → cstr m src s → mapped m dst n →
  src + Z.of_nat (length s) < dst ∨ dst + Z.of_nat n ≤ src →
  let k := Nat.min n (length s) in
  strncpy_copy fuel dst src (Z.of_nat n) m =
  Ret (dst + Z.of_nat k, Z.of_nat (n - k)) (write_bytes dst (take n s) m).
Proof.
  revert dst src s n m.
  induction fuel as [|fuel IH]; intros dst src s n m Hf Hs Hd Ho; [lia|].
  cbn [strncpy_copy]. load_head Hs; cbn [length] in *.
  - rewrite take_nil, Nat.min_0_r, Nat.sub_0_r. by rewrite Z.add_0_r.
  - destruct n as [|n]; cbn [take Nat.min write_bytes].
    { by rewrite Z.add_0_r. }
    rewrite (proj2 (Z.ltb_lt _ _)) by lia. cbn [andb].
    destruct Hd as [[x Hx] Hd]. step_with (store8_Ret m dst z x Hx).
    rewrite u8_id by (unfold is_byte; lia).
    change (<[dst:=z]> m) with (write_bytes dst [z] m).
    replace (Z.of_nat (S n) - 1) with (Z.of_nat n) by lia.
    rewrite IH with (s := s); [f_equal; zeq|lia| |by apply mapped_write|lia].
    apply cstr_write_disj; [|done]. simpl. lia.
Qed.

Lemma strncpy_clear_ok fuel m dst n :
  (n ≤ fuel)%nat → mapped m dst n →
  strncpy_clear fuel dst (Z.of_nat n) m = Ret tt (write_bytes dst (replicate n 0) m).
Proof.
  revert fuel m dst. induction n as [|n IH]; intros fuel m dst Hf Hd.
  { by destruct fuel. }
  destruct fuel as [|fuel]; [lia|]. cbn [strncpy_clear replicate write_bytes].
  destruct Hd as [[x Hx] Hd]. rewrite (proj2 (Z.ltb_lt _ _)) by lia.
  step_with (store8_Ret m dst 0 x Hx). change (u8 0) with 0.
  replace (Z.of_nat (S n) - 1) with (Z.of_nat n) by lia.
  change (<[dst:=0]> m) with (write_bytes dst [0] m).
  by rewrite IH by (lia || by apply mapped_write).
Qed.

(** What [strncpy] leaves in a buffer of [n] bytes. *)
Definition strncpy_image (n : nat) (s : list Z) : list Z :=
  take n s ++ replicate (n - length s) 0.

Lemma strncpy_ok fuel m dst src s n :
  (length s < fuel)%nat → cstr m src s → mapped m dst n →
  src + Z.of_nat (length s) < dst ∨ dst + Z.of_nat n ≤ src →
  strncpy fuel dst src (Z.of_nat n) m = Ret dst (write_bytes dst (strncpy_image n s) m).
Proof.
  intros Hf Hs Hd Ho. unfold strncpy.
  step_with (strncpy_copy_ok fuel m dst src s n Hf Hs Hd Ho).
  set (k := Nat.min n (length s)). rewrite Nat2Z.id.
  erewrite bind_Ret; last first.
  { apply strncpy_clear_ok; [done|]. apply mapped_write.
    replace n with (k + (n - k))%nat in Hd by lia. by apply mapped_app in Hd as [_ Hd]. }
  unfold strncpy_image. rewrite write_bytes_app, length_take.
  by replace (n - length s)%nat with (n - k)%nat by lia.
Qed.

(** ** Searches *)

Lemma strchr_loop_ok fuel m a s cb :
  (length s < fuel)%nat → cstr m a s →
  strchr_loop fuel a cb m = Ret (ptr_of (find_byte a cb s)) m.
Proof.
  revert a s. induction fuel as [|fuel IH]; intros a s Hf Hs; [lia|].
  cbn [strchr_loop]. load_head Hs; cbn [length find_byte] in *; [done|].
  destruct (z =? cb); [done|]. apply IH; [lia|done].
Qed.

(** The address of the last [cb] of [s], which lies at [a]. *)
Fixpoint find_last (a cb : Z) (s : list Z) (last : option Z) : option Z :=
  match s with
  | [] => last
  | c :: s => find_last (a + 1) cb s (if c =? cb then Some a else last)
  end.

Lemma strrchr_loop_ok fuel m a s cb last :
  (length s < fuel)%nat → cstr m a s →
  strrchr_loop fuel a cb (ptr_of last) m = Ret (ptr_of (find_last a cb s last)) m.
Proof.
  revert a s last. induction fuel as [|fuel IH]; intros a s last Hf Hs; [lia|].
  cbn [strrchr_loop]. load_head Hs; cbn [length find_last] in *; [done|].
  rewrite <- IH by (done || lia). by destruct (z =? cb).
Qed.

Lemma find_last_Some a cb s p :
  find_last a cb s None = Some p ↔
  ∃ i, p = a + Z.of_nat i ∧ s !! i = Some cb ∧ cb ∉ drop (S i) s.
Proof.
  assert (∀ s a o, cb ∉ s → find_last a cb s o = o) as Hnone.
  { clear. intros s. induction s as [|c s IH]; intros a o H; simpl; [done|].
    destruct (Z.eqb_spec c cb); [set_solver|]. apply IH. set_solver. }
  assert (∀ s a o, cb ∈ s → find_last a cb s o = find_last a cb s None) as Hsome.
  { clear. intros s. induction s as [|c s IH]; intros a o H; simpl; [set_solver|].
    destruct (decide (cb ∈ s)) as [Hin|Hout].
    { by rewrite (IH _ (if c =? cb then Some a else o)),
        (IH _ (if c =? cb then Some a else None)). }
    destruct (Z.eqb_spec c cb); [done|set_solver]. }
  revert a. induction s as [|c s IH]; intros a; simpl.
  { split; [done|]. intros (i & _ & H & _). done. }
  destruct (decide (cb ∈ s)) as [Hin|Hout].
  - rewrite Hsome by done. rewrite IH. split.
    + intros (i & -> & Hi & Hn). exists (S i). simpl. split_and!; [lia|done..].
    + intros ([|i] & -> & Hi & Hn); simpl in *; [by rewrite drop_0 in Hn|].
      exists i. split_and!; [lia|done..].
  - rewrite Hnone by done. split.
    + destruct (Z.eqb_spec c cb) as [->|]; [|done]. intros [= <-].
      exists 0%nat. simpl. rewrite drop_0. split_and!; [lia|done..].
    + intros ([|i] & -> & Hi & Hn); simpl in *.
      * destruct (Z.eqb_spec c cb); [f_equal; lia|congruence].
      * apply list_elem_of_lookup_2 in Hi. done.
Qed.

(** The address of the first occurrence of [needle] in [hay], at [a]. *)
Fixpoint find_sub (a : Z) (needle hay : list Z) : option Z :=
  match hay with
  | [] => None
  | _ :: hay' =>
      if decide (take (length needle) hay = needle) then Some a
      else find_sub (a + 1) needle hay'
  end.

Lemma strstr_loop_ok k fuel m pos needle h n :
  (length h ≤ k)%nat → (length h < fuel)%nat → cstr m pos h → cstr m needle n →
  strstr_loop k fuel pos (pos + Z.of_nat (length h)) needle (Z.of_nat (length n)) m =
  Ret (ptr_of (find_sub pos n h)) m.
Proof.
  revert k pos. induction h as [|b h IH]; intros k pos Hk Hf Hh Hn.
  { cbn [length]. rewrite Z.add_0_r. destruct k; cbn [strstr_loop];
      by rewrite (proj2 (Z.ltb_ge pos pos)) by lia. }
  destruct k as [|k]; cbn [length strstr_loop find_sub] in *; [lia|].
  rewrite (proj2 (Z.ltb_lt _ _)) by lia.
  destruct (strncmp_ok fuel m pos needle (b :: h) n (Z.of_nat (length n)))
    as (r & Hrun & Hr); [simpl; lia|done|done|lia|].
  step_with Hrun. rewrite Nat2Z.id, firstn_all in Hr.
  destruct (Z.eqb_spec r 0) as [->|Hne].
  - rewrite decide_True; [done|]. symmetry in Hr. by apply lexcmp_eq in Hr.
  - rewrite decide_False.
    + apply cstr_cons in Hh as (_ & _ & Hh).
      replace (pos + Z.of_nat (S (length h))) with (pos + 1 + Z.of_nat (length h)) by lia.
      apply IH; auto; lia.
    + intros E. apply Hne, Z.compare_eq_iff. rewrite Hr. by apply lexcmp_eq.
Qed.

Lemma strstr_ok fuel m hay needle h n :
  (length h < fuel)%nat → (length n < fuel)%nat →
  Z.of_nat (length h) < 2 ^ 64 → Z.of_nat (length n) < 2 ^ 64 →
  cstr m hay h → cstr m needle n → hay ≠ NULL → needle ≠ NULL →
  strstr fuel hay needle m =
  Ret (if decide (n = []) then hay else ptr_of (find_sub hay n h)) m.
Proof.
  intros Hf1 Hf2 Hl1 Hl2 Hh Hn H1 H2. unfold strstr.
  rewrite (proj2 (Z.eqb_neq hay NULL)), (proj2 (Z.eqb_neq needle NULL)) by done.
  cbn [orb]. step_with (strlen_ok fuel m hay h Hf1 Hh Hl1).
  step_with (strlen_ok fuel m needle n Hf2 Hn Hl2).
  destruct n as [|c n]; [done|]. cbn [length].
  rewrite (proj2 (Z.ltb_ge _ 1)), decide_False by (done || lia).
  rewrite Nat2Z.id. by apply (strstr_loop_ok _ _ _ _ _ h (c :: n)).
Qed.

Lemma find_sub_Some a n h p :
  n ≠ [] →
  find_sub a n h = Some p ↔
  ∃ i, p = a + Z.of_nat i ∧ n `prefix_of` drop i h ∧
       ∀ j, (j < i)%nat → ¬ n `prefix_of` drop j h.
Proof.
  intros Hn.
  assert (∀ l, take (length n) l = n ↔ n `prefix_of` l) as Hpre.
  { intros l. split.
    - intros <-. apply prefix_take.
    - intros [k ->]. apply take_app_length. }
  revert a. induction h as [|b h IH]; intros a; simpl.
  { split; [done|]. intros (i & _ & H & _). rewrite drop_nil in H.
    by apply prefix_nil_inv in H. }
  case_decide as E.
  - apply Hpre in E. split.
    + intros [= <-]. exists 0%nat. split_and!; [lia|done|lia].
    + intros ([|i] & -> & Hi & Hm); [f_equal; lia|].
      exfalso. apply (Hm 0%nat); [lia|done].
  - rewrite Hpre in E. rewrite IH. split.
    + intros (i & -> & Hi & Hm). exists (S i). split_and!; [lia|done|].
      intros [|j] Hj; [done|]. apply Hm. lia.
    + intros ([|i] & -> & Hi & Hm); [done|]. exists i. split_and!; [lia|done|].
      intros j Hj. apply (Hm (S j)). lia.
Qed.

(** ** Tokens *)

(** The longest prefix of [s] whose characters satisfy [P], and the rest. *)
Fixpoint span (P : Z → bool) (s : list Z) : list Z * list Z :=
  match s with
  | [] => ([], [])
  | c :: s' => if P c then let '(p, r) := span P s' in (c :: p, r) else ([], s)
  end.

Definition is_delim (delims : list Z) (c : Z) : bool := bool_decide (c ∈ delims).

(** The maximal runs of [s] without a delimiter. *)
Fixpoint words_fuel (fuel : nat) (delims s : list Z) : list (list Z) :=
  match fuel with
  | O => []
  | S fuel =>
      match (span (is_delim delims) s).2 with
      | [] => []
      | s' => let '(w, r) := span (λ c, negb (is_delim delims c)) s' in
              w :: words_fuel fuel delims r
      end
  end.

Definition words (delims s : list Z) : list (list Z) :=
  words_fuel (S (length s)) delims s.

Lemma span_app P s : (span P s).1 ++ (span P s).2 = s.
Proof.
  induction s as [|c s IH]; simpl; [done|]. destruct (P c); [|done].
  destruct (span P s). simpl in *. by rewrite IH.
Qed.

Lemma span_Forall P s : Forall (λ c, P c = true) (span P s).1.
Proof.
  induction s as [|c s IH]; simpl; [by constructor|]. destruct (P c) eqn:E; [|by constructor].
  destruct (span P s). by constructor.
Qed.

Lemma span_head P s c r : (span P s).2 = c :: r → P c = false.
Proof.
  induction s as [|d s IH]; simpl; [done|]. destruct (P d) eqn:E.
  - destruct (span P s). done.
  - by intros [= -> ->].
Qed.

Lemma span_unique P p r :
  Forall (λ c, P c = true) p → (∀ c r', r = c :: r' → P c = false) →
  span P (p ++ r) = (p, r).
Proof.
  intros Hp Hr. induction Hp as [|c p Hc Hp IH]; simpl.
  - destruct r as [|c r']; simpl; [done|]. by rewrite (Hr c r').
  - by rewrite Hc, IH.
Qed.

Lemma strtok_scan_ok fuel m pp src delims c :
  (length delims < fuel)%nat → cstr m pp delims → m !! src = Some c →
  ∃ q p, strtok_scan fuel pp src m = Ret q m ∧ m !! q = Some p ∧
         (p =? 0) = negb (is_delim delims c).
Proof.
  unfold is_delim. revert pp delims.
  induction fuel as [|fuel IH]; intros pp delims Hf Hp Hs; [lia|].
  cbn [strtok_scan]. load_head Hp; cbn [length] in *.
  - exists pp, 0. rewrite bool_decide_eq_false_2 by set_solver. done.
  - step_with (load8_Ret m src c Hs). destruct (Z.eqb_spec z c) as [->|Hne].
    + exists pp, c. rewrite bool_decide_eq_true_2 by set_solver.
      split_and!; [done|done|]. by apply Z.eqb_neq; lia.
    + destruct (IH (pp + 1) delims) as (q & p & H1 & H2 & H3); [lia|done..|].
      exists q, p. split_and!; [done|done|]. rewrite H3. f_equal.
      apply bool_decide_ext. set_solver.
Qed.

Section strtok.
Variables (pfuel : nat) (pattern : Z) (delims : list Z).
Hypothesis pfuel_ok : (length delims < pfuel)%nat.

(** The pattern is a string outside the [n] bytes at [src]. *)
Definition pattern_at (m : mem) (src : Z) (n : nat) : Prop :=
  cstr m pattern delims ∧
  (pattern + Z.of_nat (length delims) < src ∨ src + Z.of_nat n ≤ pattern).

Lemma pattern_write m src n a bs :
  src ≤ a → a + Z.of_nat (length bs) ≤ src + Z.of_nat n →
  pattern_at m src n → pattern_at (write_bytes a bs m) src n.
Proof. intros H1 H2 [H3 H4]. split; [|done]. apply cstr_write_disj; [lia|done]. Qed.

(** One turn of the loop, on a character that is not the terminator. *)
Lemma strtok_loop_step fuel m src ret c :
  cstr m pattern delims → m !! src = Some c → c ≠ 0 →
  strtok_loop (S fuel) pfuel src ret pattern m =
  (if is_delim delims c
   then store8 src 0;; strtok_loop fuel pfuel (src + 1) ret pattern
   else if ret =? NULL then strtok_loop fuel pfuel (src + 1) src pattern
   else prev ← load8 (src - 1);
        if prev =? 0 then mret (ret, src)
        else strtok_loop fuel pfuel (src + 1) ret pattern) m.
Proof.
  intros Hp Hs Hc. cbn [strtok_loop]. step_with (load8_Ret m src c Hs).
  rewrite (proj2 (Z.eqb_neq c 0) Hc). cbn [negb].
  destruct (strtok_scan_ok pfuel m pattern src delims c) as (q & p & H1 & H2 & H3);
    [done..|].
  step_with H1. step_with (load8_Ret m q p H2). rewrite H3. by destruct (is_delim delims c).
Qed.

Lemma strtok_loop_end fuel m src ret :
  m !! src = Some 0 → strtok_loop (S fuel) pfuel src ret pattern m = Ret (ret, src) m.
Proof. intros H. cbn [strtok_loop]. by step_with (load8_Ret m src 0 H). Qed.

(** Delimiters are overwritten. *)
Lemma strtok_loop_delims fuel m src ret ds :
  Forall (λ c, is_delim delims c = true) ds → Forall (λ c, 0 < c < 256) ds →
  bytes_at m src ds → pattern_at m src (length ds) →
  strtok_loop (length ds + fuel) pfuel src ret pattern m =
  strtok_loop fuel pfuel (src + Z.of_nat (length ds)) ret pattern
    (write_bytes src (replicate (length ds) 0) m).
Proof.
  intros Hds Hr. revert src m. induction Hds as [|c ds Hc Hds IH]; intros src m Hb Hp.
  { cbn [length Nat.add]. by rewrite Z.add_0_r. }
  apply Forall_cons in Hr as [Hc0 Hr]. destruct Hb as [Hc1 Hb].
  cbn [length Nat.add replicate write_bytes] in *.
  rewrite (strtok_loop_step _ m src ret c) by (apply Hp || done || lia).
  rewrite Hc. step_with (store8_Ret m src 0 c Hc1). change (u8 0) with 0.
  change (<[src:=0]> m) with (write_bytes src [0] m). rewrite IH.
  - f_equal. lia.
  - done.
  - apply bytes_at_write_disj; [|done]. simpl. lia.
  - apply (pattern_write _ src _ src [0]) in Hp as [Hp1 Hp2]; [|simpl; lia..].
    split; [done|]. lia.
Qed.

(** The characters of a token are passed over. *)
Lemma strtok_loop_token fuel m src ret w prev :
  Forall (λ c, is_delim delims c = false) w → Forall (λ c, 0 < c < 256) w →
  bytes_at m src w → cstr m pattern delims → ret ≠ NULL →
  m !! (src - 1) = Some prev → prev ≠ 0 →
  strtok_loop (length w + fuel) pfuel src ret pattern m =
  strtok_loop fuel pfuel (src + Z.of_nat (length w)) ret pattern m.
Proof.
  intros Hw Hr. revert src prev.
  induction Hw as [|c w Hc Hw IH]; intros src prev Hb Hp Hret Hprev Hp0.
  { cbn [length Nat.add]. by rewrite Z.add_0_r. }
  apply Forall_cons in Hr as [Hc0 Hr]. destruct Hb as [Hc1 Hb].
  cbn [length Nat.add].
  rewrite (strtok_loop_step _ m src ret c) by (done || lia).
  rewrite Hc, (proj2 (Z.eqb_neq ret NULL)) by done.
  step_with (load8_Ret m _ prev Hprev). rewrite (proj2 (Z.eqb_neq prev 0)) by done.
  rewrite (IH Hr (src + 1) c); [f_equal; lia|done..| |lia].
  by replace (src + 1 - 1) with src by lia.
Qed.

(** A call that finds the token [w]: it is returned, terminated, and [r], from
    the next token on, is left for the next call. *)
Lemma strtok_loop_word fuel m src ds w ds2 r :
  let s := ds ++ w ++ ds2 ++ r in
  let t := src + Z.of_nat (length ds) in
  let nxt := t + Z.of_nat (length w) + Z.of_nat (length ds2) in
  (length s < fuel)%nat → cstr m src s → pattern_at m src (length s) →
  Forall (λ c, is_delim delims c = true) ds →
  Forall (λ c, is_delim delims c = false) w → w ≠ [] →
  Forall (λ c, is_delim delims c = true) ds2 →
  (∀ c r', r = c :: r' → is_delim delims c = false ∧ ds2 ≠ []) →
  t ≠ NULL →
  strtok_loop fuel pfuel src NULL pattern m =
  Ret (t, nxt) (write_bytes (t + Z.of_nat (length w)) (replicate (length ds2) 0)
                 (write_bytes src (replicate (length ds) 0) m)).
Proof.
  intros s t nxt Hf Hs Hp Hds Hw Hw0 Hds2 Hr Ht.
  pose proof Hs as [Hall Hrange]. unfold s in Hs, Hrange.
  rewrite !Forall_app in Hrange. destruct Hrange as (Hr1 & Hr2 & Hr3 & Hr4).
  apply cstr_app in Hs as [Hb1 Hs]. pose proof Hs as Hs'.
  apply cstr_app in Hs as [Hb2 Hs]. apply cstr_app in Hs as [Hb3 Hs4].
  fold t in Hb2, Hb3, Hs4.
  destruct w as [|c w]; [done|]. unfold s in Hf, Hp. clear s Hs' Hall.
  rewrite !length_app in *. cbn [length] in *.
  set (m1 := write_bytes src (replicate (length ds) 0) m).
  assert (length (replicate (length ds) 0) = length ds) as Hz1 by apply length_replicate.
  assert (length (replicate (length ds2) 0) = length ds2) as Hz2 by apply length_replicate.
  assert (pattern_at m1 src (length ds + S (length w) + length ds2)) as [Hp1 Hp2].
  { apply pattern_write; [lia|lia|]. destruct Hp as [? ?]. split; [done|lia]. }
  assert (bytes_at m1 t (c :: w)) as [Hc Hb2'] by (apply bytes_at_write_disj; [lia|done]).
  assert (bytes_at m1 (t + Z.of_nat (S (length w))) ds2) as Hb3'
    by (apply bytes_at_write_disj; [lia|done]).
  apply Forall_cons in Hr2 as [Hc0 Hr2]. apply Forall_cons in Hw as [Hcd Hw].
  replace fuel with (length ds + (S (length w + (length ds2 +
    S (fuel - (length ds + S (length w) + length ds2 + 1))))))%nat by lia.
  rewrite strtok_loop_delims; [|done..|destruct Hp; split; [done|lia]].
  fold t m1. rewrite (strtok_loop_step _ m1 t NULL c) by (done || lia).
  rewrite Hcd, Z.eqb_refl.
  rewrite (strtok_loop_token _ _ _ _ _ c); [|done..|by replace (t + 1 - 1) with t by lia|lia].
  replace (t + 1 + Z.of_nat (length w)) with (t + Z.of_nat (S (length w))) by lia.
  rewrite strtok_loop_delims; [|done..|split; [done|lia]].
  fold nxt. set (m2 := write_bytes _ _ m1).
  destruct r as [|d r].
  { apply strtok_loop_end. unfold m2, m1.
    rewrite !lookup_write_bytes_out by lia. by apply cstr_nil in Hs4. }
  destruct (Hr d r eq_refl) as [Hd Hds2']. apply Forall_cons in Hr4 as [Hd0 _].
  apply cstr_cons in Hs4 as (Hs4 & _ & _).
  rewrite (strtok_loop_step _ m2 nxt t d); [| |unfold m2, m1, nxt;
    by rewrite !lookup_write_bytes_out by lia|lia].
  - rewrite Hd, (proj2 (Z.eqb_neq t NULL)) by done.
    assert (m2 !! (nxt - 1) = Some 0) as Hprev.
    { unfold m2. rewrite lookup_write_bytes, decide_True by (destruct ds2; simpl in *; done || lia).
      apply lookup_replicate_2. destruct ds2; simpl in *; done || lia. }
    by step_with (load8_Ret m2 _ 0 Hprev).
  - unfold m2. apply cstr_write_disj; [lia|done].
Qed.
End strtok.

Lemma span_app_pass P p r :
  Forall (λ c, P c = true) p → (span P (p ++ r)).2 = (span P r).2.
Proof.
  induction 1 as [|c p Hc Hp IH]; simpl; [done|]. rewrite Hc.
  destruct (span P (p ++ r)). by rewrite <- IH.
Qed.

Lemma words_fuel_enough f1 f2 delims s :
  (length s < f1)%nat → (length s < f2)%nat →
  words_fuel f1 delims s = words_fuel f2 delims s.
Proof.
  revert f2 s. induction f1 as [|f1 IH]; intros [|f2] s H1 H2; [lia..|].
  cbn [words_fuel]. pose proof (span_app (is_delim delims) s) as E.
  pose proof (span_head (is_delim delims) s) as Eh.
  destruct (span (is_delim delims) s).2 as [|c r]; [done|].
  specialize (Eh c r eq_refl).
  pose proof (span_app (λ c, negb (is_delim delims c)) (c :: r)) as E2.
  destruct (span (λ c, negb (is_delim delims c)) (c :: r)) as [w r'] eqn:Ew.
  simpl in Ew. rewrite Eh in Ew. simpl in Ew.
  destruct (span (λ c, negb (is_delim delims c)) r) as [w0 r0]. simplify_eq.
  assert (length r' < length s)%nat.
  { rewrite <- E, length_app. simpl in E2 |- *. injection E2 as E2.
    rewrite <- E2, length_app. lia. }
  f_equal. apply IH; lia.
Qed.

Lemma words_delims delims ds s :
  Forall (λ c, is_delim delims c = true) ds → words delims (ds ++ s) = words delims s.
Proof.
  intros H. unfold words. rewrite (words_fuel_enough _ (S (length (ds ++ s))) delims s)
    by (rewrite ?length_app; lia).
  cbn [words_fuel]. by rewrite span_app_pass.
Qed.

Lemma words_none delims ds :
  Forall (λ c, is_delim delims c = true) ds → words delims ds = [].
Proof. intros H. rewrite <- (app_nil_r ds). by rewrite words_delims. Qed.

Lemma words_word delims w s :
  Forall (λ c, is_delim delims c = false) w → w ≠ [] →
  (∀ c s', s = c :: s' → is_delim delims c = true) →
  words delims (w ++ s) = w :: words delims s.
Proof.
  intros Hw Hw0 Hs. destruct w as [|c w]; [done|].
  unfold words at 1. cbn [words_fuel app].
  apply Forall_cons in Hw as [Hc Hw]. cbn [span]. rewrite Hc. cbn [snd span].
  rewrite Hc. cbn [negb]. rewrite span_unique.
  - f_equal. apply words_fuel_enough; simpl; rewrite ?length_app; lia.
  - eapply Forall_impl; [done|]. simpl. by intros ? ->.
  - intros d s' ->. by rewrite (Hs d s').
Qed.

(** Every string is delimiters, then nothing or a token, delimiters and the
    rest, which starts with a token. *)
Lemma words_cases delims s :
  (Forall (λ c, is_delim delims c = true) s ∧ words delims s = []) ∨
  ∃ ds w ds2 r, s = ds ++ w ++ ds2 ++ r ∧
    Forall (λ c, is_delim delims c = true) ds ∧
    Forall (λ c, is_delim delims c = false) w ∧ w ≠ [] ∧
    Forall (λ c, is_delim delims c = true) ds2 ∧
    (∀ c r', r = c :: r' → is_delim delims c = false ∧ ds2 ≠ []) ∧
    words delims s = w :: words delims r.
Proof.
  pose proof (span_app (is_delim delims) s) as E1.
  pose proof (span_Forall (is_delim delims) s) as F1.
  pose proof (span_head (is_delim delims) s) as H1.
  destruct (span (is_delim delims) s) as [ds s1]. simpl in *.
  destruct s1 as [|c s1].
  { left. rewrite app_nil_r in E1. subst s. split; [done|]. by apply words_none. }
  right. specialize (H1 c s1 eq_refl).
  pose proof (span_app (λ c, negb (is_delim delims c)) (c :: s1)) as E2.
  pose proof (span_Forall (λ c, negb (is_delim delims c)) (c :: s1)) as F2.
  pose proof (span_head (λ c, negb (is_delim delims c)) (c :: s1)) as H2.
  assert ((span (λ c, negb (is_delim delims c)) (c :: s1)).1 ≠ []) as Hw0.
  { simpl. rewrite H1. simpl. by destruct (span _ s1). }
  destruct (span (λ c, negb (is_delim delims c)) (c :: s1)) as [w s2]. simpl in *.
  pose proof (span_app (is_delim delims) s2) as E3.
  pose proof (span_Forall (is_delim delims) s2) as F3.
  pose proof (span_head (is_delim delims) s2) as H3.
  destruct (span (is_delim delims) s2) as [ds2 r]. simpl in *.
  assert (Forall (λ c, is_delim delims c = false) w) as F2'.
  { eapply Forall_impl; [done|]. simpl. intros d. by destruct (is_delim delims d). }
  exists ds, w, ds2, r. split_and!; try done.
  - by rewrite E3, E2.
  - intros d r' ->. split; [by eapply H3|]. intros ->.
    specialize (H3 d r' eq_refl). simpl in E3. subst s2.
    specialize (H2 d r' eq_refl). by rewrite H3 in H2.
  - rewrite <- E1, <- E2, words_delims by done. rewrite words_word; [|done..|].
    + f_equal. rewrite <- E3. by apply words_delims.
    + intros d s' ->. specialize (H2 d s' eq_refl). by destruct (is_delim delims d).
Qed.

(** Calling [strtok] until it returns the null pointer, as its clients do. *)
Fixpoint strtok_all (k fuel : nat) (src pattern nxtTok : Z) : M mem (list Z) :=
  match k with
  | O => out_of_fuel
  | S k =>
      '(t, nxtTok) ← strtok fuel src pattern nxtTok;
      if t =? NULL then mret []
      else ts ← strtok_all k fuel NULL pattern nxtTok; mret (t :: ts)
  end.

Lemma strtok_start fuel src pattern nxtTok m :
  src ≠ NULL ∨ src = NULL ∧ nxtTok ≠ NULL →
  strtok fuel src pattern nxtTok m =
  strtok_loop fuel fuel (if src =? NULL then nxtTok else src) NULL pattern m.
Proof.
  intros H. unfold strtok. destruct (Z.eqb_spec src NULL) as [E|E]; [|done].
  destruct (Z.eqb_spec nxtTok NULL) as [E'|E']; [|done]. exfalso. tauto.
Qed.

(** What one call does, in terms of the words of the string it starts on. *)
Lemma strtok_loop_ok fuel pfuel m start pattern delims s :
  (length s < fuel)%nat → (length delims < pfuel)%nat → 0 < start →
  cstr m start s → pattern_at pattern delims m start (S (length s)) →
  ∃ t nxt m', strtok_loop fuel pfuel start NULL pattern m = Ret (t, nxt) m' ∧
    (∀ a, a < start ∨ start + Z.of_nat (length s) ≤ a → m' !! a = m !! a) ∧
    match words delims s with
    | [] => t = NULL
    | w :: ws => ∃ r, ws = words delims r ∧ (length r < length s)%nat ∧
        start ≤ t ∧ nxt + Z.of_nat (length r) = start + Z.of_nat (length s) ∧
        (t + Z.of_nat (length w) < nxt ∨ r = [] ∧ t + Z.of_nat (length w) = nxt) ∧
        cstr m' t w ∧ cstr m' nxt r
    end.
Proof.
  intros Hf Hfd Hpos Hs [Hp1 Hp2].
  destruct (words_cases delims s)
    as [[Hds ->]|(ds & w & ds2 & r & -> & Hds & Hw & Hw0 & Hds2 & Hr & ->)].
  - exists NULL, (start + Z.of_nat (length s)), (write_bytes start (replicate (length s) 0) m).
    split_and!; [|intros; by rewrite lookup_write_bytes_out by (rewrite length_replicate; lia)|done].
    replace fuel with (length s + S (fuel - S (length s)))%nat by lia.
    pose proof Hs as [Hb Hrange]. apply bytes_at_app in Hb as [Hb _].
    rewrite (strtok_loop_delims pfuel pattern delims); [|done..|split; [done|lia]].
    apply strtok_loop_end. rewrite lookup_write_bytes_out by (rewrite length_replicate; lia).
    by apply cstr_end.
  - assert (length (replicate (length ds) 0) = length ds) as Hz1 by apply length_replicate.
    assert (length (replicate (length ds2) 0) = length ds2) as Hz2 by apply length_replicate.
    eexists _, _, _. split_and!.
    { apply (strtok_loop_word pfuel pattern delims Hfd fuel m start ds w ds2 r); try done;
        [split; [done|lia]|unfold NULL; lia]. }
    { intros a Ha. rewrite !length_app in Ha. by rewrite !lookup_write_bytes_out by lia. }
    pose proof Hs as [_ Hrange]. rewrite !Forall_app in Hrange. destruct_and! Hrange.
    apply cstr_app in Hs as [Hb1 Hs]. apply cstr_app in Hs as [Hb2 Hs].
    pose proof Hs as Hend. apply cstr_app in Hs as [Hb3 Hs].
    assert (0 < length w)%nat by (destruct w; simpl; done || lia).
    rewrite !length_app. exists r. split_and!; [done|lia|lia|lia| | |].
    + destruct ds2 as [|d ds2]; [right|left; simpl; lia]. split; [|simpl; lia].
      destruct r as [|c r']; [done|]. by destruct (proj2 (Hr c r' eq_refl)).
    + apply cstr_intro; [by rewrite !bytes_at_write_disj by lia|done|].
      destruct ds2 as [|d ds2]; cbn [length replicate write_bytes] in *.
      * destruct r as [|c r']; [|by destruct (proj2 (Hr c r' eq_refl))].
        rewrite lookup_write_bytes_out by lia. by apply cstr_nil in Hend.
      * rewrite lookup_write_bytes_out by (rewrite length_replicate; lia).
        apply lookup_insert_eq.
    + by rewrite !cstr_write_disj by lia.
Qed.

Lemma strtok_all_ok k fuel m src nxtTok start pattern delims s :
  (length s < k)%nat → (length s < fuel)%nat → (length delims < fuel)%nat →
  start = (if src =? NULL then nxtTok else src) → 0 < start →
  cstr m start s → pattern_at pattern delims m start (S (length s)) →
  ∃ ts m', strtok_all k fuel src pattern nxtTok m = Ret ts m' ∧
    Forall2 (cstr m') ts (words delims s) ∧
    (∀ a, a < start ∨ start + Z.of_nat (length s) ≤ a → m' !! a = m !! a).
Proof.
  revert m src nxtTok start s.
  induction k as [|k IH]; intros m src nxtTok start s Hk Hf Hfd Hstart Hpos Hs Hp; [lia|].
  destruct (strtok_loop_ok fuel fuel m start pattern delims s)
    as (t & nxt & m1 & Hrun & Hframe & Hpost); [done..|].
  cbn [strtok_all]. erewrite bind_Ret; last first.
  { rewrite strtok_start; [by rewrite <- Hstart|].
    destruct (Z.eqb_spec src NULL); unfold NULL in *; lia. }
  cbn beta iota. destruct (words delims s) as [|w ws].
  { subst t. rewrite Z.eqb_refl. exists [], m1. split_and!; [done|constructor|done]. }
  destruct Hpost as (r & -> & Hlen & Ht & Hnxt & Hord & Hw & Hr).
  rewrite (proj2 (Z.eqb_neq t NULL)) by (unfold NULL; lia).
  destruct (IH m1 NULL nxt nxt r) as (ts & m2 & Hrun2 & Hts & Hframe2);
    [lia|lia|done|done|lia|done| |].
  { destruct Hp as [Hp1 Hp2]. split; [|lia].
    eapply cstr_agree; [|done]. intros a Ha. apply Hframe. lia. }
  exists (t :: ts), m2. split_and!.
  - by rewrite (bind_Ret _ _ _ _ _ Hrun2).
  - constructor; [|done]. eapply cstr_agree; [|done]. intros a Ha. apply Hframe2.
    destruct Hord as [?|[-> ?]]; simpl in *; lia.
  - intros a Ha. rewrite Hframe2, Hframe by lia. done.
Qed.
