(* ===== verification/Strtol.v ===== *)
(** * Reading numbers

    [litedram/gen-src/sdram_init/libc/src/strtol.c] and [strtoul.c].  Both
    return the value and the final [*PTR], the address of the first character
    that is not part of the number.  [strtoul] computes modulo 2^64; in
    [strtol] a value outside [long] is signed overflow, which is [stuck]. *)
From S2P Require Import Prelude CMem LibMem LibStr.

(** ** The code *)

(** Blanks, tabs, newlines and carriage returns before the number. *)
Definition is_blank (c : Z) : bool := (c =? 32) || (c =? 9) || (c =? 10) || (c =? 13).

Fixpoint skip_blank (fuel : nat) (p : Z) : M mem Z :=
  match fuel with
  | O => out_of_fuel
  | S fuel => c ← load8 p; if is_blank c then skip_blank fuel (p + 1) else mret p
  end.

(** The test for a leading "0x". *)
Definition at_0x (p : Z) : M mem bool :=
  c ← load8 p;
  if c =? 48 then c1 ← load8 (p + 1); mret (c1 =? 120) else mret false.

(** The base that is used, from the argument and the first characters. *)
Definition choose_base (p base : Z) : M mem Z :=
  if base =? 0 then x ← at_0x p; mret (if (x : bool) then 16 else 10) else mret base.

Definition skip_0x (p base : Z) : M mem Z :=
  if base =? 16 then x ← at_0x p; mret (if (x : bool) then p + 1 + 1 else p) else mret p.

(** The digit a character stands for: [0..9], [a..z], [A..Z]. *)
Definition digit_of (c : Z) : option Z :=
  if (48 <=? c) && (c <=? 57) then Some (c - 48)
  else if (97 <=? c) && (c <=? 122) then Some (c - 97 + 10)
  else if (65 <=? c) && (c <=? 90) then Some (c - 65 + 10)
  else None.

(** The loop over the digits: [accum rval digit] is the new value of [rval]. *)
Fixpoint digit_loop (accum : Z → Z → M mem Z) (fuel : nat) (p base rval : Z) :
    M mem (Z * Z) :=
  match fuel with
  | O => out_of_fuel
  | S fuel =>
      c ← load8 p;
      if negb (c =? 0) then
        match digit_of c with
        | Some digit =>
            if digit <? base then
              rval ← accum rval digit;
              digit_loop accum fuel (p + 1) base rval
            else mret (rval, p)
        | None => mret (rval, p)
        end
      else mret (rval, p)
  end.

Definition strtoul_accum (base rval digit : Z) : M mem Z :=
  mret (u64 (u64 (rval * base) + digit)).

Definition strtoul (fuel : nat) (S_ BASE : Z) : M mem (Z * Z) :=
  if (BASE <? 0) || (36 <? BASE) then mret (0, S_)
  else
    p ← skip_blank fuel S_;
    base ← choose_base p BASE;
    p ← skip_0x p base;
    digit_loop (strtoul_accum base) fuel p base 0.

(** Signed arithmetic: out of the range of [long], undefined. *)
Definition long_checked (v : Z) : M mem Z :=
  if (- 2 ^ 63 <=? v) && (v <? 2 ^ 63) then mret v else stuck.

Definition strtol_accum (base rval digit : Z) : M mem Z :=
  v ← long_checked (rval * base); long_checked (v + digit).

Definition strtol (fuel : nat) (S_ BASE : Z) : M mem (Z * Z) :=
  if (BASE <? 0) || (36 <? BASE) then mret (0, S_)
  else
    p ← skip_blank fuel S_;
    c ← load8 p;
    let '(negative, p) := if c =? 45 then (true, p + 1) else (false, p) in
    base ← choose_base p BASE;
    p ← skip_0x p base;
    '(rval, p) ← digit_loop (strtol_accum base) fuel p base 0;
    if (negative : bool) then v ← long_checked (rval * -1); mret (v, p) else mret (rval, p).

(** ** The numbers they read *)

(** Whether the text starts with "0x". *)
Definition starts_0x (t : list Z) : bool :=
  match t with c0 :: c1 :: _ => (c0 =? 48) && (c1 =? 120) | _ => false end.

(** The base and the length of the prefix of the number at the front of [t]. *)
Definition eff_base (base : Z) (t : list Z) : Z :=
  if base =? 0 then if starts_0x t then 16 else 10 else base.
Definition eff_prefix (base : Z) (t : list Z) : nat :=
  if (eff_base base t =? 16) && starts_0x t then 2 else 0.

Definition digit_lt (base c : Z) : bool :=
  match digit_of c with Some d => d <? base | None => false end.

(** The value of a string of digits, most significant first. *)
Definition digit_val (c : Z) : Z := default 0 (digit_of c).
Definition num_value_from (base rval : Z) (cs : list Z) : Z :=
  fold_left (λ v c, v * base + digit_val c) cs rval.
Definition num_value (base : Z) (cs : list Z) : Z := num_value_from base 0 cs.

(** ** Correctness *)

Lemma digit_of_range c d : digit_of c = Some d → 0 ≤ d < 36 ∧ c ≠ 0.
Proof. unfold digit_of. intros. conds; simplify_eq/=; lia. Qed.

Lemma num_value_app base r cs1 cs2 :
  num_value_from base r (cs1 ++ cs2) = num_value_from base (num_value_from base r cs1) cs2.
Proof. apply fold_left_app. Qed.

Lemma num_value_from_shift base r cs :
  num_value_from base r cs = r * base ^ Z.of_nat (length cs) + num_value base cs.
Proof.
  unfold num_value. revert r. induction cs as [|c cs IH]; intros r.
  - unfold num_value_from. simpl. lia.
  - change (num_value_from base ?x (c :: cs))
      with (num_value_from base (x * base + digit_val c) cs).
    rewrite IH, (IH (0 * base + _)). cbn [length].
    rewrite Nat2Z.inj_succ, Z.pow_succ_r by lia. ring.
Qed.

Lemma num_value_nonneg base r cs :
  0 ≤ base → 0 ≤ r → 0 ≤ num_value_from base r cs.
Proof.
  intros Hb. revert r. induction cs as [|c cs IH]; intros r Hr; [done|].
  apply IH. unfold digit_val.
  destruct (digit_of c) eqn:E; simpl; [apply digit_of_range in E|]; nia.
Qed.

Lemma skip_blank_ok fuel m a ws t :
  (length ws < fuel)%nat → Forall (λ c, is_blank c = true) ws →
  (∀ c t', t = c :: t' → is_blank c = false) → cstr m a (ws ++ t) →
  skip_blank fuel a m = Ret (a + Z.of_nat (length ws)) m.
Proof.
  revert a ws. induction fuel as [|fuel IH]; intros a ws Hf Hws Ht Hs; [lia|].
  cbn [skip_blank]. destruct Hws as [|c ws Hc Hws]; simpl app in Hs.
  - rewrite Z.add_0_r. destruct t as [|c t].
    + apply cstr_nil in Hs. by step_with (load8_Ret m a 0 Hs).
    + apply cstr_cons in Hs as (Ha & _). step_with (load8_Ret m a c Ha).
      by rewrite (Ht c t).
  - apply cstr_cons in Hs as (Ha & _ & Hs). step_with (load8_Ret m a c Ha). rewrite Hc.
    cbn [length] in *. rewrite (IH (a + 1) ws) by (done || lia). f_equal. lia.
Qed.

Lemma at_0x_ok m a t : cstr m a t → at_0x a m = Ret (starts_0x t) m.
Proof.
  intros Hs. unfold at_0x. destruct t as [|c [|c1 t]].
  - apply cstr_nil in Hs. by step_with (load8_Ret m a 0 Hs).
  - apply cstr_cons in Hs as (Ha & _ & Hs). apply cstr_nil in Hs.
    step_with (load8_Ret m a c Ha). destruct (c =? 48); [|done].
    by step_with (load8_Ret m _ 0 Hs).
  - apply cstr_cons in Hs as (Ha & _ & Hs). apply cstr_cons in Hs as (Hb & _ & _).
    step_with (load8_Ret m a c Ha). unfold starts_0x. destruct (c =? 48); [|done].
    by step_with (load8_Ret m _ c1 Hb).
Qed.

Lemma choose_base_ok m a t base :
  cstr m a t → choose_base a base m = Ret (eff_base base t) m.
Proof.
  intros Hs. unfold choose_base, eff_base. destruct (base =? 0); [|done].
  by step_with (at_0x_ok m a t Hs).
Qed.

Lemma skip_0x_ok m a t base :
  cstr m a t →
  skip_0x a (eff_base base t) m = Ret (a + Z.of_nat (eff_prefix base t)) m.
Proof.
  intros Hs. unfold skip_0x, eff_prefix. destruct (eff_base base t =? 16); cbn [andb].
  - step_with (at_0x_ok m a t Hs). destruct (starts_0x t); unfold mret, M_ret; f_equal; lia.
  - unfold mret, M_ret. f_equal. lia.
Qed.

Lemma starts_0x_length t : starts_0x t = true → (2 ≤ length t)%nat.
Proof. destruct t as [|? [|? ?]]; simpl; try done. lia. Qed.

Lemma eff_prefix_length base t : (eff_prefix base t ≤ length t)%nat.
Proof.
  unfold eff_prefix. destruct (eff_base base t =? 16); simpl; [|lia].
  destruct (starts_0x t) eqn:E; [|lia]. by apply starts_0x_length.
Qed.

(** The digits are consumed up to the first character that is not one. *)
Lemma digit_loop_ok accum fuel m a base rval cs rest (vals : Z → Z → Z) :
  (length cs < fuel)%nat → cstr m a (cs ++ rest) →
  Forall (λ c, digit_lt base c = true) cs →
  (∀ c r', rest = c :: r' → digit_lt base c = false) →
  (∀ i c, cs !! i = Some c →
     let r := fold_left (λ v c, vals v (digit_val c)) (take i cs) rval in
     accum r (digit_val c) m = Ret (vals r (digit_val c)) m) →
  digit_loop accum fuel a base rval m =
  Ret (fold_left (λ v c, vals v (digit_val c)) cs rval, a + Z.of_nat (length cs)) m.
Proof.
  revert a rval cs. induction fuel as [|fuel IH]; intros a rval cs Hf Hs Hcs Hr Hacc; [lia|].
  cbn [digit_loop]. destruct Hcs as [|c cs Hc Hcs]; simpl app in Hs.
  - cbn [length fold_left]. rewrite Z.add_0_r. destruct rest as [|c rest].
    + apply cstr_nil in Hs. by step_with (load8_Ret m a 0 Hs).
    + apply cstr_cons in Hs as (Ha & ? & _). step_with (load8_Ret m a c Ha).
      rewrite (proj2 (Z.eqb_neq c 0)) by lia. cbn [negb].
      specialize (Hr c rest eq_refl). unfold digit_lt in Hr.
      destruct (digit_of c) as [d|]; [by rewrite Hr|done].
  - apply cstr_cons in Hs as (Ha & ? & Hs). step_with (load8_Ret m a c Ha).
    rewrite (proj2 (Z.eqb_neq c 0)) by lia. cbn [negb].
    pose proof (Hacc 0%nat c eq_refl) as Hacc0. simpl in Hacc0.
    unfold digit_lt in Hc. destruct (digit_of c) as [d|] eqn:Ed; [|done].
    assert (digit_val c = d) as Ev by (unfold digit_val; by rewrite Ed).
    rewrite Hc. rewrite Ev in Hacc0. step_with Hacc0. cbn [length fold_left] in *.
    rewrite Ev, (IH (a + 1) (vals rval d) cs); [f_equal; zeq|lia|done..|].
    intros i c' Hi. specialize (Hacc (S i) c' Hi). simpl in Hacc. by rewrite Ev in Hacc.
Qed.

(** The arithmetic of [strtoul] computes the value modulo 2^64. *)
Lemma strtoul_fold base r cs :
  fold_left (λ v c, u64 (u64 (v * base) + digit_val c)) cs (u64 r) =
  u64 (num_value_from base r cs).
Proof.
  revert r. induction cs as [|c cs IH]; intros r; [done|]. cbn [fold_left].
  change (num_value_from base r (c :: cs))
    with (num_value_from base (r * base + digit_val c) cs).
  rewrite <- IH. f_equal. unfold wrap.
  by rewrite Zplus_mod_idemp_l, <- Zplus_mod_idemp_l, Zmult_mod_idemp_l, Zplus_mod_idemp_l.
Qed.

Lemma num_value_take_le base cs i :
  1 ≤ base → Forall (λ c, digit_lt base c = true) cs →
  num_value_from base 0 (take i cs) ≤ num_value_from base 0 cs.
Proof.
  intros Hb Hcs. rewrite <- (take_drop i cs) at 2. rewrite num_value_app.
  rewrite (num_value_from_shift base (num_value_from base 0 _)).
  pose proof (num_value_nonneg base 0 (drop i cs) ltac:(lia) ltac:(lia)).
  pose proof (num_value_nonneg base 0 (take i cs) ltac:(lia) ltac:(lia)). unfold num_value.
  assert (0 < base ^ Z.of_nat (length (drop i cs))) by (apply Z.pow_pos_nonneg; lia).
  nia.
Qed.

Lemma long_checked_Ret v m : - 2 ^ 63 ≤ v < 2 ^ 63 → long_checked v m = Ret v m.
Proof.
  intros H. unfold long_checked.
  by rewrite (proj2 (Z.leb_le _ _)), (proj2 (Z.ltb_lt _ _)) by lia.
Qed.

(** While the number fits in a [long], no step of [strtol] overflows. *)
Lemma strtol_accum_ok base m cs i c :
  1 ≤ base ≤ 36 → Forall (λ c, digit_lt base c = true) cs →
  num_value base cs < 2 ^ 63 → cs !! i = Some c →
  strtol_accum base (num_value base (take i cs)) (digit_val c) m =
  Ret (num_value base (take i cs) * base + digit_val c) m.
Proof.
  intros Hb Hcs Hmax Hi. unfold strtol_accum.
  pose proof (num_value_take_le base cs (S i) ltac:(lia) Hcs) as Hle.
  rewrite (take_S_r _ _ _ Hi), num_value_app in Hle.
  change (num_value_from base ?r [c]) with (r * base + digit_val c) in Hle.
  fold (num_value base (take i cs)) (num_value base cs) in Hle.
  pose proof (num_value_nonneg base 0 (take i cs) ltac:(lia) ltac:(lia)) as Hn.
  fold (num_value base (take i cs)) in Hn.
  assert (0 ≤ digit_val c).
  { unfold digit_val. destruct (digit_of c) eqn:E; simpl; [apply digit_of_range in E|]; lia. }
  erewrite bind_Ret by (apply long_checked_Ret; nia). apply long_checked_Ret. nia.
Qed.

Section numbers.
Context (fuel : nat) (m : mem) (a BASE : Z) (ws t cs rest : list Z).
Let base := eff_base BASE t.
Let pre := eff_prefix BASE t.
Hypothesis (fuel_ok : (length ws + length t < fuel)%nat).
Hypothesis (BASE_ok : 0 ≤ BASE ≤ 36).
Hypothesis (ws_blank : Forall (λ c, is_blank c = true) ws).
Hypothesis (t_split : drop pre t = cs ++ rest).
Hypothesis (cs_digits : Forall (λ c, digit_lt base c = true) cs).
Hypothesis (rest_end : ∀ c r', rest = c :: r' → digit_lt base c = false).

Lemma digits_fuel : (length cs < fuel)%nat.
Proof using fuel_ok t_split.
  apply (f_equal length) in t_split. rewrite length_app, length_drop in t_split. lia.
Qed.

Lemma strtoul_ok :
  (∀ c t', t = c :: t' → is_blank c = false) → cstr m a (ws ++ t) →
  strtoul fuel a BASE m =
  Ret (u64 (num_value base cs),
       a + Z.of_nat (length ws) + Z.of_nat pre + Z.of_nat (length cs)) m.
Proof using fuel_ok BASE_ok ws_blank t_split cs_digits rest_end.
  intros t_text Hs. unfold strtoul.
  rewrite (proj2 (Z.ltb_ge BASE 0)), (proj2 (Z.ltb_ge 36 BASE)) by lia. cbn [orb].
  step_with (skip_blank_ok fuel m a ws t ltac:(lia) ws_blank t_text Hs).
  apply cstr_app in Hs as [_ Hs]. step_with (choose_base_ok m _ t BASE Hs).
  step_with (skip_0x_ok m _ t BASE Hs). fold base pre.
  apply (cstr_drop m _ t pre (eff_prefix_length BASE t)) in Hs. rewrite t_split in Hs.
  rewrite (digit_loop_ok _ _ _ _ base 0 cs rest (λ v d, u64 (u64 (v * base) + d)));
    [|apply digits_fuel|done..].
  pose proof (strtoul_fold base 0 cs) as E. change (u64 0) with 0 in E. by rewrite E.
Qed.

Lemma strtol_ok (negative : bool) :
  let sign := if negative then [45] else [] in
  (∀ c t', sign ++ t = c :: t' → is_blank c = false ∧ (negative = false → c ≠ 45)) →
  (S (length ws + length t) < fuel)%nat →
  1 ≤ base → num_value base cs < 2 ^ 63 → cstr m a (ws ++ sign ++ t) →
  strtol fuel a BASE m =
  Ret (if negative then - num_value base cs else num_value base cs,
       a + Z.of_nat (length ws) + Z.of_nat (length sign) + Z.of_nat pre
         + Z.of_nat (length cs)) m.
Proof using fuel_ok BASE_ok ws_blank t_split cs_digits rest_end.
  intros sign Ht Hf Hb Hmax Hs. unfold strtol.
  rewrite (proj2 (Z.ltb_ge BASE 0)), (proj2 (Z.ltb_ge 36 BASE)) by lia. cbn [orb].
  step_with (skip_blank_ok fuel m a ws (sign ++ t) ltac:(lia) ws_blank
    (λ c t' E, proj1 (Ht c t' E)) Hs).
  apply cstr_app in Hs as [_ Hs]. set (p := a + Z.of_nat (length ws)) in *.
  assert (∃ c, m !! p = Some c ∧ (c =? 45) = negative) as (c & Hc & Hneg).
  { destruct negative; simpl in *.
    - apply cstr_cons in Hs as (H & _). by exists 45.
    - destruct t as [|c t']; [apply cstr_nil in Hs; by exists 0|].
      apply cstr_cons in Hs as (H & _). exists c. split; [done|].
      apply Z.eqb_neq. by eapply Ht. }
  step_with (load8_Ret m p c Hc). rewrite Hneg.
  apply cstr_app in Hs as [_ Hs].
  replace (if negative then (true, p + 1) else (false, p))
    with (negative, p + Z.of_nat (length sign)) by (subst sign; destruct negative; simpl; f_equal; lia).
  set (q := p + Z.of_nat (length sign)) in *.
  step_with (choose_base_ok m q t BASE Hs).
  step_with (skip_0x_ok m q t BASE Hs). fold base pre.
  apply (cstr_drop m _ t pre (eff_prefix_length BASE t)) in Hs. rewrite t_split in Hs.
  assert (1 ≤ base ≤ 36) as Hb'.
  { split; [done|]. unfold base, eff_base. destruct (BASE =? 0); [|lia].
    by destruct (starts_0x t). }
  erewrite bind_Ret; last first.
  { apply (digit_loop_ok _ _ _ _ base 0 cs rest (λ v d, v * base + d)); [apply digits_fuel|done..|].
    intros i d Hi. by apply strtol_accum_ok. }
  fold (num_value_from base 0 cs) (num_value base cs). cbn beta iota.
  destruct negative; [|done].
  pose proof (num_value_nonneg base 0 cs ltac:(lia) ltac:(lia)).
  fold (num_value base cs) in *.
  erewrite bind_Ret by (apply long_checked_Ret; lia).
  replace (num_value base cs * -1) with (- num_value base cs) by lia. done.
Qed.
End numbers.
