(* ===== verification/Printf.v ===== *)
(** * Formatted output

    [litedram/gen-src/sdram_init/libc/src/vsnprintf.c].  The output buffer, the
    format and the strings that are printed are in the byte memory; so are the
    two local arrays, [formstr] (20 bytes) of [vsnprintf] and [sizec] (32
    bytes) of [print_format], in the 52 bytes of stack whose address [fr] is an
    argument.  An index outside a local array is [stuck].  A [char **buffer] that is advanced is
    modelled by returning the new [*buffer].  The variable arguments are a list
    of 64-bit values, each read as a [void *]. *)
From S2P Require Import Prelude CMem LibMem Ctype LibStr Strtol.

Definition formstr (fr : Z) : Z := fr.
Definition sizec (fr : Z) : Z := fr + 20.

(** [base[i] = v] for a local array of [len] bytes. *)
Definition array_store (base len i v : Z) : M mem unit :=
  if (0 <=? i) && (i <? len) then store8 (base + i) v else stuck.

(** [convert[]] *)
Definition convert : list Z :=
  [0x0; 0xFF; 0xFFFF; 0xFFFFFF; 0xFFFFFFFF;
   0xFFFFFFFFFF; 0xFFFFFFFFFFFF; 0xFFFFFFFFFFFFFF; 0xFFFFFFFFFFFFFFFF].

(** ** print_str_fill, print_str *)

(** [for (i = 0; i < bound && (buffer - bstart) < bufsize; i++) emit] *)
Fixpoint fill_loop (fuel : nat) (buffer bstart bufsize i bound c : Z) : M mem Z :=
  if (i <? bound) && (u64 (buffer - bstart) <? bufsize) then
    match fuel with
    | O => out_of_fuel
    | S fuel => store8 buffer c;; fill_loop fuel (buffer + 1) bstart bufsize (i + 1) bound c
    end
  else mret buffer.

Definition print_str_fill (fuel : nat) (buffer bufsize sizec str c : Z) : M mem Z :=
  let bstart := buffer in
  '(sizei, _) ← strtoul fuel sizec 10;
  len ← strlen fuel str;
  if len <? sizei
  then fill_loop fuel buffer bstart bufsize 0 (u64 (sizei - len)) c
  else mret buffer.

Fixpoint print_str_loop (fuel k : nat) (buffer bstart bufsize str i : Z) : M mem Z :=
  match k with
  | O => out_of_fuel
  | S k =>
      len ← strlen fuel str;
      if (i <? len) && (u64 (buffer - bstart) <? bufsize) then
        c ← load8 (str + i);
        store8 buffer c;;
        print_str_loop fuel k (buffer + 1) bstart bufsize str (i + 1)
      else mret buffer
  end.

Definition print_str (fuel : nat) (buffer bufsize str : Z) : M mem Z :=
  print_str_loop fuel fuel buffer buffer bufsize str 0.

(** ** print_intlen, print_itoa, print_fill *)

Fixpoint intlen_loop (fuel : nat) (value base i : Z) : M mem Z :=
  if 0 <? value then
    match fuel with
    | O => out_of_fuel
    | S fuel =>
        if base =? 16 then intlen_loop fuel (Z.shiftr value 4) base (i + 1)
        else if base =? 0 then stuck
        else intlen_loop fuel (value `div` base) base (i + 1)
    end
  else mret i.

Definition print_intlen (value base : Z) : M mem Z :=
  i ← intlen_loop 64 value base 0;
  mret (if i =? 0 then 1 else i).

(** [zeichen[]] *)
Definition zeichen : list Z :=
  [48; 49; 50; 51; 52; 53; 54; 55; 56; 57; 97; 98; 99; 100; 101; 102].

(** [do { ... (buffer)[--i] = c; value /= base; } while (value)] *)
Fixpoint itoa_loop (fuel : nat) (buffer value base : Z) (upper : bool) (i : Z) : M mem unit :=
  match fuel with
  | O => out_of_fuel
  | S fuel =>
      c ← of_option (zeichen !! Z.to_nat (value `mod` base));
      let c := if upper then toupper c else c in
      store8 (buffer + (i - 1)) c;;
      if negb (value `div` base =? 0)
      then itoa_loop fuel buffer (value `div` base) base upper (i - 1)
      else mret tt
  end.

Definition print_itoa (buffer bufsize value base : Z) (upper : bool) : M mem Z :=
  if (base <=? 2) || (16 <? base) then mret buffer
  else
    len ← print_intlen value base;
    if bufsize <? u64 len then mret buffer
    else itoa_loop 64 buffer value base upper len;; mret (buffer + len).

(** [sizei], [len] and [i] are [int]s here. *)
Definition print_fill (fuel : nat) (buffer bufsize sizec size base c optlen : Z) : M mem Z :=
  let bstart := buffer in
  '(n, _) ← strtoul fuel sizec 10;
  let sizei := s32 n in
  l ← print_intlen size base;
  let len := l + optlen in
  if len <? sizei
  then fill_loop fuel buffer bstart bufsize 0 (sizei - len) c
  else mret buffer.

(** ** print_format *)

Section print_format.
Variables (fr : Z) (fuel : nat) (start bufsize var : Z).

(** [bufsize - (buffer - start)] *)
Definition room (buffer : Z) : Z := u64 (bufsize - (buffer - start)).

Definition mask_of (length_mod : Z) : Z := default 0 (convert !! Z.to_nat length_mod).

(** [case 'u': case 'd': case 'i':] *)
Definition format_dec (signed : bool) (buffer i length_mod sign : Z) (upper : bool) : M mem Z :=
  array_store (sizec fr) 32 i 0;;
  let value := u64 var in
  let signBit := u64 (Z.shiftl 1 (length_mod * 8 - 1)) in
  '(buffer, value) ←
    (if signed && tst signBit value then
       store8 buffer 45;;
       mret (buffer + 1, Z.land (u64 (- value)) (mask_of length_mod))
     else mret (buffer, value));
  buffer ← print_fill fuel buffer (room buffer) (sizec fr) value 10 sign 0;
  print_itoa buffer (room buffer) value 10 upper.

(** [case 'X': case 'x':] with base 16, [case 'O': case 'o':] with base 8 *)
Definition format_unsigned (base : Z) (buffer i length_mod sign : Z) (upper : bool) : M mem Z :=
  array_store (sizec fr) 32 i 0;;
  let value := Z.land (u64 var) (mask_of length_mod) in
  buffer ← print_fill fuel buffer (room buffer) (sizec fr) value base sign 0;
  print_itoa buffer (room buffer) value base upper.

(** [case 'p':] ; [lit_0x] is the address of the literal "0x" *)
Definition format_ptr (lit_0x : Z) (buffer i : Z) (upper : bool) : M mem Z :=
  array_store (sizec fr) 32 i 0;;
  buffer ← print_fill fuel buffer (room buffer) (sizec fr) (u64 var) 16 32 2;
  buffer ← print_str fuel buffer (room buffer) lit_0x;
  print_itoa buffer (room buffer) (u64 var) 16 upper.

(** [case 'c':] *)
Definition format_char (buffer i : Z) : M mem Z :=
  array_store (sizec fr) 32 i 0;;
  buffer ← print_fill fuel buffer (room buffer) (sizec fr) 1 10 32 0;
  store8 buffer var;;
  mret (buffer + 1).

(** [case 's':] *)
Definition format_str (buffer i : Z) : M mem Z :=
  array_store (sizec fr) 32 i 0;;
  buffer ← print_str_fill fuel buffer (room buffer) (sizec fr) var 32;
  print_str fuel buffer (room buffer) var.

(** [while (( *form != 0 ) && ((buffer - start) < bufsize))] *)
Fixpoint format_loop (lit_0x : Z) (k : nat) (buffer form i length_mod sign : Z)
    (upper : bool) : M mem Z :=
  match k with
  | O => out_of_fuel
  | S k =>
      f ← load8 form;
      if negb (f =? 0) && (u64 (buffer - start) <? bufsize) then
        if (f =? 117) || (f =? 100) || (f =? 105) then
          buffer ← format_dec (negb (f =? 117)) buffer i length_mod sign upper;
          format_loop lit_0x k buffer (form + 1) i length_mod sign upper
        else if (f =? 88) || (f =? 120) then
          let upper := upper || (f =? 88) in
          buffer ← format_unsigned 16 buffer i length_mod sign upper;
          format_loop lit_0x k buffer (form + 1) i length_mod sign upper
        else if (f =? 79) || (f =? 111) then
          buffer ← format_unsigned 8 buffer i length_mod sign upper;
          format_loop lit_0x k buffer (form + 1) i length_mod sign upper
        else if f =? 112 then
          buffer ← format_ptr lit_0x buffer i upper;
          format_loop lit_0x k buffer (form + 1) i length_mod sign upper
        else if f =? 99 then
          buffer ← format_char buffer i;
          format_loop lit_0x k buffer (form + 1) i length_mod sign upper
        else if f =? 115 then
          buffer ← format_str buffer i;
          format_loop lit_0x k buffer (form + 1) i length_mod sign upper
        else if f =? 108 then
          f1 ← load8 (form + 1);
          if f1 =? 108
          then format_loop lit_0x k buffer (form + 1 + 1) i 8 sign upper
          else format_loop lit_0x k buffer (form + 1) i 8 sign upper
        else if f =? 104 then
          f1 ← load8 (form + 1);
          if f1 =? 104
          then format_loop lit_0x k buffer (form + 1 + 1) i 1 sign upper
          else format_loop lit_0x k buffer (form + 1) i 2 sign upper
        else if f =? 122 then format_loop lit_0x k buffer (form + 1) i 8 sign upper
        else if (48 <=? f) && (f <=? 57) then
          array_store (sizec fr) 32 i f;;
          format_loop lit_0x k buffer (form + 1) (i + 1) length_mod sign upper
        else format_loop lit_0x k buffer (form + 1) i length_mod sign upper
      else mret buffer
  end.
End print_format.

Definition print_format (fr : Z) (fuel : nat) (lit_0x buffer bufsize format var : Z) :
    M mem Z :=
  let start := buffer in
  let form := format + 1 in
  f ← load8 form;
  if (f =? 48) || (f =? 46)
  then format_loop fr fuel start bufsize var lit_0x fuel buffer (form + 1) 0 4 48 false
  else format_loop fr fuel start bufsize var lit_0x fuel buffer form 0 4 32 false.

(** ** vsnprintf *)

(** The conversion characters that end a directive. *)
Definition is_conv (c : Z) : bool :=
  (c =? 100) || (c =? 105) || (c =? 117) || (c =? 120) || (c =? 88)
  || (c =? 112) || (c =? 99) || (c =? 115) || (c =? 37) || (c =? 79) || (c =? 111).

(** [do { formstr[i] = *ptr; ptr++; i++; } while (!(conversion at ptr))] *)
Fixpoint copy_directive (fr : Z) (k : nat) (ptr i : Z) : M mem (Z * Z) :=
  match k with
  | O => out_of_fuel
  | S k =>
      c ← load8 ptr;
      array_store (formstr fr) 20 i c;;
      c ← load8 (ptr + 1);
      if is_conv c then mret (ptr + 1, i + 1) else copy_directive fr k (ptr + 1) (i + 1)
  end.

Fixpoint vsnprintf_loop (fr : Z) (fuel : nat) (lit_0x bstart bufsize : Z)
    (k : nat) (buffer ptr : Z) (arg : list Z) : M mem Z :=
  match k with
  | O => out_of_fuel
  | S k =>
      c ← load8 ptr;
      if negb (c =? 0) && (u64 (buffer - bstart) <? bufsize) then
        if c =? 37 then
          '(ptr, i) ← copy_directive fr fuel ptr 0;
          c ← load8 ptr;
          array_store (formstr fr) 20 i c;;
          array_store (formstr fr) 20 (i + 1) 0;;
          if c =? 37 then
            store8 buffer 37;;
            vsnprintf_loop fr fuel lit_0x bstart bufsize k (buffer + 1) (ptr + 1) arg
          else
            match arg with
            | [] => stuck
            | v :: arg =>
                buffer ← print_format fr fuel lit_0x buffer
                           (u64 (bufsize - (buffer - bstart))) (formstr fr) v;
                vsnprintf_loop fr fuel lit_0x bstart bufsize k buffer (ptr + 1) arg
            end
        else
          store8 buffer c;;
          vsnprintf_loop fr fuel lit_0x bstart bufsize k (buffer + 1) (ptr + 1) arg
      else mret buffer
  end.

Definition vsnprintf (fr : Z) (fuel : nat) (lit_0x buffer bufsize format : Z)
    (arg : list Z) : M mem Z :=
  if (buffer =? NULL) || (bufsize =? 0) then mret 0
  else
    let bstart := buffer in
    let bufsize := bufsize - 1 in
    buffer ← vsnprintf_loop fr fuel lit_0x bstart bufsize fuel buffer format arg;
    store8 buffer 0;;
    mret (s32 (buffer - bstart)).

(** ** Digits *)

(** The digits of [v], most significant first; none for zero. *)
Fixpoint digits_fuel (n : nat) (base v : Z) : list Z :=
  match n with
  | O => []
  | S n => if v =? 0 then [] else digits_fuel n base (v `div` base) ++ [v `mod` base]
  end.

Definition digits (base v : Z) : list Z :=
  if v =? 0 then [0] else digits_fuel 64 base v.

(** The character of a digit. *)
Definition digit_char (upper : bool) (d : Z) : Z :=
  let c := if d <? 10 then 48 + d else 87 + d in
  if upper then toupper c else c.

Definition itoa (base : Z) (upper : bool) (v : Z) : list Z :=
  digit_char upper <$> digits base v.

Lemma digits_fuel_length_pos n base v :
  0 < v → v < base ^ Z.of_nat n → (0 < length (digits_fuel n base v))%nat.
Proof.
  intros Hv Hn. destruct n as [|n]; [simpl in Hn; lia|]. cbn [digits_fuel].
  rewrite (proj2 (Z.eqb_neq v 0)) by lia. rewrite length_app. simpl. lia.
Qed.

Lemma digits_fuel_length n base v : (length (digits_fuel n base v) ≤ n)%nat.
Proof.
  revert v. induction n as [|n IH]; intros v; simpl; [done|].
  destruct (v =? 0); simpl; [lia|]. rewrite length_app. simpl. specialize (IH (v `div` base)). lia.
Qed.

Lemma div_bound base v n :
  2 ≤ base → 0 ≤ v < base ^ Z.of_nat (S n) → 0 ≤ v `div` base < base ^ Z.of_nat n.
Proof.
  intros Hb Hv. rewrite Nat2Z.inj_succ, Z.pow_succ_r in Hv by lia.
  split; [apply Z.div_pos; lia|]. apply Z.div_lt_upper_bound; lia.
Qed.

Lemma u64_lt_pow base v : 2 ≤ base → 0 ≤ v < 2 ^ 64 → 0 ≤ v < base ^ Z.of_nat 64.
Proof.
  intros Hb Hv. split; [lia|]. eapply Z.lt_le_trans; [apply Hv|].
  change (Z.of_nat 64) with 64. apply Z.pow_le_mono_l. lia.
Qed.

Lemma intlen_loop_ok fuel m base v i :
  2 ≤ base → 0 ≤ v < base ^ Z.of_nat fuel →
  intlen_loop fuel v base i m = Ret (i + Z.of_nat (length (digits_fuel fuel base v))) m.
Proof.
  intros Hb. revert v i. induction fuel as [|fuel IH]; intros v i Hv.
  { simpl in Hv. assert (v = 0) as -> by lia. cbn. by rewrite Z.add_0_r. }
  pose proof (div_bound base v fuel Hb Hv) as Hd.
  cbn [intlen_loop digits_fuel]. destruct (Z.eqb_spec v 0) as [->|Hne].
  { cbn. by rewrite Z.add_0_r. }
  rewrite (proj2 (Z.ltb_lt 0 v)) by lia.
  assert ((if base =? 16 then intlen_loop fuel (Z.shiftr v 4) base (i + 1)
           else if base =? 0 then stuck
           else intlen_loop fuel (v `div` base) base (i + 1)) =
          intlen_loop fuel (v `div` base) base (i + 1)) as ->.
  { destruct (Z.eqb_spec base 16) as [->|]; [by rewrite Z.shiftr_div_pow2|].
    by rewrite (proj2 (Z.eqb_neq base 0)) by lia. }
  rewrite IH by done. rewrite length_app. cbn [length]. f_equal. lia.
Qed.

(** [print_intlen] is the number of digits. *)
Lemma print_intlen_ok m base v :
  2 ≤ base → 0 ≤ v < 2 ^ 64 →
  print_intlen v base m = Ret (Z.of_nat (length (digits base v))) m.
Proof.
  intros Hb Hv. unfold print_intlen, digits.
  pose proof (u64_lt_pow base v Hb Hv) as Hv'.
  step_with (intlen_loop_ok 64 m base v 0 Hb Hv'). rewrite Z.add_0_l.
  destruct (Z.eqb_spec v 0) as [->|Hne]; [done|].
  pose proof (digits_fuel_length_pos 64 base v ltac:(lia) ltac:(lia)).
  by rewrite (proj2 (Z.eqb_neq _ 0)) by lia.
Qed.

Lemma zeichen_lookup d : 0 ≤ d < 16 → zeichen !! Z.to_nat d = Some (digit_char false d).
Proof.
  intros Hd.
  assert (d = 0 ∨ d = 1 ∨ d = 2 ∨ d = 3 ∨ d = 4 ∨ d = 5 ∨ d = 6 ∨ d = 7 ∨ d = 8 ∨
          d = 9 ∨ d = 10 ∨ d = 11 ∨ d = 12 ∨ d = 13 ∨ d = 14 ∨ d = 15) as H by lia.
  by destruct_or! H; subst d.
Qed.

Lemma digit_char_byte upper d : 0 ≤ d < 16 → 0 < digit_char upper d < 256.
Proof. intros. unfold digit_char, toupper. destruct upper; conds. Qed.

(** A digit is read back from its character. *)
Lemma digit_val_char upper d : 0 ≤ d < 16 → digit_val (digit_char upper d) = d.
Proof.
  intros Hd. unfold digit_val, digit_of, digit_char, toupper.
  destruct upper; conds.
Qed.

Lemma digits_fuel_range n base v :
  2 ≤ base → Forall (λ d, 0 ≤ d < base) (digits_fuel n base v).
Proof.
  intros Hb. revert v. induction n as [|n IH]; intros v; simpl; [constructor|].
  destruct (v =? 0); [constructor|]. apply Forall_app. split.
  - apply IH.
  - constructor; [|constructor]. apply Z.mod_pos_bound. lia.
Qed.

Lemma digits_range base v :
  2 ≤ base → Forall (λ d, 0 ≤ d < base) (digits base v).
Proof.
  intros. unfold digits. destruct (v =? 0); [|by apply digits_fuel_range].
  constructor; [lia|constructor].
Qed.

(** The last digit, and the digits before it. *)
Lemma digits_fuel_step n base v :
  2 ≤ base → 0 ≤ v < base ^ Z.of_nat (S n) →
  let ds n v := if v =? 0 then [0] else digits_fuel n base v in
  ds (S n) v = (if v `div` base =? 0 then [] else ds n (v `div` base)) ++ [v `mod` base].
Proof.
  intros Hb Hv. cbn zeta. cbn [digits_fuel]. destruct (Z.eqb_spec v 0) as [->|Hne].
  { by rewrite Z.div_0_l, Z.mod_0_l by lia. }
  destruct (Z.eqb_spec (v `div` base) 0) as [E|E]; [|done]. rewrite E.
  by destruct n.
Qed.

Lemma itoa_loop_ok fuel m buffer base upper v i :
  2 ≤ base ≤ 16 → (0 < fuel)%nat → 0 ≤ v < base ^ Z.of_nat fuel →
  let ds := if v =? 0 then [0] else digits_fuel fuel base v in
  mapped m (buffer + i - Z.of_nat (length ds)) (length ds) →
  itoa_loop fuel buffer v base upper i m =
  Ret tt (write_bytes (buffer + i - Z.of_nat (length ds)) (digit_char upper <$> ds) m).
Proof.
  intros Hb. revert m v i. induction fuel as [|fuel IH]; intros m v i Hf Hv ds Hm; [lia|].
  unfold ds in *. clear ds. rewrite (digits_fuel_step fuel base v) in * by lia.
  set (pre := if v `div` base =? 0 then [] else _) in *.
  assert (0 ≤ v `mod` base < 16) as Hmod
    by (pose proof (Z.mod_pos_bound v base ltac:(lia)); lia).
  rewrite length_app, fmap_app in *. cbn [length] in *.
  apply mapped_app in Hm as [Hm1 [[x Hx] _]].
  replace (buffer + i - Z.of_nat (length pre + 1) + Z.of_nat (length pre))
    with (buffer + (i - 1)) in Hx by lia.
  cbn [itoa_loop].
  rewrite (bind_Ret _ _ m (digit_char false (v `mod` base)) m)
    by (unfold of_option; by rewrite zeichen_lookup by lia).
  replace (if upper then toupper (digit_char false (v `mod` base)) else _)
    with (digit_char upper (v `mod` base)) by (unfold digit_char; by destruct upper).
  step_with (store8_Ret m _ (digit_char upper (v `mod` base)) x Hx).
  rewrite u8_id by (pose proof (digit_char_byte upper (v `mod` base)); unfold is_byte; lia).
  rewrite write_bytes_app, length_fmap. cbn [fmap list_fmap].
  replace (buffer + i - Z.of_nat (length pre + 1) + Z.of_nat (length pre))
    with (buffer + (i - 1)) by lia.
  unfold pre in *. clear pre.
  destruct (Z.eqb_spec (v `div` base) 0) as [E|E]; [done|]. cbn [negb].
  pose proof (div_bound base v fuel ltac:(lia) Hv) as Hd.
  assert (0 < fuel)%nat by (destruct fuel; [simpl in Hd; lia|lia]).
  change (<[?a:=?b]> m) with (write_bytes a [b] m).
  specialize (IH (write_bytes (buffer + (i - 1)) [digit_char upper (v `mod` base)] m)
    (v `div` base) (i - 1) ltac:(lia) ltac:(lia)).
  rewrite (proj2 (Z.eqb_neq (v `div` base) 0)) in * by done. cbn zeta in IH.
  replace (buffer + i - Z.of_nat (length (digits_fuel fuel base (v `div` base)) + 1))
    with (buffer + (i - 1) - Z.of_nat (length (digits_fuel fuel base (v `div` base)))) in * by lia.
  rewrite IH by (by apply mapped_write). f_equal.
  apply write_bytes_comm. rewrite length_fmap. cbn [length]. lia.
Qed.

(** [print_itoa] writes the digits of the number where it fits, and nothing
    where it does not. *)
Lemma print_itoa_ok m buffer bufsize v base upper :
  2 < base ≤ 16 → 0 ≤ v < 2 ^ 64 → Z.of_nat (length (itoa base upper v)) ≤ bufsize →
  mapped m buffer (length (itoa base upper v)) →
  print_itoa buffer bufsize v base upper m =
  Ret (buffer + Z.of_nat (length (itoa base upper v)))
      (write_bytes buffer (itoa base upper v) m).
Proof.
  intros Hb Hv Hsz Hm. unfold print_itoa, itoa in *. rewrite length_fmap in *.
  rewrite (proj2 (Z.leb_gt base 2)), (proj2 (Z.ltb_ge 16 base)) by lia. cbn [orb].
  step_with (print_intlen_ok m base v ltac:(lia) Hv).
  assert (length (digits base v) ≤ 64)%nat.
  { unfold digits. destruct (v =? 0); [simpl; lia|apply digits_fuel_length]. }
  rewrite wrap_small by lia. rewrite (proj2 (Z.ltb_ge bufsize _)) by lia.
  pose proof (itoa_loop_ok 64 m buffer base upper v (Z.of_nat (length (digits base v)))
    ltac:(lia) ltac:(lia) (u64_lt_pow base v ltac:(lia) Hv)) as Hrun.
  fold (digits base v) in Hrun. cbn zeta in Hrun.
  replace (buffer + Z.of_nat (length (digits base v)) - Z.of_nat (length (digits base v)))
    with buffer in Hrun by lia.
  by step_with (Hrun Hm).
Qed.

(** ** Reading back what was printed *)

Lemma num_value_snoc base cs c :
  num_value base (cs ++ [c]) = num_value base cs * base + digit_val c.
Proof. unfold num_value. by rewrite num_value_app. Qed.

Lemma num_value_itoa base upper v :
  2 ≤ base ≤ 16 → 0 ≤ v < 2 ^ 64 → num_value base (itoa base upper v) = v.
Proof.
  intros Hb Hv. unfold itoa, digits. destruct (Z.eqb_spec v 0) as [->|Hne].
  { unfold num_value, num_value_from. simpl. by rewrite digit_val_char by lia. }
  pose proof (u64_lt_pow base v ltac:(lia) Hv) as Hv'. clear Hv Hne. revert v Hv'.
  generalize 64%nat as n. induction n as [|n IH]; intros v Hv.
  { cbn in *. lia. }
  cbn [digits_fuel]. destruct (Z.eqb_spec v 0) as [->|Hne]; [done|].
  rewrite fmap_app. cbn [fmap list_fmap].
  pose proof (Z.mod_pos_bound v base ltac:(lia)).
  rewrite num_value_snoc, digit_val_char by lia. fold (fmap (M:=list) (digit_char upper)).
  rewrite IH by (apply div_bound; lia). pose proof (Z.div_mod v base ltac:(lia)). lia.
Qed.

Lemma itoa_digits base upper v :
  2 ≤ base ≤ 16 → Forall (λ c, digit_lt base c = true) (itoa base upper v).
Proof.
  intros Hb. apply Forall_fmap. eapply Forall_impl; [apply (digits_range base v); lia|].
  intros d Hd. simpl. unfold digit_lt, digit_of, digit_char, toupper.
  destruct upper; conds; done.
Qed.

Lemma itoa_chars base upper v :
  2 ≤ base ≤ 16 → Forall (λ c, 0 < c < 256) (itoa base upper v).
Proof.
  intros Hb. apply Forall_fmap. eapply Forall_impl; [apply (digits_range base v); lia|].
  intros d Hd. simpl in *. apply digit_char_byte. lia.
Qed.

Lemma itoa_length base upper v : (0 < length (itoa base upper v))%nat.
Proof.
  assert (∀ n, v ≠ 0%Z → (0 < length (digits_fuel (S n) base v))%nat) as H.
  { intros n Hv. cbn [digits_fuel]. rewrite (proj2 (Z.eqb_neq v 0)) by done.
    rewrite length_app. cbn [length]. lia. }
  unfold itoa, digits. rewrite length_fmap. destruct (Z.eqb_spec v 0); [cbn; lia|].
  by apply (H 63%nat).
Qed.

(** ** Padding and strings *)

Lemma fill_loop_ok fuel m bstart bufsize j bound c :
  0 ≤ j → 0 ≤ bound - j → bound ≤ bufsize < 2 ^ 64 → (Z.to_nat (bound - j) ≤ fuel)%nat →
  is_byte c → mapped m (bstart + j) (Z.to_nat (bound - j)) →
  fill_loop fuel (bstart + j) bstart bufsize j bound c m =
  Ret (bstart + bound) (write_bytes (bstart + j) (replicate (Z.to_nat (bound - j)) c) m).
Proof.
  remember (Z.to_nat (bound - j)) as n eqn:En.
  revert fuel m j En. induction n as [|n IH]; intros fuel m j En Hj Hbj Hbs Hf Hc Hm.
  - assert (bound = j) as -> by lia.
    destruct fuel; cbn [fill_loop]; by rewrite Z.ltb_irrefl.
  - destruct fuel as [|fuel]; [lia|]. cbn [fill_loop].
    replace (bstart + j - bstart) with j by lia. rewrite wrap_small by lia.
    rewrite (proj2 (Z.ltb_lt j bound)), (proj2 (Z.ltb_lt j bufsize)) by lia. cbn [andb].
    destruct Hm as [[x Hx] Hm]. step_with (store8_Ret m _ c x Hx). rewrite u8_id by done.
    cbn [replicate write_bytes]. change (<[?a:=c]> m) with (write_bytes a [c] m).
    replace (bstart + j + 1) with (bstart + (j + 1)) in * by lia.
    rewrite IH by (lia || done || by apply mapped_write). done.
Qed.

Lemma print_str_loop_ok fuel k m bstart bufsize str s j :
  (length s < fuel)%nat → (length s - j < k)%nat → (j ≤ length s)%nat →
  Z.of_nat (length s) ≤ bufsize < 2 ^ 64 → cstr m str s →
  mapped m (bstart + Z.of_nat j) (length s - j) →
  str + Z.of_nat (length s) < bstart ∨ bstart + Z.of_nat (length s) ≤ str →
  print_str_loop fuel k (bstart + Z.of_nat j) bstart bufsize str (Z.of_nat j) m =
  Ret (bstart + Z.of_nat (length s)) (write_bytes (bstart + Z.of_nat j) (drop j s) m).
Proof.
  revert m j. induction k as [|k IH]; intros m j Hf Hk Hj Hsz Hs Hm Hd; [lia|].
  cbn [print_str_loop]. step_with (strlen_ok fuel m str s Hf Hs ltac:(lia)).
  replace (bstart + Z.of_nat j - bstart) with (Z.of_nat j) by lia.
  rewrite wrap_small by lia.
  destruct (decide (j = length s)) as [->|Hne].
  { by rewrite Z.ltb_irrefl, drop_all. }
  rewrite !(proj2 (Z.ltb_lt (Z.of_nat j) _)) by lia. cbn [andb].
  destruct (lookup_lt_is_Some_2 s j) as [c Hc]; [lia|].
  destruct (cstr_lookup m str s j c Hs Hc) as [Hload Hr].
  step_with (load8_Ret m _ c Hload).
  replace (length s - j)%nat with (S (length s - S j)) in Hm by lia.
  destruct Hm as [[x Hx] Hm]. step_with (store8_Ret m _ c x Hx).
  rewrite u8_id by (unfold is_byte; lia).
  rewrite (drop_S s c j) by done. cbn [write_bytes].
  change (<[?a:=c]> m) with (write_bytes a [c] m).
  replace (bstart + Z.of_nat j + 1) with (bstart + Z.of_nat (S j)) in * by lia.
  replace (Z.of_nat j + 1) with (Z.of_nat (S j)) by lia.
  rewrite IH; [done|done|lia|lia|done| |by apply mapped_write|done].
  apply cstr_write_disj; [|done]. simpl. lia.
Qed.

Lemma print_str_ok fuel m buffer bufsize str s :
  (length s < fuel)%nat → Z.of_nat (length s) ≤ bufsize < 2 ^ 64 → cstr m str s →
  mapped m buffer (length s) →
  str + Z.of_nat (length s) < buffer ∨ buffer + Z.of_nat (length s) ≤ str →
  print_str fuel buffer bufsize str m =
  Ret (buffer + Z.of_nat (length s)) (write_bytes buffer s m).
Proof.
  intros Hf Hsz Hs Hm Hd. unfold print_str.
  pose proof (print_str_loop_ok fuel fuel m buffer bufsize str s 0 Hf ltac:(lia) ltac:(lia)
    Hsz Hs) as H.
  rewrite Nat.sub_0_r, Z.add_0_r in H. by apply H.
Qed.

(** The width a directive asks for, read from [sizec]. *)
Lemma width_ok fuel m a ws :
  (length ws < fuel)%nat → cstr m a ws → Forall (λ c, digit_lt 10 c = true) ws →
  ∃ p, strtoul fuel a 10 m = Ret (u64 (num_value 10 ws), p) m.
Proof.
  intros Hf Hs Hw. eexists.
  pose proof (strtoul_ok fuel m a 10 [] ws ws []) as H. cbn [length app] in H.
  assert (eff_prefix 10 ws = 0%nat) as E by done.
  rewrite E, drop_0, app_nil_r in H. apply H; try done.
  intros c t' ->. apply Forall_cons in Hw as [Hc _].
  unfold digit_lt, digit_of, is_blank in *. conds; done.
Qed.

Definition width (ws : list Z) : Z := num_value 10 ws.

(** The characters that pad [n] characters to the width. *)
Definition pad (w n : Z) (c : Z) : list Z := replicate (Z.to_nat (w - n)) c.

Lemma width_nonneg ws : 0 ≤ width ws.
Proof. apply (num_value_nonneg 10 0); lia. Qed.

Section fill.
Context (fuel : nat) (m : mem) (buffer bufsize sz : Z) (ws : list Z) (c : Z).
Hypothesis (fuel_ws : (length ws < fuel)%nat).
Hypothesis (ws_str : cstr m sz ws).
Hypothesis (ws_digits : Forall (λ c, digit_lt 10 c = true) ws).
Hypothesis (ws_max : width ws < 2 ^ 31).
Hypothesis (c_byte : is_byte c).
Hypothesis (bufsize_max : bufsize < 2 ^ 64).

Lemma print_fill_ok v base optlen :
  2 ≤ base ≤ 16 → 0 ≤ v < 2 ^ 64 → 0 ≤ optlen →
  let p := pad (width ws) (Z.of_nat (length (digits base v)) + optlen) c in
  (length p ≤ fuel)%nat → Z.of_nat (length p) ≤ bufsize → mapped m buffer (length p) →
  print_fill fuel buffer bufsize sz v base c optlen m =
  Ret (buffer + Z.of_nat (length p)) (write_bytes buffer p m).
Proof using fuel_ws ws_str ws_digits ws_max c_byte bufsize_max.
  intros Hb Hv Ho p Hf Hsz Hm. unfold print_fill. pose proof (width_nonneg ws) as H0.
  destruct (width_ok fuel m sz ws fuel_ws ws_str ws_digits) as [q Hq]. step_with Hq.
  fold (width ws). rewrite (wrap_small 64) by lia.
  rewrite (swrap_small 32) by (simpl; lia).
  step_with (print_intlen_ok m base v ltac:(lia) Hv).
  set (len := Z.of_nat (length (digits base v)) + optlen) in *.
  unfold p, pad in *. rewrite length_replicate in *.
  destruct (Z.ltb_spec len (width ws)).
  - pose proof (fill_loop_ok fuel m buffer bufsize 0 (width ws - len) c) as H1.
    rewrite Z.add_0_r, Z.sub_0_r in H1. rewrite H1 by (done || lia). f_equal. lia.
  - replace (Z.to_nat (width ws - len)) with 0%nat by lia. cbn. by rewrite Z.add_0_r.
Qed.

Lemma print_str_fill_ok str s :
  (length s < fuel)%nat → Z.of_nat (length s) < 2 ^ 64 → cstr m str s →
  let p := pad (width ws) (Z.of_nat (length s)) c in
  (length p ≤ fuel)%nat → Z.of_nat (length p) ≤ bufsize → mapped m buffer (length p) →
  print_str_fill fuel buffer bufsize sz str c m =
  Ret (buffer + Z.of_nat (length p)) (write_bytes buffer p m).
Proof using fuel_ws ws_str ws_digits ws_max c_byte bufsize_max.
  intros Hfs Hls Hs p Hf Hsz Hm. unfold print_str_fill. pose proof (width_nonneg ws) as H0.
  destruct (width_ok fuel m sz ws fuel_ws ws_str ws_digits) as [q Hq]. step_with Hq.
  fold (width ws). rewrite (wrap_small 64 (width ws)) by lia.
  step_with (strlen_ok fuel m str s Hfs Hs Hls).
  unfold p, pad in *. rewrite length_replicate in *.
  destruct (Z.ltb_spec (Z.of_nat (length s)) (width ws)).
  - pose proof (fill_loop_ok fuel m buffer bufsize 0 (width ws - Z.of_nat (length s)) c) as H1.
    rewrite Z.add_0_r, Z.sub_0_r in H1. rewrite wrap_small by lia.
    rewrite H1 by (done || lia). f_equal. lia.
  - replace (Z.to_nat (width ws - Z.of_nat (length s))) with 0%nat by lia. cbn.
    by rewrite Z.add_0_r.
Qed.
End fill.
