(* ===== verification/PrintfSpec.v ===== *)
(** * What [vsnprintf] prints

    A format is a list of literal characters, "%%" and directives; [render]
    is the text it stands for with its arguments.  The refinement theorem says
    that [vsnprintf] of [Printf] leaves exactly that text, NUL-terminated, in a
    buffer that is large enough, and changes nothing else but its own frame. *)
From S2P Require Import Prelude CMem LibMem Ctype LibStr Strtol Printf.

(** ** Formats *)

Inductive lenmod := LNone | Lhh | Lh | Ll | Lll | Lz.
Inductive conv := Cd | Ci | Cu | Cx | CX | Co | CO | Cp | Cc | Cs.

Record directive := {
  d_zero : bool;          (** a leading '0' *)
  d_width : list Z;       (** the digits of the width *)
  d_len : lenmod;
  d_conv : conv;
}.

Definition lenmod_text (l : lenmod) : list Z :=
  match l with
  | LNone => [] | Lhh => [104; 104] | Lh => [104]
  | Ll => [108] | Lll => [108; 108] | Lz => [122]
  end.

Definition lenmod_size (l : lenmod) : Z :=
  match l with LNone => 4 | Lhh => 1 | Lh => 2 | Ll => 8 | Lll => 8 | Lz => 8 end.

Definition conv_char (c : conv) : Z :=
  match c with
  | Cd => 100 | Ci => 105 | Cu => 117 | Cx => 120 | CX => 88
  | Co => 111 | CO => 79 | Cp => 112 | Cc => 99 | Cs => 115
  end.

(** The text of a directive, after the '%'. *)
Definition directive_text (d : directive) : list Z :=
  (if d_zero d then [48] else []) ++ d_width d ++ lenmod_text (d_len d) ++ [conv_char (d_conv d)].

Definition fill_char (zero : bool) : Z := if zero then 48 else 32.

(** ** Rendering *)

Definition render_int (base : Z) (upper zero : bool) (ws : list Z) (v : Z) : list Z :=
  pad (width ws) (Z.of_nat (length (itoa base upper v))) (fill_char zero) ++ itoa base upper v.

(** A negative number has its sign before the padding, outside the width. *)
Definition render_dec (signed zero : bool) (ws : list Z) (size v : Z) : list Z :=
  if signed && Z.testbit v (size * 8 - 1)
  then 45 :: render_int 10 false zero ws (wrap (8 * size) (- v))
  else render_int 10 false zero ws v.

Definition render_ptr (ws : list Z) (v : Z) : list Z :=
  pad (width ws) (Z.of_nat (length (itoa 16 false v)) + 2) 32 ++ [48; 120] ++ itoa 16 false v.

(** [strs v] is the string a "%s" argument [v] points to. *)
Definition render_directive (strs : Z → list Z) (d : directive) (v : Z) : list Z :=
  let ws := d_width d in
  let size := lenmod_size (d_len d) in
  match d_conv d with
  | Cd | Ci => render_dec true (d_zero d) ws size v
  | Cu => render_dec false (d_zero d) ws size v
  | Cx => render_int 16 false (d_zero d) ws (wrap (8 * size) v)
  | CX => render_int 16 true (d_zero d) ws (wrap (8 * size) v)
  | Co | CO => render_int 8 false (d_zero d) ws (wrap (8 * size) v)
  | Cp => render_ptr ws v
  | Cc => pad (width ws) 1 32 ++ [u8 v]
  | Cs => pad (width ws) (Z.of_nat (length (strs v))) 32 ++ strs v
  end.

(** ** Memory around the buffer *)

Lemma mask_of_wrap l v : Z.land v (mask_of (lenmod_size l)) = wrap (8 * lenmod_size l) v.
Proof. unfold wrap. rewrite <- Z.land_ones by (destruct l; done). by destruct l. Qed.

Lemma length_itoa base upper v : length (itoa base upper v) = length (digits base v).
Proof. apply length_fmap. Qed.

Lemma length_pad w n c : length (pad w n c) = Z.to_nat (w - n).
Proof. apply length_replicate. Qed.

(** Part of a mapped region. *)
Lemma mapped_sub m a n a' n' :
  a ≤ a' → a' + Z.of_nat n' ≤ a + Z.of_nat n → mapped m a n → mapped m a' n'.
Proof.
  intros H1 H2 H. apply mapped_intro. intros i Hi.
  destruct (mapped_lookup m a n (a' + i - a) H) as [b Hb]; [lia|].
  exists b. rewrite <- Hb. f_equal. lia.
Qed.

Lemma is_digit_range c : digit_lt 10 c = true → 48 ≤ c ≤ 57.
Proof. unfold digit_lt, digit_of. conds; done. Qed.

Lemma conv_char_range c : 79 ≤ conv_char c ≤ 120 ∧
  conv_char c ≠ 108 ∧ conv_char c ≠ 104 ∧ conv_char c ≠ 122.
Proof. by destruct c. Qed.

Lemma sign_bit_tst l v :
  0 ≤ v < 2 ^ 64 →
  tst (u64 (Z.shiftl 1 (lenmod_size l * 8 - 1))) (u64 v) =
  Z.testbit v (lenmod_size l * 8 - 1).
Proof.
  intros Hv. rewrite (wrap_small 64 v) by done.
  assert (0 ≤ lenmod_size l * 8 - 1 < 64) by (destruct l; simpl; lia).
  rewrite <- tst_pow2 by lia. unfold tst. rewrite Z.shiftl_1_l, Z.land_comm.
  rewrite wrap_small; [done|]. split; [lia|]. apply Z.pow_lt_mono_r; lia.
Qed.

Section directive.
Context (fr : Z) (fuel : nat) (start bufsize : Z).
Hypothesis (frame_disj : fr + 52 ≤ start ∨ start + bufsize ≤ fr).
Hypothesis (bufsize_range : 0 < bufsize < 2 ^ 64).
Hypothesis (fuel_ok : (Z.to_nat bufsize < fuel)%nat).

Context (ws : list Z).
Hypothesis (ws_digits : Forall (λ c, digit_lt 10 c = true) ws).
Hypothesis (ws_max : width ws < 2 ^ 31).
Hypothesis (ws_len : (length ws < 32)%nat).
Hypothesis (fuel_ws : (length ws < fuel)%nat).

Lemma room_ok k : 0 ≤ k ≤ bufsize → room start bufsize (start + k) = bufsize - k.
Proof. intros. unfold room. rewrite wrap_small; lia. Qed.

(** [sizec] is terminated, and then holds the digits of the width. *)
Lemma sizec_end m :
  mapped m fr 52 → bytes_at m (sizec fr) ws →
  array_store (sizec fr) 32 (Z.of_nat (length ws)) 0 m =
  Ret tt (write_bytes (sizec fr + Z.of_nat (length ws)) [0] m).
Proof.
  intros Hm Hb. unfold array_store.
  rewrite (proj2 (Z.leb_le 0 _)), (proj2 (Z.ltb_lt _ 32)) by lia. cbn [andb].
  destruct (mapped_lookup m fr 52 (20 + Z.of_nat (length ws)) Hm) as [x Hx]; [lia|].
  apply (store8_Ret m _ 0 x). unfold sizec. rewrite <- Hx. f_equal. lia.
Qed.

Lemma sizec_cstr m :
  bytes_at m (sizec fr) ws →
  cstr (write_bytes (sizec fr + Z.of_nat (length ws)) [0] m) (sizec fr) ws.
Proof.
  intros Hb. apply cstr_intro.
  - apply bytes_at_write_disj; [|done]. simpl. lia.
  - eapply Forall_impl; [done|]. intros c. unfold digit_lt, digit_of. conds; done || lia.
  - apply lookup_insert_eq.
Qed.

(** Padding followed by the digits of a number. *)
Lemma pad_itoa_ok m k v base upper zero :
  2 < base ≤ 16 → 0 ≤ v < 2 ^ 64 → 0 ≤ k →
  let out := render_int base upper zero ws v in
  k + Z.of_nat (length out) ≤ bufsize →
  cstr m (sizec fr) ws → mapped m start (Z.to_nat bufsize) →
  (buffer ← print_fill fuel (start + k) (room start bufsize (start + k)) (sizec fr) v base
              (fill_char zero) 0;
   print_itoa buffer (room start bufsize buffer) v base upper) m =
  Ret (start + k + Z.of_nat (length out)) (write_bytes (start + k) out m).
Proof.
  intros Hb Hv Hk out Hout Hs Hm. unfold out, render_int in *.
  rewrite length_app, length_pad in *. rewrite length_itoa in *.
  pose proof (print_fill_ok fuel m (start + k) (bufsize - k) (sizec fr) ws (fill_char zero)
    fuel_ws Hs ws_digits ws_max ltac:(unfold fill_char, is_byte; destruct zero; lia)
    ltac:(lia) v base 0 ltac:(lia) Hv ltac:(lia)) as Hfill.
  cbn zeta in Hfill. rewrite Z.add_0_r, length_pad in Hfill.
  rewrite room_ok by lia.
  erewrite bind_Ret by (apply Hfill; [lia|lia|eapply mapped_sub; [..|exact Hm]; lia]).
  rewrite <- Z.add_assoc, room_ok by lia.
  rewrite print_itoa_ok; rewrite ?length_itoa; [|done|done|lia|].
  - rewrite write_bytes_app, length_pad. f_equal; [lia|]. by rewrite Z.add_assoc.
  - apply mapped_write. eapply mapped_sub; [..|exact Hm]; lia.
Qed.

(** Each conversion, started on an empty buffer with the width in [sizec]. *)
Section conversion.
Context (m : mem) (l : lenmod) (v : Z) (zero : bool).
Hypothesis (frame_mapped : mapped m fr 52).
Hypothesis (sizec_ws : bytes_at m (sizec fr) ws).
Hypothesis (buf_mapped : mapped m start (Z.to_nat bufsize)).
Hypothesis (v_range : 0 ≤ v < 2 ^ 64).
Let m1 := write_bytes (sizec fr + Z.of_nat (length ws)) [0] m.

Lemma m1_cstr a bs :
  start ≤ a → a + Z.of_nat (length bs) ≤ start + bufsize →
  cstr (write_bytes a bs m1) (sizec fr) ws.
Proof.
  intros H1 H2. apply cstr_write_disj; [unfold sizec; lia|]. by apply sizec_cstr.
Qed.

Lemma wrap_neg_range k : 0 ≤ k ≤ 64 → 0 ≤ wrap k (- v) < 2 ^ 64.
Proof.
  intros Hk. pose proof (wrap_range k (- v) ltac:(lia)).
  pose proof (Z.pow_le_mono_r 2 k 64 ltac:(lia) ltac:(lia)). lia.
Qed.

Lemma size_bits : 0 ≤ 8 * lenmod_size l ≤ 64.
Proof. destruct l; simpl; lia. Qed.

Lemma format_dec_ok signed :
  let out := render_dec signed zero ws (lenmod_size l) v in
  Z.of_nat (length out) ≤ bufsize →
  format_dec fr fuel start bufsize v signed start (Z.of_nat (length ws))
    (lenmod_size l) (fill_char zero) false m =
  Ret (start + Z.of_nat (length out)) (write_bytes start out m1).
Proof.
  intros out Hout. unfold format_dec. step_with (sizec_end m frame_mapped sizec_ws). fold m1.
  rewrite sign_bit_tst by done. unfold out, render_dec in *. clear out.
  destruct (signed && Z.testbit v (lenmod_size l * 8 - 1)).
  - cbn [length] in *.
    destruct (mapped_lookup m start _ 0 buf_mapped) as [x Hx]; [lia|].
    rewrite Z.add_0_r in Hx.
    assert (m1 !! start = Some x) as Hx1.
    { unfold m1. rewrite lookup_write_bytes_out by (unfold sizec; simpl; lia). done. }
    rewrite bind_assoc. step_with (store8_Ret m1 start 45 x Hx1).
    rewrite bind_mret, mask_of_wrap. rewrite (wrap_small 64 v) by done.
    rewrite (wrap_wrap_le _ 64) by apply size_bits.
    rewrite (pad_itoa_ok _ 1); [|lia|apply wrap_neg_range, size_bits|lia|lia| |].
    + cbn [write_bytes]. f_equal. lia.
    + apply (m1_cstr start [45]); simpl; lia.
    + apply (mapped_write _ start [45]), mapped_write, buf_mapped.
  - rewrite bind_mret, (wrap_small 64 v) by done.
    pose proof (pad_itoa_ok m1 0 v 10 false zero ltac:(lia) v_range ltac:(lia)) as H.
    rewrite !Z.add_0_r in H. apply H; [lia|apply (m1_cstr start []); simpl; lia|].
    by apply mapped_write.
Qed.

Lemma format_unsigned_ok base upper :
  2 < base ≤ 16 →
  let out := render_int base upper zero ws (wrap (8 * lenmod_size l) v) in
  Z.of_nat (length out) ≤ bufsize →
  format_unsigned fr fuel start bufsize v base start (Z.of_nat (length ws))
    (lenmod_size l) (fill_char zero) upper m =
  Ret (start + Z.of_nat (length out)) (write_bytes start out m1).
Proof.
  intros Hb out Hout. unfold format_unsigned.
  step_with (sizec_end m frame_mapped sizec_ws). fold m1.
  rewrite mask_of_wrap, (wrap_wrap_le _ 64) by apply size_bits.
  pose proof size_bits as Hbits.
  pose proof (wrap_range (8 * lenmod_size l) v ltac:(lia)).
  pose proof (Z.pow_le_mono_r 2 (8 * lenmod_size l) 64 ltac:(lia) ltac:(lia)).
  pose proof (pad_itoa_ok m1 0 (wrap (8 * lenmod_size l) v) base upper zero Hb
    ltac:(lia) ltac:(lia)) as Hrun.
  rewrite !Z.add_0_r in Hrun. apply Hrun; [done|apply (m1_cstr start []); simpl; lia|].
  by apply mapped_write.
Qed.

(** Padding alone, for the conversions that are not a padded number. *)
Lemma pad_only_ok n base w optlen :
  2 ≤ base ≤ 16 → 0 ≤ w < 2 ^ 64 → 0 ≤ optlen →
  n = Z.of_nat (length (digits base w)) + optlen →
  let p := pad (width ws) n 32 in
  Z.of_nat (length p) ≤ bufsize →
  print_fill fuel start (room start bufsize start) (sizec fr) w base 32 optlen m1 =
  Ret (start + Z.of_nat (length p)) (write_bytes start p m1).
Proof.
  intros Hb Hw Ho -> p Hp. unfold p in *. clear p.
  pose proof (room_ok 0 ltac:(lia)) as Hroom. rewrite Z.add_0_r, Z.sub_0_r in Hroom.
  rewrite Hroom. apply print_fill_ok; try done; unfold is_byte; try lia.
  - apply (m1_cstr start []); simpl; lia.
  - eapply mapped_sub; [..|apply mapped_write; exact buf_mapped]; lia.
Qed.

Lemma format_char_ok :
  let out := pad (width ws) 1 32 ++ [u8 v] in
  Z.of_nat (length out) ≤ bufsize →
  format_char fr fuel start bufsize v start (Z.of_nat (length ws)) m =
  Ret (start + Z.of_nat (length out)) (write_bytes start out m1).
Proof.
  intros out Hout. unfold format_char. step_with (sizec_end m frame_mapped sizec_ws). fold m1.
  unfold out in *. rewrite length_app in *. cbn [length] in *.
  step_with (pad_only_ok 1 10 1 0 ltac:(lia) ltac:(lia) ltac:(lia) eq_refl ltac:(lia)).
  set (p := pad (width ws) 1 32) in *.
  assert (mapped (write_bytes start p m1) start (Z.to_nat bufsize)) as Hm
    by (by do 2 apply mapped_write).
  destruct (mapped_lookup _ _ _ (Z.of_nat (length p)) Hm) as [x Hx]; [lia|].
  step_with (store8_Ret _ _ v x Hx). rewrite write_bytes_app. unfold mret, M_ret. f_equal. lia.
Qed.

Lemma format_str_ok s :
  cstr m v s → (length s < fuel)%nat →
  v + Z.of_nat (length s) < fr ∨ fr + 52 ≤ v →
  v + Z.of_nat (length s) < start ∨ start + bufsize ≤ v →
  let out := pad (width ws) (Z.of_nat (length s)) 32 ++ s in
  Z.of_nat (length out) ≤ bufsize →
  format_str fr fuel start bufsize v start (Z.of_nat (length ws)) m =
  Ret (start + Z.of_nat (length out)) (write_bytes start out m1).
Proof.
  intros Hs Hfs Hd1 Hd2 out Hout. unfold format_str.
  step_with (sizec_end m frame_mapped sizec_ws). fold m1.
  unfold out in *. rewrite length_app in *.
  assert (cstr m1 v s) as Hs1 by (apply cstr_write_disj; [unfold sizec; simpl; lia|done]).
  pose proof (room_ok 0 ltac:(lia)) as Hroom. rewrite Z.add_0_r, Z.sub_0_r in Hroom.
  rewrite Hroom.
  erewrite bind_Ret; last first.
  { apply (print_str_fill_ok fuel m1 start bufsize (sizec fr) ws 32 fuel_ws) with (s := s);
      try done; unfold is_byte; try lia.
    - apply (m1_cstr start []); simpl; lia.
    - eapply mapped_sub; [..|apply mapped_write; exact buf_mapped]; lia. }
  set (p := pad (width ws) (Z.of_nat (length s)) 32) in *.
  rewrite room_ok by lia. rewrite (print_str_ok _ _ _ _ _ s); [|lia|lia| | |lia].
  - rewrite write_bytes_app. f_equal. lia.
  - apply cstr_write_disj; [lia|done].
  - eapply mapped_sub; [..|do 2 apply mapped_write; exact buf_mapped]; lia.
Qed.

Lemma format_ptr_ok lit_0x :
  cstr m lit_0x [48; 120] → (2 < fuel)%nat →
  lit_0x + 2 < fr ∨ fr + 52 ≤ lit_0x →
  lit_0x + 2 < start ∨ start + bufsize ≤ lit_0x →
  let out := render_ptr ws v in
  Z.of_nat (length out) ≤ bufsize →
  format_ptr fr fuel start bufsize v lit_0x start (Z.of_nat (length ws)) false m =
  Ret (start + Z.of_nat (length out)) (write_bytes start out m1).
Proof.
  intros Hs Hfs Hd1 Hd2 out Hout. unfold format_ptr.
  step_with (sizec_end m frame_mapped sizec_ws). fold m1.
  unfold out, render_ptr in *. rewrite !length_app in *. cbn [length] in *.
  rewrite length_itoa in *. rewrite (wrap_small 64 v) by done.
  step_with (pad_only_ok _ 16 v 2 ltac:(lia) v_range ltac:(lia) eq_refl ltac:(lia)).
  set (p := pad (width ws) _ 32) in *.
  rewrite room_ok by lia.
  erewrite bind_Ret; last first.
  { apply (print_str_ok _ _ _ _ _ [48; 120]); simpl; [lia|lia| |
      |lia].
    - apply cstr_write_disj; [simpl; lia|].
      apply cstr_write_disj; [unfold sizec; simpl; lia|done].
    - eapply (mapped_sub _ start _ _ 2); [..|do 2 apply mapped_write; exact buf_mapped]; lia. }
  cbn [length]. rewrite <- Z.add_assoc, room_ok by lia.
  rewrite print_itoa_ok; rewrite ?length_itoa; [|lia|done|lia|].
  - rewrite !write_bytes_app. cbn [length]. f_equal; [lia|]. by rewrite Z.add_assoc.
  - eapply mapped_sub; [..|do 3 apply mapped_write; exact buf_mapped]; lia.
Qed.
End conversion.

(** ** The format loop *)

Context (v lit_0x : Z).
Abbreviation loop := (format_loop fr fuel start bufsize v lit_0x).

(** All the tests of the switch a character fails. *)
Ltac skip_cases := repeat (rewrite (proj2 (Z.eqb_neq _ _)) by lia); cbn [negb andb orb].
Ltac loop_test :=
  rewrite ?Z.sub_diag, ?(wrap_small 64 0) by lia;
  rewrite ?(proj2 (Z.ltb_lt 0 bufsize)) by lia; cbn [andb].

(** The digits of the width go to [sizec]. *)
Lemma format_loop_width k m form ws0 ws1 rest lm sign :
  Forall (λ c, digit_lt 10 c = true) ws1 →
  mapped m fr 52 → (length ws0 + length ws1 < 32)%nat →
  cstr m form (ws1 ++ rest) → form + Z.of_nat (length (ws1 ++ rest)) < sizec fr →
  loop (length ws1 + k) start form (Z.of_nat (length ws0)) lm sign false m =
  loop k start (form + Z.of_nat (length ws1)) (Z.of_nat (length (ws0 ++ ws1))) lm sign false
    (write_bytes (sizec fr + Z.of_nat (length ws0)) ws1 m).
Proof.
  intros Hws. revert m form ws0.
  induction Hws as [|c ws1 Hc Hws IH]; intros m form ws0 Hfr Hlen Hs Hd.
  { cbn [length Nat.add write_bytes app]. by rewrite Z.add_0_r, app_nil_r. }
  apply is_digit_range in Hc. cbn [app length Nat.add write_bytes] in *.
  apply cstr_cons in Hs as (Ha & Hr & Hs).
  cbn [format_loop]. step_with (load8_Ret m form c Ha). loop_test. skip_cases.
  rewrite (proj2 (Z.leb_le 48 c)), (proj2 (Z.leb_le c 57)) by lia. cbn [andb].
  destruct (mapped_lookup m fr 52 (20 + Z.of_nat (length ws0)) Hfr) as [x Hx]; [lia|].
  replace (fr + (20 + Z.of_nat (length ws0))) with (sizec fr + Z.of_nat (length ws0)) in Hx
    by (unfold sizec; lia).
  unfold array_store. rewrite (proj2 (Z.leb_le 0 _)), (proj2 (Z.ltb_lt _ 32)) by lia.
  cbn [andb]. step_with (store8_Ret m _ c x Hx). rewrite u8_id by (unfold is_byte; lia).
  change (<[?a:=c]> m) with (write_bytes a [c] m).
  specialize (IH (write_bytes (sizec fr + Z.of_nat (length ws0)) [c] m) (form + 1) (ws0 ++ [c])).
  rewrite length_app in IH. cbn [length] in IH.
  replace (Z.of_nat (length ws0) + 1) with (Z.of_nat (length ws0 + 1)) by lia.
  rewrite IH; [|by apply mapped_write|lia| |lia].
  - rewrite <- app_assoc. cbn [app]. f_equal; [lia|]. f_equal. lia.
  - apply cstr_write_disj; [lia|done].
Qed.

(** A length modifier sets [length_mod]. *)
Lemma format_loop_len k m form l cv i sign :
  cstr m form (lenmod_text l ++ [conv_char cv]) →
  ∃ k', (k ≤ k')%nat ∧
  loop (S k) start form i 4 sign false m =
  loop k' start (form + Z.of_nat (length (lenmod_text l))) i (lenmod_size l) sign false m.
Proof.
  pose proof (conv_char_range cv) as (Hr & H1 & H2 & H3).
  intros Hs. destruct l; cbn [lenmod_text lenmod_size length app] in *.
  { exists (S k). split; [lia|]. by rewrite Z.add_0_r. }
  all: exists k; split; [done|].
  all: apply cstr_cons in Hs as (Ha & _ & Hs); apply cstr_cons in Hs as (Hb & _ & _).
  all: cbn [format_loop]; step_with (load8_Ret m form _ Ha); loop_test; cbn [negb andb orb Z.eqb Pos.eqb].
  all: try step_with (load8_Ret m _ _ Hb); cbn [Z.eqb Pos.eqb];
    rewrite ?(proj2 (Z.eqb_neq (conv_char cv) _)) by done.
  all: f_equal; lia.
Qed.

(** The conversions. *)
Context (strs : Z → list Z).

Definition arg_ok (m : mem) (c : conv) : Prop :=
  match c with
  | Cs => cstr m v (strs v) ∧ (length (strs v) < fuel)%nat ∧
          (v + Z.of_nat (length (strs v)) < fr ∨ fr + 52 ≤ v) ∧
          (v + Z.of_nat (length (strs v)) < start ∨ start + bufsize ≤ v)
  | _ => True
  end.

Definition lit_ok (m : mem) : Prop :=
  cstr m lit_0x [48; 120] ∧ (lit_0x + 2 < fr ∨ fr + 52 ≤ lit_0x) ∧
  (lit_0x + 2 < start ∨ start + bufsize ≤ lit_0x).

Lemma format_loop_conv k m form l cv zero :
  mapped m fr 52 → bytes_at m (sizec fr) ws → mapped m start (Z.to_nat bufsize) →
  0 ≤ v < 2 ^ 64 → (2 < fuel)%nat →
  cstr m form [conv_char cv] → fr ≤ form → form + 1 < sizec fr →
  arg_ok m cv → lit_ok m →
  let out := render_directive strs
    {| d_zero := zero; d_width := ws; d_len := l; d_conv := cv |} v in
  Z.of_nat (length out) ≤ bufsize →
  loop (S (S k)) start form (Z.of_nat (length ws)) (lenmod_size l) (fill_char zero) false m =
  Ret (start + Z.of_nat (length out))
    (write_bytes start out (write_bytes (sizec fr + Z.of_nat (length ws)) [0] m)).
Proof.
  intros Hfr Hsz Hbuf Hv Hf2 Hs Hform1 Hform2 Harg (Hl1 & Hl2 & Hl3) out Hout.
  apply cstr_cons in Hs as (Ha & _ & Hs). apply cstr_nil in Hs.
  set (m1 := write_bytes (sizec fr + Z.of_nat (length ws)) [0] m).
  assert (∀ j buffer bs upper, Z.of_nat (length bs) ≤ bufsize →
    loop (S j) buffer (form + 1) (Z.of_nat (length ws)) (lenmod_size l) (fill_char zero) upper
      (write_bytes start bs m1) = Ret buffer (write_bytes start bs m1)) as Hend.
  { intros j buffer bs upper Hbs. cbn [format_loop].
    assert (write_bytes start bs m1 !! (form + 1) = Some 0) as E.
    { unfold m1. rewrite !lookup_write_bytes_out by (unfold sizec in *; simpl; lia). done. }
    by step_with (load8_Ret _ _ 0 E). }
  remember (S k) as k1 eqn:Ek. cbn [format_loop].
  step_with (load8_Ret m form _ Ha). loop_test. subst k1.
  destruct cv; cbn [conv_char negb andb orb Z.eqb Pos.eqb];
    unfold out, render_directive in *; cbn [d_zero d_width d_len d_conv] in *.
  - erewrite bind_Ret by (by apply format_dec_ok). by apply Hend.
  - erewrite bind_Ret by (by apply format_dec_ok). by apply Hend.
  - erewrite bind_Ret by (by apply format_dec_ok). by apply Hend.
  - erewrite bind_Ret by (by apply format_unsigned_ok). by apply Hend.
  - erewrite bind_Ret by (by apply format_unsigned_ok). by apply Hend.
  - erewrite bind_Ret by (by apply format_unsigned_ok). by apply Hend.
  - erewrite bind_Ret by (by apply format_unsigned_ok). by apply Hend.
  - erewrite bind_Ret by (by apply format_ptr_ok). by apply Hend.
  - erewrite bind_Ret by (by apply format_char_ok). by apply Hend.
  - destruct Harg as (? & ? & ? & ?).
    erewrite bind_Ret by (by apply (format_str_ok m v Hfr Hsz Hbuf)). by apply Hend.
Qed.
End directive.

(** ** One directive *)

Record wf_directive (d : directive) : Prop := {
  wf_digits : Forall (λ c, digit_lt 10 c = true) (d_width d);
  wf_zero : d_zero d = false → head (d_width d) ≠ Some 48;
  wf_width : width (d_width d) < 2 ^ 31;
  wf_length : (length (directive_text d) ≤ 18)%nat;
}.

(** [m'] is [m] up to the frame of the printing functions. *)
Definition off_frame (fr : Z) (m m' : mem) : Prop :=
  mapped m' fr 52 ∧ ∀ a, a < fr ∨ fr + 52 ≤ a → m' !! a = m !! a.

Lemma off_frame_write fr m m' a bs :
  fr ≤ a → a + Z.of_nat (length bs) ≤ fr + 52 →
  off_frame fr m m' → off_frame fr m (write_bytes a bs m').
Proof.
  intros H1 H2 [H3 H4]. split; [by apply mapped_write|].
  intros k Hk. rewrite lookup_write_bytes_out by lia. by apply H4.
Qed.

Lemma off_frame_refl fr m : mapped m fr 52 → off_frame fr m m.
Proof. by split. Qed.

Lemma off_frame_trans fr m1 m2 m3 :
  off_frame fr m1 m2 → off_frame fr m2 m3 → off_frame fr m1 m3.
Proof. intros [_ H1] [H2 H3]. split; [done|]. intros a Ha. by rewrite H3, H1. Qed.

Lemma off_frame_cstr fr m m' a s :
  off_frame fr m m' → a + Z.of_nat (length s) < fr ∨ fr + 52 ≤ a →
  cstr m a s → cstr m' a s.
Proof. intros [_ H] Ha. apply cstr_agree. intros k Hk. apply H. lia. Qed.

Lemma off_frame_mapped fr m m' a n :
  off_frame fr m m' → a + Z.of_nat n ≤ fr ∨ fr + 52 ≤ a → mapped m a n → mapped m' a n.
Proof.
  intros [_ H] Ha Hm. apply mapped_intro. intros i Hi.
  rewrite H by lia. by apply (mapped_lookup m a n).
Qed.

Lemma directive_head ws l cv :
  Forall (λ c, digit_lt 10 c = true) ws → head ws ≠ Some 48 →
  ∃ c t, ws ++ lenmod_text l ++ [conv_char cv] = c :: t ∧ c ≠ 48 ∧ c ≠ 46.
Proof.
  intros Hw Hh. pose proof (conv_char_range cv).
  destruct Hw as [|c ws Hc Hw]; cbn [app].
  - destruct l; cbn [app lenmod_text]; eexists _, _; (split; [done|]); lia.
  - apply is_digit_range in Hc. eexists _, _. split; [done|]. split; [|lia].
    intros ->. by apply Hh.
Qed.

Lemma print_format_ok fr fuel start bufsize v lit_0x strs d m :
  fr + 52 ≤ start ∨ start + bufsize ≤ fr → 0 < bufsize < 2 ^ 64 →
  (Z.to_nat bufsize < fuel)%nat → (40 < fuel)%nat → wf_directive d →
  mapped m fr 52 → mapped m start (Z.to_nat bufsize) → 0 ≤ v < 2 ^ 64 →
  cstr m (formstr fr) (37 :: directive_text d) →
  arg_ok fr fuel start bufsize v strs m (d_conv d) →
  lit_ok fr start bufsize lit_0x m →
  let out := render_directive strs d v in
  Z.of_nat (length out) ≤ bufsize →
  ∃ m', print_format fr fuel lit_0x start bufsize (formstr fr) v m =
          Ret (start + Z.of_nat (length out)) (write_bytes start out m') ∧
        off_frame fr m m'.
Proof.
  intros Hdisj Hbs Hf1 Hf2 [Hw1 Hw2 Hw3 Hw4] Hfr Hbuf Hv Hs Harg Hlit out Hout.
  destruct d as [zero ws l cv]. unfold directive_text in *.
  cbn [d_zero d_width d_len d_conv] in *. unfold formstr in *.
  set (z := if zero then [48] else []) in *. rewrite !length_app in Hw4. cbn [length] in Hw4.
  apply cstr_cons in Hs as (_ & _ & Hs).
  assert (length z ≤ 1)%nat by (subst z; destruct zero; simpl; lia).
  (* the zero flag *)
  assert (print_format fr fuel lit_0x start bufsize fr v m =
    format_loop fr fuel start bufsize v lit_0x fuel start (fr + 1 + Z.of_nat (length z)) 0 4
      (fill_char zero) false m) as ->.
  { unfold print_format. destruct zero; cbn [app length z] in *.
    - apply cstr_cons in Hs as (Ha & _ & _). step_with (load8_Ret m _ _ Ha). done.
    - destruct (directive_head ws l cv Hw1 (Hw2 eq_refl)) as (c & t & Et & H48 & H46).
      rewrite Et in Hs. apply cstr_cons in Hs as (Ha & _ & _).
      step_with (load8_Ret m _ c Ha).
      rewrite (proj2 (Z.eqb_neq c 48)), (proj2 (Z.eqb_neq c 46)) by done. cbn [orb].
      by rewrite Z.add_0_r. }
  apply cstr_app in Hs as [_ Hs]. set (form := fr + 1 + Z.of_nat (length z)) in *.
  (* the width *)
  assert (∃ k, fuel = (length ws + S (S (S k)))%nat) as [k Ek]
    by (exists (fuel - length ws - 3)%nat; lia).
  pose proof (format_loop_width fr fuel start bufsize Hbs Hf1 ws ltac:(lia) ltac:(lia) v lit_0x
    (S (S (S k))) m form [] ws (lenmod_text l ++ [conv_char cv]) 4 (fill_char zero) Hw1 Hfr
    ltac:(simpl; lia) Hs
    ltac:(rewrite !length_app; unfold form, sizec; simpl; lia)) as Hwid.
  cbn [app length] in Hwid. change (Z.of_nat 0) with 0 in Hwid. rewrite Z.add_0_r in Hwid.
  rewrite <- Ek in Hwid. rewrite Hwid. clear Hwid.
  set (m1 := write_bytes (sizec fr) ws m).
  assert (off_frame fr m m1) as Hoff.
  { apply off_frame_write; [unfold sizec; lia..|]. by apply off_frame_refl. }
  apply cstr_app in Hs as [_ Hs].
  apply (cstr_write_disj m _ _ (sizec fr) ws) in Hs;
    [|left; rewrite length_app; unfold form, sizec; simpl; lia]. fold m1 in Hs.
  (* the length modifier *)
  destruct (format_loop_len fr fuel start bufsize Hbs Hf1 ws ltac:(lia) ltac:(lia) v lit_0x (S (S k)) m1 _ l cv
    (Z.of_nat (length ws)) (fill_char zero) Hs) as (k' & Hk' & ->).
  apply cstr_app in Hs as [_ Hs].
  (* the conversion *)
  replace k' with (S (S (k' - 2))) by lia.
  eexists. split.
  - apply (format_loop_conv fr fuel start bufsize Hdisj Hbs Hf1 ws Hw1 Hw3); try done; try lia.
    + apply Hoff.
    + apply bytes_at_write.
    + by apply mapped_write.
    + unfold form, sizec. lia.
    + destruct cv; try done. destruct Harg as (? & ? & ? & ?).
      split_and!; try done. by apply (off_frame_cstr fr m).
    + destruct Hlit as (? & ? & ?). split_and!; try done.
      by apply (off_frame_cstr fr m).
  - apply off_frame_write; [unfold sizec; simpl; lia..|done].
Qed.

(** ** Whole formats *)

Inductive item := ILit (c : Z) | IPct | IDir (d : directive).

Definition item_text (it : item) : list Z :=
  match it with ILit c => [c] | IPct => [37; 37] | IDir d => 37 :: directive_text d end.

Definition format_text (items : list item) : list Z := flat_map item_text items.

Definition wf_item (it : item) : Prop :=
  match it with
  | ILit c => 0 < c < 256 ∧ c ≠ 37
  | IPct => True
  | IDir d => wf_directive d
  end.

Fixpoint render (strs : Z → list Z) (items : list item) (args : list Z) : option (list Z) :=
  match items with
  | [] => Some []
  | ILit c :: items => (λ out, c :: out) <$> render strs items args
  | IPct :: items => (λ out, 37 :: out) <$> render strs items args
  | IDir d :: items =>
      match args with
      | [] => None
      | v :: args => (λ out, render_directive strs d v ++ out) <$> render strs items args
      end
  end.

Lemma off_frame_mono fr m m' a bs :
  off_frame fr m m' → off_frame fr (write_bytes a bs m) (write_bytes a bs m').
Proof.
  intros [H1 H2]. split; [by apply mapped_write|].
  intros k Hk. rewrite !lookup_write_bytes. case_decide; [done|]. by apply H2.
Qed.

(** The characters of a directive before its conversion. *)
Definition directive_body (d : directive) : list Z :=
  (if d_zero d then [48] else []) ++ d_width d ++ lenmod_text (d_len d).

Lemma directive_text_body d :
  directive_text d = directive_body d ++ [conv_char (d_conv d)].
Proof. unfold directive_text, directive_body. by rewrite <- !app_assoc. Qed.

Lemma directive_body_conv d :
  wf_directive d → Forall (λ c, is_conv c = false) (directive_body d).
Proof.
  intros [Hw _ _ _]. unfold directive_body. rewrite !Forall_app. split_and!.
  - destruct (d_zero d); by repeat constructor.
  - eapply Forall_impl; [done|]. intros c Hc%is_digit_range. unfold is_conv. conds.
  - destruct (d_len d); by repeat constructor.
Qed.

Lemma is_conv_char c : is_conv (conv_char c) = true.
Proof. by destruct c. Qed.

Section vsnprintf.
Context (fr : Z) (fuel : nat) (bstart bufsize lit_0x : Z) (strs : Z → list Z).
Hypothesis (frame_disj : fr + 52 ≤ bstart ∨ bstart + bufsize < fr).
Hypothesis (bufsize_range : 0 ≤ bufsize < 2 ^ 64).
Hypothesis (fuel_ok : (Z.to_nat bufsize < fuel)%nat).
Hypothesis (fuel_ok2 : (40 < fuel)%nat).

(** [n] bytes at [a] that the call does not change. *)
Definition apart (a : Z) (n : nat) : Prop :=
  (a + Z.of_nat n ≤ fr ∨ fr + 52 ≤ a) ∧
  (a + Z.of_nat n ≤ bstart ∨ bstart + bufsize < a).

Lemma formstr_store m i c :
  mapped m fr 52 → 0 ≤ i < 20 → is_byte c →
  array_store (formstr fr) 20 i c m = Ret tt (write_bytes (formstr fr + i) [c] m).
Proof.
  intros Hm Hi Hc. unfold array_store, formstr.
  rewrite (proj2 (Z.leb_le 0 i)), (proj2 (Z.ltb_lt i 20)) by lia. cbn [andb].
  destruct (mapped_lookup m fr 52 i Hm) as [x Hx]; [lia|].
  rewrite (store8_Ret m _ c x Hx). by rewrite u8_id.
Qed.

(** The directive is copied to [formstr], up to its conversion. *)
Lemma copy_directive_ok k m ptr i c bs cc rest :
  (length bs < k)%nat → mapped m fr 52 → 0 ≤ i →
  i + Z.of_nat (length (c :: bs)) ≤ 20 →
  Forall (λ c, is_conv c = false) bs → is_conv cc = true →
  cstr m ptr ((c :: bs) ++ cc :: rest) → apart ptr (S (length ((c :: bs) ++ cc :: rest))) →
  copy_directive fr k ptr i m =
  Ret (ptr + Z.of_nat (length (c :: bs)), i + Z.of_nat (length (c :: bs)))
      (write_bytes (formstr fr + i) (c :: bs) m).
Proof.
  revert m ptr i c bs. induction k as [|k IH]; intros m ptr i c bs Hk Hm Hi Hlen Hbs Hcc Hs Hap; [lia|].
  destruct Hap as [Hap1 Hap2]. cbn [length app] in *. rewrite length_app in *. cbn [length] in *.
  cbn [copy_directive]. apply cstr_cons in Hs as (Ha & Hr & Hs).
  step_with (load8_Ret m ptr c Ha).
  step_with (formstr_store m i c Hm ltac:(lia) ltac:(unfold is_byte; lia)).
  set (m1 := write_bytes (formstr fr + i) [c] m).
  assert (cstr m1 (ptr + 1) (bs ++ cc :: rest)) as Hs1.
  { apply cstr_write_disj; [|done]. rewrite length_app. unfold formstr. simpl. lia. }
  destruct bs as [|c' bs]; cbn [app length] in *.
  - apply cstr_cons in Hs1 as (Ha1 & _). step_with (load8_Ret m1 _ cc Ha1). by rewrite Hcc.
  - pose proof Hs1 as (Ha1 & _)%cstr_cons. step_with (load8_Ret m1 _ c' Ha1).
    apply Forall_cons in Hbs as [Hc' Hbs]. rewrite Hc'.
    rewrite (IH m1 (ptr + 1) (i + 1) c' bs); [|lia|by apply mapped_write|lia|lia|done..| ].
    + cbn [write_bytes]. f_equal; [zeq|]. unfold m1. cbn [write_bytes].
      by replace (formstr fr + i + 1) with (formstr fr + (i + 1)) by lia.
    + split; cbn [length app]; rewrite ?length_app; cbn [length]; lia.
Qed.

(** The directive at [ptr], copied and terminated, ready for [print_format]. *)
Lemma directive_copied m ptr body cc rest :
  (length body ≤ 17)%nat → mapped m fr 52 →
  Forall (λ c, is_conv c = false) body → is_conv cc = true →
  cstr m ptr (37 :: body ++ cc :: rest) → apart ptr (S (length (37 :: body ++ cc :: rest))) →
  let n := Z.of_nat (length (37 :: body)) in
  ∃ m1 m2 m', off_frame fr m m' ∧ cstr m' (formstr fr) (37 :: body ++ [cc]) ∧
    copy_directive fr fuel ptr 0 m = Ret (ptr + n, n) m1 ∧
    load8 (ptr + n) m1 = Ret cc m1 ∧
    array_store (formstr fr) 20 n cc m1 = Ret tt m2 ∧
    array_store (formstr fr) 20 (n + 1) 0 m2 = Ret tt m'.
Proof.
  intros Hl Hm Hbody Hcc Hs Hap.
  pose proof (copy_directive_ok fuel m ptr 0 37 body cc rest ltac:(lia) Hm ltac:(lia)
    ltac:(simpl; lia) Hbody Hcc Hs Hap) as Hrun.
  set (m1 := write_bytes (formstr fr + 0) (37 :: body) m) in *.
  intros n. fold n in Hrun.
  assert (n = Z.of_nat (S (length body))) as En by done. clearbody n.
  destruct Hap as [Hap1 Hap2]. cbn [length] in Hap1, Hap2. rewrite length_app in Hap1, Hap2.
  cbn [length] in Hap1, Hap2.
  assert (m1 !! (ptr + n) = Some cc ∧ 0 < cc < 256) as [Hload Hccr].
  { change (37 :: body ++ cc :: rest) with ((37 :: body) ++ cc :: rest) in Hs.
    apply cstr_app in Hs as [_ (Ha & Hr & _)%cstr_cons]. split; [|done].
    unfold m1. rewrite lookup_write_bytes_out; [by rewrite En|].
    unfold formstr. cbn [length]. lia. }
  set (m2 := write_bytes (formstr fr + n) [cc] m1).
  set (m3 := write_bytes (formstr fr + (n + 1)) [0] m2).
  assert (off_frame fr m m3) as Hoff.
  { unfold m3, m2, m1, formstr.
    repeat (apply off_frame_write; [cbn [length]; lia|cbn [length]; lia|]).
    by apply off_frame_refl. }
  exists m1, m2, m3. split_and!; [done| |by rewrite Z.add_0_l in Hrun|by apply load8_Ret|..].
  - assert (m3 = write_bytes (formstr fr) ((37 :: body) ++ [cc] ++ [0]) m) as ->.
    { rewrite !write_bytes_app. unfold m3, m2, m1. rewrite En, Z.add_0_r. cbn [length].
      f_equal. lia. }
    split; [rewrite app_comm_cons, <- app_assoc; apply bytes_at_write|].
    destruct Hs as [_ Hr]. apply Forall_cons in Hr as [H37 Hr].
    apply Forall_app in Hr as [Hb _]. constructor; [done|].
    apply Forall_app. split; [done|]. constructor; [done|constructor].
  - apply formstr_store; [by apply mapped_write|lia|unfold is_byte; lia].
  - apply formstr_store; [by do 2 apply mapped_write|lia|unfold is_byte; lia].
Qed.

(** What a directive needs of its argument. *)
Definition dir_arg_ok (m : mem) (d : directive) (v : Z) : Prop :=
  0 ≤ v < 2 ^ 64 ∧
  (d_conv d = Cs →
   cstr m v (strs v) ∧ (length (strs v) < fuel)%nat ∧ apart v (S (length (strs v)))).

Fixpoint args_ok (m : mem) (items : list item) (args : list Z) : Prop :=
  match items, args with
  | [], _ => True
  | IDir d :: items, v :: args => dir_arg_ok m d v ∧ args_ok m items args
  | IDir _ :: _, [] => False
  | _ :: items, _ => args_ok m items args
  end.

(** The memory a call may start from, with [j] characters printed. *)
Record vsn_ok (m : mem) (ptr : Z) (items : list item) (args : list Z) : Prop := {
  vsn_frame : mapped m fr 52;
  vsn_buf : mapped m bstart (Z.to_nat bufsize);
  vsn_fmt : cstr m ptr (format_text items);
  vsn_fmt_apart : apart ptr (S (length (format_text items)));
  vsn_lit : cstr m lit_0x [48; 120];
  vsn_lit_apart : apart lit_0x 3;
  vsn_args : args_ok m items args;
}.

(** Text outside the frame and the buffer survives a step of the call. *)
Lemma apart_cstr m m' a bs p s :
  bstart ≤ a → a + Z.of_nat (length bs) ≤ bstart + bufsize →
  off_frame fr (write_bytes a bs m) m' → apart p (S (length s)) → cstr m p s → cstr m' p s.
Proof.
  intros H1 H2 Hoff [Hp1 Hp2] Hs. eapply off_frame_cstr; [done|lia|].
  apply cstr_write_disj; [lia|done].
Qed.

Lemma args_ok_step m m' a bs items args :
  bstart ≤ a → a + Z.of_nat (length bs) ≤ bstart + bufsize →
  off_frame fr (write_bytes a bs m) m' → args_ok m items args → args_ok m' items args.
Proof.
  intros H1 H2 Hoff. revert args. induction items as [|[c| |d] items IH]; intros args; simpl; auto.
  destruct args as [|v args]; [done|]. intros [[Hv Harg] Hargs]. split; [|by apply IH].
  split; [done|]. intros Hc. destruct (Harg Hc) as (Hs & Hf & Hap).
  split_and!; [|done..]. by eapply apart_cstr.
Qed.

Lemma vsn_step m m' a bs ptr n it items args args' :
  bstart ≤ a → a + Z.of_nat (length bs) ≤ bstart + bufsize →
  off_frame fr (write_bytes a bs m) m' → n = Z.of_nat (length (item_text it)) →
  args_ok m items args' →
  vsn_ok m ptr (it :: items) args → vsn_ok m' (ptr + n) items args'.
Proof.
  intros H1 H2 Hoff -> Hargs' [Hfr Hbuf Hfmt [Hap1 Hap2] Hlit Hlap Hargs].
  cbn [format_text flat_map] in *. fold (format_text items) in *.
  rewrite length_app in *. apply cstr_app in Hfmt as [_ Hfmt].
  assert (apart (ptr + Z.of_nat (length (item_text it))) (S (length (format_text items))))
    by (split; lia).
  split; try done.
  - apply Hoff.
  - eapply off_frame_mapped; [done|lia|by apply mapped_write].
  - by eapply apart_cstr.
  - by eapply apart_cstr.
  - by eapply args_ok_step.
Qed.

(** Literal characters, and the per-cent sign. *)
Lemma vsn_emit m a c :
  mapped m fr 52 → mapped m bstart (Z.to_nat bufsize) → is_byte c →
  bstart ≤ a < bstart + bufsize →
  store8 a c m = Ret tt (write_bytes a [c] m) ∧
  off_frame fr (write_bytes a [c] m) (write_bytes a [c] m).
Proof.
  intros Hfr Hbuf Hc Ha.
  destruct (mapped_lookup m bstart _ (a - bstart) Hbuf) as [x Hx]; [lia|].
  replace (bstart + (a - bstart)) with a in Hx by lia.
  rewrite (store8_Ret m a c x Hx), u8_id by done. split; [done|].
  by apply off_frame_refl, mapped_write.
Qed.

Lemma off_frame_seq m m1 m2 a o1 o2 :
  off_frame fr (write_bytes a o1 m) m1 →
  off_frame fr (write_bytes (a + Z.of_nat (length o1)) o2 m1) m2 →
  off_frame fr (write_bytes a (o1 ++ o2) m) m2.
Proof.
  intros H1 H2. rewrite write_bytes_app.
  eapply off_frame_trans; [|exact H2]. by apply off_frame_mono.
Qed.

Definition loop_post (k : nat) (m : mem) (items : list item) : Prop :=
  ∀ ptr args out j,
  Forall wf_item items → vsn_ok m ptr items args → render strs items args = Some out →
  0 ≤ j → j + Z.of_nat (length out) ≤ bufsize →
  ∃ m', vsnprintf_loop fr fuel lit_0x bstart bufsize k (bstart + j) ptr args m =
          Ret (bstart + j + Z.of_nat (length out)) m' ∧
        off_frame fr (write_bytes (bstart + j) out m) m'.

(** One item printed as [o1], and then the rest. *)
Lemma loop_continue k m m1 items ptr args out j o1 :
  (∀ m, loop_post k m items) → Forall wf_item items →
  off_frame fr (write_bytes (bstart + j) o1 m) m1 →
  vsn_ok m1 ptr items args → render strs items args = Some out →
  0 ≤ j → j + Z.of_nat (length (o1 ++ out)) ≤ bufsize →
  ∃ m', vsnprintf_loop fr fuel lit_0x bstart bufsize k (bstart + j + Z.of_nat (length o1))
          ptr args m1 = Ret (bstart + j + Z.of_nat (length (o1 ++ out))) m' ∧
        off_frame fr (write_bytes (bstart + j) (o1 ++ out) m) m'.
Proof.
  intros IH Hwf Hoff Hvsn Hr Hj Hlen. rewrite length_app in *.
  destruct (IH m1 ptr args out (j + Z.of_nat (length o1))) as (m' & Hrun & Hoff'); [done..|lia|lia|].
  rewrite Z.add_assoc in Hrun, Hoff'. exists m'. split; [rewrite Hrun; f_equal; lia|].
  by eapply off_frame_seq.
Qed.

(** The item is reached with room in the buffer. *)
Definition item_post (it : item) : Prop :=
  ∀ k m items ptr args out j,
  (∀ m, loop_post k m items) → Forall wf_item (it :: items) →
  vsn_ok m ptr (it :: items) args → render strs (it :: items) args = Some out →
  0 ≤ j < bufsize → j + Z.of_nat (length out) ≤ bufsize →
  ∃ m', vsnprintf_loop fr fuel lit_0x bstart bufsize (S k) (bstart + j) ptr args m =
          Ret (bstart + j + Z.of_nat (length out)) m' ∧
        off_frame fr (write_bytes (bstart + j) out m) m'.

(** The loop test, on a character [c] of the format. *)
Ltac enter_loop Hload Hj :=
  cbn [vsnprintf_loop]; step_with (load8_Ret _ _ _ Hload);
  rewrite (wrap_small 64) by lia;
  rewrite (proj2 (Z.ltb_lt _ bufsize)), (proj2 (Z.eqb_neq _ 0)) by lia; cbn [negb andb].

Lemma item_lit c : item_post (ILit c).
Proof.
  intros k m items ptr args out j IH Hwf Hvsn Hr Hj Hlen.
  pose proof Hvsn as [Hfr Hbuf Hfmt Hap Hlit Hlap Hargs].
  apply Forall_cons in Hwf as [[Hc H37] Hwf].
  pose proof Hfmt as (Hload & _ & _)%cstr_cons. enter_loop Hload Hj.
  rewrite (proj2 (Z.eqb_neq c 37)) by done. cbn [render] in Hr.
  destruct (render strs items args) as [out'|] eqn:Er; [|done].
  injection Hr as <-.
  destruct (vsn_emit m (bstart + j) c) as [Hst Hoff]; [done..|unfold is_byte; lia|lia|].
  step_with Hst. apply (loop_continue k m _ items _ args out' j [c]); try done; [|lia].
  apply (vsn_step m _ (bstart + j) [c] ptr 1 (ILit c) items args args); try done; [lia|].
  cbn [length]. lia.
Qed.

Lemma item_pct : item_post IPct.
Proof.
  intros k m items ptr args out j IH Hwf Hvsn Hr Hj Hlen.
  pose proof Hvsn as [Hfr Hbuf Hfmt Hap Hlit Hlap Hargs].
  apply Forall_cons in Hwf as [_ Hwf].
  pose proof Hfmt as (Hload & _ & _)%cstr_cons. enter_loop Hload Hj.
  change (37 =? 37) with true. cbn iota. cbn [render] in Hr.
  destruct (render strs items args) as [out'|] eqn:Er; [|done]. injection Hr as <-.
  destruct (directive_copied m ptr [] 37 (format_text items))
    as (m1 & m2 & m3 & Hoff & _ & H1 & H2 & H3 & H4); [simpl; lia|done|constructor|done..|].
  step_with H1. step_with H2. step_with H3. step_with H4.
  change (37 =? 37) with true. cbn iota.
  destruct (vsn_emit m3 (bstart + j) 37) as [Hst Hoff3]; [apply Hoff| |by unfold is_byte|lia|].
  { eapply off_frame_mapped; [done|lia|done]. }
  step_with Hst.
  replace (ptr + Z.of_nat (length [37]) + 1) with (ptr + 2) by (cbn [length]; lia).
  assert (off_frame fr (write_bytes (bstart + j) [37] m) (write_bytes (bstart + j) [37] m3))
    as Hoff' by (by apply off_frame_mono).
  apply (loop_continue k m _ items _ args out' j [37]); try done; [|lia].
  apply (vsn_step m _ (bstart + j) [37] ptr 2 IPct items args args); try done; [lia|].
  cbn [length]. lia.
Qed.

Lemma item_dir d : item_post (IDir d).
Proof.
  intros k m items ptr args out j IH Hwf Hvsn Hr Hj Hlen.
  pose proof Hvsn as [Hfr Hbuf Hfmt Hap Hlit Hlap Hargs].
  apply Forall_cons in Hwf as [Hd Hwf]. cbn [wf_item] in Hd.
  pose proof Hfmt as (Hload & _ & _)%cstr_cons. enter_loop Hload Hj.
  change (37 =? 37) with true. cbn iota. cbn [render args_ok] in Hr, Hargs.
  destruct args as [|v args]; [done|].
  destruct (render strs items args) as [out'|] eqn:Er; [|done]. injection Hr as <-.
  destruct Hargs as [[Hv Harg] Hargs]. set (o1 := render_directive strs d v) in *.
  assert (format_text (IDir d :: items) =
          37 :: directive_body d ++ conv_char (d_conv d) :: format_text items) as Etext.
  { cbn [format_text flat_map item_text]. rewrite directive_text_body. cbn [app].
    by rewrite <- app_assoc. }
  pose proof (wf_length d Hd) as Hl. rewrite directive_text_body, length_app in Hl.
  cbn [length] in Hl.
  destruct (directive_copied m ptr (directive_body d) (conv_char (d_conv d)) (format_text items))
    as (m1 & m2 & m3 & Hoff & Hform & H1 & H2 & H3 & H4);
    [lia|done|by apply directive_body_conv|apply is_conv_char|by rewrite <- Etext..|].
  step_with H1. step_with H2. step_with H3. step_with H4.
  rewrite (proj2 (Z.eqb_neq _ 37)) by (pose proof (conv_char_range (d_conv d)); lia).
  rewrite length_app in Hlen.
  replace (u64 (bufsize - (bstart + j - bstart))) with (bufsize - j)
    by (rewrite wrap_small; lia).
  assert (∀ p s, apart p (S (length s)) → cstr m p s → cstr m3 p s) as Hkeep.
  { intros p s [? ?] Hs. eapply off_frame_cstr; [done|lia|done]. }
  destruct (print_format_ok fr fuel (bstart + j) (bufsize - j) v lit_0x strs d m3)
    as (m4 & Hpf & Hoff4); try done; try lia.
  - apply Hoff.
  - eapply off_frame_mapped; [done|lia|]. eapply mapped_sub; [..|exact Hbuf]; lia.
  - by rewrite directive_text_body.
  - unfold arg_ok. destruct (d_conv d); try done.
    destruct (Harg eq_refl) as (Hs & Hf & Hsap). pose proof Hsap as [? ?].
    split_and!; [by apply Hkeep|done|lia|lia].
  - destruct Hlap as [? ?]. split_and!; [by apply Hkeep|lia|lia].
  - fold o1. lia.
  - fold o1 in Hpf. step_with Hpf.
    assert (off_frame fr (write_bytes (bstart + j) o1 m) (write_bytes (bstart + j) o1 m4))
      as Hoff' by (apply off_frame_mono; by eapply off_frame_trans).
    apply (loop_continue k m _ items _ args out' j o1); try done; [| |rewrite length_app]; try lia.
    rewrite <- Z.add_assoc.
    apply (vsn_step m _ (bstart + j) o1 ptr _ (IDir d) items (v :: args) args); try done; try lia.
    cbn [item_text]. rewrite directive_text_body. cbn [length]. rewrite length_app. cbn [length]. lia.
Qed.

Lemma vsnprintf_loop_ok k m items : (length items < k)%nat → loop_post k m items.
Proof.
  revert m items. induction k as [|k IH]; intros m items Hk; [lia|].
  intros ptr args out j Hwf Hvsn Hr Hj Hlen.
  pose proof Hvsn as [Hfr Hbuf Hfmt Hap Hlit Hlap Hargs].
  destruct items as [|it items].
  { injection Hr as <-. apply cstr_nil in Hfmt. cbn [vsnprintf_loop].
    step_with (load8_Ret m ptr 0 Hfmt). exists m. cbn. rewrite Z.add_0_r. split; [done|].
    by apply off_frame_refl. }
  assert (∀ m, loop_post k m items) as IH' by (intros m'; apply IH; cbn [length] in Hk; lia).
  destruct (decide (j = bufsize)) as [->|Hjlt].
  { assert (out = []) as -> by (destruct out; cbn [length] in Hlen; [done|lia]).
    cbn [vsnprintf_loop].
    assert (∃ c, m !! ptr = Some c) as [c Hc]
      by (destruct it; apply cstr_cons in Hfmt as (? & _ & _); eauto).
    step_with (load8_Ret m ptr c Hc). rewrite (wrap_small 64) by lia.
    rewrite (proj2 (Z.ltb_ge _ bufsize)), andb_false_r by lia.
    exists m. cbn. rewrite Z.add_0_r. split; [done|]. by apply off_frame_refl. }
  assert (item_post it) as Hitem
    by (destruct it; [apply item_lit|apply item_pct|apply item_dir]).
  apply (Hitem k m items ptr args out j); auto; lia.
Qed.
End vsnprintf.

(** The whole function: [out] and its terminator are in the buffer, every byte
    outside the buffer and the frame is as it was. *)
Lemma vsnprintf_ok fr fuel buffer bufsize lit_0x strs fmt items args out m :
  fr + 52 ≤ buffer ∨ buffer + bufsize ≤ fr → buffer ≠ NULL →
  0 < bufsize < 2 ^ 31 → (Z.to_nat bufsize < fuel)%nat → (40 < fuel)%nat →
  (length items < fuel)%nat → Forall wf_item items →
  vsn_ok fr fuel buffer (bufsize - 1) lit_0x strs m fmt items args →
  mapped m buffer (Z.to_nat bufsize) →
  render strs items args = Some out → Z.of_nat (length out) < bufsize →
  ∃ m', vsnprintf fr fuel lit_0x buffer bufsize fmt args m =
          Ret (Z.of_nat (length out)) m' ∧
        off_frame fr (write_bytes buffer (out ++ [0]) m) m'.
Proof.
  intros Hd Hnull Hbs Hf1 Hf2 Hf3 Hwf Hvsn Hbuf Hr Hlen. unfold vsnprintf.
  rewrite (proj2 (Z.eqb_neq buffer NULL)), (proj2 (Z.eqb_neq bufsize 0)) by lia. cbn [orb].
  destruct (vsnprintf_loop_ok fr fuel buffer (bufsize - 1) lit_0x strs ltac:(lia) ltac:(lia)
    ltac:(lia) Hf2 fuel m items Hf3 fmt args out 0 Hwf Hvsn Hr ltac:(lia) ltac:(lia))
    as (m1 & Hrun & Hoff).
  rewrite Z.add_0_r in Hrun, Hoff. step_with Hrun.
  assert (mapped m1 buffer (Z.to_nat bufsize)) as Hbuf1.
  { eapply off_frame_mapped; [done|lia|by apply mapped_write]. }
  destruct (mapped_lookup m1 _ _ (Z.of_nat (length out)) Hbuf1) as [x Hx]; [lia|].
  step_with (store8_Ret m1 _ 0 x Hx). change (u8 0) with 0.
  replace (buffer + Z.of_nat (length out) - buffer) with (Z.of_nat (length out)) by lia.
  rewrite swrap_small by (change (32 - 1) with 31; lia).
  eexists. split; [done|].
  change (<[?a:=0]> m1) with (write_bytes a [0] m1).
  eapply off_frame_seq; [done|]. apply off_frame_refl, mapped_write. apply Hoff.
Qed.
