(* ===== verification/MemTypes.v ===== *)
(** * Memory stays a memory of bytes

    What every routine of the firmware libc does to memory, whatever its arguments
    are: a call that ends leaves the same addresses mapped, and bytes in them.  The
    routines are built from the accesses of [CMem]; [keeps] is closed under the
    constructions they use. *)
From S2P Require Import Prelude CMem LibMem MemEquiv Ctype LibStr Strtol Printf.

(** ** Memories of bytes *)

Definition mem_bytes (m : mem) : Prop := map_Forall (λ _ b, is_byte b) m.

Lemma mem_bytes_write a bs m : bytes bs → mem_bytes m → mem_bytes (write_bytes a bs m).
Proof.
  intros Hb. revert a m. induction Hb as [|b bs Hb Hbs IH]; intros a m Hm; [done|].
  cbn [write_bytes]. apply IH. by apply map_Forall_insert_2.
Qed.

Lemma mem_bytes_read m a n bs : mem_bytes m → read_bytes m a n = Some bs → bytes bs.
Proof.
  intros Hm Hr. pose proof (read_bytes_length _ _ _ _ Hr) as <-. apply bytes_at_read in Hr.
  apply Forall_lookup_2. intros i b Hi. eapply Hm. by eapply bytes_at_lookup.
Qed.

(** ** Programs that keep it *)

Definition preserves (m m' : mem) : Prop := dom m' = dom m ∧ (mem_bytes m → mem_bytes m').

#[export] Instance preserves_preorder : PreOrder preserves.
Proof.
  split; [by intros m|]. intros m1 m2 m3 [D1 B1] [D2 B2]. split; [congruence|auto].
Qed.

Definition keeps {A} (p : M mem A) : Prop :=
  ∀ m, match p m with Ret _ m' | Exit _ m' => preserves m m' | Stuck | OutOfFuel => True end.

Create HintDb keeps.

Lemma keeps_ret {A} (a : A) : keeps (mret a).
Proof. intros m. cbn. reflexivity. Qed.
Lemma keeps_bind {A B} (p : M mem A) (f : A → M mem B) : keeps p → (∀ a, keeps (f a)) → keeps (p ≫= f).
Proof.
  intros Hp Hf m. unfold mbind, M_bind. specialize (Hp m). destruct (p m) as [a m1| |c m1|]; try done.
  specialize (Hf a m1). destruct (f a m1); try done; by etrans.
Qed.
Lemma keeps_stuck {A} : keeps (stuck : M mem A).
Proof. done. Qed.
Lemma keeps_out_of_fuel {A} : keeps (out_of_fuel : M mem A).
Proof. done. Qed.
Lemma keeps_of_option {A} (o : option A) : keeps (of_option o).
Proof. intros m. unfold of_option. destruct o; [|done]. reflexivity. Qed.

Lemma keeps_load8 a : keeps (load8 a).
Proof. intros m. unfold load8. destruct (m !! a); [|done]. reflexivity. Qed.
Lemma keeps_load n a : keeps (load n a).
Proof. intros m. unfold load. destruct (read_bytes m a n); [|done]. reflexivity. Qed.
Lemma keeps_store n a v : keeps (store n a v).
Proof.
  intros m. unfold store. destruct (read_bytes m a n) as [bs|] eqn:E; [|done]. split.
  - apply dom_write_bytes. rewrite length_le_split. by apply (read_bytes_within _ _ _ bs).
  - apply mem_bytes_write, le_split_bytes.
Qed.
Lemma keeps_store8 a v : keeps (store8 a v).
Proof.
  intros m. unfold store8. destruct (m !! a) as [b|] eqn:E; [|done]. split.
  - rewrite dom_insert_L. apply elem_of_dom_2 in E. set_solver.
  - intros Hm. apply map_Forall_insert_2; [apply u8_byte|done].
Qed.
#[export] Hint Resolve keeps_ret keeps_stuck keeps_out_of_fuel keeps_of_option keeps_load8 keeps_load keeps_store keeps_store8 : keeps.

Ltac keeps_step :=
  first
    [ assumption
    | solve [eauto with keeps]
    | match goal with
      | |- keeps (_ ≫= _) => apply keeps_bind; [|intros ?]
      | |- keeps (if ?b then _ else _) => destruct b
      | |- keeps (match ?x with _ => _ end) => destruct x
      | |- keeps (let '_ := ?x in _) => destruct x
      end
    | progress intros ? ].
Ltac keeps := cbn zeta; repeat keeps_step.

(** ** The routines *)

(** Memory. *)
Lemma keeps_memcpy_words fuel : ∀ dest src n, keeps (memcpy_words fuel dest src n).
Proof. induction fuel; intros; cbn [memcpy_words]; keeps. Qed.
Lemma keeps_memcpy_bytes fuel : ∀ dest src n, keeps (memcpy_bytes fuel dest src n).
Proof. induction fuel; intros; cbn [memcpy_bytes]; keeps. Qed.
Lemma keeps_memmove_back fuel : ∀ cdest csrc i n, keeps (memmove_back fuel cdest csrc i n).
Proof. induction fuel; intros; cbn [memmove_back]; keeps. Qed.
Lemma keeps_memset_words fuel : ∀ d big_c c size, keeps (memset_words fuel d big_c c size).
Proof. induction fuel; intros; cbn [memset_words]; keeps. Qed.
Lemma keeps_memset_bytes fuel : ∀ d c size, keeps (memset_bytes fuel d c size).
Proof. induction fuel; intros; cbn [memset_bytes]; keeps. Qed.
Lemma keeps_memcmp_loop fuel : ∀ p1 p2 n, keeps (memcmp_loop fuel p1 p2 n).
Proof. induction fuel; intros; cbn [memcmp_loop]; keeps. Qed.
Lemma keeps_memchr_loop fuel : ∀ p ch n, keeps (memchr_loop fuel p ch n).
Proof. induction fuel; intros; cbn [memchr_loop]; keeps. Qed.
#[export] Hint Resolve keeps_memcpy_words keeps_memcpy_bytes keeps_memmove_back keeps_memset_words keeps_memset_bytes keeps_memcmp_loop keeps_memchr_loop : keeps.
Lemma keeps_memcpy dest src n : keeps (memcpy dest src n).
Proof. unfold memcpy. keeps. Qed.
#[export] Hint Resolve keeps_memcpy : keeps.
Lemma keeps_memmove dest src n : keeps (memmove dest src n).
Proof. unfold memmove. keeps. Qed.
Lemma keeps_memset dest c size : keeps (memset dest c size).
Proof. unfold memset. keeps. Qed.
Lemma keeps_memcmp ptr1 ptr2 n : keeps (memcmp ptr1 ptr2 n).
Proof. unfold memcmp. keeps. Qed.
Lemma keeps_memchr ptr c n : keeps (memchr ptr c n).
Proof. unfold memchr. keeps. Qed.
#[export] Hint Resolve keeps_memmove keeps_memset keeps_memcmp keeps_memchr : keeps.

(** Strings. *)
Lemma keeps_strlen_loop fuel : ∀ s len, keeps (strlen_loop fuel s len).
Proof. induction fuel; intros; cbn [strlen_loop]; keeps. Qed.
Lemma keeps_strnlen_loop fuel : ∀ s len n, keeps (strnlen_loop fuel s len n).
Proof. induction fuel; intros; cbn [strnlen_loop]; keeps. Qed.
#[export] Hint Resolve keeps_strlen_loop keeps_strnlen_loop : keeps.
Lemma keeps_strlen fuel s : keeps (strlen fuel s).
Proof. unfold strlen. keeps. Qed.
Lemma keeps_strnlen fuel s n : keeps (strnlen fuel s n).
Proof. unfold strnlen. keeps. Qed.
#[export] Hint Resolve keeps_strlen keeps_strnlen : keeps.
Lemma keeps_strcmp fuel : ∀ s1 s2, keeps (strcmp fuel s1 s2).
Proof. induction fuel; intros; cbn [strcmp]; keeps. Qed.
Lemma keeps_strncmp_loop fuel : ∀ s1 s2 n, keeps (strncmp_loop fuel s1 s2 n).
Proof. induction fuel; intros; cbn [strncmp_loop]; keeps. Qed.
Lemma keeps_strcasecmp fuel : ∀ s1 s2, keeps (strcasecmp fuel s1 s2).
Proof. induction fuel; intros; cbn [strcasecmp]; keeps. Qed.
Lemma keeps_strncasecmp_loop fuel : ∀ s1 s2 n, keeps (strncasecmp_loop fuel s1 s2 n).
Proof. induction fuel; intros; cbn [strncasecmp_loop]; keeps. Qed.
#[export] Hint Resolve keeps_strcmp keeps_strncmp_loop keeps_strcasecmp keeps_strncasecmp_loop : keeps.
Lemma keeps_strncmp fuel s1 s2 n : keeps (strncmp fuel s1 s2 n).
Proof. unfold strncmp. keeps. Qed.
Lemma keeps_strncasecmp fuel s1 s2 n : keeps (strncasecmp fuel s1 s2 n).
Proof. unfold strncasecmp. keeps. Qed.
#[export] Hint Resolve keeps_strncmp keeps_strncasecmp : keeps.
Lemma keeps_strcpy_loop fuel : ∀ ptr src, keeps (strcpy_loop fuel ptr src).
Proof. induction fuel; intros; cbn [strcpy_loop]; keeps. Qed.
Lemma keeps_strncpy_copy fuel : ∀ dst src n, keeps (strncpy_copy fuel dst src n).
Proof. induction fuel; intros; cbn [strncpy_copy]; keeps. Qed.
Lemma keeps_strncpy_clear fuel : ∀ dst n, keeps (strncpy_clear fuel dst n).
Proof. induction fuel; intros; cbn [strncpy_clear]; keeps. Qed.
Lemma keeps_strchr_loop fuel : ∀ s cb, keeps (strchr_loop fuel s cb).
Proof. induction fuel; intros; cbn [strchr_loop]; keeps. Qed.
Lemma keeps_strrchr_loop fuel : ∀ s cb last, keeps (strrchr_loop fuel s cb last).
Proof. induction fuel; intros; cbn [strrchr_loop]; keeps. Qed.
#[export] Hint Resolve keeps_strcpy_loop keeps_strncpy_copy keeps_strncpy_clear keeps_strchr_loop keeps_strrchr_loop : keeps.
Lemma keeps_strcpy fuel dst src : keeps (strcpy fuel dst src).
Proof. unfold strcpy. keeps. Qed.
#[export] Hint Resolve keeps_strcpy : keeps.
Lemma keeps_strncpy fuel dst src n : keeps (strncpy fuel dst src n).
Proof. unfold strncpy. keeps. Qed.
Lemma keeps_strcat fuel dst src : keeps (strcat fuel dst src).
Proof. unfold strcat. keeps. Qed.
Lemma keeps_strchr fuel s c : keeps (strchr fuel s c).
Proof. unfold strchr. keeps. Qed.
Lemma keeps_strrchr fuel s c : keeps (strrchr fuel s c).
Proof. unfold strrchr. keeps. Qed.
#[export] Hint Resolve keeps_strncpy keeps_strcat keeps_strchr keeps_strrchr : keeps.
Lemma keeps_strstr_loop k : ∀ fuel pos stop needle nlen, keeps (strstr_loop k fuel pos stop needle nlen).
Proof. induction k; intros; cbn [strstr_loop]; keeps. Qed.
#[export] Hint Resolve keeps_strstr_loop : keeps.
Lemma keeps_strstr fuel hay needle : keeps (strstr fuel hay needle).
Proof. unfold strstr. keeps. Qed.
Lemma keeps_strtok_scan fuel : ∀ pp src, keeps (strtok_scan fuel pp src).
Proof. induction fuel; intros; cbn [strtok_scan]; keeps. Qed.
#[export] Hint Resolve keeps_strtok_scan : keeps.
Lemma keeps_strtok_loop fuel : ∀ pfuel src retVal pattern, keeps (strtok_loop fuel pfuel src retVal pattern).
Proof. induction fuel; intros; cbn [strtok_loop]; keeps. Qed.
#[export] Hint Resolve keeps_strtok_loop keeps_strstr : keeps.
Lemma keeps_strtok fuel src pattern nxtTok : keeps (strtok fuel src pattern nxtTok).
Proof. unfold strtok. keeps. Qed.
#[export] Hint Resolve keeps_strtok : keeps.

(** Numbers. *)
Lemma keeps_skip_blank fuel : ∀ p, keeps (skip_blank fuel p).
Proof. induction fuel; intros; cbn [skip_blank]; keeps. Qed.
#[export] Hint Resolve keeps_skip_blank : keeps.
Lemma keeps_at_0x p : keeps (at_0x p).
Proof. unfold at_0x. keeps. Qed.
#[export] Hint Resolve keeps_at_0x : keeps.
Lemma keeps_choose_base p base : keeps (choose_base p base).
Proof. unfold choose_base. keeps. Qed.
Lemma keeps_skip_0x p base : keeps (skip_0x p base).
Proof. unfold skip_0x. keeps. Qed.
#[export] Hint Resolve keeps_choose_base keeps_skip_0x : keeps.
Lemma keeps_digit_loop accum fuel : (∀ r d, keeps (accum r d)) → ∀ p base rval, keeps (digit_loop accum fuel p base rval).
Proof. intros Ha. induction fuel; intros; cbn [digit_loop]; keeps. Qed.
Lemma keeps_strtoul_accum base rval digit : keeps (strtoul_accum base rval digit).
Proof. unfold strtoul_accum. keeps. Qed.
Lemma keeps_long_checked v : keeps (long_checked v).
Proof. unfold long_checked. keeps. Qed.
#[export] Hint Resolve keeps_strtoul_accum keeps_long_checked keeps_digit_loop : keeps.
Lemma keeps_strtol_accum base rval digit : keeps (strtol_accum base rval digit).
Proof. unfold strtol_accum. keeps. Qed.
#[export] Hint Resolve keeps_strtol_accum : keeps.
Lemma keeps_strtoul fuel s base : keeps (strtoul fuel s base).
Proof. unfold strtoul. keeps. Qed.
Lemma keeps_strtol fuel s base : keeps (strtol fuel s base).
Proof. unfold strtol. keeps. Qed.
#[export] Hint Resolve keeps_strtoul keeps_strtol : keeps.

(** Formatted output. *)
Lemma keeps_array_store base len i v : keeps (array_store base len i v).
Proof. unfold array_store. keeps. Qed.
#[export] Hint Resolve keeps_array_store : keeps.
Lemma keeps_fill_loop fuel : ∀ buffer bstart bufsize i bound c, keeps (fill_loop fuel buffer bstart bufsize i bound c).
Proof. induction fuel; intros; cbn [fill_loop]; keeps. Qed.
#[export] Hint Resolve keeps_fill_loop : keeps.
Lemma keeps_print_str_fill fuel buffer bufsize sizec str c : keeps (print_str_fill fuel buffer bufsize sizec str c).
Proof. unfold print_str_fill. keeps. Qed.
Lemma keeps_print_str_loop fuel k : ∀ buffer bstart bufsize str i, keeps (print_str_loop fuel k buffer bstart bufsize str i).
Proof. induction k; intros; cbn [print_str_loop]; keeps. Qed.
#[export] Hint Resolve keeps_print_str_loop keeps_print_str_fill : keeps.
Lemma keeps_print_str fuel buffer bufsize str : keeps (print_str fuel buffer bufsize str).
Proof. unfold print_str. keeps. Qed.
Lemma keeps_intlen_loop fuel : ∀ value base i, keeps (intlen_loop fuel value base i).
Proof. induction fuel; intros; cbn [intlen_loop]; keeps. Qed.
#[export] Hint Resolve keeps_print_str keeps_intlen_loop : keeps.
Lemma keeps_print_intlen value base : keeps (print_intlen value base).
Proof. unfold print_intlen. keeps. Qed.
Lemma keeps_itoa_loop fuel : ∀ buffer value base upper i, keeps (itoa_loop fuel buffer value base upper i).
Proof. induction fuel; intros; cbn [itoa_loop]; keeps. Qed.
#[export] Hint Resolve keeps_print_intlen keeps_itoa_loop : keeps.
Lemma keeps_print_itoa buffer bufsize value base upper : keeps (print_itoa buffer bufsize value base upper).
Proof. unfold print_itoa. keeps. Qed.
Lemma keeps_print_fill fuel buffer bufsize sizec size base c optlen : keeps (print_fill fuel buffer bufsize sizec size base c optlen).
Proof. unfold print_fill. keeps. Qed.
#[export] Hint Resolve keeps_print_itoa keeps_print_fill : keeps.
Lemma keeps_format_dec fr fuel start bufsize var signed buffer i lm sign upper :
  keeps (format_dec fr fuel start bufsize var signed buffer i lm sign upper).
Proof. unfold format_dec. keeps. Qed.
Lemma keeps_format_unsigned fr fuel start bufsize var base buffer i lm sign upper :
  keeps (format_unsigned fr fuel start bufsize var base buffer i lm sign upper).
Proof. unfold format_unsigned. keeps. Qed.
Lemma keeps_format_ptr fr fuel start bufsize var lit_0x buffer i upper :
  keeps (format_ptr fr fuel start bufsize var lit_0x buffer i upper).
Proof. unfold format_ptr. keeps. Qed.
Lemma keeps_format_char fr fuel start bufsize var buffer i : keeps (format_char fr fuel start bufsize var buffer i).
Proof. unfold format_char. keeps. Qed.
Lemma keeps_format_str fr fuel start bufsize var buffer i : keeps (format_str fr fuel start bufsize var buffer i).
Proof. unfold format_str. keeps. Qed.
#[export] Hint Resolve keeps_format_dec keeps_format_unsigned keeps_format_ptr keeps_format_char keeps_format_str : keeps.

Lemma keeps_format_loop fr fuel start bufsize var lit_0x k :
  ∀ buffer form i lm sign upper, keeps (format_loop fr fuel start bufsize var lit_0x k buffer form i lm sign upper).
Proof. induction k; intros; cbn [format_loop]; keeps. Qed.
#[export] Hint Resolve keeps_format_loop : keeps.
Lemma keeps_print_format fr fuel lit_0x buffer bufsize format var :
  keeps (print_format fr fuel lit_0x buffer bufsize format var).
Proof. unfold print_format. keeps. Qed.
Lemma keeps_copy_directive fr k : ∀ ptr i, keeps (copy_directive fr k ptr i).
Proof. induction k; intros; cbn [copy_directive]; keeps. Qed.
#[export] Hint Resolve keeps_print_format keeps_copy_directive : keeps.
Lemma keeps_vsnprintf_loop fr fuel lit_0x bstart bufsize k :
  ∀ buffer ptr arg, keeps (vsnprintf_loop fr fuel lit_0x bstart bufsize k buffer ptr arg).
Proof. induction k; intros; cbn [vsnprintf_loop]; keeps. Qed.
#[export] Hint Resolve keeps_vsnprintf_loop : keeps.
Lemma keeps_vsnprintf fr fuel lit_0x buffer bufsize format arg :
  keeps (vsnprintf fr fuel lit_0x buffer bufsize format arg).
Proof. unfold vsnprintf. keeps. Qed.
#[export] Hint Resolve keeps_vsnprintf : keeps.

(** ** A routine that ends *)

Lemma keeps_Ret {A} (p : M mem A) m a m' : keeps p → p m = Ret a m' →
  dom m' = dom m ∧ (mem_bytes m → mem_bytes m').
Proof. intros Hp H. specialize (Hp m). by rewrite H in Hp. Qed.

(** ** Calls of the libc *)

(** The routines that take a memory, with their arguments; the results that are not
    integers are dropped. *)
Inductive libc_call :=
  | CallMemcpy (dest src n : Z) | CallMemmove (dest src n : Z) | CallMemset (dest c size : Z)
  | CallMemcmp (p1 p2 n : Z) | CallMemchr (p c n : Z)
  | CallStrlen (s : Z) | CallStrcmp (s1 s2 : Z) | CallStrncmp (s1 s2 n : Z)
  | CallStrcasecmp (s1 s2 : Z) | CallStrncasecmp (s1 s2 n : Z)
  | CallStrcpy (dst src : Z) | CallStrncpy (dst src n : Z) | CallStrcat (dst src : Z)
  | CallStrchr (s c : Z) | CallStrrchr (s c : Z) | CallStrstr (hay needle : Z)
  | CallStrtok (src pattern nxtTok : Z) | CallStrtoul (s base : Z) | CallStrtol (s base : Z)
  | CallVsnprintf (fr lit_0x buffer bufsize format : Z) (arg : list Z).

Definition libc_run (fuel : nat) (c : libc_call) : M mem Z :=
  match c with
  | CallMemcpy dest src n => memcpy dest src n
  | CallMemmove dest src n => memmove dest src n
  | CallMemset dest c size => memset dest c size
  | CallMemcmp p1 p2 n => memcmp p1 p2 n
  | CallMemchr p c n => memchr p c n
  | CallStrlen s => strlen fuel s
  | CallStrcmp s1 s2 => strcmp fuel s1 s2
  | CallStrncmp s1 s2 n => strncmp fuel s1 s2 n
  | CallStrcasecmp s1 s2 => strcasecmp fuel s1 s2
  | CallStrncasecmp s1 s2 n => strncasecmp fuel s1 s2 n
  | CallStrcpy dst src => strcpy fuel dst src
  | CallStrncpy dst src n => strncpy fuel dst src n
  | CallStrcat dst src => strcat fuel dst src
  | CallStrchr s c => strchr fuel s c
  | CallStrrchr s c => strrchr fuel s c
  | CallStrstr hay needle => strstr fuel hay needle
  | CallStrtok src pattern nxtTok => '(r, _) ← strtok fuel src pattern nxtTok; mret r
  | CallStrtoul s base => '(r, _) ← strtoul fuel s base; mret r
  | CallStrtol s base => '(r, _) ← strtol fuel s base; mret r
  | CallVsnprintf fr lit_0x buffer bufsize format arg => vsnprintf fr fuel lit_0x buffer bufsize format arg
  end.

Fixpoint libc_runs (fuel : nat) (cs : list libc_call) : M mem (list Z) :=
  match cs with
  | [] => mret []
  | c :: cs => r ← libc_run fuel c; rs ← libc_runs fuel cs; mret (r :: rs)
  end.

Lemma keeps_libc_run fuel c : keeps (libc_run fuel c).
Proof. destruct c; cbn [libc_run]; keeps. Qed.
#[export] Hint Resolve keeps_libc_run : keeps.

Lemma keeps_libc_runs fuel cs : keeps (libc_runs fuel cs).
Proof. induction cs; cbn [libc_runs]; keeps. Qed.
