(* ===== verification/Soc.v ===== *)
(** * The SoC memory map and register layout

    [include/microwatt_soc.h]: one definition per macro, in the order of the
    header.  A shifted mask is kept as the header writes it. *)
From S2P Require Import Prelude.

Definition MEMORY_BASE : Z := 0x00000000.
Definition DRAM_BASE : Z := 0x40000000.
Definition BRAM_BASE : Z := 0x80000000.
Definition SYSCON_BASE : Z := 0xc0000000.
Definition UART_BASE : Z := 0xc0002000.
Definition XICS_ICP_BASE : Z := 0xc0004000.
Definition XICS_ICS_BASE : Z := 0xc0005000.
Definition SPI_FCTRL_BASE : Z := 0xc0006000.
Definition GPIO_BASE : Z := 0xc0007000.
Definition DRAM_CTRL_BASE : Z := 0xc8000000.
Definition LETH_CSR_BASE : Z := 0xc8020000.
Definition LETH_SRAM_BASE : Z := 0xc8030000.
Definition LSDC_CSR_BASE : Z := 0xc8040000.
Definition LSDC2_CSR_BASE : Z := 0xc8048000.
Definition SPI_FLASH_BASE : Z := 0xf0000000.
Definition DRAM_INIT_BASE : Z := 0xff000000.

(** Interrupt numbers *)
Definition IRQ_UART0 : Z := 0.
Definition IRQ_ETHERNET : Z := 1.
Definition IRQ_UART1 : Z := 2.
Definition IRQ_SDCARD : Z := 3.
Definition IRQ_GPIO : Z := 4.
Definition IRQ_SDCARD2 : Z := 5.

(** Register definitions for the syscon registers *)
Definition SYS_REG_SIGNATURE : Z := 0x00.
Definition SYS_REG_INFO : Z := 0x08.
Definition SYS_REG_INFO_HAS_UART : Z := Z.shiftl 1 0.
Definition SYS_REG_INFO_HAS_DRAM : Z := Z.shiftl 1 1.
Definition SYS_REG_INFO_HAS_BRAM : Z := Z.shiftl 1 2.
Definition SYS_REG_INFO_HAS_SPI_FLASH : Z := Z.shiftl 1 3.
Definition SYS_REG_INFO_HAS_LITEETH : Z := Z.shiftl 1 4.
Definition SYS_REG_INFO_HAS_LARGE_SYSCON : Z := Z.shiftl 1 5.
Definition SYS_REG_INFO_HAS_UART1 : Z := Z.shiftl 1 6.
Definition SYS_REG_INFO_HAS_ARTB : Z := Z.shiftl 1 7.
Definition SYS_REG_INFO_HAS_LITESDCARD : Z := Z.shiftl 1 8.
Definition SYS_REG_INFO_HAS_LITESDCARD2 : Z := Z.shiftl 1 9.
Definition SYS_REG_BRAMINFO : Z := 0x10.
Definition SYS_REG_BRAMINFO_SIZE_MASK : Z := 0xfffffffffffff.
Definition SYS_REG_DRAMINFO : Z := 0x18.
Definition SYS_REG_DRAMINFO_SIZE_MASK : Z := 0xfffffffffffff.
Definition SYS_REG_CLKINFO : Z := 0x20.
Definition SYS_REG_CLKINFO_FREQ_MASK : Z := 0xffffffffff.
Definition SYS_REG_CTRL : Z := 0x28.
Definition SYS_REG_CTRL_DRAM_AT_0 : Z := Z.shiftl 1 0.
Definition SYS_REG_CTRL_CORE_RESET : Z := Z.shiftl 1 1.
Definition SYS_REG_CTRL_SOC_RESET : Z := Z.shiftl 1 2.
Definition SYS_REG_CTRL_ALT_RESET : Z := Z.shiftl 1 3.
Definition SYS_REG_DRAMINITINFO : Z := 0x30.
Definition SYS_REG_SPI_INFO : Z := 0x38.
Definition SYS_REG_SPI_INFO_FLASH_OFF_MASK : Z := 0xffffffff.
Definition SYS_REG_UART0_INFO : Z := 0x40.
Definition SYS_REG_UART1_INFO : Z := 0x48.
Definition SYS_REG_UART_IS_16550 : Z := Z.shiftl 1 32.
Definition SYS_REG_GIT_INFO : Z := 0x50.
Definition SYS_REG_GIT_IS_DIRTY : Z := Z.shiftl 1 63.
Definition SYS_REG_CPU_CTRL : Z := 0x58.
Definition SYS_REG_CPU_CTRL_ENABLE : Z := 0xff.
Definition SYS_REG_TB_CTRL : Z := 0x60.
Definition SYS_REG_TB_CTRL_FREEZE : Z := 0x01.
Definition SYS_REG_TB_CTRL_RD_PROTECT : Z := 0x02.

(** Register definitions for the potato UART *)
Definition POTATO_CONSOLE_TX : Z := 0x00.
Definition POTATO_CONSOLE_RX : Z := 0x08.
Definition POTATO_CONSOLE_STATUS : Z := 0x10.
Definition POTATO_CONSOLE_STATUS_RX_EMPTY : Z := 0x01.
Definition POTATO_CONSOLE_STATUS_TX_EMPTY : Z := 0x02.
Definition POTATO_CONSOLE_STATUS_RX_FULL : Z := 0x04.
Definition POTATO_CONSOLE_STATUS_TX_FULL : Z := 0x08.
Definition POTATO_CONSOLE_CLOCK_DIV : Z := 0x18.
Definition POTATO_CONSOLE_IRQ_EN : Z := 0x20.
Definition POTATO_CONSOLE_IRQ_RX : Z := 0x01.
Definition POTATO_CONSOLE_IRQ_TX : Z := 0x02.

(** Register definitionss for our standard (16550 style) UART *)
Definition UART_REG_RX : Z := 0x00.
Definition UART_REG_TX : Z := 0x00.
Definition UART_REG_DLL : Z := 0x00.
Definition UART_REG_IER : Z := 0x04.
Definition UART_REG_IER_RDI : Z := 0x01.
Definition UART_REG_IER_THRI : Z := 0x02.
Definition UART_REG_IER_RLSI : Z := 0x04.
Definition UART_REG_IER_MSI : Z := 0x08.
Definition UART_REG_DLM : Z := 0x04.
Definition UART_REG_IIR : Z := 0x08.
Definition UART_REG_FCR : Z := 0x08.
Definition UART_REG_FCR_EN_FIFO : Z := 0x01.
Definition UART_REG_FCR_CLR_RCVR : Z := 0x02.
Definition UART_REG_FCR_CLR_XMIT : Z := 0x04.
Definition UART_REG_FCR_TRIG1 : Z := 0x00.
Definition UART_REG_FCR_TRIG4 : Z := 0x40.
Definition UART_REG_FCR_TRIG8 : Z := 0x80.
Definition UART_REG_FCR_TRIG14 : Z := 0xc0.
Definition UART_REG_LCR : Z := 0x0c.
Definition UART_REG_LCR_5BIT : Z := 0x00.
Definition UART_REG_LCR_6BIT : Z := 0x01.
Definition UART_REG_LCR_7BIT : Z := 0x02.
Definition UART_REG_LCR_8BIT : Z := 0x03.
Definition UART_REG_LCR_STOP : Z := 0x04.
Definition UART_REG_LCR_PAR : Z := 0x08.
Definition UART_REG_LCR_EVEN_PAR : Z := 0x10.
Definition UART_REG_LCR_STIC_PAR : Z := 0x20.
Definition UART_REG_LCR_BREAK : Z := 0x40.
Definition UART_REG_LCR_DLAB : Z := 0x80.
Definition UART_REG_MCR : Z := 0x10.
Definition UART_REG_MCR_DTR : Z := 0x01.
Definition UART_REG_MCR_RTS : Z := 0x02.
Definition UART_REG_MCR_OUT1 : Z := 0x04.
Definition UART_REG_MCR_OUT2 : Z := 0x08.
Definition UART_REG_MCR_LOOP : Z := 0x10.
Definition UART_REG_LSR : Z := 0x14.
Definition UART_REG_LSR_DR : Z := 0x01.
Definition UART_REG_LSR_OE : Z := 0x02.
Definition UART_REG_LSR_PE : Z := 0x04.
Definition UART_REG_LSR_FE : Z := 0x08.
Definition UART_REG_LSR_BI : Z := 0x10.
Definition UART_REG_LSR_THRE : Z := 0x20.
Definition UART_REG_LSR_TEMT : Z := 0x40.
Definition UART_REG_LSR_FIFOE : Z := 0x80.
Definition UART_REG_MSR : Z := 0x18.
Definition UART_REG_SCR : Z := 0x1c.

(** Register definitions for the SPI controller *)
Definition SPI_REG_DATA : Z := 0x00.
Definition SPI_REG_DATA_DUAL : Z := 0x01.
Definition SPI_REG_DATA_QUAD : Z := 0x02.
Definition SPI_REG_CTRL : Z := 0x04.
Definition SPI_REG_CTRL_RESET : Z := 0x01.
Definition SPI_REG_CTRL_MANUAL_CS : Z := 0x02.
Definition SPI_REG_CTRL_CKDIV_SHIFT : Z := 8.
Definition SPI_REG_CTRL_CKDIV_MASK : Z := Z.shiftl 0xff SPI_REG_CTRL_CKDIV_SHIFT.
Definition SPI_REG_AUTO_CFG : Z := 0x08.
Definition SPI_REG_AUTO_CFG_CMD_SHIFT : Z := 0.
Definition SPI_REG_AUTO_CFG_CMD_MASK : Z := Z.shiftl 0xff SPI_REG_AUTO_CFG_CMD_SHIFT.
Definition SPI_REG_AUTO_CFG_DUMMIES_SHIFT : Z := 8.
Definition SPI_REG_AUTO_CFG_DUMMIES_MASK : Z := Z.shiftl 0x7 SPI_REG_AUTO_CFG_DUMMIES_SHIFT.
Definition SPI_REG_AUTO_CFG_MODE_SHIFT : Z := 11.
Definition SPI_REG_AUTO_CFG_MODE_MASK : Z := Z.shiftl 0x3 SPI_REG_AUTO_CFG_MODE_SHIFT.
Definition SPI_REG_AUT_CFG_MODE_SINGLE : Z := Z.shiftl 0 11.
Definition SPI_REG_AUT_CFG_MODE_DUAL : Z := Z.shiftl 2 11.
Definition SPI_REG_AUT_CFG_MODE_QUAD : Z := Z.shiftl 3 11.
Definition SPI_REG_AUTO_CFG_ADDR4 : Z := Z.shiftl 1 13.
Definition SPI_REG_AUTO_CFG_CKDIV_SHIFT : Z := 16.
Definition SPI_REG_AUTO_CFG_CKDIV_MASK : Z := Z.shiftl 0xff SPI_REG_AUTO_CFG_CKDIV_SHIFT.
Definition SPI_REG_AUTO_CFG_CSTOUT_SHIFT : Z := 24.
Definition SPI_REG_AUTO_CFG_CSTOUT_MASK : Z := Z.shiftl 0x3f SPI_REG_AUTO_CFG_CSTOUT_SHIFT.

(** Register definitions for GPIO *)
Definition GPIO_REG_DATA_OUT : Z := 0x00.
Definition GPIO_REG_DATA_IN : Z := 0x04.
Definition GPIO_REG_DIR : Z := 0x08.
Definition GPIO_REG_DATA_SET : Z := 0x10.
Definition GPIO_REG_DATA_CLR : Z := 0x14.
Definition GPIO_REG_INT_EN : Z := 0x20.
Definition GPIO_REG_INT_STAT : Z := 0x24.
Definition GPIO_REG_INT_CLR : Z := 0x30.
Definition GPIO_REG_INT_TYPE : Z := 0x34.
Definition GPIO_REG_INT_BOTH_EDGE : Z := 0x38.
Definition GPIO_REG_INT_LEVEL : Z := 0x3C.
