(* ===== verification/Io.v ===== *)
(** * Memory-mapped input and output

    [include/io.h].  The cache-inhibited accesses [lbzcix] .. [stdcix] go to
    devices: a [Bus] says what a load returns and how each access changes the
    state of the devices.  A [machine] is the byte memory, the devices and the
    trace of the accesses made so far, oldest first. *)
From S2P Require Import Prelude CMem.

Class Bus (D : Type) := {
  bus_load : nat → Z → D → Z * D;
  bus_store : nat → Z → Z → D → D;
}.

(** A load of [n] bytes at an address gave a value; a store of [n] bytes. *)
Inductive io_event := Ld (n : nat) (addr val : Z) | St (n : nat) (addr val : Z).

#[export] Instance io_event_eq_dec : EqDecision io_event.
Proof. solve_decision. Defined.

Record machine (D : Type) := Machine {
  ram : mem;
  dev : D;
  io_trace : list io_event;
}.
Arguments Machine {D}.
Arguments ram {D}.
Arguments dev {D}.
Arguments io_trace {D}.

Section io.
Context {D : Type} `{!Bus D}.
Abbreviation MM := (M (machine D)).

Definition io_load (n : nat) (addr : Z) : MM Z := λ s,
  let '(v, d) := bus_load n addr (dev s) in
  let v := wrap (8 * Z.of_nat n) v in
  Ret v (Machine (ram s) d (io_trace s ++ [Ld n addr v])).

Definition io_store (n : nat) (addr val : Z) : MM unit := λ s,
  let val := wrap (8 * Z.of_nat n) val in
  Ret tt (Machine (ram s) (bus_store n addr val (dev s)) (io_trace s ++ [St n addr val])).

Definition readb (addr : Z) : MM Z := io_load 1 addr.
Definition readw (addr : Z) : MM Z := io_load 2 addr.
Definition readl (addr : Z) : MM Z := io_load 4 addr.
Definition readq (addr : Z) : MM Z := io_load 8 addr.
Definition writeb (val addr : Z) : MM unit := io_store 1 addr val.
Definition writew (val addr : Z) : MM unit := io_store 2 addr val.
Definition writel (val addr : Z) : MM unit := io_store 4 addr val.
Definition writeq (val addr : Z) : MM unit := io_store 8 addr val.

(** Code that runs on the byte memory alone. *)
Definition in_ram {A} (m : M mem A) : MM A :=
  zoom ram (λ m s, Machine m (dev s) (io_trace s)) m.

Lemma in_ram_Ret {A} (p : M mem A) s a m' :
  p (ram s) = Ret a m' → in_ram p s = Ret a (Machine m' (dev s) (io_trace s)).
Proof. intros H. unfold in_ram. by rewrite (zoom_Ret _ _ _ _ _ _ H). Qed.
End io.

(** ** A scripted bus

    A device whose loads return the values of a list in turn, and zero after
    that: enough to run the code on concrete answers of the hardware. *)
Record script := { answers : list Z; }.

#[export] Instance script_bus : Bus script := {|
  bus_load _ _ d := match answers d with
                    | [] => (0, d)
                    | v :: vs => (v, {| answers := vs |})
                    end;
  bus_store _ _ _ d := d;
|}.
