(* ===== verification/Console.v ===== *)
(** * The console

    [lib/console.c]: the drivers of the two UARTs the SoC can have, the
    original "potato" UART and the 16550-style one, and the functions the
    firmware uses.  The statics [uart_is_std] and [uart_base] are a record that
    is passed to the functions and returned by [console_init].  A loop that
    polls the device takes fuel.

    What the code relies on of the device is the class [Uart]; the theorems on
    [putchar], [puts] and [getchar] hold for every device of the class. *)
From S2P Require Import Prelude CMem LibStr Soc Io.

Definition UART_BAUDS : Z := 115200.

Record uart_state := { uart_is_std : bool; uart_base : Z }.

Definition uart_divisor (uart_freq bauds : Z) : Z := uart_freq `div` u64 (bauds * 16).

Section console.
Context {D : Type} `{!Bus D}.
Abbreviation MM := (M (machine D)).

(** ** The potato UART *)

Definition potato_uart_reg_read (u : uart_state) (offset : Z) : MM Z :=
  readq (uart_base u + offset).
Definition potato_uart_reg_write (u : uart_state) (offset val : Z) : MM unit :=
  writeq val (uart_base u + offset).

Definition potato_uart_rx_empty (u : uart_state) : MM bool :=
  val ← potato_uart_reg_read u POTATO_CONSOLE_STATUS;
  mret (tst val POTATO_CONSOLE_STATUS_RX_EMPTY).
Definition potato_uart_tx_full (u : uart_state) : MM bool :=
  val ← potato_uart_reg_read u POTATO_CONSOLE_STATUS;
  mret (tst val POTATO_CONSOLE_STATUS_TX_FULL).
Definition potato_uart_read (u : uart_state) : MM Z :=
  val ← potato_uart_reg_read u POTATO_CONSOLE_RX;
  mret (u8 (Z.land val 0xff)).
Definition potato_uart_write (u : uart_state) (c : Z) : MM unit :=
  potato_uart_reg_write u POTATO_CONSOLE_TX (u64 (u8 c)).
Definition potato_uart_init (u : uart_state) (uart_freq : Z) : MM unit :=
  let div := u64 (uart_divisor uart_freq UART_BAUDS - 1) in
  potato_uart_reg_write u POTATO_CONSOLE_CLOCK_DIV div.
Definition potato_uart_set_irq_en (u : uart_state) (rx_irq tx_irq : bool) : MM unit :=
  let en := 0 in
  let en := if rx_irq then Z.lor en POTATO_CONSOLE_IRQ_RX else en in
  let en := if tx_irq then Z.lor en POTATO_CONSOLE_IRQ_TX else en in
  potato_uart_reg_write u POTATO_CONSOLE_IRQ_EN en.

(** ** The 16550-style UART *)

Definition std_uart_rx_empty (u : uart_state) : MM bool :=
  v ← readb (uart_base u + UART_REG_LSR); mret (negb (tst v UART_REG_LSR_DR)).
Definition std_uart_read (u : uart_state) : MM Z := readb (uart_base u + UART_REG_RX).
Definition std_uart_tx_full (u : uart_state) : MM bool :=
  v ← readb (uart_base u + UART_REG_LSR); mret (negb (tst v UART_REG_LSR_THRE)).
Definition std_uart_write (u : uart_state) (c : Z) : MM unit :=
  writeb (u8 c) (uart_base u + UART_REG_TX).
Definition std_uart_set_irq_en (u : uart_state) (rx_irq tx_irq : bool) : MM unit :=
  let ier := 0 in
  let ier := if tx_irq then Z.lor ier UART_REG_IER_THRI else ier in
  let ier := if rx_irq then Z.lor ier UART_REG_IER_RDI else ier in
  writeb ier (uart_base u + UART_REG_IER).
Definition std_uart_init (u : uart_state) (uart_freq : Z) : MM unit :=
  let div := uart_divisor uart_freq UART_BAUDS in
  writeb UART_REG_LCR_DLAB (uart_base u + UART_REG_LCR);;
  writeb (Z.land div 0xff) (uart_base u + UART_REG_DLL);;
  writeb (Z.shiftr div 8) (uart_base u + UART_REG_DLM);;
  writeb UART_REG_LCR_8BIT (uart_base u + UART_REG_LCR);;
  writeb (Z.lor UART_REG_MCR_DTR UART_REG_MCR_RTS) (uart_base u + UART_REG_MCR);;
  writeb (Z.lor (Z.lor UART_REG_FCR_EN_FIFO UART_REG_FCR_CLR_RCVR) UART_REG_FCR_CLR_XMIT)
    (uart_base u + UART_REG_FCR).

(** ** The console functions *)

(** [while (test()) ;] *)
Fixpoint spin (fuel : nat) (test : MM bool) : MM unit :=
  match fuel with
  | O => out_of_fuel
  | S fuel => b ← test; if (b : bool) then spin fuel test else mret tt
  end.

Definition getchar (fuel : nat) (u : uart_state) : MM Z :=
  if uart_is_std u then spin fuel (std_uart_rx_empty u);; std_uart_read u
  else spin fuel (potato_uart_rx_empty u);; potato_uart_read u.

Definition putchar (fuel : nat) (u : uart_state) (c : Z) : MM Z :=
  (if uart_is_std u then spin fuel (std_uart_tx_full u);; std_uart_write u c
   else spin fuel (potato_uart_tx_full u);; potato_uart_write u c);;
  mret c.

(** [for (i = 0; *str; i++)]; [k] bounds the length of the string. *)
Fixpoint puts_loop (fuel k : nat) (u : uart_state) (str : Z) : MM unit :=
  match k with
  | O => out_of_fuel
  | S k =>
      c ← in_ram (load8 str);
      if negb (c =? 0) then
        (if c =? 10 then putchar fuel u 13;; mret tt else mret tt);;
        putchar fuel u c;;
        puts_loop fuel k u (str + 1)
      else mret tt
  end.

Definition puts (fuel k : nat) (u : uart_state) (str : Z) : MM Z :=
  puts_loop fuel k u str;; mret 0.

(** [uart_freq] is computed and then not used: both initialisations get
    [proc_freq], as in the source. *)
Definition console_init : MM uart_state :=
  v ← readq (SYSCON_BASE + SYS_REG_CLKINFO);
  let proc_freq := Z.land v SYS_REG_CLKINFO_FREQ_MASK in
  sys_info ← readq (SYSCON_BASE + SYS_REG_INFO);
  '(uart_info, uart_freq) ←
    (if tst sys_info SYS_REG_INFO_HAS_LARGE_SYSCON then
       uart_info ← readq (SYSCON_BASE + SYS_REG_UART0_INFO);
       mret (uart_info, Z.land uart_info 0xffffffff)
     else mret (0, 0));
  let uart_freq := if uart_freq =? 0 then proc_freq else uart_freq in
  if tst uart_info SYS_REG_UART_IS_16550 then
    let u := {| uart_is_std := true; uart_base := UART_BASE |} in
    std_uart_init u proc_freq;; mret u
  else
    let u := {| uart_is_std := false; uart_base := UART_BASE |} in
    potato_uart_init u proc_freq;; mret u.

Definition console_set_irq_en (u : uart_state) (rx_irq tx_irq : bool) : MM unit :=
  if uart_is_std u then std_uart_set_irq_en u rx_irq tx_irq
  else potato_uart_set_irq_en u rx_irq tx_irq.

(** The [strlen] of console.c, for programs built without the libc. *)
Fixpoint console_strlen_loop (fuel : nat) (s len : Z) : M mem Z :=
  match fuel with
  | O => out_of_fuel
  | S fuel =>
      c ← load8 s;
      if negb (c =? 0) then console_strlen_loop fuel (s + 1) (u64 (len + 1)) else mret len
  end.
Definition console_strlen (fuel : nat) (s : Z) : M mem Z := console_strlen_loop fuel s 0.
End console.

(** The potato UART at its address. *)
Definition potato : uart_state := {| uart_is_std := false; uart_base := UART_BASE |}.

(** ** What the driver relies on *)

(** The access that reads the status, and what its bits mean. *)
Definition status_width (u : uart_state) : nat := if uart_is_std u then 1 else 8.
Definition status_addr (u : uart_state) : Z :=
  uart_base u + (if uart_is_std u then UART_REG_LSR else POTATO_CONSOLE_STATUS).
Definition status_tx_full (u : uart_state) (v : Z) : bool :=
  if uart_is_std u then negb (tst v UART_REG_LSR_THRE) else tst v POTATO_CONSOLE_STATUS_TX_FULL.
Definition status_rx_empty (u : uart_state) (v : Z) : bool :=
  if uart_is_std u then negb (tst v UART_REG_LSR_DR) else tst v POTATO_CONSOLE_STATUS_RX_EMPTY.
Definition tx_addr (u : uart_state) : Z :=
  uart_base u + (if uart_is_std u then UART_REG_TX else POTATO_CONSOLE_TX).
Definition rx_addr (u : uart_state) : Z :=
  uart_base u + (if uart_is_std u then UART_REG_RX else POTATO_CONSOLE_RX).

(** A UART: the characters sent so far, the characters received and not yet
    read, and for how many more reads of the status it is busy. *)
Class Uart (D : Type) `{!Bus D} (u : uart_state) := {
  tx_busy : D → nat;
  tx_log : D → list Z;
  rx_wait : D → nat;
  rx_queue : D → list Z;
  tx_bound : nat;
  rx_bound : nat;
  status_load d :
    let '(v, d') := bus_load (status_width u) (status_addr u) d in
    let v := wrap (8 * Z.of_nat (status_width u)) v in
    status_tx_full u v = negb (tx_busy d =? 0)%nat ∧
    tx_busy d' = Nat.pred (tx_busy d) ∧ tx_log d' = tx_log d ∧ rx_queue d' = rx_queue d ∧
    (rx_wait d' ≤ rx_wait d)%nat ∧
    (rx_queue d ≠ [] → status_rx_empty u v = negb (rx_wait d =? 0)%nat ∧
                       rx_wait d' = Nat.pred (rx_wait d));
  tx_store d c :
    is_byte c → tx_busy d = 0%nat →
    let d' := bus_store (status_width u) (tx_addr u) c d in
    tx_log d' = tx_log d ++ [c] ∧ rx_queue d' = rx_queue d ∧ (tx_busy d' ≤ tx_bound)%nat ∧
    (rx_wait d' ≤ rx_wait d)%nat;
  rx_load d c q :
    rx_wait d = 0%nat → rx_queue d = c :: q →
    let '(v, d') := bus_load (status_width u) (rx_addr u) d in
    u8 v = c ∧ rx_queue d' = q ∧ tx_log d' = tx_log d ∧
    tx_busy d' = tx_busy d ∧ (rx_wait d' ≤ rx_bound)%nat;
}.

(** The text on the wire: each line feed is preceded by a carriage return. *)
Definition crlf (s : list Z) : list Z :=
  flat_map (λ c, if c =? 10 then [13; 10] else [c]) s.

Lemma crlf_bytes s : bytes s → bytes (crlf s).
Proof.
  unfold bytes. induction 1 as [|c s Hc _ IH]; [done|]. unfold crlf in *. cbn [flat_map]. apply Forall_app. split; [|done].
  destruct (c =? 10); repeat apply Forall_cons_2; done || apply Forall_nil_2.
Qed.

(** [puts] for any [putchar] that keeps an invariant and relates the states before and
    after by what it sent. *)
Section puts.
Context {D : Type} `{!Bus D} (u : uart_state) (fuel : nat).
Context (inv : machine D → Prop) (sends : machine D → list Z → machine D → Prop).
Hypothesis sends_nil : ∀ st, sends st [] st.
Hypothesis sends_app : ∀ st st1 st2 cs cs', sends st cs st1 → sends st1 cs' st2 → sends st (cs ++ cs') st2.
Hypothesis putchar_sends : ∀ c st, is_byte c → inv st →
  ∃ st', putchar fuel u c st = Ret c st' ∧ ram st' = ram st ∧ inv st' ∧ sends st [c] st'.

Lemma puts_loop_sends k str s st :
  (length s < k)%nat → inv st → cstr (ram st) str s →
  ∃ st', puts_loop fuel k u str st = Ret tt st' ∧ ram st' = ram st ∧ inv st' ∧ sends st (crlf s) st'.
Proof.
  revert str s st. induction k as [|k IH]; intros str s st Hk Hi Hs; [lia|].
  cbn [puts_loop]. destruct s as [|c s].
  - apply cstr_nil in Hs. step_with (in_ram_Ret _ st 0 _ (load8_Ret _ str 0 Hs)). exists st. by destruct st.
  - apply cstr_cons in Hs as (Ha & Hc & Hs). step_with (in_ram_Ret _ st c _ (load8_Ret _ str c Ha)).
    rewrite (proj2 (Z.eqb_neq c 0)) by lia. cbn [negb]. replace (Machine _ _ _) with st by (by destruct st).
    assert (∃ st1, (if c =? 10 then putchar fuel u 13;; mret tt else mret tt) st = Ret tt st1 ∧
      ram st1 = ram st ∧ inv st1 ∧ sends st (if c =? 10 then [13] else []) st1) as (st1 & Hr1 & Hm1 & Hi1 & Hs1).
    { destruct (c =? 10); [|by exists st].
      destruct (putchar_sends 13 st ltac:(unfold is_byte; lia) Hi) as (st1 & Hr & ?). exists st1. by rewrite (bind_Ret _ _ _ _ _ Hr). }
    step_with Hr1. destruct (putchar_sends c st1 ltac:(unfold is_byte; lia) Hi1) as (st2 & Hr2 & Hm2 & Hi2 & Hs2). step_with Hr2.
    destruct (IH (str + 1) s st2) as (st3 & Hr3 & Hm3 & Hi3 & Hs3); [simpl in Hk; lia|done|by rewrite Hm2, Hm1|].
    exists st3. split_and!; [done|congruence|done|].
    assert (crlf (c :: s) = (if c =? 10 then [13] else []) ++ [c] ++ crlf s) as ->
      by (unfold crlf; cbn [flat_map]; by destruct (Z.eqb_spec c 10) as [->|]).
    eapply sends_app; [exact Hs1|]. by eapply sends_app.
Qed.
End puts.

Section uart.
Context {D : Type} `{!Bus D} (u : uart_state) `{!Uart D u}.
Abbreviation MM := (M (machine D)).

(** The tests of the polling loops, for whichever UART it is. *)
Definition tx_full_test : MM bool :=
  v ← io_load (status_width u) (status_addr u); mret (status_tx_full u v).
Definition rx_empty_test : MM bool :=
  v ← io_load (status_width u) (status_addr u); mret (status_rx_empty u v).

Lemma putchar_eq fuel c s :
  putchar fuel u c s =
  (spin fuel tx_full_test;; io_store (status_width u) (tx_addr u) (u8 c);; mret c) s.
Proof.
  unfold putchar, tx_full_test, status_tx_full, status_width, status_addr, tx_addr.
  destruct (uart_is_std u).
  - by rewrite bind_assoc.
  - rewrite bind_assoc. unfold potato_uart_write, potato_uart_reg_write, writeq, io_store.
    unfold mbind, M_bind. destruct (spin _ _ s); try done. cbn.
    by rewrite (wrap_small 64 (u8 c)) by (pose proof (u8_byte c) as []; lia).
Qed.

(** Nothing changes but the device, and of it not what it sent. *)
Definition quiet (s s' : machine D) : Prop :=
  ram s' = ram s ∧ tx_log (dev s') = tx_log (dev s).

Lemma spin_tx_ok fuel s :
  (tx_busy (dev s) < fuel)%nat →
  ∃ s', spin fuel tx_full_test s = Ret tt s' ∧ quiet s s' ∧
        tx_busy (dev s') = 0%nat ∧ rx_queue (dev s') = rx_queue (dev s) ∧
        (rx_wait (dev s') ≤ rx_wait (dev s))%nat.
Proof.
  revert s. induction fuel as [|fuel IH]; intros s Hf; [lia|]. cbn [spin].
  pose proof (status_load (dev s)) as H.
  destruct (bus_load (status_width u) (status_addr u) (dev s)) as [v d'] eqn:Ev.
  destruct H as (H1 & H2 & H3 & H4 & H5 & _).
  erewrite bind_Ret by (unfold tx_full_test, io_load, mbind, M_bind; rewrite Ev; cbn; by rewrite H1).
  cbn beta.
  destruct (Nat.eqb_spec (tx_busy (dev s)) 0) as [E|E]; cbn [negb].
  - eexists. split; [done|]. cbn. split_and!; [|lia|done|done]. by split.
  - destruct (IH (Machine (ram s) d' (io_trace s ++ [Ld (status_width u) (status_addr u)
      (wrap (8 * Z.of_nat (status_width u)) v)]))) as (s' & Hr & [Hq1 Hq2] & Hb & Hx & Hw).
    { cbn. lia. }
    exists s'. cbn in *. split_and!; [done| |done|congruence|lia]. split; congruence.
Qed.

(** One character is sent. *)
Lemma putchar_ok fuel c s :
  (tx_busy (dev s) < fuel)%nat →
  ∃ s', putchar fuel u c s = Ret c s' ∧ ram s' = ram s ∧
        tx_log (dev s') = tx_log (dev s) ++ [u8 c] ∧
        rx_queue (dev s') = rx_queue (dev s) ∧ (tx_busy (dev s') ≤ tx_bound)%nat ∧
        (rx_wait (dev s') ≤ rx_wait (dev s))%nat.
Proof.
  intros Hf. rewrite putchar_eq.
  destruct (spin_tx_ok fuel s Hf) as (s1 & Hr & [Hq1 Hq2] & Hb & Hx & Hw).
  step_with Hr. unfold io_store, mbind, M_bind. cbn.
  eexists. split; [done|]. cbn.
  rewrite wrap_small.
  2:{ pose proof (u8_byte c) as []. unfold status_width. destruct (uart_is_std u); simpl; lia. }
  destruct (tx_store (dev s1) (u8 c) (u8_byte c) Hb) as (H1 & H2 & H3 & H4).
  split_and!; [congruence..|lia|lia].
Qed.

Lemma puts_loop_ok fuel k str s st :
  (tx_bound < fuel)%nat → (tx_busy (dev st) < fuel)%nat → (length s < k)%nat →
  cstr (ram st) str s →
  ∃ st', puts_loop fuel k u str st = Ret tt st' ∧ ram st' = ram st ∧
         tx_log (dev st') = tx_log (dev st) ++ crlf s ∧
         rx_queue (dev st') = rx_queue (dev st) ∧ (tx_busy (dev st') < fuel)%nat ∧
         (rx_wait (dev st') ≤ rx_wait (dev st))%nat.
Proof.
  intros Hb Hf Hk Hs.
  destruct (puts_loop_sends u fuel (λ st, tx_busy (dev st) < fuel)%nat
    (λ st cs st', tx_log (dev st') = tx_log (dev st) ++ cs ∧ rx_queue (dev st') = rx_queue (dev st) ∧
      (rx_wait (dev st') ≤ rx_wait (dev st))%nat)) with (k := k) (str := str) (s := s) (st := st)
    as (st' & Hr & Hm & Hi & Hl & Hx & Hw); try done.
  - intros st0. by rewrite app_nil_r.
  - intros st0 st1 st2 cs cs' (L1 & X1 & W1) (L2 & X2 & W2). rewrite L2, L1, app_assoc. split_and!; [done|congruence|lia].
  - intros c st0 Hc Hi. destruct (putchar_ok fuel c st0 Hi) as (st1 & Hr & Hm & Hl & Hx & Hbz & Hw).
    exists st1. rewrite u8_id in Hl by done. split_and!; try done. lia.
  - exists st'. by split_and!.
Qed.

Lemma spin_rx_ok fuel s :
  (rx_wait (dev s) < fuel)%nat → rx_queue (dev s) ≠ [] →
  ∃ s', spin fuel rx_empty_test s = Ret tt s' ∧ quiet s s' ∧
        rx_wait (dev s') = 0%nat ∧ rx_queue (dev s') = rx_queue (dev s) ∧
        (tx_busy (dev s') ≤ tx_busy (dev s))%nat.
Proof.
  revert s. induction fuel as [|fuel IH]; intros s Hf Hne; [lia|]. cbn [spin].
  pose proof (status_load (dev s)) as H.
  destruct (bus_load (status_width u) (status_addr u) (dev s)) as [v d'] eqn:Ev.
  destruct H as (_ & H2 & H3 & H4 & _ & H5). destruct (H5 Hne) as [H6 H7].
  erewrite bind_Ret by (unfold rx_empty_test, io_load, mbind, M_bind; rewrite Ev; cbn; by rewrite H6).
  cbn beta.
  destruct (Nat.eqb_spec (rx_wait (dev s)) 0) as [E|E]; cbn [negb].
  - eexists. split; [done|]. cbn. split_and!; [|lia|done|lia]. by split.
  - destruct (IH (Machine (ram s) d' (io_trace s ++ [Ld (status_width u) (status_addr u)
      (wrap (8 * Z.of_nat (status_width u)) v)]))) as (s' & Hr & [Hq1 Hq2] & Hb & Hx & Ht).
    { cbn. lia. }
    { cbn. by rewrite H4. }
    exists s'. cbn in *. split_and!; [done| |done|congruence|lia]. split; congruence.
Qed.

(** The next character received is returned, and removed from the device. *)
Lemma getchar_ok fuel c q s :
  (rx_wait (dev s) < fuel)%nat → rx_queue (dev s) = c :: q →
  ∃ s', getchar fuel u s = Ret c s' ∧ quiet s s' ∧ rx_queue (dev s') = q ∧
        (tx_busy (dev s') ≤ tx_busy (dev s))%nat ∧ (rx_wait (dev s') ≤ rx_bound)%nat.
Proof.
  intros Hf Hq.
  assert (getchar fuel u s =
    (spin fuel rx_empty_test;; v ← io_load (status_width u) (rx_addr u); mret (u8 v)) s) as ->.
  { unfold getchar, rx_empty_test, status_rx_empty, status_width, status_addr, rx_addr.
    destruct (uart_is_std u).
    - unfold std_uart_rx_empty, readb. unfold mbind, M_bind. destruct (spin _ _ s); try done.
      unfold std_uart_read, readb, io_load. destruct (bus_load _ _ _). cbn.
      by rewrite wrap_wrap.
    - unfold potato_uart_rx_empty, potato_uart_reg_read, readq, mbind, M_bind.
      destruct (spin _ _ s); try done.
      unfold potato_uart_read, potato_uart_reg_read, readq, io_load, mbind, M_bind.
      destruct (bus_load _ _ _). cbn. f_equal.
      rewrite (Z.land_ones _ 8) by lia. apply wrap_wrap. }
  destruct (spin_rx_ok fuel s Hf) as (s1 & Hr & [Hm Hl] & Hw & Hx & Ht); [by rewrite Hq|].
  step_with Hr. rewrite Hq in Hx.
  pose proof (rx_load (dev s1) c q Hw Hx) as H. unfold io_load, mbind, M_bind.
  destruct (bus_load _ _ _) as [v d']. destruct H as (H1 & H2 & H3 & H4 & H5). cbn.
  eexists. split; [f_equal|cbn].
  - rewrite <- H1. apply wrap_wrap_le. unfold status_width. destruct (uart_is_std u); simpl; lia.
  - split_and!; [split; cbn; congruence|done|cbn; lia|done].
Qed.
End uart.

(** ** A device of the class

    Both UARTs, as the tests of the driver see them: a transmitter that is
    busy for [su_delay] polls after a character, and received characters of
    which the next arrives after [su_wait] polls, and each later one after
    [su_delay] polls. *)
Record sim_uart (u : uart_state) := SimUart {
  su_delay : nat;
  su_busy : nat;
  su_sent : list Z;
  su_wait : nat;
  su_in : list Z;
}.
Arguments SimUart {u}.
Arguments su_delay {u}.
Arguments su_busy {u}.
Arguments su_sent {u}.
Arguments su_wait {u}.
Arguments su_in {u}.

Definition sim_status (u : uart_state) (busy wait : nat) : Z :=
  if uart_is_std u
  then Z.lor (if (busy =? 0)%nat then UART_REG_LSR_THRE else 0)
             (if (wait =? 0)%nat then UART_REG_LSR_DR else 0)
  else Z.lor (if (busy =? 0)%nat then 0 else POTATO_CONSOLE_STATUS_TX_FULL)
             (if (wait =? 0)%nat then 0 else POTATO_CONSOLE_STATUS_RX_EMPTY).

#[export] Instance sim_uart_bus u : Bus (sim_uart u) := {|
  bus_load _ addr d :=
    if addr =? status_addr u then
      (sim_status u (su_busy d) (if su_in d is [] then 1%nat else su_wait d),
       SimUart (su_delay d) (Nat.pred (su_busy d)) (su_sent d) (Nat.pred (su_wait d)) (su_in d))
    else if addr =? rx_addr u then
      match su_in d with
      | [] => (0, d)
      | c :: q => (c, SimUart (su_delay d) (su_busy d) (su_sent d) (Nat.min 64 (su_delay d)) q)
      end
    else (0, d);
  bus_store _ addr v d :=
    if addr =? tx_addr u
    then SimUart (su_delay d) (Nat.min 64 (su_delay d)) (su_sent d ++ [v]) (su_wait d) (su_in d)
    else d;
|}.

#[export] Program Instance sim_uart_ok u : Uart (sim_uart u) u := {|
  tx_busy := su_busy;
  tx_log := su_sent;
  rx_wait := su_wait;
  rx_queue d := (λ c, u8 c) <$> su_in d;
  tx_bound := 64;
  rx_bound := 64;
|}.
Next Obligation.
  intros u d. unfold bus_load, sim_uart_bus. rewrite Z.eqb_refl. cbn -[Nat.min].
  split_and!; try done.
  - unfold status_tx_full, sim_status, status_width. destruct (uart_is_std u), d as [dl [|b] sn [|w] [|c q]]; done.
  - apply Nat.le_pred_l.
  - intros Hne. unfold status_rx_empty, sim_status, status_width.
    destruct (uart_is_std u), d as [dl [|b] sn [|w] [|c q]]; done.
Qed.
Next Obligation.
  intros u d c Hc Hb. unfold bus_store, sim_uart_bus. rewrite Z.eqb_refl. cbn -[Nat.min].
  split_and!; [done|done| |done]. apply Nat.le_min_l.
Qed.
Next Obligation.
  intros u d c q Hw Hq. unfold bus_load, sim_uart_bus.
  rewrite (proj2 (Z.eqb_neq (rx_addr u) (status_addr u))), Z.eqb_refl.
  - destruct d as [dl b sn w [|c' q']]; cbn -[Nat.min] in *; [done|]. simplify_eq.
    split_and!; [done..|apply Nat.le_min_l].
  - unfold rx_addr, status_addr. destruct (uart_is_std u); unfold UART_REG_RX, UART_REG_LSR,
      POTATO_CONSOLE_RX, POTATO_CONSOLE_STATUS; lia.
Qed.

(** ** Initialisation *)

(** The stores that set up each UART for a clock. *)
Definition std_init_stores (base freq : Z) : list io_event :=
  let div := uart_divisor freq UART_BAUDS in
  [St 1 (base + 0x0c) 0x80; St 1 (base + 0x00) (u8 div); St 1 (base + 0x04) (u8 (div `div` 256));
   St 1 (base + 0x0c) 0x03; St 1 (base + 0x10) 0x03; St 1 (base + 0x08) 0x07].
Definition potato_init_stores (base freq : Z) : list io_event :=
  [St 8 (base + 0x18) (u64 (uart_divisor freq UART_BAUDS - 1))].

Section init.
Context {D : Type} `{!Bus D}.

Lemma std_uart_init_ok (u : uart_state) freq (s : machine D) :
  ∃ s', std_uart_init u freq s = Ret tt s' ∧ ram s' = ram s ∧
        io_trace s' = io_trace s ++ std_init_stores (uart_base u) freq.
Proof.
  unfold std_uart_init, writeb, io_store, mbind, M_bind. cbn -[uart_divisor UART_BASE].
  eexists. split; [done|]. split; [done|]. cbn -[uart_divisor]. rewrite <- !app_assoc.
  unfold std_init_stores. cbn -[uart_divisor].
  rewrite (Z.land_ones _ 8), Z.shiftr_div_pow2 by lia. fold (u8 (uart_divisor freq UART_BAUDS)).
  change (Z.of_nat 1) with 1. rewrite Z.mul_1_r, wrap_wrap. done.
Qed.

Lemma potato_uart_init_ok (u : uart_state) freq (s : machine D) :
  ∃ s', potato_uart_init u freq s = Ret tt s' ∧ ram s' = ram s ∧
        io_trace s' = io_trace s ++ potato_init_stores (uart_base u) freq.
Proof.
  unfold potato_uart_init, potato_uart_reg_write, writeq, io_store.
  eexists. split; [done|]. split; [done|]. cbn -[uart_divisor].
  change (8 * Z.of_nat 8) with 64. by rewrite wrap_wrap.
Qed.

Lemma readq_ok addr (s : machine D) :
  ∃ v s', readq addr s = Ret v s' ∧ 0 ≤ v < 2 ^ 64 ∧ ram s' = ram s ∧
          io_trace s' = io_trace s ++ [Ld 8 addr v].
Proof.
  unfold readq, io_load. destruct (bus_load 8 addr (dev s)) as [v d].
  eexists _, _. split; [done|]. split; [by apply wrap_range|]. done.
Qed.

(** [console_init] reads the clock, the features and, where the syscon has
    it, the description of the UART; the kind of UART is bit 32 of that; the
    divisor comes from the processor clock alone. *)
Lemma console_init_ok (s : machine D) :
  ∃ u s' clk info uinfo,
    console_init s = Ret u s' ∧ ram s' = ram s ∧ uart_base u = UART_BASE ∧
    uart_is_std u = Z.testbit info 5 && Z.testbit uinfo 32 ∧
    io_trace s' = io_trace s ++
      [Ld 8 (SYSCON_BASE + SYS_REG_CLKINFO) clk; Ld 8 (SYSCON_BASE + SYS_REG_INFO) info] ++
      (if Z.testbit info 5 then [Ld 8 (SYSCON_BASE + SYS_REG_UART0_INFO) uinfo] else []) ++
      (if uart_is_std u then std_init_stores else potato_init_stores) UART_BASE (wrap 40 clk).
Proof.
  unfold console_init.
  destruct (readq_ok (SYSCON_BASE + SYS_REG_CLKINFO) s) as (clk & s1 & H1 & _ & M1 & T1).
  step_with H1. destruct (readq_ok (SYSCON_BASE + SYS_REG_INFO) s1) as (info & s2 & H2 & _ & M2 & T2).
  step_with H2.
  replace (Z.land clk SYS_REG_CLKINFO_FREQ_MASK) with (wrap 40 clk) by (unfold wrap; by rewrite <- Z.land_ones).
  change SYS_REG_INFO_HAS_LARGE_SYSCON with (2 ^ 5). rewrite tst_pow2 by lia.
  destruct (Z.testbit info 5) eqn:E5.
  - destruct (readq_ok (SYSCON_BASE + SYS_REG_UART0_INFO) s2) as (ui & s3 & H3 & _ & M3 & T3).
    rewrite bind_assoc. step_with H3. rewrite bind_mret.
    change SYS_REG_UART_IS_16550 with (2 ^ 32). rewrite tst_pow2 by lia.
    destruct (Z.testbit ui 32) eqn:E32.
    + destruct (std_uart_init_ok {| uart_is_std := true; uart_base := UART_BASE |} (wrap 40 clk) s3)
        as (s4 & H4 & M4 & T4). step_with H4.
      eexists _, _, clk, info, ui. split; [done|].
      rewrite E5, E32. split_and!; [congruence|done|done|].
      rewrite T4, T3, T2, T1, <- !app_assoc. done.
    + destruct (potato_uart_init_ok {| uart_is_std := false; uart_base := UART_BASE |} (wrap 40 clk) s3)
        as (s4 & H4 & M4 & T4). step_with H4.
      eexists _, _, clk, info, ui. split; [done|].
      rewrite E5, E32. split_and!; [congruence|done|done|].
      rewrite T4, T3, T2, T1, <- !app_assoc. done.
  - rewrite bind_mret.
    destruct (potato_uart_init_ok {| uart_is_std := false; uart_base := UART_BASE |} (wrap 40 clk) s2)
      as (s4 & H4 & M4 & T4).
    change (tst 0 SYS_REG_UART_IS_16550) with false. cbn iota. step_with H4.
    eexists _, _, clk, info, 0. split; [done|].
    rewrite E5. split_and!; [congruence|done|done|].
    rewrite T4, T2, T1, <- !app_assoc. done.
Qed.
End init.

(** The divisor registers hold the divisor, and it gives the largest rate not
    above the clock. *)
Lemma uart_divisor_ok freq :
  0 ≤ freq < 2 ^ 40 →
  let div := uart_divisor freq UART_BAUDS in
  div * (16 * UART_BAUDS) ≤ freq < (div + 1) * (16 * UART_BAUDS) ∧
  (div < 65536 → u8 div + 256 * u8 (div `div` 256) = div).
Proof.
  intros Hf div. unfold div, uart_divisor, UART_BAUDS.
  change (u64 (115200 * 16)) with 1843200. change (16 * 115200) with 1843200.
  pose proof (Z.div_mod freq 1843200 ltac:(lia)).
  pose proof (Z.mod_pos_bound freq 1843200 ltac:(lia)). split; [lia|].
  intros Hd. unfold wrap. change (2 ^ 8) with 256.
  set (q := freq `div` 1843200) in *.
  rewrite (Z.mod_small (q `div` 256)).
  - pose proof (Z.div_mod q 256 ltac:(lia)). lia.
  - assert (0 ≤ q) by (apply Z.div_pos; lia).
    split; [apply Z.div_pos; lia|]. apply Z.div_lt_upper_bound; lia.
Qed.
