(* ===== verification/Hello.v ===== *)
(** * The hello-world firmware

    [hello_world/hello_world.c]: prints the logo with the git hash of the
    design, then echoes every character it receives.  The string literals of
    the program are in memory at the addresses of a [hello_lits]; the endless
    echo loop is cut after [n] iterations. *)
From S2P Require Import Prelude CMem LibStr Soc Io Console.

Definition mw_logo1 : list Z :=
  [10] ++ lit "   .oOOo.     " ++ [10] ++
  lit " ." ++ [34] ++ lit "      " ++ [34] ++ lit ". " ++ [10] ++
  lit " ;  .mw.  ;   Microwatt, it works." ++ [10] ++
  lit "  . '  ' .    " ++ [10] ++
  lit "   \ || /     HDL Git SHA1: ".

Definition mw_logo2 : list Z :=
  [10] ++ lit "    ;..;      " ++ [10] ++ lit "    ;..;      " ++ [10] ++
  lit "    `ww'      " ++ [10; 10].

Definition dirty_text : list Z := lit "-dirty".

(** Where the linker put the literals. *)
Record hello_lits := { logo1_at : Z; logo2_at : Z; dirty_at : Z }.

Definition hello_loaded (l : hello_lits) (m : mem) : Prop :=
  cstr m (logo1_at l) mw_logo1 ∧ cstr m (logo2_at l) mw_logo2 ∧ cstr m (dirty_at l) dirty_text.

Section hello.
Context {D : Type} `{!Bus D}.
Abbreviation MM := (M (machine D)).

(** [for (int i = 0; i < 14; i++)]: the digits of the hash. *)
Fixpoint print_hash (fuel : nat) (u : uart_state) (n : nat) (gitinfo : Z) : MM unit :=
  match n with
  | O => mret tt
  | S n =>
      let c := u8 (Z.land (Z.shiftr gitinfo 52) 0xf) in
      (if 10 <=? c then putchar fuel u (0x61 + c - 10) else putchar fuel u (0x30 + c));;
      print_hash fuel u n (u64 (Z.shiftl gitinfo 4))
  end.

Fixpoint echo_loop (fuel : nat) (u : uart_state) (n : nat) : MM unit :=
  match n with
  | O => mret tt
  | S n =>
      c ← getchar fuel u;
      let c := u8 c in
      putchar fuel u c;;
      (if c =? 13 then putchar fuel u 10;; mret tt else mret tt);;
      echo_loop fuel u n
  end.

(** [main] after [console_init]. *)
Definition hello_body (fuel k : nat) (l : hello_lits) (u : uart_state) (n : nat) : MM unit :=
  puts fuel k u (logo1_at l);;
  gitinfo ← readq (SYSCON_BASE + SYS_REG_GIT_INFO);
  let dirty := negb (Z.shiftr gitinfo 63 =? 0) in
  print_hash fuel u 14 gitinfo;;
  (if dirty then puts fuel k u (dirty_at l);; mret tt else mret tt);;
  puts fuel k u (logo2_at l);;
  echo_loop fuel u n.

Definition hello_main (fuel k : nat) (l : hello_lits) (n : nat) : MM unit :=
  u ← console_init;
  hello_body fuel k l u n.
End hello.

(** ** What it prints *)

Definition hex_digit (d : Z) : Z := if d <? 10 then 48 + d else 87 + d.

(** The low [4 * n] bits of a value as [n] hex digits, most significant first. *)
Fixpoint hex_text (n : nat) (v : Z) : list Z :=
  match n with
  | O => []
  | S n => hex_digit ((v `div` 2 ^ (4 * Z.of_nat n)) `mod` 16) :: hex_text n v
  end.

Definition hello_text (gitinfo : Z) : list Z :=
  crlf mw_logo1 ++ hex_text 14 gitinfo ++
  (if Z.testbit gitinfo 63 then dirty_text else []) ++ crlf mw_logo2.

Definition echo_text (cs : list Z) : list Z :=
  flat_map (λ c, if c =? 13 then [13; 10] else [c]) cs.

Section body.
Context {D : Type} `{!Bus D} (u : uart_state) `{!Uart D u} (fuel : nat).
Hypothesis tx_fuel : (tx_bound < fuel)%nat.
Hypothesis rx_fuel : (rx_bound < fuel)%nat.

(** The console can take a character and wait for one; [said s s' t] that
    between [s] and [s'] the text [t] was sent and nothing else changed. *)
Definition ready (s : machine D) : Prop :=
  (tx_busy (dev s) < fuel)%nat ∧ (rx_wait (dev s) < fuel)%nat.
Definition said (s s' : machine D) (t : list Z) : Prop :=
  ram s' = ram s ∧ tx_log (dev s') = tx_log (dev s) ++ t ∧
  rx_queue (dev s') = rx_queue (dev s) ∧ ready s'.

Lemma said_refl s : ready s → said s s [].
Proof. intros. unfold said. by rewrite app_nil_r. Qed.

Lemma said_trans s1 s2 s3 t1 t2 : said s1 s2 t1 → said s2 s3 t2 → said s1 s3 (t1 ++ t2).
Proof.
  intros (A1 & A2 & A3 & A4) (B1 & B2 & B3 & B4). unfold said.
  split_and!; try congruence; [|by apply B4..]. by rewrite B2, A2, app_assoc.
Qed.

Lemma putchar_said c s :
  ready s → ∃ s', putchar fuel u c s = Ret c s' ∧ said s s' [u8 c].
Proof.
  intros [H1 H2]. destruct (putchar_ok u fuel c s H1) as (s' & Hr & Hm & Hl & Hq & Hb & Hw).
  exists s'. split; [done|]. unfold said, ready. split_and!; try done; lia.
Qed.

Lemma puts_said k a t s :
  ready s → (length t < k)%nat → cstr (ram s) a t →
  ∃ s', puts fuel k u a s = Ret 0 s' ∧ said s s' (crlf t).
Proof.
  intros [H1 H2] Hk Ha.
  destruct (puts_loop_ok u fuel k a t s) as (s' & Hr & Hm & Hl & Hq & Hb & Hw); try done.
  exists s'. unfold puts. step_with Hr. split; [done|]. unfold said, ready. split_and!; try done; lia.
Qed.

Lemma hash_nibble (v : Z) (m : nat) :
  (m ≤ 13)%nat →
  Z.land (Z.shiftr (u64 (Z.shiftl v (52 - 4 * Z.of_nat m))) 52) 0xf =
  (v `div` 2 ^ (4 * Z.of_nat m)) `mod` 16.
Proof.
  intros Hm. rewrite (Z.land_ones _ 4) by lia. change 16 with (2 ^ 4).
  apply (bits_eq_wrap 4); [lia|apply Z.mod_pos_bound; lia..|].
  intros i Hi. rewrite !Z.mod_pow2_bits_low by lia.
  rewrite Z.shiftr_spec, testbit_wrap, Z.shiftl_spec by lia.
  rewrite <- Z.shiftr_div_pow2, Z.shiftr_spec by lia.
  rewrite (proj2 (Z.ltb_lt (i + 52) 64)) by lia. cbn [andb]. f_equal. lia.
Qed.

Lemma print_hash_said n v s :
  (n ≤ 14)%nat → ready s →
  ∃ s', print_hash fuel u n (u64 (Z.shiftl v (56 - 4 * Z.of_nat n))) s = Ret tt s' ∧
        said s s' (hex_text n v).
Proof.
  revert s. induction n as [|n IH]; intros s Hn Hs.
  { eexists. split; [done|]. by apply said_refl. }
  cbn [print_hash hex_text].
  replace (56 - 4 * Z.of_nat (S n)) with (52 - 4 * Z.of_nat n) by lia.
  rewrite hash_nibble by lia.
  set (d := (v `div` 2 ^ (4 * Z.of_nat n)) `mod` 16).
  assert (0 ≤ d < 16) as Hd by (apply Z.mod_pos_bound; lia).
  rewrite (wrap_small 8 d) by lia.
  set (c := hex_digit d).
  assert (∃ s1, (if 10 <=? d then putchar fuel u (0x61 + d - 10) else putchar fuel u (0x30 + d)) s
            = Ret c s1 ∧ said s s1 [c]) as (s1 & H1 & H2).
  { destruct (putchar_said c s Hs) as (s1 & H1 & H2). exists s1.
    assert (is_byte c) by (unfold c, hex_digit, is_byte; conds).
    rewrite u8_id in H2 by done. split; [|done]. rewrite <- H1. unfold c, hex_digit.
    destruct (Z.leb_spec 10 d), (Z.ltb_spec d 10); try lia; repeat f_equal; lia. }
  step_with H1. destruct (IH s1) as (s2 & H3 & H4); [lia|by apply H2|].
  exists s2. split; [|by apply (said_trans s s1 s2 [c])]. rewrite <- H3. f_equal.
  apply Z.bits_inj'. intros i Hi.
  rewrite !testbit_wrap by lia. destruct (Z.ltb_spec i 64); [|done]. cbn [andb].
  rewrite Z.shiftl_spec by done. destruct (decide (4 ≤ i)).
  - rewrite testbit_wrap, !Z.shiftl_spec by lia. rewrite (proj2 (Z.ltb_lt (i - 4) 64)) by lia.
    cbn [andb]. f_equal. lia.
  - rewrite Z.shiftl_spec, !(Z.testbit_neg_r _ _) by lia. done.
Qed.

(** Every character received is sent back, a carriage return with a line feed. *)
Lemma echo_loop_ok cs q s :
  ready s → rx_queue (dev s) = cs ++ q → bytes cs →
  ∃ s', echo_loop fuel u (length cs) s = Ret tt s' ∧ ram s' = ram s ∧ ready s' ∧
        rx_queue (dev s') = q ∧ tx_log (dev s') = tx_log (dev s) ++ echo_text cs.
Proof.
  revert s. induction cs as [|c cs IH]; intros s [Hs1 Hs2] Hq Hcs.
  { eexists. split; [done|]. rewrite app_nil_r. by split_and!. }
  apply Forall_cons in Hcs as [Hc Hcs]. cbn [length echo_loop].
  destruct (getchar_ok u fuel c (cs ++ q) s Hs2 Hq) as (s1 & H1 & [M1 L1] & Q1 & B1 & W1).
  step_with H1. rewrite (u8_id c) by done.
  destruct (putchar_said c s1) as (s2 & H2 & M2 & L2 & Q2 & R2); [split; lia|].
  step_with H2. rewrite (u8_id c) in L2 by done.
  assert (∃ s3, (if c =? 13 then putchar fuel u 10;; mret tt else mret tt) s2 = Ret tt s3 ∧
            said s2 s3 (if c =? 13 then [10] else [])) as (s3 & H3 & M3 & L3 & Q3 & R3).
  { destruct (c =? 13).
    - destruct (putchar_said 10 s2 R2) as (s3 & H3 & H4). exists s3.
      rewrite (bind_Ret _ _ _ _ _ H3). done.
    - exists s2. split; [done|]. by apply said_refl. }
  step_with H3. destruct (IH s3 R3) as (s4 & H4 & M4 & R4 & Q4 & L4); [congruence|done|].
  exists s4. split_and!; [done|congruence|done|done|].
  rewrite L4, L3, L2, L1. cbn [echo_text flat_map]. rewrite <- !app_assoc.
  destruct (Z.eqb_spec c 13) as [->|]; done.
Qed.

Lemma top_bit g : 0 ≤ g < 2 ^ 64 → negb (Z.shiftr g 63 =? 0) = Z.testbit g 63.
Proof.
  intros Hg. rewrite Z.shiftr_div_pow2 by lia.
  assert (0 ≤ g `div` 2 ^ 63 < 2) by (split; [apply Z.div_pos|apply Z.div_lt_upper_bound]; lia).
  assert (g `div` 2 ^ 63 = 0 ∨ g `div` 2 ^ 63 = 1) as [E|E] by lia; rewrite E; symmetry.
  - apply Z.testbit_false; [lia|]. by rewrite E.
  - apply Z.testbit_true; [lia|]. by rewrite E.
Qed.

(** Reading the syscon does not disturb the console. *)
Definition git_info_of (git : Z) : Prop := ∀ d : D,
  let '(v, d') := bus_load 8 (SYSCON_BASE + SYS_REG_GIT_INFO) d in
  u64 v = git ∧ tx_log d' = tx_log d ∧ rx_queue d' = rx_queue d ∧ tx_busy d' = tx_busy d ∧
  rx_wait d' = rx_wait d.

Lemma hello_body_ok k l git cs q s :
  git_info_of git → hello_loaded l (ram s) → ready s → (length mw_logo1 < k)%nat →
  rx_queue (dev s) = cs ++ q → bytes cs →
  ∃ s', hello_body fuel k l u (length cs) s = Ret tt s' ∧ ram s' = ram s ∧
        rx_queue (dev s') = q ∧
        tx_log (dev s') = tx_log (dev s) ++ hello_text git ++ echo_text cs.
Proof.
  intros Hgit (L1 & L2 & L3) Hs Hk Hq Hcs.
  assert (length mw_logo2 < k ∧ length dirty_text < k)%nat as [Hk2 Hk3]
    by (vm_compute length in Hk; vm_compute length; lia).
  unfold hello_body.
  destruct (puts_said k _ _ s Hs Hk L1) as (s1 & H1 & S1). step_with H1.
  assert (∃ s2, readq (SYSCON_BASE + SYS_REG_GIT_INFO) s1 = Ret git s2 ∧ 0 ≤ git < 2 ^ 64 ∧
            said s1 s2 []) as (s2 & H2 & Hg & S2).
  { pose proof (Hgit (dev s1)) as H. unfold readq, io_load. destruct (bus_load _ _ _) as [v d'].
    destruct H as (<- & T1 & T2 & T3 & T4). eexists. split; [done|].
    split; [by apply wrap_range|]. destruct S1 as (_ & _ & _ & [R1 R2]). unfold said, ready. cbn.
    rewrite app_nil_r, T1, T2, T3, T4. done. }
  step_with H2.
  destruct (print_hash_said 14 git s2) as (s3 & H3 & S3); [done|by apply S2|].
  rewrite Z.shiftl_0_r, (wrap_small 64) in H3 by done. step_with H3.
  rewrite top_bit by done.
  assert (∃ s4, (if Z.testbit git 63 then puts fuel k u (dirty_at l);; mret tt else mret tt) s3 = Ret tt s4 ∧
            said s3 s4 (if Z.testbit git 63 then dirty_text else [])) as (s4 & H4 & S4).
  { destruct (Z.testbit git 63).
    - destruct (puts_said k (dirty_at l) dirty_text s3) as (s4 & H4 & S4); [by apply S3|done| |].
      { by rewrite (proj1 S3), (proj1 S2), (proj1 S1). }
      exists s4. rewrite (bind_Ret _ _ _ _ _ H4). done.
    - exists s3. split; [done|]. apply said_refl. by apply S3. }
  step_with H4.
  destruct (puts_said k (logo2_at l) mw_logo2 s4) as (s5 & H5 & S5); [by apply S4|done| |].
  { by rewrite (proj1 S4), (proj1 S3), (proj1 S2), (proj1 S1). }
  step_with H5.
  pose proof (said_trans _ _ _ _ _ S1 (said_trans _ _ _ _ _ S2 (said_trans _ _ _ _ _ S3
    (said_trans _ _ _ _ _ S4 S5)))) as (M5 & T5 & Q5 & R5).
  destruct (echo_loop_ok cs q s5 R5) as (s6 & H6 & M6 & R6 & Q6 & T6); [congruence|done|].
  exists s6. split_and!; [done|congruence|done|].
  rewrite T6, T5. unfold hello_text. by rewrite <- !app_assoc.
Qed.
End body.
