(* ===== verification/RustDemo.v ===== *)
(** * The Rust demonstration

    [rust_lib_demo/hello_world.c]: clears the BSS, greets, and hands over to a
    library written in Rust, which prints through [putchar] and ends by calling
    [crash].  The library is a parameter.  A call of a function pointer leaves the
    program, with the address as the result. *)
From S2P Require Import Prelude CMem Io Console Hello.

(** [while (p < &_ebss) *p++ = 0]: an [int] at a time. *)
Fixpoint init_bss_loop (fuel : nat) (p ebss : Z) : M mem unit :=
  if p <? ebss then
    match fuel with
    | O => out_of_fuel
    | S fuel => store 4 p 0;; init_bss_loop fuel (p + 4) ebss
    end
  else mret tt.

Definition init_bss (bss ebss : Z) : M mem unit := init_bss_loop (Z.to_nat (ebss - bss)) bss ebss.

Definition HELLO_WORLD : list Z := lit "Hello World" ++ [10].

Section demo.
Context {D : Type} `{!Bus D}.
Abbreviation MM := (M (machine D)).

Definition crash : MM unit := exit_ 0xdeadbeef.

(** [main] after [console_init]; the endless loop behind [crash] is not reached. *)
Definition demo_body (fuel k : nat) (hello : Z) (rust_main : uart_state → MM unit) (u : uart_state) : MM unit :=
  puts fuel k u hello;;
  rust_main u;;
  crash.

Definition demo_main (fuel k : nat) (bss ebss hello : Z) (rust_main : uart_state → MM unit) : MM unit :=
  in_ram (init_bss bss ebss);;
  u ← console_init;
  demo_body fuel k hello rust_main u.
End demo.

(** ** Behaviour *)

Lemma init_bss_loop_ok fuel p k m : (k ≤ fuel)%nat → mapped m p (4 * k) →
  init_bss_loop fuel p (p + 4 * Z.of_nat k) m = Ret tt (write_bytes p (replicate (4 * k) 0) m).
Proof.
  revert fuel p m. induction k as [|k IH]; intros fuel p m Hf Hm.
  { destruct fuel; cbn [init_bss_loop]; by rewrite (proj2 (Z.ltb_ge _ _)) by lia. }
  destruct fuel as [|fuel]; [lia|]. cbn [init_bss_loop]. rewrite (proj2 (Z.ltb_lt _ _)) by lia.
  replace (4 * S k)%nat with (4 + 4 * k)%nat in * by lia. apply mapped_app in Hm as [Hm1 Hm2].
  step_with (store_Ret _ p 4 0 Hm1). change (le_split 4 0) with (replicate 4 0).
  replace (p + 4 * Z.of_nat (S k)) with (p + 4 + 4 * Z.of_nat k) by lia.
  rewrite IH by (lia || by apply mapped_write). by rewrite replicate_add, write_bytes_app.
Qed.

(** The BSS, whole words of it, is cleared, and nothing else is changed. *)
Lemma init_bss_ok bss ebss m :
  bss ≤ ebss → (4 | ebss - bss) → mapped m bss (Z.to_nat (ebss - bss)) →
  init_bss bss ebss m = Ret tt (write_bytes bss (replicate (Z.to_nat (ebss - bss)) 0) m).
Proof.
  intros Hle [k Hk] Hm. unfold init_bss.
  assert (0 ≤ k) by lia. replace ebss with (bss + 4 * Z.of_nat (Z.to_nat k)) by lia.
  replace (Z.to_nat (bss + 4 * Z.of_nat (Z.to_nat k) - bss)) with (4 * Z.to_nat k)%nat by lia.
  apply init_bss_loop_ok; [lia|]. by replace (4 * Z.to_nat k)%nat with (Z.to_nat (ebss - bss)) by lia.
Qed.

Section body.
Context {D : Type} `{!Bus D} (u : uart_state) `{!Uart D u} (fuel : nat).
Hypothesis tx_fuel : (tx_bound < fuel)%nat.
Hypothesis rx_fuel : (rx_bound < fuel)%nat.

(** What the library does: it prints, and returns or crashes. *)
Definition lib_prints (rust_main : uart_state → M (machine D) unit) (text : list Z) : Prop :=
  ∀ s, ready u fuel s → ∃ s', said u fuel s s' text ∧
    (rust_main u s = Ret tt s' ∨ rust_main u s = Exit 0xdeadbeef s').

(** The greeting, then what the library prints, then the crash. *)
Lemma demo_body_ok k hello rust_main text s :
  lib_prints rust_main text → ready u fuel s → (length HELLO_WORLD < k)%nat →
  cstr (ram s) hello HELLO_WORLD →
  ∃ s', demo_body fuel k hello rust_main u s = Exit 0xdeadbeef s' ∧ said u fuel s s' (crlf HELLO_WORLD ++ text).
Proof.
  intros Hlib Hs Hk Hh. destruct (puts_said u fuel tx_fuel rx_fuel k hello HELLO_WORLD s Hs Hk Hh) as (s1 & H1 & S1).
  destruct (Hlib s1) as (s2 & S2 & H2); [by apply S1|]. exists s2. split; [|by eapply said_trans].
  unfold demo_body. step_with H1. destruct H2 as [H2|H2].
  - by step_with H2.
  - by rewrite (bind_Exit _ _ _ _ _ H2).
Qed.
End body.
