(* ===== verification/Fw.v ===== *)
(** * Formatted output of the boot firmware

    [_printf] of [litedram/gen-src/sdram_init/main.c] composes [vsnprintf] and
    [puts].  The rest of the firmware uses it through the class [Printf]; what it
    relies on is the class [PrintfOk], which [fw_printf_ok] discharges for the
    real function: the text of the call is sent, and only the function's own
    stack is changed. *)
From S2P Require Import Prelude CMem LibMem Ctype LibStr Strtol Printf PrintfSpec Soc Io Console.

(** ** Memory that changes only in places *)

Definition same_outside (P : Z → Prop) (m m' : mem) : Prop :=
  ∀ a, ¬ P a → m' !! a = m !! a.

Lemma same_outside_refl P m : same_outside P m m.
Proof. by intros a. Qed.

Lemma same_outside_trans P m1 m2 m3 :
  same_outside P m1 m2 → same_outside P m2 m3 → same_outside P m1 m3.
Proof. intros H1 H2 a Ha. by rewrite H2, H1. Qed.

Lemma same_outside_sub (P Q : Z → Prop) m m' :
  (∀ a, P a → Q a) → same_outside P m m' → same_outside Q m m'.
Proof. intros HPQ H a Ha. apply H. auto. Qed.

Lemma same_outside_write (P : Z → Prop) m a bs :
  (∀ k, a ≤ k < a + Z.of_nat (length bs) → P k) → same_outside P m (write_bytes a bs m).
Proof.
  intros H k Hk. apply lookup_write_bytes_out.
  destruct (decide (a ≤ k < a + Z.of_nat (length bs))); [naive_solver|lia].
Qed.

Lemma same_outside_bytes (P : Z → Prop) m m' a bs :
  same_outside P m m' → (∀ k, a ≤ k < a + Z.of_nat (length bs) → ¬ P k) →
  bytes_at m a bs → bytes_at m' a bs.
Proof.
  intros H Hd Hb. apply bytes_at_intro. intros i b Hi. rewrite H.
  - by eapply bytes_at_lookup.
  - apply Hd. apply lookup_lt_Some in Hi. lia.
Qed.

Lemma same_outside_mapped (P : Z → Prop) m m' a n :
  same_outside P m m' → (∀ k, a ≤ k < a + Z.of_nat n → ¬ P k) →
  mapped m a n → mapped m' a n.
Proof.
  intros H Hd Hm. apply mapped_intro. intros i Hi. rewrite H; [|apply Hd; lia].
  by apply (mapped_lookup m a n).
Qed.

(** ** [_printf] *)

(** Where the compiler and the linker put things, and the iterations the loops
    get: the frame of [vsnprintf], the buffer of [_printf], the literal "0x",
    the format strings, and a string constant. *)
Record fw_env := {
  fw_fuel : nat;
  fw_frame : Z;
  fw_buffer : Z;
  fw_0x : Z;
  fw_formats : list (list Z);
  fw_lit : list Z → Z;
  fw_str_at : Z;
  fw_str : list Z;
}.

Definition PRINTF_BUFFER : Z := 128.

Section printf.
Context {D : Type} `{!Bus D}.
Abbreviation MM := (M (machine D)).

Definition _printf (e : fw_env) (u : uart_state) (fmt : Z) (ap : list Z) : MM Z :=
  count ← in_ram (vsnprintf (fw_frame e) (fw_fuel e) (fw_0x e) (fw_buffer e) PRINTF_BUFFER fmt ap);
  puts (fw_fuel e) (fw_fuel e) u (fw_buffer e);;
  mret count.
End printf.

(** The operation as the rest of the firmware calls it: the text of the format
    literal and the arguments. *)
Class Printf (D : Type) `{!Bus D} := {
  printf : uart_state → list Z → list Z → M (machine D) Z;
}.

(** A call whose arguments fit its format, and the text it stands for. *)
Fixpoint args_fit (str_at : Z) (items : list item) (args : list Z) : Prop :=
  match items, args with
  | [], _ => True
  | IDir d :: items, v :: args =>
      0 ≤ v < 2 ^ 64 ∧ (d_conv d = Cs → v = str_at) ∧ (d_conv d = Cc → u8 v ≠ 0) ∧
      args_fit str_at items args
  | IDir _ :: _, [] => False
  | _ :: items, _ => args_fit str_at items args
  end.

Definition printf_call (str_at : Z) (str : list Z) (fmt args out : list Z) : Prop :=
  ∃ items, fmt = format_text items ∧ (length items ≤ length fmt)%nat ∧ Forall wf_item items ∧
    args_fit str_at items args ∧ render (λ _, str) items args = Some out ∧
    Z.of_nat (length out) < PRINTF_BUFFER.

(** ** The printed text has no NUL *)

Abbreviation chars := (Forall (λ b, 0 < b < 256)).

Lemma pad_chars w n c : 0 < c < 256 → chars (pad w n c).
Proof. intros. by apply Forall_replicate. Qed.

Lemma render_int_chars base upper zero ws v :
  2 ≤ base ≤ 16 → chars (render_int base upper zero ws v).
Proof.
  intros. unfold render_int. apply Forall_app. split; [|by apply itoa_chars].
  apply pad_chars. by destruct zero.
Qed.

Lemma render_chars str_at str items args out :
  chars str → Forall wf_item items → args_fit str_at items args →
  render (λ _, str) items args = Some out → chars out.
Proof.
  intros Hstr. revert args out. induction items as [|it items IH]; intros args out Hwf Hfit Hr.
  { injection Hr as <-. constructor. }
  apply Forall_cons in Hwf as [Hit Hwf]. destruct it as [c| |d]; cbn in Hfit, Hr.
  1,2: apply fmap_Some in Hr as (o & Ho & ->); constructor; [cbn in Hit; lia|by eapply IH].
  destruct args as [|v args]; [done|]. destruct Hfit as (Hv & _ & Hc & Hfit).
  apply fmap_Some in Hr as (o & Ho & ->). apply Forall_app. split; [|by eapply IH].
  assert (∀ zero ws v, chars (render_int 10 false zero ws v)) by (intros; apply render_int_chars; lia).
  unfold render_directive. destruct (d_conv d); try (apply render_int_chars; lia).
  - unfold render_dec. destruct (_ && _); [constructor; [lia|]|]; done.
  - unfold render_dec. destruct (_ && _); [constructor; [lia|]|]; done.
  - unfold render_ptr. rewrite !Forall_app. split_and!; [by apply pad_chars|by repeat constructor|].
    apply itoa_chars. lia.
  - apply Forall_app. split; [by apply pad_chars|]. constructor; [|constructor].
    pose proof (u8_byte v) as []. specialize (Hc eq_refl). lia.
  - apply Forall_app. split; [by apply pad_chars|done].
Qed.

(** ** What the firmware relies on *)

(** An access to the registers of the console. *)
Definition uart_event (u : uart_state) (ev : io_event) : Prop :=
  match ev with Ld _ a _ | St _ a _ => uart_base u ≤ a < uart_base u + 0x28 end.

Class PrintfOk (D : Type) `{!Bus D} (u : uart_state) `{!Uart D u} `{!Printf D} := {
  pr_addr : Z → Prop;
  pr_formats : list (list Z);
  pr_str_at : Z;
  pr_str : list Z;
  pr_ok : machine D → Prop;
  pr_ok_ram s m d tr :
    pr_ok s → (∀ a, pr_addr a → m !! a = ram s !! a) →
    tx_busy d = tx_busy (dev s) → pr_ok (Machine m d tr);
  printf_ok fmt args out s :
    pr_ok s → fmt ∈ pr_formats → printf_call pr_str_at pr_str fmt args out →
    ∃ s' evs, printf u fmt args s = Ret (Z.of_nat (length out)) s' ∧ pr_ok s' ∧
      same_outside pr_addr (ram s) (ram s') ∧
      tx_log (dev s') = tx_log (dev s) ++ crlf out ∧
      io_trace s' = io_trace s ++ evs ∧ Forall (uart_event u) evs;
}.

(** ** The accesses a piece of code makes *)

Definition io_only {D A} (P : io_event → Prop) (m : M (machine D) A) : Prop :=
  ∀ s a s', m s = Ret a s' → ∃ evs, io_trace s' = io_trace s ++ evs ∧ Forall P evs.

Section io_only.
Context {D : Type} `{!Bus D} (P : io_event → Prop).
Abbreviation MM := (M (machine D)).

Lemma io_only_ret {A} (a : A) : io_only P (mret a : MM A).
Proof. intros s b s' H. injection H as <- <-. exists []. by rewrite app_nil_r. Qed.

Lemma io_only_bind {A B} (m : MM A) (f : A → MM B) :
  io_only P m → (∀ a, io_only P (f a)) → io_only P (m ≫= f).
Proof.
  intros Hm Hf s b s2 H. apply bind_Ret_inv in H as (a & s1 & H1 & H2).
  destruct (Hm _ _ _ H1) as (e1 & E1 & F1).
  destruct (Hf _ _ _ _ H2) as (e2 & E2 & F2).
  exists (e1 ++ e2). rewrite E2, E1, app_assoc. split; [done|]. by apply Forall_app.
Qed.

Lemma io_only_ram {A} (p : M mem A) : io_only P (in_ram p : MM A).
Proof.
  intros s a s'. unfold in_ram, zoom. destruct (p (ram s)); intros H; simplify_eq.
  exists []. cbn. by rewrite app_nil_r.
Qed.

Lemma io_only_load n addr : (∀ v, P (Ld n addr v)) → io_only P (io_load n addr : MM Z).
Proof.
  intros HP s a s'. unfold io_load. destruct (bus_load _ _ _) as [v d]. intros H. simplify_eq.
  eexists [_]. split; [done|]. constructor; [done|constructor].
Qed.

Lemma io_only_store n addr v : (∀ v, P (St n addr v)) → io_only P (io_store n addr v : MM unit).
Proof.
  intros HP s a s' H. unfold io_store in H. simplify_eq.
  eexists [_]. split; [done|]. constructor; [done|constructor].
Qed.

Lemma io_only_out_of_fuel {A} : io_only P (out_of_fuel : MM A).
Proof. done. Qed.
End io_only.

Create HintDb io.
#[export] Hint Resolve io_only_ret io_only_bind io_only_ram io_only_load io_only_store
  io_only_out_of_fuel : io.

Section console_io.
Context {D : Type} `{!Bus D} (u : uart_state).
Abbreviation MM := (M (machine D)).

Lemma io_only_spin fuel (t : MM bool) :
  io_only (uart_event u) t → io_only (uart_event u) (spin fuel t).
Proof.
  intros Ht. induction fuel as [|fuel IH]; cbn [spin]; [auto with io|].
  apply io_only_bind; [done|]. intros []; auto with io.
Qed.

Lemma io_only_putchar fuel c : io_only (uart_event u) (putchar fuel u c : MM Z).
Proof.
  assert (∀ o, 0 ≤ o < 0x28 → uart_base u ≤ uart_base u + o < uart_base u + 0x28) as Ho by lia.
  unfold putchar, std_uart_tx_full, potato_uart_tx_full, std_uart_write, potato_uart_write,
    potato_uart_reg_read, potato_uart_reg_write, readb, readq, writeb, writeq.
  apply io_only_bind; [|auto with io].
  destruct (uart_is_std u); (apply io_only_bind; [apply io_only_spin|]); intros; auto with io;
    (apply io_only_bind + apply io_only_store); [try apply io_only_load..|]; intros; auto with io;
    by apply Ho.
Qed.

Lemma io_only_puts fuel k a : io_only (uart_event u) (puts fuel k u a : MM Z).
Proof.
  unfold puts. apply io_only_bind; [|auto with io].
  revert a. induction k as [|k IH]; intros a; cbn [puts_loop]; [auto with io|].
  apply io_only_bind; [auto with io|]. intros c. destruct (negb (c =? 0)); [|auto with io].
  apply io_only_bind.
  - destruct (c =? 10); auto using io_only_putchar with io.
  - intros _. apply io_only_bind; [apply io_only_putchar|auto].
Qed.
End console_io.

(** ** The real function *)

#[export] Instance fw_printf {D} `{!Bus D} (e : fw_env) : Printf D :=
  {| printf u fmt args := _printf e u (fw_lit e fmt) args |}.

(** [n] bytes at [a] that a call of [_printf] leaves alone. *)
Definition fw_apart (e : fw_env) (a : Z) (n : nat) : Prop :=
  apart (fw_frame e) (fw_buffer e) (PRINTF_BUFFER - 1) a n.

(** The layout of the image. *)
Record fw_layout (e : fw_env) : Prop := {
  fwl_disj : fw_frame e + 52 ≤ fw_buffer e ∨ fw_buffer e + PRINTF_BUFFER ≤ fw_frame e;
  fwl_null : fw_buffer e ≠ NULL;
  fwl_fuel : (128 < fw_fuel e)%nat;
  fwl_lits : Forall (λ f, fw_apart e (fw_lit e f) (S (length f)) ∧ (length f < fw_fuel e)%nat)
                    (fw_formats e);
  fwl_0x : fw_apart e (fw_0x e) 3;
  fwl_str : fw_apart e (fw_str_at e) (S (length (fw_str e))) ∧ (length (fw_str e) < fw_fuel e)%nat;
}.

Definition within (a : Z) (n : nat) (k : Z) : Prop := a ≤ k < a + Z.of_nat n.

(** The addresses the console code owns. *)
Definition fw_addr (e : fw_env) (k : Z) : Prop :=
  within (fw_frame e) 52 k ∨ within (fw_buffer e) 128 k ∨ within (fw_0x e) 3 k ∨
  within (fw_str_at e) (S (length (fw_str e))) k ∨
  Exists (λ f, within (fw_lit e f) (S (length f)) k) (fw_formats e).

Section fw.
Context {D : Type} `{!Bus D} (u : uart_state) `{!Uart D u} (e : fw_env).

(** Everything [_printf] needs is in memory, and the console is not stuck. *)
Record fw_ok (s : machine D) : Prop := {
  fw_ok_frame : mapped (ram s) (fw_frame e) 52;
  fw_ok_buffer : mapped (ram s) (fw_buffer e) 128;
  fw_ok_0x : cstr (ram s) (fw_0x e) [48; 120];
  fw_ok_str : cstr (ram s) (fw_str_at e) (fw_str e);
  fw_ok_lits : Forall (λ f, cstr (ram s) (fw_lit e f) f) (fw_formats e);
  fw_ok_tx : (tx_busy (dev s) < fw_fuel e)%nat;
}.

Lemma fw_ok_agree s m d tr :
  fw_ok s → (∀ a, fw_addr e a → m !! a = ram s !! a) → tx_busy d = tx_busy (dev s) →
  fw_ok (Machine m d tr).
Proof.
  intros [H1 H2 H3 H4 H5 H6] Hag Hb.
  assert (∀ a n, mapped (ram s) a n → (∀ k, within a n k → fw_addr e k) → mapped m a n) as Hmap.
  { intros a n Hm Hin. apply mapped_intro. intros i Hi. rewrite Hag; [by apply (mapped_lookup _ a n)|].
    apply Hin. unfold within. lia. }
  assert (∀ a t, cstr (ram s) a t → (∀ k, within a (S (length t)) k → fw_addr e k) → cstr m a t) as Hstr.
  { intros a t Ht Hin. apply (cstr_agree (ram s)); [|done]. intros k Hk. apply Hag, Hin. unfold within. lia. }
  constructor; cbn [ram dev].
  - apply Hmap; [done|]. by left.
  - apply Hmap; [done|]. right. by left.
  - apply Hstr; [done|]. do 2 right. by left.
  - apply Hstr; [done|]. do 3 right. by left.
  - rewrite Forall_forall in H5 |- *. intros f Hf. apply Hstr; [by apply H5|].
    intros k Hk. do 4 right. apply Exists_exists. eauto.
  - by rewrite Hb.
Qed.

Hypothesis layout : fw_layout e.
Hypothesis tx_fuel : (tx_bound < fw_fuel e)%nat.

Lemma fw_args_ok m items args :
  cstr m (fw_str_at e) (fw_str e) → args_fit (fw_str_at e) items args →
  args_ok (fw_frame e) (fw_fuel e) (fw_buffer e) (PRINTF_BUFFER - 1) (λ _, fw_str e) m items args.
Proof.
  intros Hstr. destruct (fwl_str e layout) as [Hap Hlen].
  revert args. induction items as [|[c| |d] items IH]; intros args; cbn; auto.
  destruct args as [|v args]; [done|]. intros (Hv & Hs & _ & Hfit).
  split; [|by apply IH]. split; [done|]. intros Hc. rewrite (Hs Hc). done.
Qed.

(** The text of the call goes out; only the stack of the call changes. *)
Lemma fw_printf_run fmt args out s :
  fw_ok s → fmt ∈ fw_formats e → printf_call (fw_str_at e) (fw_str e) fmt args out →
  ∃ s' evs, _printf e u (fw_lit e fmt) args s = Ret (Z.of_nat (length out)) s' ∧ fw_ok s' ∧
    same_outside (fw_addr e) (ram s) (ram s') ∧
    tx_log (dev s') = tx_log (dev s) ++ crlf out ∧
    io_trace s' = io_trace s ++ evs ∧ Forall (uart_event u) evs.
Proof.
  intros [H1 H2 H3 H4 H5 H6] Hfmt (items & -> & Hlen & Hwf & Hfit & Hr & Hout).
  pose proof layout as [Hd Hnull Hfu Hlits H0x Hstr].
  rewrite Forall_forall in Hlits, H5. destruct (Hlits _ Hfmt) as [Hap Hfl].
  destruct (vsnprintf_ok (fw_frame e) (fw_fuel e) (fw_buffer e) PRINTF_BUFFER (fw_0x e) (λ _, fw_str e)
    (fw_lit e (format_text items)) items args out (ram s)) as (m' & Hrun & Hoff);
    try done; try (unfold PRINTF_BUFFER; lia).
  { constructor; try done.
    - eapply mapped_sub; [..|exact H2]; unfold PRINTF_BUFFER; lia.
    - by apply H5.
    - by apply fw_args_ok. }
  set (s1 := Machine m' (dev s) (io_trace s)).
  assert (chars out) as Hch by (eapply render_chars; [exact (proj2 H4)|done..]).
  assert (cstr m' (fw_buffer e) out) as Hcs.
  { eapply off_frame_cstr; [done|unfold PRINTF_BUFFER in *; lia|]. pose proof (bytes_at_write (fw_buffer e) (out ++ [0]) (ram s)) as [Hb1 [Hb2 _]]%bytes_at_app.
    by apply cstr_intro. }
  assert (same_outside (fw_addr e) (ram s) m') as Hsame.
  { intros a Ha. destruct Hoff as [_ Hoff]. rewrite Hoff.
    - apply lookup_write_bytes_out. rewrite length_app. unfold PRINTF_BUFFER in Hout. cbn [length].
      destruct (decide (fw_buffer e ≤ a < fw_buffer e + 128)); [|lia].
      destruct Ha. right. left. unfold within. lia.
    - destruct (decide (fw_frame e ≤ a < fw_frame e + 52)); [|lia]. destruct Ha. by left. }
  assert (∀ a t, apart (fw_frame e) (fw_buffer e) (PRINTF_BUFFER - 1) a (S (length t)) →
    cstr (ram s) a t → cstr m' a t) as Hkeep.
  { intros a t [Ha1 Ha2] Ht. eapply off_frame_cstr; [exact Hoff|lia|].
    apply cstr_write_disj; [|done]. rewrite length_app. unfold PRINTF_BUFFER in *. cbn [length]. lia. }
  destruct (puts_loop_ok u (fw_fuel e) (fw_fuel e) (fw_buffer e) out s1) as
    (s2 & Hp & Hm & Hl & Hq & Hb & Hw); try done.
  { unfold PRINTF_BUFFER in Hout. lia. }
  assert (_printf e u (fw_lit e (format_text items)) args s = Ret (Z.of_nat (length out)) s2) as Hcall.
  { unfold _printf. rewrite (bind_Ret _ _ s _ s1) by (by apply in_ram_Ret).
    unfold puts. rewrite bind_assoc. by rewrite (bind_Ret _ _ s1 tt s2). }
  destruct (io_only_puts u (fw_fuel e) (fw_fuel e) (fw_buffer e) s1 0 s2) as (evs & Htr & Hev).
  { unfold puts. by rewrite (bind_Ret _ _ s1 tt s2). }
  exists s2, evs. split; [done|]. cbn in Hm. rewrite Hm, Htr, Hl. split_and!; try done.
  constructor; rewrite ?Hm.
  - apply Hoff.
  - eapply off_frame_mapped; [exact Hoff|unfold PRINTF_BUFFER in *; lia|by apply mapped_write].
  - by apply Hkeep.
  - apply Hkeep; [apply Hstr|done].
  - apply Forall_forall. intros f Hf. apply Hkeep; [by apply Hlits|by apply H5].
  - done.
Qed.

#[export] Program Instance fw_printf_ok : PrintfOk D u (Printf0 := fw_printf e) := {|
  pr_addr := fw_addr e;
  pr_formats := fw_formats e;
  pr_str_at := fw_str_at e;
  pr_str := fw_str e;
  pr_ok := fw_ok;
|}.
Next Obligation. intros s m d tr. apply fw_ok_agree. Qed.
Next Obligation. intros fmt args out s. apply fw_printf_run. Qed.
End fw.
