(* ===== verification/Elf.v ===== *)
(** * The ELF structures the boot loader reads

    [litedram/gen-src/sdram_init/include/elf64.h] and [elf_common.h]: the
    headers as records, where their fields lie in memory, and the constants the
    loader tests.  [ehdr_bytes] and [phdr_bytes] are the images of the headers
    in a file; a load of a field from the image gives the field. *)
From S2P Require Import Prelude CMem.

Definition EI_MAG0 : Z := 0.
Definition EI_MAG1 : Z := 1.
Definition EI_MAG2 : Z := 2.
Definition EI_MAG3 : Z := 3.
Definition EI_CLASS : Z := 4.
Definition EI_DATA : Z := 5.
Definition EI_NIDENT : nat := 16.
Definition ELFMAG0 : Z := 0x7f.
Definition ELFMAG1 : Z := 69.
Definition ELFMAG2 : Z := 76.
Definition ELFMAG3 : Z := 70.
Definition ELFCLASS64 : Z := 2.
Definition ELFDATA2LSB : Z := 1.
Definition EM_PPC64 : Z := 21.
Definition PT_LOAD : Z := 1.

Record Elf64_Ehdr := {
  e_ident : list Z;
  e_type : Z;
  e_machine : Z;
  e_version : Z;
  e_entry : Z;
  e_phoff : Z;
  e_shoff : Z;
  e_flags : Z;
  e_ehsize : Z;
  e_phentsize : Z;
  e_phnum : Z;
  e_shentsize : Z;
  e_shnum : Z;
  e_shstrndx : Z;
}.

Record Elf64_Phdr := {
  p_type : Z;
  p_flags : Z;
  p_offset : Z;
  p_vaddr : Z;
  p_paddr : Z;
  p_filesz : Z;
  p_memsz : Z;
  p_align : Z;
}.

(** ** Layout *)

(** The fields after [e_ident], with their sizes. *)
Definition ehdr_fields (h : Elf64_Ehdr) : list (nat * Z) :=
  [(2%nat, e_type h); (2%nat, e_machine h); (4%nat, e_version h); (8%nat, e_entry h);
   (8%nat, e_phoff h); (8%nat, e_shoff h); (4%nat, e_flags h); (2%nat, e_ehsize h);
   (2%nat, e_phentsize h); (2%nat, e_phnum h); (2%nat, e_shentsize h); (2%nat, e_shnum h);
   (2%nat, e_shstrndx h)].

Definition phdr_fields (p : Elf64_Phdr) : list (nat * Z) :=
  [(4%nat, p_type p); (4%nat, p_flags p); (8%nat, p_offset p); (8%nat, p_vaddr p);
   (8%nat, p_paddr p); (8%nat, p_filesz p); (8%nat, p_memsz p); (8%nat, p_align p)].

Definition enc_fields (fs : list (nat * Z)) : list Z :=
  flat_map (λ '(n, v), le_split n v) fs.

Definition ehdr_bytes (h : Elf64_Ehdr) : list Z := e_ident h ++ enc_fields (ehdr_fields h).
Definition phdr_bytes (p : Elf64_Phdr) : list Z := enc_fields (phdr_fields p).

Definition sizeof_ehdr : Z := 64.
Definition sizeof_phdr : Z := 56.

(** [ehdr.f] for a header at address [a]. *)
Definition ld_e_ident (a i : Z) : M mem Z := load8 (a + i).
Definition ld_e_machine (a : Z) : M mem Z := load 2 (a + 18).
Definition ld_e_entry (a : Z) : M mem Z := load 8 (a + 24).
Definition ld_e_phoff (a : Z) : M mem Z := load 8 (a + 32).
Definition ld_e_phentsize (a : Z) : M mem Z := load 2 (a + 54).
Definition ld_e_phnum (a : Z) : M mem Z := load 2 (a + 56).
Definition ld_p_type (a : Z) : M mem Z := load 4 (a + 0).
Definition ld_p_offset (a : Z) : M mem Z := load 8 (a + 8).
Definition ld_p_vaddr (a : Z) : M mem Z := load 8 (a + 16).
Definition ld_p_filesz (a : Z) : M mem Z := load 8 (a + 32).

(** [IS_ELF]: the tests stop at the first byte that differs. *)
Definition IS_ELF (a : Z) : M mem bool :=
  b0 ← ld_e_ident a EI_MAG0;
  if negb (b0 =? ELFMAG0) then mret false else
  b1 ← ld_e_ident a EI_MAG1;
  if negb (b1 =? ELFMAG1) then mret false else
  b2 ← ld_e_ident a EI_MAG2;
  if negb (b2 =? ELFMAG2) then mret false else
  b3 ← ld_e_ident a EI_MAG3;
  mret (b3 =? ELFMAG3).

(** ** Loading a field of an image *)

Definition field_off (fs : list (nat * Z)) (i : nat) : nat := sum_list (fst <$> take i fs).

Lemma enc_fields_cons n v fs : enc_fields ((n, v) :: fs) = le_split n v ++ enc_fields fs.
Proof. done. Qed.

Lemma length_enc_fields fs : length (enc_fields fs) = sum_list (fst <$> fs).
Proof.
  induction fs as [|[n v] fs IH]; [done|].
  by rewrite enc_fields_cons, length_app, length_le_split, IH.
Qed.

Lemma enc_fields_bytes fs : bytes (enc_fields fs).
Proof.
  induction fs as [|[n v] fs IH]; [constructor|].
  rewrite enc_fields_cons. apply Forall_app. split; [apply le_split_bytes|done].
Qed.

Lemma load_field m a fs i n v :
  bytes_at m a (enc_fields fs) → fs !! i = Some (n, v) →
  load n (a + Z.of_nat (field_off fs i)) m = Ret (wrap (8 * Z.of_nat n) v) m.
Proof.
  revert a i. induction fs as [|[k w] fs IH]; intros a i Hb Hi; [done|].
  rewrite enc_fields_cons in Hb. apply bytes_at_app in Hb as [H1 H2]. rewrite length_le_split in H2.
  destruct i as [|i]; cbn in Hi; simplify_eq.
  - cbn. rewrite Z.add_0_r, (load_Ret m a (le_split n v) n); [|done|by rewrite length_le_split].
    by rewrite le_combine_split.
  - rewrite <- (IH (a + Z.of_nat k) i) by done. f_equal. unfold field_off. cbn. lia.
Qed.

(** The fields of a header fit their types. *)
Definition fits (fs : list (nat * Z)) : Prop :=
  Forall (λ '(n, v), 0 ≤ v < 2 ^ (8 * Z.of_nat n)) fs.

Record ehdr_wf (h : Elf64_Ehdr) : Prop := {
  ehdr_ident : length (e_ident h) = EI_NIDENT;
  ehdr_ident_bytes : bytes (e_ident h);
  ehdr_fits : fits (ehdr_fields h);
}.

Lemma load_fit m a fs i n v :
  fits fs → bytes_at m a (enc_fields fs) → fs !! i = Some (n, v) →
  load n (a + Z.of_nat (field_off fs i)) m = Ret v m.
Proof.
  intros Hf Hb Hi. rewrite (load_field m a fs i n v) by done.
  pose proof (Forall_lookup_1 _ _ _ _ Hf Hi) as Hv. cbn in Hv. by rewrite wrap_small.
Qed.

Lemma length_ehdr_bytes h : ehdr_wf h → length (ehdr_bytes h) = 64%nat.
Proof. intros [H _ _]. unfold ehdr_bytes. by rewrite length_app, H, length_enc_fields. Qed.

Lemma length_phdr_bytes p : length (phdr_bytes p) = 56%nat.
Proof. apply length_enc_fields. Qed.

Lemma ehdr_bytes_bytes h : ehdr_wf h → bytes (ehdr_bytes h).
Proof. intros [_ H _]. apply Forall_app. split; [done|]. apply enc_fields_bytes. Qed.

Section ehdr.
Context (h : Elf64_Ehdr) (m : mem) (a : Z).
Hypothesis wf : ehdr_wf h.
Hypothesis at_a : bytes_at m a (ehdr_bytes h).

Lemma ehdr_field i n v :
  ehdr_fields h !! i = Some (n, v) →
  load n (a + Z.of_nat (16 + field_off (ehdr_fields h) i)) m = Ret v m.
Proof.
  intros Hi. destruct wf as [Hl _ Hf]. apply bytes_at_app in at_a as [_ Hb]. rewrite Hl in Hb.
  rewrite <- (load_fit m _ _ i n v Hf Hb Hi). f_equal. unfold EI_NIDENT. lia.
Qed.

Lemma ld_e_ident_ok i b : e_ident h !! i = Some b → ld_e_ident a (Z.of_nat i) m = Ret b m.
Proof.
  intros Hi. apply load8_Ret. apply bytes_at_app in at_a as [Hb _]. by eapply bytes_at_lookup.
Qed.

Lemma ld_e_machine_ok : ld_e_machine a m = Ret (e_machine h) m.
Proof. exact (ehdr_field 1 2 _ eq_refl). Qed.
Lemma ld_e_entry_ok : ld_e_entry a m = Ret (e_entry h) m.
Proof. exact (ehdr_field 3 8 _ eq_refl). Qed.
Lemma ld_e_phoff_ok : ld_e_phoff a m = Ret (e_phoff h) m.
Proof. exact (ehdr_field 4 8 _ eq_refl). Qed.
Lemma ld_e_phentsize_ok : ld_e_phentsize a m = Ret (e_phentsize h) m.
Proof. exact (ehdr_field 8 2 _ eq_refl). Qed.
Lemma ld_e_phnum_ok : ld_e_phnum a m = Ret (e_phnum h) m.
Proof. exact (ehdr_field 9 2 _ eq_refl). Qed.
End ehdr.

Section phdr.
Context (p : Elf64_Phdr) (m : mem) (a : Z).
Hypothesis wf : fits (phdr_fields p).
Hypothesis at_a : bytes_at m a (phdr_bytes p).

Lemma ld_p_type_ok : ld_p_type a m = Ret (p_type p) m.
Proof. exact (load_fit m a _ 0 4 _ wf at_a eq_refl). Qed.
Lemma ld_p_offset_ok : ld_p_offset a m = Ret (p_offset p) m.
Proof. exact (load_fit m a _ 2 8 _ wf at_a eq_refl). Qed.
Lemma ld_p_vaddr_ok : ld_p_vaddr a m = Ret (p_vaddr p) m.
Proof. exact (load_fit m a _ 3 8 _ wf at_a eq_refl). Qed.
Lemma ld_p_filesz_ok : ld_p_filesz a m = Ret (p_filesz p) m.
Proof. exact (load_fit m a _ 5 8 _ wf at_a eq_refl). Qed.
End phdr.

(** ** Any 64 bytes are a header *)

(** The field of [n] bytes at offset [i]. *)
Definition field_at (bs : list Z) (i n : nat) : Z := le_combine (take n (drop i bs)).

Definition ehdr_of (bs : list Z) : Elf64_Ehdr := {|
  e_ident := take 16 bs; e_type := field_at bs 16 2; e_machine := field_at bs 18 2;
  e_version := field_at bs 20 4; e_entry := field_at bs 24 8; e_phoff := field_at bs 32 8;
  e_shoff := field_at bs 40 8; e_flags := field_at bs 48 4; e_ehsize := field_at bs 52 2;
  e_phentsize := field_at bs 54 2; e_phnum := field_at bs 56 2; e_shentsize := field_at bs 58 2;
  e_shnum := field_at bs 60 2; e_shstrndx := field_at bs 62 2;
|}.

Lemma length_field (bs : list Z) i n : (i + n ≤ length bs)%nat → length (take n (drop i bs)) = n.
Proof. intros H. rewrite length_take, length_drop. lia. Qed.

Lemma field_at_range bs i n :
  bytes bs → (i + n ≤ length bs)%nat → 0 ≤ field_at bs i n < 2 ^ (8 * Z.of_nat n).
Proof.
  intros Hb Hl. pose proof (le_combine_range (take n (drop i bs))) as H.
  rewrite length_field in H by done. by apply H, Forall_take, Forall_drop.
Qed.

Lemma split_field_at bs i n :
  bytes bs → (i + n ≤ length bs)%nat → le_split n (field_at bs i n) = take n (drop i bs).
Proof.
  intros Hb Hl. apply le_split_combine_n; [|by apply length_field]. by apply Forall_take, Forall_drop.
Qed.

(** The fields from offset [i] on, one after the other. *)
Lemma split_fields bs i n rest :
  bytes bs → (i + n ≤ length bs)%nat → rest = drop (i + n) bs →
  le_split n (field_at bs i n) ++ rest = drop i bs.
Proof.
  intros Hb Hl ->. rewrite split_field_at by done. rewrite <- drop_drop. apply take_drop.
Qed.

Lemma ehdr_of_wf bs : bytes bs → length bs = 64%nat → ehdr_wf (ehdr_of bs).
Proof.
  intros Hb Hl. constructor.
  - cbn [e_ident ehdr_of]. rewrite length_take, Hl. done.
  - by apply Forall_take.
  - repeat constructor; apply (field_at_range bs); (done || lia).
Qed.

Lemma ehdr_of_bytes bs : bytes bs → length bs = 64%nat → ehdr_bytes (ehdr_of bs) = bs.
Proof.
  intros Hb Hl. unfold ehdr_bytes.
  assert (enc_fields (ehdr_fields (ehdr_of bs)) = drop 16 bs) as ->; [|apply take_drop].
  unfold ehdr_fields, ehdr_of, enc_fields. cbn [flat_map e_type e_machine e_version e_entry e_phoff e_shoff
    e_flags e_ehsize e_phentsize e_phnum e_shentsize e_shnum e_shstrndx].
  repeat (apply split_fields; [done|lia|]). rewrite drop_ge; [done|lia].
Qed.
