(* ===== verification/ElfTables.v ===== *)
(** * The tables of an ELF file

    The structures of [elf64.h] and [elf_common.h] beside the headers of [Elf], with the
    layout C gives them: every field at the next multiple of its size, little-endian,
    the whole padded to the widest field.  The macros that pack two numbers into a
    field. *)
From S2P Require Import Prelude CMem Elf.

(** ** Types *)

Record ctype := CT { ct_size : nat; ct_signed : bool }.

Definition Elf64_Addr : ctype := CT 8 false.
Definition Elf64_Half : ctype := CT 2 false.
Definition Elf64_Off : ctype := CT 8 false.
Definition Elf64_Sword : ctype := CT 4 true.
Definition Elf64_Sxword : ctype := CT 8 true.
Definition Elf64_Word : ctype := CT 4 false.
Definition Elf64_Lword : ctype := CT 8 false.
Definition Elf64_Xword : ctype := CT 8 false.
Definition Elf64_Hashelt : ctype := Elf64_Word.
Definition Elf64_Size : ctype := Elf64_Xword.
Definition Elf64_Ssize : ctype := Elf64_Sxword.
Definition Elf64_Versym : ctype := Elf64_Half.
Definition uint32_t : ctype := CT 4 false.
Definition unsigned_char : ctype := CT 1 false.

Definition ct_bits (t : ctype) : Z := 8 * Z.of_nat (ct_size t).

(** The values of a type, and the value its bytes stand for. *)
Definition ct_ok (t : ctype) (v : Z) : Prop :=
  (0 < ct_size t)%nat ∧
  if ct_signed t then - 2 ^ (ct_bits t - 1) ≤ v < 2 ^ (ct_bits t - 1) else 0 ≤ v < 2 ^ ct_bits t.
Definition ct_value (t : ctype) (v : Z) : Z :=
  if ct_signed t && (2 ^ (ct_bits t - 1) <=? v) then v - 2 ^ ct_bits t else v.

Lemma ct_value_wrap t v : ct_ok t v → ct_value t (wrap (ct_bits t) v) = v.
Proof.
  intros [Hs Hv]. assert (0 < ct_bits t) as Hb by (unfold ct_bits; lia).
  unfold ct_value. destruct (ct_signed t); cbn [andb]; [|by apply wrap_small].
  assert (2 ^ ct_bits t = 2 * 2 ^ (ct_bits t - 1)) as E.
  { rewrite <- Z.pow_succ_r by lia. f_equal. lia. }
  destruct (decide (0 ≤ v)).
  - rewrite wrap_small by lia. by rewrite (proj2 (Z.leb_gt _ _)) by lia.
  - assert (wrap (ct_bits t) v = v + 2 ^ ct_bits t) as ->.
    { unfold wrap. rewrite <- (Z_mod_plus_full v 1), Z.mul_1_l. apply Z.mod_small. lia. }
    rewrite (proj2 (Z.leb_le _ _)) by lia. lia.
Qed.

(** ** Layout *)

Definition align_up (off n : nat) : nat := ((off + n - 1) / n * n)%nat.

(** Where the fields begin, and where the last one ends. *)
Fixpoint offsets (off : nat) (ts : list ctype) : list nat :=
  match ts with
  | [] => []
  | t :: ts => let o := align_up off (ct_size t) in o :: offsets (o + ct_size t) ts
  end.
Fixpoint fields_end (off : nat) (ts : list ctype) : nat :=
  match ts with
  | [] => off
  | t :: ts => fields_end (align_up off (ct_size t) + ct_size t) ts
  end.

Definition sizeof (ts : list ctype) : nat :=
  align_up (fields_end 0 ts) (foldr Nat.max 1%nat (ct_size <$> ts)).

(** The fields of a structure at [a], from offset [off] on. *)
Fixpoint store_fields (a : Z) (off : nat) (ts : list ctype) (vs : list Z) : M mem unit :=
  match ts, vs with
  | t :: ts, v :: vs =>
      let o := align_up off (ct_size t) in
      store (ct_size t) (a + Z.of_nat o) v;;
      store_fields a (o + ct_size t) ts vs
  | _, _ => mret tt
  end.
Fixpoint load_fields (a : Z) (off : nat) (ts : list ctype) : M mem (list Z) :=
  match ts with
  | [] => mret []
  | t :: ts =>
      let o := align_up off (ct_size t) in
      v ← load (ct_size t) (a + Z.of_nat o);
      vs ← load_fields a (o + ct_size t) ts;
      mret (ct_value t v :: vs)
  end.

Lemma align_up_le off n : (0 < n)%nat → (off ≤ align_up off n)%nat.
Proof.
  intros Hn. unfold align_up. pose proof (Nat.div_mod_eq (off + n - 1) n). pose proof (Nat.mod_upper_bound (off + n - 1) n). lia.
Qed.

Lemma fields_end_le off ts : Forall (λ t, 0 < ct_size t)%nat ts → (off ≤ fields_end off ts)%nat.
Proof.
  intros H. revert off. induction H as [|t ts Ht _ IH]; intros off; [done|]. cbn [fields_end].
  specialize (IH (align_up off (ct_size t) + ct_size t)%nat). pose proof (align_up_le off _ Ht). lia.
Qed.

(** Stored fields are read back, and nothing outside them changes. *)
Lemma fields_roundtrip a off ts vs m :
  Forall2 ct_ok ts vs → (∀ i, Z.of_nat off ≤ i < Z.of_nat (fields_end off ts) → ∃ b, m !! (a + i) = Some b) →
  ∃ m', store_fields a off ts vs m = Ret tt m' ∧ load_fields a off ts m' = Ret vs m' ∧
    ∀ b, b < a + Z.of_nat off ∨ a + Z.of_nat (fields_end off ts) ≤ b → m' !! b = m !! b.
Proof.
  intros H. revert off m. induction H as [|t v ts vs Ht Hts IH]; intros off m Hm; [by exists m|].
  cbn [store_fields load_fields fields_end] in *. set (o := align_up off (ct_size t)) in *.
  assert (Forall (λ t, 0 < ct_size t)%nat ts) as Hpos.
  { clear -Hts. induction Hts as [|t v ts vs [? _] _ IH]; by constructor. }
  pose proof (fields_end_le (o + ct_size t) ts Hpos) as He. pose proof (align_up_le off _ (proj1 Ht)) as Ho. fold o in Ho.
  assert (mapped m (a + Z.of_nat o) (ct_size t)) as Hmap.
  { apply mapped_intro. intros i Hi. rewrite <- Z.add_assoc. apply Hm. lia. }
  rewrite (bind_Ret _ _ _ _ _ (store_Ret m (a + Z.of_nat o) (ct_size t) v Hmap)). set (m1 := write_bytes _ _ m).
  destruct (IH (o + ct_size t)%nat m1) as (m2 & E2 & L2 & F2).
  { intros i Hi. unfold m1. rewrite lookup_write_bytes_out by (rewrite length_le_split; lia). apply Hm. lia. }
  exists m2. split; [exact E2|]. split.
  - assert (bytes_at m2 (a + Z.of_nat o) (le_split (ct_size t) v)) as Hb.
    { apply bytes_at_intro. intros i b Hi. apply lookup_lt_Some in Hi as Hl. rewrite length_le_split in Hl.
      rewrite F2 by lia. unfold m1. rewrite lookup_write_bytes_in; [done|]. by rewrite length_le_split. }
    rewrite (bind_Ret _ _ _ _ _ (load_Ret m2 _ _ _ Hb (length_le_split _ _))), (bind_Ret _ _ _ _ _ L2), le_combine_split.
    fold (ct_bits t). by rewrite ct_value_wrap.
  - intros b Hb. rewrite F2 by lia. unfold m1. rewrite lookup_write_bytes_out; [done|]. rewrite length_le_split. lia.
Qed.

(** ** Structures *)

(** A structure: the types of its fields, and their values. *)
Class CStruct (A : Type) := {
  c_types : list ctype;
  c_values : A → list Z;
  c_make : list Z → option A;
  c_make_values x : c_make (c_values x) = Some x;
}.
Arguments c_types A {_}.

Definition store_struct {A} `{!CStruct A} (a : Z) (x : A) : M mem unit := store_fields a 0 (c_types A) (c_values x).
Definition load_struct {A} `{!CStruct A} (a : Z) : M mem (option A) :=
  vs ← load_fields a 0 (c_types A); mret (c_make vs).

(** Every field has a value of its type. *)
Definition well_typed {A} `{!CStruct A} (x : A) : Prop := Forall2 ct_ok (c_types A) (c_values x).

Lemma struct_store_load {A} `{!CStruct A} (a : Z) (x : A) m :
  well_typed x → mapped m a (sizeof (c_types A)) →
  ∃ m', store_struct a x m = Ret tt m' ∧ load_struct a m' = Ret (Some x) m' ∧
    ∀ b, b < a ∨ a + Z.of_nat (sizeof (c_types A)) ≤ b → m' !! b = m !! b.
Proof.
  intros Hx Hm.
  assert (fields_end 0 (c_types A) ≤ sizeof (c_types A))%nat as Hs.
  { apply align_up_le. generalize (c_types A). intros ts. induction ts as [|t ts IH]; csimpl; lia. }
  destruct (fields_roundtrip a 0 (c_types A) (c_values x) m Hx) as (m' & E & L & F).
  { intros i Hi. apply (mapped_lookup _ _ _ _ Hm). lia. }
  exists m'. split; [done|]. split.
  - unfold load_struct. by rewrite (bind_Ret _ _ _ _ _ L), c_make_values.
  - intros b Hb. apply F. lia.
Qed.

Record Elf_Note := MkElf_Note { n_namesz : Z; n_descsz : Z; n_type : Z }.
#[export] Instance elf_note_struct : CStruct Elf_Note := {|
  c_types := [uint32_t; uint32_t; uint32_t];
  c_values n := [n_namesz n; n_descsz n; n_type n];
  c_make vs := match vs with [v0; v1; v2] => Some (MkElf_Note v0 v1 v2) | _ => None end;
  c_make_values x := match x with MkElf_Note _ _ _ => eq_refl end;
|}.

Record Elf_GNU_Hash_Header := MkElf_GNU_Hash_Header { gh_nbuckets : Z; gh_symndx : Z; gh_maskwords : Z; gh_shift2 : Z }.
#[export] Instance elf_gnu_hash_header_struct : CStruct Elf_GNU_Hash_Header := {|
  c_types := [uint32_t; uint32_t; uint32_t; uint32_t];
  c_values g := [gh_nbuckets g; gh_symndx g; gh_maskwords g; gh_shift2 g];
  c_make vs := match vs with [v0; v1; v2; v3] => Some (MkElf_GNU_Hash_Header v0 v1 v2 v3) | _ => None end;
  c_make_values x := match x with MkElf_GNU_Hash_Header _ _ _ _ => eq_refl end;
|}.

Record Elf64_Shdr := MkElf64_Shdr { sh_name : Z; sh_type : Z; sh_flags : Z; sh_addr : Z; sh_offset : Z; sh_size : Z; sh_link : Z; sh_info : Z; sh_addralign : Z; sh_entsize : Z }.
#[export] Instance elf64_shdr_struct : CStruct Elf64_Shdr := {|
  c_types := [Elf64_Word; Elf64_Word; Elf64_Xword; Elf64_Addr; Elf64_Off; Elf64_Xword; Elf64_Word; Elf64_Word; Elf64_Xword; Elf64_Xword];
  c_values s := [sh_name s; sh_type s; sh_flags s; sh_addr s; sh_offset s; sh_size s; sh_link s; sh_info s; sh_addralign s; sh_entsize s];
  c_make vs := match vs with [v0; v1; v2; v3; v4; v5; v6; v7; v8; v9] => Some (MkElf64_Shdr v0 v1 v2 v3 v4 v5 v6 v7 v8 v9) | _ => None end;
  c_make_values x := match x with MkElf64_Shdr _ _ _ _ _ _ _ _ _ _ => eq_refl end;
|}.

Record Elf64_Dyn := MkElf64_Dyn { d_tag : Z; d_un : Z }.
#[export] Instance elf64_dyn_struct : CStruct Elf64_Dyn := {|
  c_types := [Elf64_Sxword; Elf64_Xword];
  c_values d := [d_tag d; d_un d];
  c_make vs := match vs with [v0; v1] => Some (MkElf64_Dyn v0 v1) | _ => None end;
  c_make_values x := match x with MkElf64_Dyn _ _ => eq_refl end;
|}.
(** The members of the union. *)
Definition d_val (d : Elf64_Dyn) : Z := d_un d.
Definition d_ptr (d : Elf64_Dyn) : Z := d_un d.

Record Elf64_Rel := MkElf64_Rel { r_offset : Z; r_info : Z }.
#[export] Instance elf64_rel_struct : CStruct Elf64_Rel := {|
  c_types := [Elf64_Addr; Elf64_Xword];
  c_values r := [r_offset r; r_info r];
  c_make vs := match vs with [v0; v1] => Some (MkElf64_Rel v0 v1) | _ => None end;
  c_make_values x := match x with MkElf64_Rel _ _ => eq_refl end;
|}.

(** The fields of the source have the names of those of [Elf64_Rel]. *)
Record Elf64_Rela := MkElf64_Rela { ra_offset : Z; ra_info : Z; ra_addend : Z }.
#[export] Instance elf64_rela_struct : CStruct Elf64_Rela := {|
  c_types := [Elf64_Addr; Elf64_Xword; Elf64_Sxword];
  c_values r := [ra_offset r; ra_info r; ra_addend r];
  c_make vs := match vs with [v0; v1; v2] => Some (MkElf64_Rela v0 v1 v2) | _ => None end;
  c_make_values x := match x with MkElf64_Rela _ _ _ => eq_refl end;
|}.

Record Elf64_Move := MkElf64_Move { m_value : Z; m_info : Z; m_poffset : Z; m_repeat : Z; m_stride : Z }.
#[export] Instance elf64_move_struct : CStruct Elf64_Move := {|
  c_types := [Elf64_Lword; Elf64_Xword; Elf64_Xword; Elf64_Half; Elf64_Half];
  c_values m := [m_value m; m_info m; m_poffset m; m_repeat m; m_stride m];
  c_make vs := match vs with [v0; v1; v2; v3; v4] => Some (MkElf64_Move v0 v1 v2 v3 v4) | _ => None end;
  c_make_values x := match x with MkElf64_Move _ _ _ _ _ => eq_refl end;
|}.

Record Elf64_Cap := MkElf64_Cap { c_tag : Z; c_un : Z }.
#[export] Instance elf64_cap_struct : CStruct Elf64_Cap := {|
  c_types := [Elf64_Xword; Elf64_Xword];
  c_values c := [c_tag c; c_un c];
  c_make vs := match vs with [v0; v1] => Some (MkElf64_Cap v0 v1) | _ => None end;
  c_make_values x := match x with MkElf64_Cap _ _ => eq_refl end;
|}.
Definition c_val (c : Elf64_Cap) : Z := c_un c.
Definition c_ptr (c : Elf64_Cap) : Z := c_un c.

Record Elf64_Sym := MkElf64_Sym { st_name : Z; st_info : Z; st_other : Z; st_shndx : Z; st_value : Z; st_size : Z }.
#[export] Instance elf64_sym_struct : CStruct Elf64_Sym := {|
  c_types := [Elf64_Word; unsigned_char; unsigned_char; Elf64_Half; Elf64_Addr; Elf64_Xword];
  c_values s := [st_name s; st_info s; st_other s; st_shndx s; st_value s; st_size s];
  c_make vs := match vs with [v0; v1; v2; v3; v4; v5] => Some (MkElf64_Sym v0 v1 v2 v3 v4 v5) | _ => None end;
  c_make_values x := match x with MkElf64_Sym _ _ _ _ _ _ => eq_refl end;
|}.

Record Elf64_Verdef := MkElf64_Verdef { vd_version : Z; vd_flags : Z; vd_ndx : Z; vd_cnt : Z; vd_hash : Z; vd_aux : Z; vd_next : Z }.
#[export] Instance elf64_verdef_struct : CStruct Elf64_Verdef := {|
  c_types := [Elf64_Half; Elf64_Half; Elf64_Half; Elf64_Half; Elf64_Word; Elf64_Word; Elf64_Word];
  c_values v := [vd_version v; vd_flags v; vd_ndx v; vd_cnt v; vd_hash v; vd_aux v; vd_next v];
  c_make vs := match vs with [v0; v1; v2; v3; v4; v5; v6] => Some (MkElf64_Verdef v0 v1 v2 v3 v4 v5 v6) | _ => None end;
  c_make_values x := match x with MkElf64_Verdef _ _ _ _ _ _ _ => eq_refl end;
|}.

Record Elf64_Verdaux := MkElf64_Verdaux { vda_name : Z; vda_next : Z }.
#[export] Instance elf64_verdaux_struct : CStruct Elf64_Verdaux := {|
  c_types := [Elf64_Word; Elf64_Word];
  c_values v := [vda_name v; vda_next v];
  c_make vs := match vs with [v0; v1] => Some (MkElf64_Verdaux v0 v1) | _ => None end;
  c_make_values x := match x with MkElf64_Verdaux _ _ => eq_refl end;
|}.

Record Elf64_Verneed := MkElf64_Verneed { vn_version : Z; vn_cnt : Z; vn_file : Z; vn_aux : Z; vn_next : Z }.
#[export] Instance elf64_verneed_struct : CStruct Elf64_Verneed := {|
  c_types := [Elf64_Half; Elf64_Half; Elf64_Word; Elf64_Word; Elf64_Word];
  c_values v := [vn_version v; vn_cnt v; vn_file v; vn_aux v; vn_next v];
  c_make vs := match vs with [v0; v1; v2; v3; v4] => Some (MkElf64_Verneed v0 v1 v2 v3 v4) | _ => None end;
  c_make_values x := match x with MkElf64_Verneed _ _ _ _ _ => eq_refl end;
|}.

Record Elf64_Vernaux := MkElf64_Vernaux { vna_hash : Z; vna_flags : Z; vna_other : Z; vna_name : Z; vna_next : Z }.
#[export] Instance elf64_vernaux_struct : CStruct Elf64_Vernaux := {|
  c_types := [Elf64_Word; Elf64_Half; Elf64_Half; Elf64_Word; Elf64_Word];
  c_values v := [vna_hash v; vna_flags v; vna_other v; vna_name v; vna_next v];
  c_make vs := match vs with [v0; v1; v2; v3; v4] => Some (MkElf64_Vernaux v0 v1 v2 v3 v4) | _ => None end;
  c_make_values x := match x with MkElf64_Vernaux _ _ _ _ _ => eq_refl end;
|}.

Record Elf64_Syminfo := MkElf64_Syminfo { si_boundto : Z; si_flags : Z }.
#[export] Instance elf64_syminfo_struct : CStruct Elf64_Syminfo := {|
  c_types := [Elf64_Half; Elf64_Half];
  c_values s := [si_boundto s; si_flags s];
  c_make vs := match vs with [v0; v1] => Some (MkElf64_Syminfo v0 v1) | _ => None end;
  c_make_values x := match x with MkElf64_Syminfo _ _ => eq_refl end;
|}.

(** The program header of [Elf]. *)
#[export] Instance elf64_phdr_struct : CStruct Elf64_Phdr := {|
  c_types := [Elf64_Word; Elf64_Word; Elf64_Off; Elf64_Addr; Elf64_Addr; Elf64_Xword; Elf64_Xword; Elf64_Xword];
  c_values p := [p_type p; p_flags p; p_offset p; p_vaddr p; p_paddr p; p_filesz p; p_memsz p; p_align p];
  c_make vs := match vs with [v0; v1; v2; v3; v4; v5; v6; v7] => Some (Build_Elf64_Phdr v0 v1 v2 v3 v4 v5 v6 v7) | _ => None end;
  c_make_values x := match x with Build_Elf64_Phdr _ _ _ _ _ _ _ _ => eq_refl end;
|}.

Abbreviation Elf64_Nhdr := Elf_Note.

(** Its bytes are those of [Elf]: the layout has no padding. *)
Lemma phdr_layout p : c_values p = (phdr_fields p).*2 ∧ ct_size <$> c_types Elf64_Phdr = (phdr_fields p).*1.
Proof. done. Qed.

(** ** Packed fields *)

Definition ELF64_R_SYM (info : Z) : Z := Z.shiftr info 32.
Definition ELF64_R_TYPE (info : Z) : Z := Z.land info 0xffffffff.
Definition ELF64_R_INFO (sym type : Z) : Z := u64 (u64 (Z.shiftl sym 32) + Z.land type 0xffffffff).
Definition ELF64_R_TYPE_DATA (info : Z) : Z := Z.shiftr (u64 (Z.shiftl (u64 info) 32)) 40.
Definition ELF64_R_TYPE_ID (info : Z) : Z := Z.shiftr (u64 (Z.shiftl (u64 info) 56)) 56.
Definition ELF64_R_TYPE_INFO (data type : Z) : Z := u64 (u64 (Z.shiftl (u64 data) 8) + u64 type).
Definition ELF64_M_SYM (info : Z) : Z := Z.shiftr info 8.
Definition ELF64_M_SIZE (info : Z) : Z := u8 info.
Definition ELF64_M_INFO (sym size : Z) : Z := u64 (u64 (Z.shiftl sym 8) + u8 size).
Definition ELF64_ST_BIND (info : Z) : Z := Z.shiftr info 4.
Definition ELF64_ST_TYPE (info : Z) : Z := Z.land info 0xf.
Definition ELF64_ST_INFO (bind type : Z) : Z := Z.shiftl bind 4 + Z.land type 0xf.
Definition ELF64_ST_VISIBILITY (oth : Z) : Z := Z.land oth 0x3.

(** Two numbers side by side. *)
Lemma packed k hi lo : 0 ≤ k → 0 ≤ lo < 2 ^ k →
  Z.shiftr (Z.shiftl hi k + lo) k = hi ∧ wrap k (Z.shiftl hi k + lo) = lo.
Proof.
  intros Hk Hlo. rewrite Z.shiftl_mul_pow2, Z.shiftr_div_pow2 by done. unfold wrap. split.
  - rewrite Z.add_comm, Z.div_add, Z.div_small by lia. lia.
  - rewrite Z.add_comm, Z_mod_plus_full. by apply Z.mod_small.
Qed.

Lemma r_info_fields sym type : 0 ≤ sym < 2 ^ 32 →
  ELF64_R_SYM (ELF64_R_INFO sym type) = sym ∧ ELF64_R_TYPE (ELF64_R_INFO sym type) = wrap 32 type.
Proof.
  intros Hs. unfold ELF64_R_SYM, ELF64_R_TYPE, ELF64_R_INFO. change 0xffffffff with (Z.ones 32). rewrite !Z.land_ones by lia.
  fold (wrap 32 type). fold (wrap 32 (u64 (u64 (Z.shiftl sym 32) + wrap 32 type))). pose proof (wrap_range 32 type ltac:(lia)) as Ht.
  assert (0 ≤ Z.shiftl sym 32 < 2 ^ 64 - 2 ^ 32 + 1) by (rewrite Z.shiftl_mul_pow2; lia).
  rewrite (wrap_small 64 (Z.shiftl sym 32)), wrap_small by lia. by apply packed.
Qed.

Lemma r_info_whole info : 0 ≤ info < 2 ^ 64 → ELF64_R_INFO (ELF64_R_SYM info) (ELF64_R_TYPE info) = info.
Proof.
  intros Hi. unfold ELF64_R_SYM, ELF64_R_TYPE, ELF64_R_INFO. change 0xffffffff with (Z.ones 32). rewrite !Z.land_ones, Zmod_mod by lia.
  rewrite Z.shiftr_div_pow2, Z.shiftl_mul_pow2 by lia. pose proof (Z.div_mod info (2 ^ 32) ltac:(lia)).
  pose proof (Z.mod_pos_bound info (2 ^ 32) ltac:(lia)). rewrite (wrap_small 64 (_ * _)), wrap_small by lia. lia.
Qed.

Lemma r_type_fields data type : 0 ≤ data < 2 ^ 24 → 0 ≤ type < 2 ^ 8 →
  ELF64_R_TYPE_DATA (ELF64_R_TYPE_INFO data type) = data ∧ ELF64_R_TYPE_ID (ELF64_R_TYPE_INFO data type) = type.
Proof.
  intros Hd Ht. unfold ELF64_R_TYPE_DATA, ELF64_R_TYPE_ID, ELF64_R_TYPE_INFO.
  rewrite !Z.shiftl_mul_pow2, !Z.shiftr_div_pow2 by lia. rewrite (wrap_small 64 data), (wrap_small 64 type), (wrap_small 64 (data * _)) by lia.
  rewrite !(wrap_small 64 (data * 2 ^ 8 + type)) by lia. split.
  - rewrite wrap_small by lia. replace ((data * 2 ^ 8 + type) * 2 ^ 32) with (data * 2 ^ 40 + type * 2 ^ 32) by lia.
    rewrite Z.div_add_l, Z.div_small by lia. lia.
  - unfold wrap. replace ((data * 2 ^ 8 + type) * 2 ^ 56) with (type * 2 ^ 56 + data * 2 ^ 64) by lia.
    rewrite Z_mod_plus_full, Z.mod_small by lia. by rewrite Z.div_mul.
Qed.

Lemma m_info_fields sym size : 0 ≤ sym < 2 ^ 56 →
  ELF64_M_SYM (ELF64_M_INFO sym size) = sym ∧ ELF64_M_SIZE (ELF64_M_INFO sym size) = u8 size.
Proof.
  intros Hs. unfold ELF64_M_SYM, ELF64_M_SIZE, ELF64_M_INFO. pose proof (wrap_range 8 size ltac:(lia)) as Ht.
  assert (0 ≤ Z.shiftl sym 8 < 2 ^ 64 - 2 ^ 8 + 1) by (rewrite Z.shiftl_mul_pow2; lia).
  rewrite (wrap_small 64 (Z.shiftl sym 8)), (wrap_small 64 (_ + _)) by lia. by apply packed.
Qed.

Lemma st_info_fields bind type : ELF64_ST_BIND (ELF64_ST_INFO bind type) = bind ∧ ELF64_ST_TYPE (ELF64_ST_INFO bind type) = wrap 4 type.
Proof.
  unfold ELF64_ST_BIND, ELF64_ST_TYPE, ELF64_ST_INFO. change 0xf with (Z.ones 4). rewrite !Z.land_ones by lia.
  apply packed; [lia|]. apply Z.mod_pos_bound. lia.
Qed.
