(* ===== verification/Boot.v ===== *)
(** * The boot firmware

    [litedram/gen-src/sdram_init/main.c]: it identifies the SPI flash and
    switches it to quad mode, then boots from BRAM, from an ELF image in flash
    or from the payload that was loaded beside it.  The flash is also mapped
    into the address space ([FLASH_LOADER_USE_MAP]), and [fl_read] copies from
    there; this is the byte memory of the [machine].  The locals [ehdr] and [ph]
    of [boot_flash] lie at the addresses of a [boot_frame].

    [sdram_init] and [ddrctrl_init_done_read] are generated by LiteDRAM and not
    part of the sources: they are parameters of [main]. *)
From S2P Require Import Prelude CMem LibMem LibStr Soc Io Console Printf PrintfSpec Fw Elf.

Definition ULONG_MAX : Z := 2 ^ 64 - 1.

Definition SPI_CMD_RDID : Z := 0x9f.
Definition SPI_CMD_QUAD_FREAD : Z := 0x6b.
Definition SPI_CMD_QUAD_FREAD_4BA : Z := 0x6c.
Definition SPI_CMD_RDCR : Z := 0x35.
Definition SPI_CMD_WREN : Z := 0x06.
Definition SPI_CMD_RDSR : Z := 0x05.
Definition SPI_CMD_WWR : Z := 0x01.

(** A literal that ends in a newline. *)
Definition ln (s : String.string) : list Z := lit s ++ [10].

Record boot_frame := { ehdr_at : Z; ph_at : Z }.

(** ** The messages *)

Definition msg_trying := ln "Trying flash...".
Definition msg_not_elf := ln "Doesn't look like an elf64".
Definition msg_not_ppc := ln "Not a ppc64le binary".
Definition msg_copy := ln "Copy segment %d (0x%x bytes) to %p".
Definition msg_boot := ln "Booting from DRAM at %x".
Definition msg_hdr := ln "HDR: %02x %02x %02x %02x %02x %02x %02x %02x".
Definition msg_payload := ln "Copying payload to DRAM...".
Definition msg_boot_sdram := ln "Booting from DRAM...".
Definition msg_cf1 := lit " Cypress/Spansion (CF1=%02x)".
Definition msg_enabling := lit "  enabling QUAD".
Definition msg_enabling_quad := lit " [enabling quad]".
Definition msg_id := lit "  SPI FLASH ID: %02x%02x%02x".
Definition msg_micron := lit " Micron".
Definition msg_issi := lit " ISSI".
Definition msg_quad := lit " [quad IO mode]".
Definition msg_nl : list Z := [10].
Definition msg_welcome := [10; 10] ++ ln "Welcome to Microwatt !" ++ [10].
Definition msg_sig := ln " Soc signature: %016llx".
Definition msg_features := lit "  Soc features: ".
Definition msg_uart := lit "UART ".
Definition msg_dram := lit "DRAM ".
Definition msg_bram := lit "BRAM ".
Definition msg_spiflash := lit "SPIFLASH ".
Definition msg_ethernet := lit "ETHERNET ".
Definition msg_sdcard := lit "SDCARD ".
Definition msg_bram_kb := ln "          BRAM: %ld KB".
Definition msg_dram_mb := ln "          DRAM: %ld MB".
Definition msg_dram_init := ln "     DRAM INIT: %ld KB".
Definition msg_clk := ln "           CLK: %ld MHz".
Definition msg_fl_off := ln " SPI FLASH OFF: 0x%x bytes".
Definition msg_litex := ln "LiteDRAM built from LiteX %s".
Definition msg_boot_bram := ln "Booting from BRAM...".

(** Every format string of the program. *)
Definition boot_formats : list (list Z) :=
  [msg_trying; msg_not_elf; msg_not_ppc; msg_copy; msg_boot; msg_hdr; msg_payload;
   msg_boot_sdram; msg_cf1; msg_enabling; msg_enabling_quad; msg_id; msg_micron; msg_issi;
   msg_quad; msg_nl; msg_welcome; msg_sig; msg_features; msg_uart; msg_dram; msg_bram;
   msg_spiflash; msg_ethernet; msg_sdcard; msg_bram_kb; msg_dram_mb; msg_dram_init; msg_clk;
   msg_fl_off; msg_litex; msg_boot_bram].

Section boot.
Context {D : Type} `{!Bus D, !Printf D} (u : uart_state).
Abbreviation MM := (M (machine D)).

Definition print (fmt args : list Z) : MM unit := printf u fmt args;; mret tt.

Definition flush_cpu_dcache : MM unit := mret tt.
(** [icbi 0,0; isync]: no effect on the memory or the devices. *)
Definition flush_cpu_icache : MM unit := mret tt.

(** ** The SPI flash *)

Definition fl_cs_on : MM unit := writeb SPI_REG_CTRL_MANUAL_CS (SPI_FCTRL_BASE + SPI_REG_CTRL).
Definition fl_cs_off : MM unit := writeb 0 (SPI_FCTRL_BASE + SPI_REG_CTRL).

Fixpoint wait_wip (fuel : nat) : MM unit :=
  match fuel with
  | O => out_of_fuel
  | S fuel =>
      fl_cs_on;;
      writeb SPI_CMD_RDSR (SPI_FCTRL_BASE + SPI_REG_DATA);;
      sr ← readb (SPI_FCTRL_BASE + SPI_REG_DATA);
      fl_cs_off;;
      if Z.land sr 1 =? 0 then mret tt else wait_wip fuel
  end.

Definition send_wren : MM unit :=
  fl_cs_on;;
  writeb SPI_CMD_WREN (SPI_FCTRL_BASE + SPI_REG_DATA);;
  fl_cs_off.

Definition check_spansion_quad_mode (fuel : nat) : MM unit :=
  writeb SPI_CMD_RDCR (SPI_FCTRL_BASE + SPI_REG_DATA);;
  fl_cs_on;;
  writeb SPI_CMD_RDCR (SPI_FCTRL_BASE + SPI_REG_DATA);;
  cf1 ← readb (SPI_FCTRL_BASE + SPI_REG_DATA);
  fl_cs_off;;
  print msg_cf1 [cf1];;
  if tst cf1 0x02 then mret tt else
  print msg_enabling [];;
  send_wren;;
  fl_cs_on;;
  writeb SPI_CMD_WWR (SPI_FCTRL_BASE + SPI_REG_DATA);;
  writeb 0x00 (SPI_FCTRL_BASE + SPI_REG_DATA);;
  writeb (Z.lor cf1 0x02) (SPI_FCTRL_BASE + SPI_REG_DATA);;
  writeb 0 (SPI_FCTRL_BASE + SPI_REG_CTRL);;
  fl_cs_off;;
  wait_wip fuel.

Definition issi_autocfg : Z :=
  Z.lor (Z.lor (Z.lor (Z.lor SPI_CMD_QUAD_FREAD_4BA
    (Z.shiftl 0x07 SPI_REG_AUTO_CFG_DUMMIES_SHIFT))
    SPI_REG_AUT_CFG_MODE_QUAD) SPI_REG_AUTO_CFG_ADDR4)
    (Z.shiftl 0x20 SPI_REG_AUTO_CFG_CSTOUT_SHIFT).

Definition check_enable_issi_quad (fuel : nat) : MM Z :=
  fl_cs_on;;
  writeb SPI_CMD_RDSR (SPI_FCTRL_BASE + SPI_REG_DATA);;
  sr ← readb (SPI_FCTRL_BASE + SPI_REG_DATA);
  fl_cs_off;;
  (if Z.land sr 0x40 =? 0 then
     print msg_enabling_quad [];;
     send_wren;;
     fl_cs_on;;
     writeb SPI_CMD_WWR (SPI_FCTRL_BASE + SPI_REG_DATA);;
     writeb (Z.lor sr 0x40) (SPI_FCTRL_BASE + SPI_REG_DATA);;
     fl_cs_off;;
     wait_wip fuel
   else mret tt);;
  mret issi_autocfg.

Definition default_autocfg : Z :=
  Z.lor (Z.lor (Z.lor SPI_CMD_QUAD_FREAD
    (Z.shiftl 0x07 SPI_REG_AUTO_CFG_DUMMIES_SHIFT))
    SPI_REG_AUT_CFG_MODE_QUAD)
    (Z.shiftl 0x20 SPI_REG_AUTO_CFG_CSTOUT_SHIFT).

Definition check_flash (fuel : nat) : MM bool :=
  let quad := false in
  let autocfg := default_autocfg in
  fl_cs_on;;
  writeb SPI_CMD_RDID (SPI_FCTRL_BASE + SPI_REG_DATA);;
  id0 ← readb (SPI_FCTRL_BASE + SPI_REG_DATA);
  id1 ← readb (SPI_FCTRL_BASE + SPI_REG_DATA);
  id2 ← readb (SPI_FCTRL_BASE + SPI_REG_DATA);
  fl_cs_off;;
  print msg_id [id0; id1; id2];;
  if (Z.lor (Z.lor id0 id1) id2 =? 0) || (Z.land (Z.land id0 id1) id2 =? 0xff)
  then mret false else
  quad ← (if (id0 =? 0x01) && ((id1 =? 0x02) || (id1 =? 0x20) || (id1 =? 0x60)) &&
             ((id2 =? 0x18) || (id2 =? 0x19))
          then check_spansion_quad_mode fuel;; mret true else mret quad);
  quad ← (if (id0 =? 0x20) && (id1 =? 0xba) && (id2 =? 0x18)
          then print msg_micron [];; mret true else mret quad);
  '(autocfg, quad) ←
    (if (id0 =? 0x9d) && (Z.land id1 (Z.lnot 0x10) =? 0x60) && (id2 =? 0x19)
     then print msg_issi [];; a ← check_enable_issi_quad fuel; mret (a, true)
     else mret (autocfg, quad));
  (if (quad : bool) then
     print msg_quad [];;
     cfg ← readl (SPI_FCTRL_BASE + SPI_REG_AUTO_CFG);
     let cfg := Z.land cfg SPI_REG_AUTO_CFG_CKDIV_MASK in
     let cfg := Z.lor cfg autocfg in
     writel cfg (SPI_FCTRL_BASE + SPI_REG_AUTO_CFG)
   else mret tt);;
  print msg_nl [];;
  mret true.

(** ** Loading an image *)

(** [SPI_FLASH_BASE + offset] is computed in 32 bits. *)
Definition fl_read (dst offset size : Z) : MM bool :=
  in_ram (memcpy dst (u32 (SPI_FLASH_BASE + offset)) size);;
  mret true.

(** The code at the label [dump]. *)
Definition boot_dump (f : boot_frame) : MM Z :=
  b0 ← in_ram (ld_e_ident (ehdr_at f) 0);
  b1 ← in_ram (ld_e_ident (ehdr_at f) 1);
  b2 ← in_ram (ld_e_ident (ehdr_at f) 2);
  b3 ← in_ram (ld_e_ident (ehdr_at f) 3);
  b4 ← in_ram (ld_e_ident (ehdr_at f) 4);
  b5 ← in_ram (ld_e_ident (ehdr_at f) 5);
  b6 ← in_ram (ld_e_ident (ehdr_at f) 6);
  b7 ← in_ram (ld_e_ident (ehdr_at f) 7);
  print msg_hdr [b0; b1; b2; b3; b4; b5; b6; b7];;
  mret ULONG_MAX.

(** The loop over the program headers; [false] is [goto dump].  The
    [continue] for other segments skips the step to the next header. *)
Fixpoint boot_segments (fuel : nat) (f : boot_frame) (offset i poff : Z) : MM bool :=
  match fuel with
  | O => out_of_fuel
  | S fuel =>
      phnum ← in_ram (ld_e_phnum (ehdr_at f));
      if i <? phnum then
        ok ← fl_read (ph_at f) poff sizeof_phdr;
        if negb ok then mret false else
        ty ← in_ram (ld_p_type (ph_at f));
        if negb (ty =? PT_LOAD) then boot_segments fuel f offset (u32 (i + 1)) poff else
        filesz ← in_ram (ld_p_filesz (ph_at f));
        let size := u32 filesz in
        addr ← in_ram (ld_p_vaddr (ph_at f));
        p_off ← in_ram (ld_p_offset (ph_at f));
        let off := u32 (offset + p_off) in
        print msg_copy [i; size; addr];;
        fl_read addr off size;;
        phentsize ← in_ram (ld_e_phentsize (ehdr_at f));
        boot_segments fuel f offset (u32 (i + 1)) (u32 (poff + phentsize))
      else mret true
  end.

Definition boot_flash (fuel : nat) (f : boot_frame) (offset : Z) : MM Z :=
  print msg_trying [];;
  ok ← fl_read (ehdr_at f) offset sizeof_ehdr;
  if negb ok then mret ULONG_MAX else
  is_elf ← in_ram (IS_ELF (ehdr_at f));
  is_64 ← (if (is_elf : bool) then
             c ← in_ram (ld_e_ident (ehdr_at f) EI_CLASS); mret (c =? ELFCLASS64)
           else mret false);
  if negb is_64 then print msg_not_elf [];; boot_dump f else
  data ← in_ram (ld_e_ident (ehdr_at f) EI_DATA);
  is_ppc ← (if data =? ELFDATA2LSB then
              mach ← in_ram (ld_e_machine (ehdr_at f)); mret (mach =? EM_PPC64)
            else mret false);
  if negb is_ppc then print msg_not_ppc [];; boot_dump f else
  phoff ← in_ram (ld_e_phoff (ehdr_at f));
  let poff := u32 (offset + phoff) in
  ok ← boot_segments fuel f offset 0 poff;
  if negb ok then boot_dump f else
  entry ← in_ram (ld_e_entry (ehdr_at f));
  print msg_boot [u32 entry];;
  flush_cpu_icache;;
  entry ← in_ram (ld_e_entry (ehdr_at f));
  mret entry.

Definition boot_sdram : MM unit :=
  let s := DRAM_INIT_BASE + 0x6000 in
  let d := DRAM_BASE in
  let sz := 0x10000 - 0x6000 in
  print msg_payload [];;
  in_ram (memcpy d s sz);;
  print msg_boot_sdram [];;
  flush_cpu_icache.
End boot.

(** ** [main] *)

Section main.
Context {D : Type} `{!Bus D, !Printf D}.
Context (ddrctrl_init_done_read : M (machine D) Z) (sdram_init : M (machine D) unit).
(** The address of the string [LITEX_GIT_SHA1]. *)
Context (LITEX_GIT_SHA1 : Z).
Abbreviation MM := (M (machine D)).

Definition when (b : bool) (m : MM unit) : MM unit := if b then m else mret tt.

Definition main_info (u : uart_state) (ftr : Z) : MM unit :=
  when (tst ftr SYS_REG_INFO_HAS_UART) (print u msg_uart []);;
  when (tst ftr SYS_REG_INFO_HAS_DRAM) (print u msg_dram []);;
  when (tst ftr SYS_REG_INFO_HAS_BRAM) (print u msg_bram []);;
  when (tst ftr SYS_REG_INFO_HAS_SPI_FLASH) (print u msg_spiflash []);;
  when (tst ftr SYS_REG_INFO_HAS_LITEETH) (print u msg_ethernet []);;
  when (tst ftr SYS_REG_INFO_HAS_LITESDCARD) (print u msg_sdcard []);;
  print u msg_nl [];;
  when (tst ftr SYS_REG_INFO_HAS_BRAM)
    (v ← readq (SYSCON_BASE + SYS_REG_BRAMINFO);
     let val := Z.land v SYS_REG_BRAMINFO_SIZE_MASK in
     print u msg_bram_kb [val `div` 1024]);;
  when (tst ftr SYS_REG_INFO_HAS_DRAM)
    (v ← readq (SYSCON_BASE + SYS_REG_DRAMINFO);
     let val := Z.land v SYS_REG_DRAMINFO_SIZE_MASK in
     print u msg_dram_mb [val `div` (1024 * 1024)];;
     val ← readq (SYSCON_BASE + SYS_REG_DRAMINITINFO);
     print u msg_dram_init [val `div` 1024]);;
  v ← readq (SYSCON_BASE + SYS_REG_CLKINFO);
  let val := Z.land v SYS_REG_CLKINFO_FREQ_MASK in
  print u msg_clk [val `div` 1000000].

(** [main] from the welcome to the reset control: the features, and whether to
    try the flash and where the image is in it. *)
Definition main_setup (fuel : nat) (u : uart_state) : MM (Z * bool * Z) :=
  print u msg_welcome [];;
  sig ← readq (SYSCON_BASE + SYS_REG_SIGNATURE);
  print u msg_sig [sig];;
  print u msg_features [];;
  ftr ← readq (SYSCON_BASE + SYS_REG_INFO);
  main_info u ftr;;
  '(try_flash, fl_off) ←
    (if tst ftr SYS_REG_INFO_HAS_SPI_FLASH then
       val ← readq (SYSCON_BASE + SYS_REG_SPI_INFO);
       try_flash ← check_flash u fuel;
       let fl_off := u32 (Z.land val SYS_REG_SPI_INFO_FLASH_OFF_MASK) in
       print u msg_fl_off [fl_off];;
       mret (true, fl_off)
     else mret (false, 0));
  print u msg_nl [];;
  init ← (if tst ftr SYS_REG_INFO_HAS_DRAM then
            done ← ddrctrl_init_done_read; mret (done =? 0)
          else mret false);
  when init (print u msg_litex [LITEX_GIT_SHA1];; sdram_init);;
  val ← readq (SYSCON_BASE + SYS_REG_CTRL);
  writeq (Z.land val (Z.lnot SYS_REG_CTRL_ALT_RESET)) (SYSCON_BASE + SYS_REG_CTRL);;
  mret (ftr, try_flash, fl_off).

(** The rest of it: the choice of what to boot. *)
Definition main_boot (fuel : nat) (f : boot_frame) (u : uart_state)
    (ftr : Z) (try_flash : bool) (fl_off : Z) : MM Z :=
  if tst ftr SYS_REG_INFO_HAS_BRAM then
    print u msg_boot_bram [];; mret 0
  else
    val ← (if try_flash then boot_flash u fuel f fl_off else mret ULONG_MAX);
    if negb (val =? ULONG_MAX) then mret val else
    boot_sdram u;;
    mret 0.

(** [main] after [console_init]. *)
Definition main_body (fuel : nat) (f : boot_frame) (u : uart_state) : MM Z :=
  '(ftr, try_flash, fl_off) ← main_setup fuel u;
  main_boot fuel f u ftr try_flash fl_off.

Definition main (fuel : nat) (f : boot_frame) : MM Z :=
  u ← console_init;
  main_body fuel f u.
End main.
