(* ===== verification/System.v ===== *)
(** * What the firmware gives to the DRAM initialisation

    [litedram/gen-src/sdram_init/include/system.h]: the accessors and the stand-ins
    for services of LiteX that the generated initialisation code uses; and the limits of
    [libc/include/limits.h].  The decrementer is read by an instruction of the core and
    is a parameter. *)
From S2P Require Import Prelude CMem Soc Io Boot.

(** ** limits.h *)

Definition UCHAR_MAX : Z := 255.
Definition SCHAR_MAX : Z := 127.
Definition SCHAR_MIN : Z := -128.
Definition USHRT_MAX : Z := 65535.
Definition SHRT_MAX : Z := 32767.
Definition SHRT_MIN : Z := -32768.
Definition UINT_MAX : Z := 4294967295.
Definition INT_MIN : Z := -2147483648.

(** These two are computed from [ULONG_MAX], in the type [unsigned long]. *)
Definition LONG_MAX : Z := ULONG_MAX `div` 2.
Definition LONG_MIN : Z := u64 (u64 (- LONG_MAX) - 1).

(** ** system.h *)

Definition CSR_BASE : Z := DRAM_CTRL_BASE.

Section system.
Context {D : Type} `{!Bus D}.
Abbreviation MM := (M (machine D)).

Definition flush_l2_cache : MM unit := mret tt.
Definition flush_cpu_dcache_range (start_addr size : Z) : MM unit := flush_cpu_dcache.

Definition timer0_en_write (e : Z) : MM unit := mret tt.
Definition timer0_reload_write (r : Z) : MM unit := mret tt.
Definition timer0_load_write (l : Z) : MM unit := mret tt.
Definition timer0_update_value_write (v : Z) : MM unit := mret tt.
Definition timer0_value_read (mfdec : MM Z) : MM Z := val ← mfdec; mret (u64 val).

Definition init_progression_bar (max : Z) : MM unit := mret tt.
Definition show_progress (now : Z) : MM unit := mret tt.

Definition csr_write_simple (v a : Z) : MM unit := writel v a.
Definition csr_read_simple (a : Z) : MM Z := readl a.
End system.

(** A register that keeps what is stored gives it back, without its upper half. *)
Lemma csr_write_read {D} `{!Bus D} a v (s : machine D) :
  fst (bus_load 4 a (bus_store 4 a (u32 v) (dev s))) = u32 v →
  ∃ s', (csr_write_simple v a;; csr_read_simple a) s = Ret (u32 v) s' ∧
    io_trace s' = io_trace s ++ [St 4 a (u32 v); Ld 4 a (u32 v)] ∧ ram s' = ram s.
Proof.
  intros H. unfold csr_write_simple, csr_read_simple, writel, readl, io_store, io_load, mbind, M_bind. cbn [dev ram io_trace].
  change (wrap (8 * Z.of_nat 4) v) with (u32 v).
  destruct (bus_load 4 a _) as [w d]. cbn [fst] in H. subst w. change (wrap (8 * Z.of_nat 4)) with (wrap 32).
  rewrite wrap_wrap. eexists. split; [reflexivity|]. cbn. by rewrite <-app_assoc.
Qed.

(** The limits of [long] are those of the type, up to its sign: the lower one is the
    positive number 2^63 of type [unsigned long]. *)
Lemma long_limits : LONG_MAX = 2 ^ 63 - 1 ∧ LONG_MIN = 2 ^ 63 ∧ swrap 64 LONG_MIN = - 2 ^ 63.
Proof. repeat split; vm_compute; reflexivity. Qed.
