(* ===== verification/BootSpec.v ===== *)
(** * What the boot loader does

    The specification of [boot_flash] is on the bytes of the flash image alone:
    [load_all] writes the segments of the program headers up to the first one
    that is not [PT_LOAD].  The theorems of this file hold for every console of
    the class [PrintfOk]. *)
From S2P Require Import Prelude CMem LibMem LibStr Soc Io Console Strtol Printf PrintfSpec Fw Elf Boot.

(** ** Messages *)

Definition plain (fmt : list Z) : bool :=
  forallb (λ c, (0 <? c) && (c <? 256) && negb (c =? 37)) fmt && (length fmt <? 128)%nat.

Lemma render_lits strs fmt items args :
  render strs ((ILit <$> fmt) ++ items) args = (λ o, fmt ++ o) <$> render strs items args.
Proof.
  induction fmt as [|c fmt IH]; cbn.
  - by destruct (render strs items args).
  - rewrite IH. by destruct (render strs items args).
Qed.

Lemma format_text_lits fmt items : format_text ((ILit <$> fmt) ++ items) = fmt ++ format_text items.
Proof. induction fmt as [|c fmt IH]; [done|]. cbn. f_equal. apply IH. Qed.

Lemma plain_lits fmt : plain fmt = true → Forall wf_item (ILit <$> fmt) ∧ (length fmt < 128)%nat.
Proof.
  unfold plain. intros [H1 H2%Nat.ltb_lt]%andb_prop. split; [|done].
  apply Forall_fmap, Forall_forall. intros c Hc. rewrite forallb_forall in H1.
  apply list_elem_of_In in Hc. apply H1 in Hc. cbn. conds; lia.
Qed.

Lemma args_fit_lits a fmt items args :
  args_fit a items args → args_fit a ((ILit <$> fmt) ++ items) args.
Proof. intros H. induction fmt; cbn; [done|]. done. Qed.

Lemma plain_call a str fmt : plain fmt = true → printf_call a str fmt [] fmt.
Proof.
  intros [H1 H2]%plain_lits. exists (ILit <$> fmt).
  pose proof (format_text_lits fmt []) as Hf. pose proof (render_lits (λ _, str) fmt [] []) as Hr.
  pose proof (args_fit_lits a fmt [] [] I) as Ha.
  rewrite app_nil_r in Hf, Hr, Ha. cbn in Hf, Hr. rewrite app_nil_r in Hf, Hr.
  split_and!; try done; [by rewrite length_fmap|unfold PRINTF_BUFFER; lia].
Qed.

(** The number of digits of a value below a power of the base. *)
Lemma length_digits_fuel n k base v :
  2 ≤ base → 0 ≤ v < base ^ Z.of_nat k → (length (digits_fuel n base v) ≤ k)%nat.
Proof.
  intros Hb. revert k v. induction n as [|n IH]; intros k v Hv; cbn [digits_fuel]; [cbn; lia|].
  destruct (Z.eqb_spec v 0); [cbn; lia|]. destruct k as [|k]; [simpl in Hv; lia|].
  rewrite length_app. cbn [length]. specialize (IH k (v `div` base) (div_bound base v k Hb Hv)). lia.
Qed.

Lemma length_itoa_le k base upper v :
  2 ≤ base → (0 < k)%nat → 0 ≤ v < base ^ Z.of_nat k → (length (itoa base upper v) ≤ k)%nat.
Proof.
  intros Hb Hk Hv. rewrite length_itoa. unfold digits.
  destruct (v =? 0); [cbn; lia|]. by apply length_digits_fuel.
Qed.

(** The messages with numbers. *)
Definition hex2 (b : Z) : list Z := render_int 16 false true [50] b.

Definition copy_line (i size addr : Z) : list Z :=
  lit "Copy segment " ++ itoa 10 false i ++ lit " (0x" ++ itoa 16 false size ++
  lit " bytes) to 0x" ++ itoa 16 false addr ++ [10].
Definition boot_line (entry : Z) : list Z :=
  lit "Booting from DRAM at " ++ itoa 16 false entry ++ [10].
Definition hdr_line (bs : list Z) : list Z :=
  lit "HDR:" ++ flat_map (λ b, 32 :: hex2 b) bs ++ [10].

Definition dir (zero : bool) (ws : list Z) (l : lenmod) (c : conv) : item :=
  IDir {| d_zero := zero; d_width := ws; d_len := l; d_conv := c |}.

Lemma wf_dir (zero : bool) ws l c :
  forallb (digit_lt 10) ws = true → (length ws <=? 4)%nat = true →
  bool_decide (width ws < 2 ^ 31) = true →
  bool_decide (zero = false → head ws ≠ Some 48) = true → wf_item (dir zero ws l c).
Proof.
  intros H1 H2%Nat.leb_le H3%bool_decide_eq_true H4%bool_decide_eq_true. constructor; cbn.
  - apply Forall_forall. intros x Hx%list_elem_of_In. rewrite forallb_forall in H1. by apply H1.
  - done.
  - done.
  - unfold directive_text. cbn. rewrite !length_app. destruct zero, l; cbn; lia.
Qed.

Lemma copy_call a str i size addr :
  0 ≤ i < 2 ^ 31 → 0 ≤ size < 2 ^ 32 → 0 ≤ addr < 2 ^ 64 →
  printf_call a str msg_copy [i; size; addr] (copy_line i size addr).
Proof.
  intros Hi Hs Ha.
  exists ((ILit <$> lit "Copy segment ") ++ [dir false [] LNone Cd] ++ (ILit <$> lit " (0x") ++
    [dir false [] LNone Cx] ++ (ILit <$> lit " bytes) to ") ++ [dir false [] LNone Cp; ILit 10]).
  split; [done|]. split; [vm_compute; lia|]. split.
  { rewrite !Forall_app. repeat split; try (apply plain_lits; reflexivity);
      repeat (constructor; try (by apply wf_dir)); done. }
  split; [cbn; split_and!; (done || lia)|]. split.
  - unfold dir. rewrite render_lits. cbn [app render]. rewrite render_lits. cbn [app render].
    rewrite render_lits. cbn [app render fmap option_fmap option_map].
    unfold render_directive. cbn [d_conv d_width d_zero d_len lenmod_size].
    unfold render_dec. rewrite (wrap_testbit_high 31 i) by lia. cbn [andb].
    unfold render_ptr, render_int, pad. cbn [width num_value].
    rewrite !(Z2Nat.nonpos (width [] - _)) by (change (width []) with 0; lia).
    cbn [replicate app]. rewrite (wrap_small (8 * 4) size) by lia. done.
  - unfold copy_line, PRINTF_BUFFER. rewrite !length_app.
    pose proof (length_itoa_le 10 10 false i ltac:(lia) ltac:(lia) ltac:(lia)).
    pose proof (length_itoa_le 8 16 false size ltac:(lia) ltac:(lia) ltac:(lia)).
    pose proof (length_itoa_le 16 16 false addr ltac:(lia) ltac:(lia) ltac:(lia)).
    vm_compute (length (lit _)). cbn [length]. lia.
Qed.

Lemma boot_call a str entry :
  0 ≤ entry < 2 ^ 32 → printf_call a str msg_boot [entry] (boot_line entry).
Proof.
  intros He. exists ((ILit <$> lit "Booting from DRAM at ") ++ [dir false [] LNone Cx; ILit 10]).
  split; [done|]. split; [vm_compute; lia|]. split.
  { rewrite !Forall_app. split; [apply plain_lits; reflexivity|].
    constructor; [by apply wf_dir|]. constructor; [done|constructor]. }
  split; [cbn; split_and!; (done || lia)|]. split.
  - unfold dir. rewrite render_lits. cbn [app render fmap option_fmap option_map].
    unfold render_directive. cbn [d_conv d_width d_zero d_len lenmod_size].
    unfold render_int, pad. rewrite !(Z2Nat.nonpos (width [] - _)) by (change (width []) with 0; lia).
    cbn [replicate app]. by rewrite (wrap_small (8 * 4) entry) by lia.
  - unfold boot_line, PRINTF_BUFFER. rewrite !length_app.
    pose proof (length_itoa_le 8 16 false entry ltac:(lia) ltac:(lia) ltac:(lia)).
    vm_compute (length (lit _)). cbn [length]. lia.
Qed.

(** Two hex digits per byte. *)
Lemma length_hex2 b : is_byte b → (length (hex2 b) ≤ 4)%nat.
Proof.
  intros Hb. unfold hex2, render_int. rewrite length_app, length_pad.
  pose proof (length_itoa_le 2 16 false b ltac:(lia) ltac:(lia) ltac:(unfold is_byte in Hb; lia)).
  change (width [50]) with 2. lia.
Qed.

Definition hex2_items (bs : list Z) : list item :=
  flat_map (λ _, [ILit 32; dir true [50] LNone Cx]) bs.

Lemma render_hex2 strs bs items args :
  bytes bs → render strs (hex2_items bs ++ items) (bs ++ args) =
  (λ o, flat_map (λ b, 32 :: hex2 b) bs ++ o) <$> render strs items args.
Proof.
  intros Hb. induction Hb as [|b bs Hb Hbs IH]; cbn [app flat_map].
  { change (hex2_items [] ++ items) with items. by destruct (render strs items args). }
  change (hex2_items (b :: bs) ++ items) with (ILit 32 :: dir true [50] LNone Cx :: hex2_items bs ++ items).
  unfold dir. cbn [render]. rewrite IH. destruct (render strs items args); [|done].
  cbn [fmap option_fmap option_map]. unfold render_directive. cbn [d_conv d_width d_zero d_len lenmod_size].
  rewrite (wrap_small (8 * 4) b) by (unfold is_byte in Hb; lia).
  fold (hex2 b). by rewrite <- !app_assoc.
Qed.

Lemma hdr_call a str bs :
  bytes bs → length bs = 8%nat → printf_call a str msg_hdr bs (hdr_line bs).
Proof.
  intros Hb Hl. exists ((ILit <$> lit "HDR:") ++ hex2_items bs ++ [ILit 10]).
  assert (Forall wf_item (hex2_items bs)) as Hwf.
  { clear. induction bs; cbn; [constructor|]. constructor; [done|]. constructor; [by apply wf_dir|done]. }
  assert (∀ bs', bytes bs' → args_fit a (hex2_items bs' ++ [ILit 10]) bs') as Hfit.
  { intros bs' Hb'. induction Hb' as [|b bs' Hb' Hbs' IH]; [done|]. cbn. unfold is_byte in Hb'.
    split_and!; (done || lia). }
  assert (length (flat_map (λ b, 32%Z :: hex2 b) bs) ≤ 5 * length bs)%nat as Hlen.
  { clear Hl Hwf Hfit. induction Hb as [|b bs Hb Hbs IH]; [done|]. cbn [flat_map app length].
    rewrite length_app. pose proof (length_hex2 b Hb). cbn [length]. lia. }
  destruct bs as [|b0 [|b1 [|b2 [|b3 [|b4 [|b5 [|b6 [|b7 [|]]]]]]]]]; try done.
  split; [done|]. split; [vm_compute; lia|]. split.
  { rewrite !Forall_app. split_and!; [apply plain_lits; reflexivity|done|constructor; [done|constructor]]. }
  split; [apply args_fit_lits; by apply Hfit|]. split.
  - rewrite render_lits. pose proof (render_hex2 (λ _, str) _ [ILit 10] [] Hb) as Hr.
    rewrite app_nil_r in Hr. by rewrite Hr.
  - unfold hdr_line, PRINTF_BUFFER. rewrite !length_app. cbn [length] in Hlen |- *.
    vm_compute (length (lit _)). lia.
Qed.

(** ** Images *)

Definition slice (img : list Z) (a n : Z) : list Z := take (Z.to_nat n) (drop (Z.to_nat a) img).

(** The headers whose segments are copied. *)
Fixpoint load_prefix (phs : list Elf64_Phdr) : list Elf64_Phdr :=
  match phs with
  | [] => []
  | p :: phs => if p_type p =? PT_LOAD then p :: load_prefix phs else []
  end.

Definition seg_image (img : list Z) (p : Elf64_Phdr) : list Z :=
  slice img (p_offset p) (p_filesz p).

Definition load_all (img : list Z) (ps : list Elf64_Phdr) (m : mem) : mem :=
  foldl (λ m p, write_bytes (p_vaddr p) (seg_image img p) m) m ps.

(** An ELF file with the header [h] and the program headers [phs]. *)
Record elf_image (img : list Z) (h : Elf64_Ehdr) (phs : list Elf64_Phdr) : Prop := {
  ei_bytes : bytes img;
  ei_wf : ehdr_wf h;
  ei_hdr : slice img 0 sizeof_ehdr = ehdr_bytes h;
  ei_phnum : Z.of_nat (length phs) = e_phnum h;
  ei_phs : ∀ i p, phs !! i = Some p → fits (phdr_fields p) ∧
    slice img (e_phoff h + Z.of_nat i * e_phentsize h) sizeof_phdr = phdr_bytes p;
  ei_segs : Forall (λ p, p_offset p + p_filesz p ≤ Z.of_nat (length img)) (load_prefix phs);
}.

(** The part of it every image has that can be read: the header alone. *)
Record hdr_image (img : list Z) (h : Elf64_Ehdr) : Prop := {
  hi_bytes : bytes img;
  hi_wf : ehdr_wf h;
  hi_hdr : slice img 0 sizeof_ehdr = ehdr_bytes h;
}.

Lemma elf_hdr_image img h phs : elf_image img h phs → hdr_image img h.
Proof. by intros []. Qed.

(** The flash is mapped below the firmware itself, which is at [DRAM_INIT_BASE]. *)
Definition FLASH_WINDOW : Z := 0x0f000000.

Definition in_flash (k : Z) : Prop := SPI_FLASH_BASE ≤ k < SPI_FLASH_BASE + FLASH_WINDOW.

Lemma slice_at m a img i n :
  0 ≤ i → bytes_at m a img → bytes_at m (a + i) (slice img i n).
Proof.
  intros Hi Hb. apply bytes_at_intro. intros j b Hj. unfold slice in Hj.
  apply lookup_take_Some in Hj as [Hj Hlt]. rewrite lookup_drop in Hj.
  rewrite <- (bytes_at_lookup m a img (Z.to_nat i + j) b Hb Hj). f_equal. lia.
Qed.

Lemma length_slice img i n :
  0 ≤ i → 0 ≤ n → i + n ≤ Z.of_nat (length img) → Z.of_nat (length (slice img i n)) = n.
Proof. intros. unfold slice. rewrite length_take, length_drop. lia. Qed.

Lemma slice_bytes img i n : bytes img → bytes (slice img i n).
Proof. intros H. by apply Forall_take, Forall_drop. Qed.

(** A slice that is not empty lies in the image. *)
Lemma slice_bound img i n k :
  0 ≤ i → Z.of_nat (length (slice img i n)) = k → 0 < k → i + k ≤ Z.of_nat (length img).
Proof. intros Hi Hl Hk. unfold slice in Hl. rewrite length_take, length_drop in Hl. lia. Qed.

Lemma load_prefix_take phs i :
  (i ≤ length (load_prefix phs))%nat → take i (load_prefix phs) = take i phs.
Proof.
  revert i. induction phs as [|p phs IH]; intros i; cbn; [done|].
  destruct (p_type p =? PT_LOAD); cbn; destruct i as [|i]; try done; cbn; intros; [|lia].
  f_equal. apply IH. lia.
Qed.

(** A header after the prefix, if there is one, is not a [PT_LOAD]. *)
Lemma load_prefix_next phs p :
  phs !! length (load_prefix phs) = Some p → p_type p ≠ PT_LOAD.
Proof.
  induction phs as [|q phs IH]; cbn; [done|].
  destruct (Z.eqb_spec (p_type q) PT_LOAD); cbn; [by apply IH|]. by intros [= ->].
Qed.

Lemma load_prefix_lookup phs i p :
  load_prefix phs !! i = Some p → phs !! i = Some p ∧ p_type p = PT_LOAD.
Proof.
  revert i. induction phs as [|q phs IH]; intros i; cbn; [done|].
  destruct (Z.eqb_spec (p_type q) PT_LOAD); [|done]. destruct i as [|i]; cbn; [|apply IH].
  by intros [= ->].
Qed.

(** ** The steps *)

Section boot.
Context {D : Type} `{!Bus D} (u : uart_state) `{!Uart D u, !Printf D, !PrintfOk D u}.

(** [s'] is [s] after the text [t] was printed. *)
Definition pstep (s s' : machine D) (t : list Z) : Prop :=
  pr_ok s' ∧ same_outside pr_addr (ram s) (ram s') ∧
  tx_log (dev s') = tx_log (dev s) ++ crlf t.

Lemma print_ok fmt args out s :
  pr_ok s → fmt ∈ pr_formats → printf_call pr_str_at pr_str fmt args out →
  ∃ s', print u fmt args s = Ret tt s' ∧ pstep s s' out.
Proof.
  intros Hs Hf Hc. destruct (printf_ok fmt args out s Hs Hf Hc) as (s' & evs & Hr & H1 & H2 & H3 & _).
  exists s'. unfold print. by rewrite (bind_Ret _ _ _ _ _ Hr).
Qed.

Context (f : boot_frame).

(** What the loader may change besides the segments. *)
Definition scratch (k : Z) : Prop :=
  pr_addr k ∨ within (ehdr_at f) 64 k ∨ within (ph_at f) 56 k.

(** The locals are where nothing else is. *)
Record frame_ok : Prop := {
  fo_fmts : Forall (λ m, m ∈ pr_formats) boot_formats;
  fo_ehdr : ∀ k, within (ehdr_at f) 64 k → ¬ pr_addr k ∧ ¬ in_flash k ∧ ¬ within (ph_at f) 56 k;
  fo_ph : ∀ k, within (ph_at f) 56 k → ¬ pr_addr k ∧ ¬ in_flash k;
  fo_flash : ∀ k, in_flash k → ¬ pr_addr k;
}.

(** [s'] is [s] with the bytes [bs] at [a]. *)
Definition wr (a : Z) (bs : list Z) (s : machine D) : machine D :=
  Machine (write_bytes a bs (ram s)) (dev s) (io_trace s).

Lemma fl_read_ok dst off bs s :
  0 ≤ off → off + Z.of_nat (length bs) ≤ FLASH_WINDOW → bytes bs →
  bytes_at (ram s) (SPI_FLASH_BASE + off) bs → mapped (ram s) dst (length bs) →
  (∀ k, within dst (length bs) k → ¬ in_flash k) →
  fl_read dst off (Z.of_nat (length bs)) s = Ret true (wr dst bs s).
Proof.
  intros H1 H2 Hb Hsrc Hdst Hdisj. unfold fl_read.
  rewrite (bind_Ret _ _ s dst (wr dst bs s)); [done|]. apply in_ram_Ret.
  destruct (decide (length bs = 0%nat)) as [E|E].
  { destruct bs; [|done]. apply memcpy_ok; cbn; try done. lia. }
  rewrite (wrap_small 32) by (unfold FLASH_WINDOW, SPI_FLASH_BASE in *; lia).
  apply memcpy_ok; try done.
  assert (¬ in_flash dst ∧ ¬ in_flash (dst + Z.of_nat (length bs) - 1)) as [Hd1 Hd2]
    by (split; apply Hdisj; unfold within; lia).
  unfold in_flash, FLASH_WINDOW in *. lia.
Qed.

Hypothesis frame : frame_ok.

Lemma pr_ok_wr a bs s :
  pr_ok s → (∀ k, within a (length bs) k → ¬ pr_addr k) → pr_ok (wr a bs s).
Proof.
  intros Hs Hd. apply (pr_ok_ram s); try done. intros k Hk. apply lookup_write_bytes_out.
  destruct (decide (within a (length bs) k)) as [Hw|Hw]; [by apply Hd in Hw|].
  unfold within in Hw. lia.
Qed.

Lemma wr_bytes_at a bs a' bs' s :
  (∀ k, within a (length bs) k → ¬ within a' (length bs') k) →
  bytes_at (ram s) a' bs' → bytes_at (ram (wr a bs s)) a' bs'.
Proof.
  intros Hd. apply (same_outside_bytes (within a (length bs))).
  - by apply same_outside_write.
  - intros k Hk Hw. by apply (Hd k).
Qed.

Lemma fmt_ok m : m ∈ boot_formats → m ∈ pr_formats.
Proof. intros Hm. pose proof (fo_fmts frame) as Hf. rewrite Forall_forall in Hf. by apply Hf. Qed.

Section image.
Context (m0 : mem) (offset : Z) (img : list Z) (h : Elf64_Ehdr) (phs : list Elf64_Phdr).
Hypothesis header : hdr_image img h.
Hypothesis offset_ok : 0 ≤ offset ∧ offset + Z.of_nat (length img) ≤ FLASH_WINDOW.

(** Where a segment may go. *)
Definition seg_ok (m : mem) (p : Elf64_Phdr) : Prop :=
  mapped m (p_vaddr p) (length (seg_image img p)) ∧
  ∀ k, within (p_vaddr p) (length (seg_image img p)) k → ¬ scratch k ∧ ¬ in_flash k.

(** The segments of [ps] have been copied. *)
Record loaded (ps : list Elf64_Phdr) (s : machine D) : Prop := {
  lo_pr : pr_ok s;
  lo_ehdr : bytes_at (ram s) (ehdr_at f) (ehdr_bytes h);
  lo_ph : mapped (ram s) (ph_at f) 56;
  lo_flash : bytes_at (ram s) (SPI_FLASH_BASE + offset) img;
  lo_segs : Forall (seg_ok (ram s)) (load_prefix phs);
  lo_mem : same_outside scratch (load_all img ps m0) (ram s);
}.

Lemma seg_ok_agree m m' p : same_outside scratch m m' → seg_ok m p → seg_ok m' p.
Proof.
  intros Hs [H1 H2]. split; [|done].
  eapply same_outside_mapped; [done|intros k Hk; by apply H2|done].
Qed.

Lemma flash_range k : within (SPI_FLASH_BASE + offset) (length img) k → in_flash k.
Proof. unfold within, in_flash, FLASH_WINDOW in *. lia. Qed.

Lemma loaded_print ps s s' t : loaded ps s → pstep s s' t → loaded ps s'.
Proof.
  intros [H1 H2 H3 H4 H5 H6] (Hp & Hm & _).
  pose proof frame as [_ F1 F2 F3].
  assert (same_outside scratch (ram s) (ram s')) as Hm'
    by (eapply same_outside_sub; [|exact Hm]; by left).
  constructor; try done.
  - eapply same_outside_bytes; [exact Hm| |done]. intros k Hk.
    rewrite length_ehdr_bytes in Hk by apply header. by apply F1.
  - eapply same_outside_mapped; [exact Hm| |done]. intros k Hk. by apply F2.
  - eapply same_outside_bytes; [exact Hm| |done]. intros k Hk. by apply F3, flash_range.
  - eapply Forall_impl; [done|]. intros p. by apply seg_ok_agree.
  - by eapply same_outside_trans.
Qed.

Lemma loaded_ph ps bs s : length bs = 56%nat → loaded ps s → loaded ps (wr (ph_at f) bs s).
Proof.
  intros Hl [H1 H2 H3 H4 H5 H6]. pose proof frame as [_ F1 F2 F3].
  assert (same_outside scratch (ram s) (ram (wr (ph_at f) bs s))) as Hm'.
  { apply same_outside_write. intros k Hk. rewrite Hl in Hk. by do 2 right. }
  constructor.
  - apply pr_ok_wr; [done|]. rewrite Hl. intros k Hk. by apply F2.
  - apply wr_bytes_at; [|done]. rewrite Hl, length_ehdr_bytes by apply header.
    intros k Hk Hk'. by apply F1 in Hk' as (_ & _ & ?).
  - by apply mapped_write.
  - apply wr_bytes_at; [|done]. rewrite Hl. intros k Hk Hk'%flash_range. by apply F2 in Hk as [_ ?].
  - eapply Forall_impl; [done|]. intros p. by apply seg_ok_agree.
  - by eapply same_outside_trans.
Qed.

Lemma loaded_seg ps p s :
  p ∈ load_prefix phs → loaded ps s →
  loaded (ps ++ [p]) (wr (p_vaddr p) (seg_image img p) s).
Proof.
  intros Hp [H1 H2 H3 H4 H5 H6]. pose proof frame as [_ F1 F2 F3].
  pose proof H5 as H5'. rewrite Forall_forall in H5'. destruct (H5' p Hp) as [Hs1 Hs2].
  constructor.
  - apply pr_ok_wr; [done|]. intros k Hk Hk'. destruct (Hs2 k Hk) as [Hn _]. apply Hn. by left.
  - apply wr_bytes_at; [|done]. rewrite length_ehdr_bytes by apply header.
    intros k Hk Hk'. destruct (Hs2 k Hk) as [Hn _]. apply Hn. right. by left.
  - by apply mapped_write.
  - apply wr_bytes_at; [|done]. intros k Hk Hk'%flash_range. by destruct (Hs2 k Hk).
  - eapply Forall_impl; [done|]. intros q [Hq1 Hq2]. split; [by apply mapped_write|done].
  - unfold load_all. rewrite foldl_app. cbn [foldl wr ram].
    intros k Hk. rewrite !lookup_write_bytes. case_decide; [done|]. by apply H6.
Qed.

(** What is printed for the segments [ps], the first of which has number [i]. *)
Fixpoint copy_text (i : Z) (ps : list Elf64_Phdr) : list Z :=
  match ps with
  | [] => []
  | p :: ps => crlf (copy_line i (p_filesz p) (p_vaddr p)) ++ copy_text (i + 1) ps
  end.

Lemma in_ram_pure {A} (q : M mem A) (s : machine D) a :
  q (ram s) = Ret a (ram s) → in_ram q s = Ret a s.
Proof. intros Hq. rewrite (in_ram_Ret q s a (ram s) Hq). by destruct s. Qed.

Abbreviation lp := (load_prefix phs).
Abbreviation poff j := (offset + e_phoff h + Z.of_nat j * e_phentsize h).

Lemma fits_at fs i n v : fits fs → fs !! i = Some (n, v) → 0 ≤ v < 2 ^ (8 * Z.of_nat n).
Proof. intros Hf Hi. exact (Forall_lookup_1 _ _ _ _ Hf Hi). Qed.

Ltac fmt_in := apply fmt_ok; unfold boot_formats; repeat (apply list_elem_of_here || apply list_elem_of_further).

(** The header fields the loader wants. *)
Definition ppc64le_elf : Prop :=
  take 6 (e_ident h) = [ELFMAG0; ELFMAG1; ELFMAG2; ELFMAG3; ELFCLASS64; ELFDATA2LSB] ∧
  e_machine h = EM_PPC64.

(** What must hold when the loader is called. *)
Record boot_pre (s : machine D) : Prop := {
  bp_pr : pr_ok s;
  bp_mem : ram s = m0;
  bp_ehdr : mapped m0 (ehdr_at f) 64;
  bp_ph : mapped m0 (ph_at f) 56;
  bp_flash : bytes_at m0 (SPI_FLASH_BASE + offset) img;
  bp_segs : Forall (seg_ok m0) lp;
}.

(** The first lines: the message, and the copy of the header. *)
Lemma boot_header s :
  boot_pre s → ∃ s1, print u msg_trying [] s = Ret tt s1 ∧
    tx_log (dev s1) = tx_log (dev s) ++ crlf msg_trying ∧
    fl_read (ehdr_at f) offset sizeof_ehdr s1 = Ret true (wr (ehdr_at f) (ehdr_bytes h) s1) ∧
    loaded [] (wr (ehdr_at f) (ehdr_bytes h) s1).
Proof.
  intros [P1 P2 P3 P4 P5 P6]. rewrite <- P2 in P3, P4, P5, P6. pose proof header as [B1 B2 B3].
  pose proof frame as [_ F1 F2 F3].
  destruct (print_ok msg_trying [] msg_trying s P1) as (s1 & Hr1 & Hp1 & Hm1 & Ht1);
    [fmt_in|by apply plain_call|].
  assert (same_outside scratch (ram s) (ram s1)) as Hm1'
    by (eapply same_outside_sub; [|exact Hm1]; by left).
  pose proof (length_ehdr_bytes h B2) as Hlen.
  assert (bytes_at (ram s1) (SPI_FLASH_BASE + offset) img) as Hfl.
  { eapply same_outside_bytes; [exact Hm1|intros k Hk; by apply F3, flash_range|done]. }
  exists s1. split_and!; [done|done| |].
  - change sizeof_ehdr with (Z.of_nat 64). rewrite <- Hlen.
    pose proof (slice_bound img 0 sizeof_ehdr 64 ltac:(lia) ltac:(rewrite B3, Hlen; done) ltac:(lia)).
    apply fl_read_ok; rewrite ?Hlen; try lia.
    + by apply ehdr_bytes_bytes.
    + rewrite <- B3. rewrite <- (Z.add_0_r (SPI_FLASH_BASE + offset)). by apply slice_at.
    + eapply same_outside_mapped; [exact Hm1|intros k Hk; by apply F1|done].
    + intros k Hk. by apply F1.
  - constructor.
    + apply pr_ok_wr; [done|]. rewrite Hlen. intros k Hk. by apply F1.
    + apply bytes_at_write.
    + apply mapped_write. eapply same_outside_mapped; [exact Hm1|intros k Hk; by apply F2|done].
    + apply wr_bytes_at; [|done]. rewrite Hlen. intros k Hk Hk'%flash_range. by apply F1 in Hk as (_ & ? & _).
    + eapply Forall_impl; [exact P6|]. intros q Hq.
      eapply seg_ok_agree; [|exact Hq]. eapply same_outside_trans; [exact Hm1'|].
      apply same_outside_write. rewrite Hlen. intros k Hk. right. by left.
    + cbn [load_all foldl]. rewrite <- P2. eapply same_outside_trans; [exact Hm1'|].
      apply same_outside_write. rewrite Hlen. intros k Hk. right. by left.
Qed.

Lemma ident_at s i b : loaded [] s → e_ident h !! i = Some b →
  in_ram (ld_e_ident (ehdr_at f) (Z.of_nat i)) s = Ret b s.
Proof.
  intros Hl Hi. apply in_ram_pure. exact (ld_e_ident_ok h _ _ (lo_ehdr _ _ Hl) i b Hi).
Qed.

(** ** Images that are refused *)

Definition ident_magic : bool :=
  bool_decide (take 4 (e_ident h) = [ELFMAG0; ELFMAG1; ELFMAG2; ELFMAG3]).
Definition ident_elf64 : bool :=
  ident_magic && bool_decide (e_ident h !! 4%nat = Some ELFCLASS64).

Lemma ident_lookup i : (i < 16)%nat → ∃ b, e_ident h !! i = Some b.
Proof.
  intros Hi. apply lookup_lt_is_Some_2. by rewrite (ehdr_ident h (hi_wf _ _ header)).
Qed.

Lemma IS_ELF_ok s : loaded [] s → in_ram (IS_ELF (ehdr_at f)) s = Ret ident_magic s.
Proof.
  intros Hl. pose proof (ehdr_ident h (hi_wf _ _ header)) as Hlen.
  pose proof (ld_e_ident_ok h _ _ (lo_ehdr _ _ Hl)) as Hid. unfold ident_magic.
  destruct (e_ident h) as [|b0 [|b1 [|b2 [|b3 r]]]]; try done.
  apply in_ram_pure. unfold IS_ELF. cbn [take].
  step_with (Hid 0%nat _ eq_refl). destruct (Z.eqb_spec b0 ELFMAG0) as [->|]; cbn [negb].
  2:{ rewrite bool_decide_eq_false_2 by congruence. done. }
  step_with (Hid 1%nat _ eq_refl). destruct (Z.eqb_spec b1 ELFMAG1) as [->|]; cbn [negb].
  2:{ rewrite bool_decide_eq_false_2 by congruence. done. }
  step_with (Hid 2%nat _ eq_refl). destruct (Z.eqb_spec b2 ELFMAG2) as [->|]; cbn [negb].
  2:{ rewrite bool_decide_eq_false_2 by congruence. done. }
  step_with (Hid 3%nat _ eq_refl). unfold mret, M_ret. f_equal. symmetry.
  rewrite take_0. destruct (Z.eqb_spec b3 ELFMAG3) as [->|].
  - by apply bool_decide_eq_true_2.
  - apply bool_decide_eq_false_2. congruence.
Qed.

(** The end of every refusal: the start of the header is printed. *)
Lemma boot_dump_ok s :
  loaded [] s → ∃ s', boot_dump u f s = Ret ULONG_MAX s' ∧ loaded [] s' ∧
    tx_log (dev s') = tx_log (dev s) ++ crlf (hdr_line (take 8 (e_ident h))).
Proof.
  intros Hl. pose proof (hi_wf _ _ header) as [Hlen Hby _].
  pose proof (λ i b, ident_at s i b Hl) as Hid.
  assert (∃ s', print u msg_hdr (take 8 (e_ident h)) s = Ret tt s' ∧
    pstep s s' (hdr_line (take 8 (e_ident h)))) as (s' & Hr & Hps).
  { apply print_ok; [apply Hl|fmt_in|]. apply hdr_call; [by apply Forall_take|].
    rewrite length_take, Hlen. done. }
  exists s'. split; [|split; [by eapply loaded_print|apply Hps]].
  destruct (e_ident h) as [|b0 [|b1 [|b2 [|b3 [|b4 [|b5 [|b6 [|b7 r]]]]]]]]; try done.
  unfold boot_dump. step_with (Hid 0%nat _ eq_refl). step_with (Hid 1%nat _ eq_refl).
  step_with (Hid 2%nat _ eq_refl). step_with (Hid 3%nat _ eq_refl).
  step_with (Hid 4%nat _ eq_refl). step_with (Hid 5%nat _ eq_refl).
  step_with (Hid 6%nat _ eq_refl). step_with (Hid 7%nat _ eq_refl).
  cbn [take] in Hr. rewrite take_0 in Hr. by step_with Hr.
Qed.

(** A message and the dump. *)
Lemma refuse_ok msg s :
  loaded [] s → msg ∈ boot_formats → plain msg = true →
  ∃ s', (print u msg [];; boot_dump u f) s = Ret ULONG_MAX s' ∧ loaded [] s' ∧
    tx_log (dev s') = tx_log (dev s) ++ crlf msg ++ crlf (hdr_line (take 8 (e_ident h))).
Proof.
  intros Hl Hin Hpl.
  destruct (print_ok msg [] msg s) as (s1 & Hr & Hps); [apply Hl|by apply fmt_ok|by apply plain_call|].
  step_with Hr. destruct (boot_dump_ok s1) as (s2 & Hr2 & Hl2 & Ht2); [by eapply loaded_print|].
  exists s2. split_and!; [done|done|]. destruct Hps as (_ & _ & Ht1). by rewrite Ht2, Ht1, <- app_assoc.
Qed.

(** Anything else is refused, and no segment is copied. *)
Lemma boot_flash_refused fuel s :
  boot_pre s → ¬ ppc64le_elf →
  ∃ s', boot_flash u fuel f offset s = Ret ULONG_MAX s' ∧ pr_ok s' ∧
    same_outside scratch m0 (ram s') ∧
    tx_log (dev s') = tx_log (dev s) ++ crlf msg_trying ++
      crlf (if ident_elf64 then msg_not_ppc else msg_not_elf) ++
      crlf (hdr_line (take 8 (e_ident h))).
Proof.
  intros Hpre Hno. pose proof header as [B1 B2 B3].
  destruct (boot_header s Hpre) as (s1 & Hr1 & Ht1 & Hr2 & Hl). unfold boot_flash.
  step_with Hr1. step_with Hr2. cbn [negb]. set (s2 := wr _ _ s1) in *.
  assert (∀ msg, msg = (if ident_elf64 then msg_not_ppc else msg_not_elf) →
    ∃ s', (print u msg [];; boot_dump u f) s2 = Ret ULONG_MAX s' ∧ pr_ok s' ∧
      same_outside scratch m0 (ram s') ∧
      tx_log (dev s') = tx_log (dev s) ++ crlf msg_trying ++
        crlf (if ident_elf64 then msg_not_ppc else msg_not_elf) ++
        crlf (hdr_line (take 8 (e_ident h)))) as Hend.
  { intros msg ->.
    destruct (refuse_ok (if ident_elf64 then msg_not_ppc else msg_not_elf) s2 Hl) as (s' & Hr & Hl' & Ht).
    - destruct ident_elf64; unfold boot_formats; repeat (apply list_elem_of_here || apply list_elem_of_further).
    - by destruct ident_elf64.
    - exists s'. split_and!; [done|apply Hl'|apply (lo_mem _ _ Hl')|].
      rewrite Ht. cbn [wr dev s2]. by rewrite Ht1, <- !app_assoc. }
  step_with (IS_ELF_ok s2 Hl).
  destruct (ident_lookup 4) as [c Hc]; [lia|]. destruct (ident_lookup 5) as [d Hd]; [lia|].
  assert ((if ident_magic then c ← in_ram (ld_e_ident (ehdr_at f) EI_CLASS); mret (c =? ELFCLASS64)
           else mret false) s2 = Ret ident_elf64 s2) as Hr3.
  { unfold ident_elf64. destruct ident_magic; [|done]. step_with (ident_at s2 4 c Hl Hc).
    unfold mret, M_ret. f_equal. rewrite Hc. cbn [andb].
    destruct (Z.eqb_spec c ELFCLASS64) as [->|]; symmetry.
    - by apply bool_decide_eq_true_2.
    - apply bool_decide_eq_false_2. congruence. }
  step_with Hr3. destruct ident_elf64 eqn:E64; cbn [negb]; [|by apply Hend].
  step_with (ident_at s2 5 d Hl Hd).
  assert ((if d =? ELFDATA2LSB then mach ← in_ram (ld_e_machine (ehdr_at f)); mret (mach =? EM_PPC64)
           else mret false) s2 = Ret false s2) as Hr4.
  { destruct (Z.eqb_spec d ELFDATA2LSB) as [->|]; [|done].
    step_with (in_ram_pure _ s2 _ (ld_e_machine_ok h _ _ B2 (lo_ehdr _ _ Hl))).
    destruct (Z.eqb_spec (e_machine h) EM_PPC64) as [Em|]; [|done]. destruct Hno. split; [|done].
    unfold ident_elf64, ident_magic in E64. apply andb_prop in E64 as [E1 E2].
    apply bool_decide_eq_true in E1, E2. rewrite (take_S_r _ _ _ Hd), (take_S_r _ _ _ E2), E1. done. }
  step_with Hr4. cbn [negb]. by apply Hend.
Qed.
(** ** Images that are loaded *)

Hypothesis image : elf_image img h phs.

(** Reading header [j]. *)
Lemma read_phdr ps s j p :
  loaded ps s → phs !! j = Some p →
  fl_read (ph_at f) (u32 (poff j)) sizeof_phdr s = Ret true (wr (ph_at f) (phdr_bytes p) s) ∧
  loaded ps (wr (ph_at f) (phdr_bytes p) s) ∧
  bytes_at (ram (wr (ph_at f) (phdr_bytes p) s)) (ph_at f) (phdr_bytes p).
Proof.
  intros Hl Hp. pose proof image as [B1 B2 B3 B4 B5 B6]. pose proof frame as [_ F1 F2 F3].
  destruct (B5 j p Hp) as [Hfit Hsl].
  pose proof (fits_at _ 4 8 _ (ehdr_fits h B2) eq_refl) as Ho.
  pose proof (fits_at _ 8 2 _ (ehdr_fits h B2) eq_refl) as He.
  assert (0 ≤ e_phoff h + Z.of_nat j * e_phentsize h) as Hpos by lia.
  pose proof (slice_bound img _ sizeof_phdr 56 Hpos ltac:(rewrite Hsl, length_phdr_bytes; done) ltac:(lia)) as Hb.
  rewrite (wrap_small 32) by (unfold FLASH_WINDOW in *; lia).
  split; [|split].
  - change sizeof_phdr with (Z.of_nat 56). rewrite <- (length_phdr_bytes p).
    apply fl_read_ok.
    + lia.
    + rewrite length_phdr_bytes. lia.
    + apply enc_fields_bytes.
    + rewrite <- Hsl. replace (SPI_FLASH_BASE + poff j)
        with (SPI_FLASH_BASE + offset + (e_phoff h + Z.of_nat j * e_phentsize h)) by lia.
      apply slice_at; [done|]. apply Hl.
    + rewrite length_phdr_bytes. apply Hl.
    + rewrite length_phdr_bytes. intros k Hk. by apply F2.
  - apply loaded_ph; [apply length_phdr_bytes|done].
  - apply bytes_at_write.
Qed.

(** Copying a segment. *)
Lemma read_segment ps s p :
  loaded ps s → p ∈ lp → fits (phdr_fields p) →
  fl_read (p_vaddr p) (u32 (offset + p_offset p)) (u32 (p_filesz p)) s =
    Ret true (wr (p_vaddr p) (seg_image img p) s) ∧
  u32 (p_filesz p) = p_filesz p.
Proof.
  intros Hl Hp Hfit. pose proof image as [B1 B2 B3 B4 B5 B6].
  rewrite Forall_forall in B6. specialize (B6 p Hp). cbn in B6.
  pose proof (fits_at _ 2 8 _ Hfit eq_refl) as Ho. pose proof (fits_at _ 5 8 _ Hfit eq_refl) as Hz.
  assert (u32 (p_filesz p) = p_filesz p) as -> by (apply wrap_small; unfold FLASH_WINDOW in *; lia).
  split; [|done].
  pose proof (length_slice img (p_offset p) (p_filesz p) ltac:(lia) ltac:(lia) B6) as Hlen.
  fold (seg_image img p) in Hlen. rewrite <- Hlen at 1.
  rewrite (wrap_small 32) by (unfold FLASH_WINDOW in *; lia).
  pose proof (lo_segs _ _ Hl) as Hsegs. rewrite Forall_forall in Hsegs.
  destruct (Hsegs p Hp) as [Hs1 Hs2].
  apply fl_read_ok; try done; try lia.
  - by apply slice_bytes.
  - rewrite Z.add_assoc. apply slice_at; [lia|]. apply Hl.
  - intros k Hk. by apply Hs2.
Qed.

(** One [PT_LOAD] header: its segment is copied. *)
Lemma boot_segments_load fuel i s p :
  loaded (take i lp) s → lp !! i = Some p →
  ∃ s', boot_segments u (S fuel) f offset (Z.of_nat i) (u32 (poff i)) s =
          boot_segments u fuel f offset (Z.of_nat (S i)) (u32 (poff (S i))) s' ∧
        loaded (take (S i) lp) s' ∧
        tx_log (dev s') = tx_log (dev s) ++ crlf (copy_line (Z.of_nat i) (p_filesz p) (p_vaddr p)).
Proof.
  intros Hl Hp. pose proof image as [B1 B2 B3 B4 B5 B6].
  destruct (load_prefix_lookup phs i p Hp) as [Hp' Hty]. destruct (B5 i p Hp') as [Hfit _].
  pose proof (lookup_lt_Some _ _ _ Hp') as Hi.
  pose proof (fits_at _ 9 2 _ (ehdr_fits h B2) eq_refl) as Hn. cbn in Hn.
  cbn [boot_segments].
  step_with (in_ram_pure _ s _ (ld_e_phnum_ok h _ _ B2 (lo_ehdr _ _ Hl))).
  rewrite (proj2 (Z.ltb_lt (Z.of_nat i) _)) by lia.
  destruct (read_phdr _ s i p Hl Hp') as (Hr1 & Hl1 & Hat). step_with Hr1. cbn [negb].
  set (s1 := wr (ph_at f) (phdr_bytes p) s) in *.
  step_with (in_ram_pure _ s1 _ (ld_p_type_ok p _ _ Hfit Hat)). rewrite Hty. cbn [negb Z.eqb].
  rewrite Z.eqb_refl. cbn [negb].
  step_with (in_ram_pure _ s1 _ (ld_p_filesz_ok p _ _ Hfit Hat)).
  step_with (in_ram_pure _ s1 _ (ld_p_vaddr_ok p _ _ Hfit Hat)).
  step_with (in_ram_pure _ s1 _ (ld_p_offset_ok p _ _ Hfit Hat)).
  pose proof (fits_at _ 3 8 _ Hfit eq_refl) as Hva. cbn in Hva.
  assert (p ∈ lp) as Hpin by (by eapply list_elem_of_lookup_2).
  destruct (print_ok msg_copy [Z.of_nat i; u32 (p_filesz p); p_vaddr p]
    (copy_line (Z.of_nat i) (u32 (p_filesz p)) (p_vaddr p)) s1) as (s2 & Hr2 & Hps).
  { apply Hl1. }
  { fmt_in. }
  { apply copy_call; [lia|apply (wrap_range 32); lia|lia]. }
  step_with Hr2. pose proof (loaded_print _ _ _ _ Hl1 Hps) as Hl2.
  destruct (read_segment _ s2 p Hl2 Hpin Hfit) as [Hr3 Hsz]. step_with Hr3. rewrite Hsz in Hps.
  pose proof (loaded_seg _ p s2 Hpin Hl2) as Hl3.
  set (s3 := wr (p_vaddr p) (seg_image img p) s2) in *.
  step_with (in_ram_pure _ s3 _ (ld_e_phentsize_ok h _ _ B2 (lo_ehdr _ _ Hl3))).
  exists s3. split_and!.
  - f_equal; [rewrite (wrap_small 32); lia|].
    unfold wrap. rewrite Zplus_mod_idemp_l. f_equal. lia.
  - by rewrite (take_S_r _ _ p).
  - destruct Hps as (_ & _ & Ht). cbn. by rewrite Ht.
Qed.

(** After the first other header the loop reads that header again and again. *)
Lemma boot_segments_rest fuel i s :
  loaded lp s → (length lp ≤ i)%nat → (i ≤ length phs)%nat → (length phs - i < fuel)%nat →
  ∃ s', boot_segments u fuel f offset (Z.of_nat i) (u32 (poff (length lp))) s = Ret true s' ∧
        loaded lp s' ∧ dev s' = dev s.
Proof.
  pose proof image as [B1 B2 B3 B4 B5 B6].
  pose proof (fits_at _ 9 2 _ (ehdr_fits h B2) eq_refl) as Hn. cbn in Hn.
  revert i s. induction fuel as [|fuel IH]; intros i s Hl Hj Hi Hf; [lia|]. cbn [boot_segments].
  step_with (in_ram_pure _ s _ (ld_e_phnum_ok h _ _ B2 (lo_ehdr _ _ Hl))).
  destruct (Z.ltb_spec (Z.of_nat i) (e_phnum h)) as [Hlt|Hge]; [|by exists s].
  destruct (lookup_lt_is_Some_2 phs (length lp)) as [p Hp]; [lia|].
  pose proof (load_prefix_next phs p Hp) as Hty. destruct (B5 _ p Hp) as [Hfit _].
  destruct (read_phdr _ s _ p Hl Hp) as (Hr1 & Hl1 & Hat). step_with Hr1. cbn [negb].
  step_with (in_ram_pure _ _ _ (ld_p_type_ok p _ _ Hfit Hat)).
  rewrite (proj2 (Z.eqb_neq (p_type p) PT_LOAD)) by done. cbn [negb].
  destruct (IH (S i) _ Hl1) as (s' & Hr & Hl' & Hd); [lia..|].
  exists s'. rewrite <- Hr. split; [|done]. f_equal. rewrite (wrap_small 32); lia.
Qed.

Lemma boot_segments_ok fuel i s :
  loaded (take i lp) s → (i ≤ length lp)%nat → (length phs - i < fuel)%nat →
  ∃ s', boot_segments u fuel f offset (Z.of_nat i) (u32 (poff i)) s = Ret true s' ∧
        loaded lp s' ∧ tx_log (dev s') = tx_log (dev s) ++ copy_text (Z.of_nat i) (drop i lp).
Proof.
  assert (length lp ≤ length phs)%nat as Hle.
  { clear. induction phs as [|p l IH]; cbn; [lia|]. destruct (p_type p =? PT_LOAD); cbn; lia. }
  revert i s. induction fuel as [|fuel IH]; intros i s Hl Hi Hf; [lia|].
  destruct (decide (i = length lp)) as [->|Hne].
  - rewrite take_ge in Hl by lia. rewrite drop_ge by lia.
    destruct (boot_segments_rest (S fuel) (length lp) s Hl) as (s' & Hr & Hl' & Hd); [lia..|].
    exists s'. rewrite Hd, app_nil_r. done.
  - destruct (lookup_lt_is_Some_2 lp i) as [p Hp]; [lia|].
    destruct (boot_segments_load fuel i s p Hl Hp) as (s1 & -> & Hl1 & Ht1).
    destruct (IH (S i) s1 Hl1) as (s' & Hr & Hl' & Ht); [lia..|].
    exists s'. split_and!; [done|done|]. rewrite (drop_S _ p) by done. cbn [copy_text].
    rewrite Ht, Ht1, <- !app_assoc. do 3 f_equal. lia.
Qed.

(** The image is loaded: the segments of the leading [PT_LOAD] headers are
    copied, nothing else changes but the loader's own stack, and the entry
    point is returned. *)
Lemma boot_flash_ok fuel s :
  boot_pre s → ppc64le_elf → (length phs < fuel)%nat →
  ∃ s', boot_flash u fuel f offset s = Ret (e_entry h) s' ∧ pr_ok s' ∧
    same_outside scratch (load_all img lp m0) (ram s') ∧
    tx_log (dev s') = tx_log (dev s) ++ crlf msg_trying ++ copy_text 0 lp ++
                      crlf (boot_line (u32 (e_entry h))).
Proof.
  intros Hpre [Hid Hmach] Hf. pose proof image as [B1 B2 B3 B4 B5 B6].
  destruct (boot_header s Hpre) as (s1 & Hr1 & Ht1 & Hr2 & Hl). unfold boot_flash.
  step_with Hr1. step_with Hr2. cbn [negb]. set (s2 := wr _ _ s1) in *.
  assert (∀ i, (i < 6)%nat → e_ident h !! i =
    [ELFMAG0; ELFMAG1; ELFMAG2; ELFMAG3; ELFCLASS64; ELFDATA2LSB] !! i) as Hat.
  { intros i Hi. rewrite <- Hid. by rewrite lookup_take_lt. }
  assert (in_ram (IS_ELF (ehdr_at f)) s2 = Ret true s2) as Hself.
  { apply in_ram_pure. unfold IS_ELF.
    step_with (ld_e_ident_ok h _ _ (lo_ehdr _ _ Hl) 0 _ (Hat 0%nat ltac:(lia))).
    rewrite Z.eqb_refl. cbn [negb].
    step_with (ld_e_ident_ok h _ _ (lo_ehdr _ _ Hl) 1 _ (Hat 1%nat ltac:(lia))).
    rewrite Z.eqb_refl. cbn [negb].
    step_with (ld_e_ident_ok h _ _ (lo_ehdr _ _ Hl) 2 _ (Hat 2%nat ltac:(lia))).
    rewrite Z.eqb_refl. cbn [negb].
    step_with (ld_e_ident_ok h _ _ (lo_ehdr _ _ Hl) 3 _ (Hat 3%nat ltac:(lia))). done. }
  step_with Hself. rewrite bind_assoc. step_with (ident_at s2 4 _ Hl (Hat 4%nat ltac:(lia))).
  rewrite bind_mret, Z.eqb_refl. cbn [negb]. step_with (ident_at s2 5 _ Hl (Hat 5%nat ltac:(lia))).
  rewrite Z.eqb_refl, bind_assoc.
  step_with (in_ram_pure _ s2 _ (ld_e_machine_ok h _ _ B2 (lo_ehdr _ _ Hl))).
  rewrite bind_mret, Hmach, Z.eqb_refl. cbn [negb].
  step_with (in_ram_pure _ s2 _ (ld_e_phoff_ok h _ _ B2 (lo_ehdr _ _ Hl))).
  destruct (boot_segments_ok fuel 0 s2 Hl) as (s3 & Hr3 & Hl3 & Ht3); [lia..|].
  rewrite Z.mul_0_l, Z.add_0_r in Hr3. step_with Hr3. cbn [negb].
  step_with (in_ram_pure _ s3 _ (ld_e_entry_ok h _ _ B2 (lo_ehdr _ _ Hl3))).
  destruct (print_ok msg_boot [u32 (e_entry h)] (boot_line (u32 (e_entry h))) s3) as (s4 & Hr4 & Hps).
  { apply Hl3. }
  { fmt_in. }
  { apply boot_call. apply (wrap_range 32). lia. }
  step_with Hr4. pose proof (loaded_print _ _ _ _ Hl3 Hps) as Hl4. unfold flush_cpu_icache.
  rewrite bind_mret.
  step_with (in_ram_pure _ s4 _ (ld_e_entry_ok h _ _ B2 (lo_ehdr _ _ Hl4))).
  exists s4. destruct Hps as (_ & _ & Ht4). split_and!; [done|apply Hl4|apply Hl4|].
  rewrite Ht4, Ht3. cbn [wr dev s2]. rewrite Ht1, <- !app_assoc. done.
Qed.

End image.

(** ** The header as bytes

    Whatever the flash holds, its first 64 bytes are what the loader decides on. *)

(** A little-endian PPC64 ELF header, byte by byte. *)
Definition ppc64le_hdr (hdr : list Z) : Prop :=
  take 6 hdr = [ELFMAG0; ELFMAG1; ELFMAG2; ELFMAG3; ELFCLASS64; ELFDATA2LSB] ∧
  take 2 (drop 18 hdr) = [EM_PPC64; 0].

(** The first five bytes are those of a 64-bit ELF file. *)
Definition elf64_hdr (hdr : list Z) : bool :=
  bool_decide (take 5 hdr = [ELFMAG0; ELFMAG1; ELFMAG2; ELFMAG3; ELFCLASS64]).

(** The flash has the bytes [hdr] at [offset]; the locals are mapped. *)
Record hdr_pre (m0 : mem) (offset : Z) (hdr : list Z) (s : machine D) : Prop := {
  hp_pr : pr_ok s;
  hp_mem : ram s = m0;
  hp_ehdr : mapped m0 (ehdr_at f) 64;
  hp_ph : mapped m0 (ph_at f) 56;
  hp_flash : bytes_at m0 (SPI_FLASH_BASE + offset) hdr;
  hp_bytes : bytes hdr;
  hp_length : length hdr = 64%nat;
  hp_offset : 0 ≤ offset ∧ offset + 64 ≤ FLASH_WINDOW;
}.

Lemma ppc64le_of_hdr hdr :
  bytes hdr → length hdr = 64%nat → ppc64le_elf (ehdr_of hdr) → ppc64le_hdr hdr.
Proof.
  intros Hb Hl [H1 H2]. cbn [ehdr_of e_ident e_machine] in *. split.
  - rewrite <- H1, take_take. done.
  - rewrite <- (split_field_at hdr 18 2), H2 by (done || lia). done.
Qed.

Lemma ident_elf64_hdr hdr : length hdr = 64%nat → ident_elf64 (ehdr_of hdr) = elf64_hdr hdr.
Proof.
  intros Hl. unfold ident_elf64, ident_magic, elf64_hdr. cbn [ehdr_of e_ident].
  destruct hdr as [|b0 [|b1 [|b2 [|b3 [|b4 r]]]]]; try done. cbn [take lookup list_lookup].
  rewrite take_0, <- bool_decide_and. apply bool_decide_ext. split.
  - by intros [[= -> -> -> ->] [= ->]].
  - by intros [= -> -> -> -> ->].
Qed.

(** Without a header of its kind the loader prints what it found and copies
    nothing: erased flash, text, an ELF file of another class, byte order or
    machine. *)
Lemma boot_flash_refused_hdr m0 offset hdr fuel s :
  hdr_pre m0 offset hdr s → ¬ ppc64le_hdr hdr →
  ∃ s', boot_flash u fuel f offset s = Ret ULONG_MAX s' ∧ pr_ok s' ∧
    same_outside scratch m0 (ram s') ∧
    tx_log (dev s') = tx_log (dev s) ++ crlf msg_trying ++
      crlf (if elf64_hdr hdr then msg_not_ppc else msg_not_elf) ++
      crlf (hdr_line (take 8 hdr)).
Proof.
  intros [P1 P2 P3 P4 P5 P6 P7 P8] Hno.
  destruct (boot_flash_refused m0 offset hdr (ehdr_of hdr) []) with (fuel := fuel) (s := s)
    as (s' & Hr & Hp & Hm & Ht).
  - constructor; [done|by apply ehdr_of_wf|]. rewrite ehdr_of_bytes by done.
    unfold slice. rewrite drop_0, take_ge; [done|]. rewrite P7. done.
  - rewrite P7. lia.
  - by constructor.
  - intros Hp. by apply Hno, ppc64le_of_hdr.
  - exists s'. split_and!; [done..|]. rewrite Ht, ident_elf64_hdr by done.
    cbn [ehdr_of e_ident]. by rewrite take_take.
Qed.
End boot.
