(* ===== verification/BootMain.v ===== *)
(** * The whole boot firmware

    [check_flash] and [main] of [litedram/gen-src/sdram_init/main.c], on a SoC
    whose devices besides the UART are of the class [SocDev].  The code is proved
    with triples: [does P m V] says that [m] returns from every state in which the
    console is ready, with a value and a list of accesses to devices other than the
    UART that satisfy [V], and changes memory only at the addresses in [P]. *)
From S2P Require Import Prelude CMem LibMem LibStr Soc Io Console Strtol Printf PrintfSpec Fw Elf Boot BootSpec.

(** ** Messages whose text does not matter *)

(** How long the text of an item can get. *)
Definition item_bound (str : list Z) (it : item) : Z :=
  match it with
  | ILit _ | IPct => 1
  | IDir d => Z.max (width (d_width d)) 0 +
              match d_conv d with Cs => Z.of_nat (length str) | _ => 24 end
  end.

Definition items_bound (str : list Z) (items : list item) : Z :=
  foldr (λ it n, item_bound str it + n) 0 items.

Lemma items_bound_cons str it items : items_bound str (it :: items) = item_bound str it + items_bound str items.
Proof. done. Qed.

Lemma items_bound_app str its1 its2 :
  items_bound str (its1 ++ its2) = items_bound str its1 + items_bound str its2.
Proof.
  induction its1 as [|it its IH]; [done|]. rewrite <- app_comm_cons, !items_bound_cons, IH. lia.
Qed.

Lemma items_bound_lits str fmt : items_bound str (ILit <$> fmt) = Z.of_nat (length fmt).
Proof.
  induction fmt as [|c fmt IH]; [done|]. rewrite fmap_cons, items_bound_cons, IH. cbn [length item_bound]. lia.
Qed.

(** A conversion of a number. *)
Definition int_conv (c : conv) : bool := match c with Cc | Cs => false | _ => true end.

Lemma items_bound_ints str ds :
  forallb (λ d, int_conv (d_conv d)) ds = true →
  items_bound str (IDir <$> ds) = items_bound [] (IDir <$> ds).
Proof.
  induction ds as [|d ds IH]; intros H; [done|]. cbn [forallb] in H. apply andb_prop in H as [H1 H2].
  rewrite !fmap_cons, !items_bound_cons, IH by done. f_equal. unfold item_bound. by destruct (d_conv d).
Qed.

Lemma length_render_int base upper zero ws v :
  8 ≤ base → 0 ≤ v < 2 ^ 64 →
  Z.of_nat (length (render_int base upper zero ws v)) ≤ Z.max (width ws) 0 + 22.
Proof.
  intros Hb Hv. unfold render_int. rewrite length_app, length_pad.
  assert (v < base ^ Z.of_nat 22).
  { apply (Z.lt_le_trans _ (8 ^ Z.of_nat 22)); [change (8 ^ Z.of_nat 22) with (2 ^ 66); lia|].
    apply Z.pow_le_mono_l. lia. }
  pose proof (length_itoa_le 22 base upper v ltac:(lia) ltac:(lia) ltac:(lia)). lia.
Qed.

Lemma length_render_directive str d v :
  0 ≤ v < 2 ^ 64 →
  Z.of_nat (length (render_directive (λ _, str) d v)) ≤ item_bound str (IDir d).
Proof.
  intros Hv. unfold item_bound.
  assert (∀ k, 0 ≤ k → 0 ≤ wrap (8 * lenmod_size (d_len d)) k < 2 ^ 64 ∧
               0 ≤ wrap (8 * lenmod_size (d_len d)) (- v) < 2 ^ 64) as Hw.
  { intros k Hk. assert (2 ^ (8 * lenmod_size (d_len d)) ≤ 2 ^ 64) by (destruct (d_len d); done).
    assert (0 ≤ 8 * lenmod_size (d_len d)) by (destruct (d_len d); done).
    pose proof (wrap_range (8 * lenmod_size (d_len d)) k ltac:(lia)).
    pose proof (wrap_range (8 * lenmod_size (d_len d)) (- v) ltac:(lia)). lia. }
  destruct (Hw v ltac:(lia)) as [H1 H2].
  unfold render_directive, render_dec, render_ptr.
  destruct (d_conv d); cbn [length];
    try (repeat case_match; cbn [length];
         match goal with |- context [render_int ?b ?up ?z ?w ?x] =>
           pose proof (length_render_int b up z w x ltac:(lia) ltac:(lia)) end; lia).
  - rewrite !length_app, length_pad. cbn [length].
    pose proof (length_itoa_le 16 16 false v ltac:(lia) ltac:(lia) ltac:(lia)). lia.
  - rewrite length_app, length_pad. cbn [length]. lia.
  - rewrite length_app, length_pad. lia.
Qed.

(** A call whose arguments fit prints something, and it fits the buffer. *)
Lemma call_exists a str items args :
  Forall wf_item items → args_fit a items args → items_bound str items < PRINTF_BUFFER →
  (length items ≤ length (format_text items))%nat →
  ∃ out, printf_call a str (format_text items) args out.
Proof.
  intros Hwf Hfit Hb Hl.
  assert (∃ out, render (λ _, str) items args = Some out ∧
    Z.of_nat (length out) ≤ items_bound str items) as (out & Hr & Hlen).
  { clear Hwf Hb Hl. revert args Hfit. induction items as [|it items IH]; intros args Hfit.
    { by exists []. }
    change (items_bound str (it :: items)) with (item_bound str it + items_bound str items).
    destruct it as [c| |d]; cbn [args_fit] in Hfit.
    1,2: destruct (IH args Hfit) as (o & Ho & Hlo); eexists (_ :: o); cbn [render]; rewrite Ho;
      split; [done|]; cbn [length item_bound]; lia.
    destruct args as [|v args]; [done|]. destruct Hfit as (Hv & _ & _ & Hfit).
    destruct (IH args Hfit) as (o & Ho & Hlo).
    exists (render_directive (λ _, str) d v ++ o). cbn [render]. rewrite Ho. split; [done|].
    rewrite length_app. pose proof (length_render_directive str d v Hv). lia. }
  exists out, items. split_and!; try done. lia.
Qed.

(** ** The SoC around the console *)

#[export] Instance uart_event_dec u ev : Decision (uart_event u ev).
Proof. destruct ev; apply _. Defined.

Definition uart_addr (u : uart_state) (a : Z) : Prop := uart_base u ≤ a < uart_base u + 0x28.

(** Registers of the system controller that only describe the SoC. *)
Definition info_regs : list Z :=
  [SYS_REG_SIGNATURE; SYS_REG_INFO; SYS_REG_BRAMINFO; SYS_REG_DRAMINFO; SYS_REG_CLKINFO;
   SYS_REG_DRAMINITINFO; SYS_REG_SPI_INFO].

(** Accesses elsewhere do not concern the UART; the description of the SoC is
    constant; and a flash chip that is asked for its status is busy for [wip]
    more times, at most [wip_bound]. *)
Class SocDev (D : Type) `{!Bus D} (u : uart_state) `{!Uart D u} := {
  sys : Z → Z;
  wip : D → nat;
  wip_bound : nat;
  other_load n a d :
    ¬ uart_addr u a → let d' := snd (bus_load n a d) in
    tx_busy d' = tx_busy d ∧ tx_log d' = tx_log d;
  other_store n a v d :
    ¬ uart_addr u a → let d' := bus_store n a v d in
    tx_busy d' = tx_busy d ∧ tx_log d' = tx_log d;
  sys_load d r : r ∈ info_regs → u64 (fst (bus_load 8 (SYSCON_BASE + r) d)) = sys r;
  wip_le d : (wip d ≤ wip_bound)%nat;
  wip_poll d :
    let d1 := bus_store 1 (SPI_FCTRL_BASE + SPI_REG_CTRL) SPI_REG_CTRL_MANUAL_CS d in
    let d2 := bus_store 1 (SPI_FCTRL_BASE + SPI_REG_DATA) SPI_CMD_RDSR d1 in
    let '(v, d3) := bus_load 1 (SPI_FCTRL_BASE + SPI_REG_DATA) d2 in
    let d4 := bus_store 1 (SPI_FCTRL_BASE + SPI_REG_CTRL) 0 d3 in
    Z.testbit v 0 = negb (wip d =? 0)%nat ∧ wip d4 = Nat.pred (wip d);
}.

Section does.
Context {D : Type} `{!Bus D} (u : uart_state) `{!Uart D u, !Printf D, !PrintfOk D u}.
Abbreviation MM := (M (machine D)).

(** The accesses that do not go to the console. *)
Definition others (evs : list io_event) : list io_event := filter (λ ev, ¬ uart_event u ev) evs.

Lemma others_uart evs : Forall (uart_event u) evs → others evs = [].
Proof.
  induction 1 as [|ev evs He _ IH]; [done|]. unfold others. rewrite filter_cons_False; [apply IH|tauto].
Qed.

Lemma others_app e1 e2 : others (e1 ++ e2) = others e1 ++ others e2.
Proof. apply filter_app. Qed.

(** Memory that is not the console's stays mapped. *)
Definition still_mapped (m m' : mem) : Prop :=
  ∀ k, ¬ pr_addr k → is_Some (m !! k) → is_Some (m' !! k).

Lemma still_mapped_same m m' : same_outside pr_addr m m' → still_mapped m m'.
Proof. intros H k Hk. by rewrite H. Qed.

Definition does {A} (P : Z → Prop) (m : MM A) (V : A → list io_event → Prop) : Prop :=
  ∀ s, pr_ok s → ∃ a s' evs t, m s = Ret a s' ∧ pr_ok s' ∧
    (same_outside P (ram s) (ram s') ∧ still_mapped (ram s) (ram s')) ∧
    tx_log (dev s') = tx_log (dev s) ++ t ∧ io_trace s' = io_trace s ++ evs ∧ V a (others evs).

Lemma does_weaken {A} (P P' : Z → Prop) (m : MM A) (V V' : A → list io_event → Prop) :
  does P m V → (∀ k, P k → P' k) → (∀ a e, V a e → V' a e) → does P' m V'.
Proof.
  intros H HP HV s Hs. destruct (H s Hs) as (a & s' & evs & t & Hr & H1 & H2 & H3 & H4 & H5).
  destruct H2 as [H2 H2']. exists a, s', evs, t. split_and!; eauto using same_outside_sub.
Qed.

Lemma does_ret {A} P (a : A) (V : A → list io_event → Prop) : V a [] → does P (mret a) V.
Proof.
  intros HV s Hs. exists a, s, [], []. rewrite !app_nil_r. split_and!; first [done|by apply still_mapped_same].
Qed.

Lemma does_bind {A B} P (m : MM A) (f : A → MM B) V W :
  does P m V → (∀ a e1, V a e1 → does P (f a) (λ b e2, W b (e1 ++ e2))) → does P (m ≫= f) W.
Proof.
  intros Hm Hf s Hs. destruct (Hm s Hs) as (a & s1 & e1 & t1 & R1 & A1 & M1 & T1 & E1 & V1).
  destruct (Hf a _ V1 s1 A1) as (b & s2 & e2 & t2 & R2 & A2 & M2 & T2 & E2 & V2).
  exists b, s2, (e1 ++ e2), (t1 ++ t2). rewrite (bind_Ret _ _ _ _ _ R1), T2, T1, E2, E1, others_app.
  destruct M1 as [M1 M1'], M2 as [M2 M2'].
  split_and!; first [done|by eapply same_outside_trans|by rewrite app_assoc|intros k Hk Hk'; eauto].
Qed.

Lemma does_print P items args :
  (∀ k, pr_addr k → P k) → format_text items ∈ pr_formats → Forall wf_item items →
  args_fit pr_str_at items args → items_bound pr_str items < PRINTF_BUFFER →
  (length items ≤ length (format_text items))%nat →
  does P (print u (format_text items) args) (λ _ e, e = []).
Proof.
  intros HP Hin Hwf Hfit Hb Hl s Hs.
  destruct (call_exists pr_str_at pr_str items args Hwf Hfit Hb Hl) as [out Hc].
  destruct (printf_ok _ args out s Hs Hin Hc) as (s' & evs & Hr & H1 & H2 & H3 & H4 & H5).
  exists tt, s', evs, (crlf out). unfold print. rewrite (bind_Ret _ _ _ _ _ Hr).
  split_and!; eauto using same_outside_sub, still_mapped_same, others_uart.
Qed.

Lemma does_plain P fmt :
  (∀ k, pr_addr k → P k) → fmt ∈ pr_formats → plain fmt = true →
  does P (print u fmt []) (λ _ e, e = []).
Proof.
  intros HP Hin Hp s Hs. pose proof (plain_call pr_str_at pr_str fmt Hp) as Hc.
  destruct (printf_ok _ _ _ s Hs Hin Hc) as (s' & evs & Hr & H1 & H2 & H3 & H4 & H5).
  exists tt, s', evs, (crlf fmt). unfold print. rewrite (bind_Ret _ _ _ _ _ Hr).
  split_and!; eauto using same_outside_sub, still_mapped_same, others_uart.
Qed.

(** A message with numbers in it. *)
Lemma does_ints P pre (ds : list directive) post args :
  let items := (ILit <$> pre) ++ (IDir <$> ds) ++ (ILit <$> post) in
  (∀ k, pr_addr k → P k) → format_text items ∈ pr_formats → plain pre = true → plain post = true →
  Forall wf_item (IDir <$> ds) → forallb (λ d, int_conv (d_conv d)) ds = true →
  Forall2 (λ _ v, 0 ≤ v < 2 ^ 64) ds args → items_bound [] items < PRINTF_BUFFER →
  does P (print u (format_text items) args) (λ _ e, e = []).
Proof.
  intros items HP Hin Hpre Hpost Hwf Hint Hargs Hb. apply does_print; try done.
  - unfold items. rewrite !Forall_app. split_and!; [by apply plain_lits|done|by apply plain_lits].
  - unfold items. apply args_fit_lits. clear -Hint Hargs. revert args Hargs.
    induction ds as [|d ds IH]; intros args Hargs; inversion Hargs; subst; cbn.
    + pose proof (args_fit_lits pr_str_at post [] [] I) as H. by rewrite app_nil_r in H.
    + cbn in Hint. apply andb_prop in Hint as [Hd Hds]. split; [done|].
      split; [intros E; by rewrite E in Hd|]. split; [intros E; by rewrite E in Hd|]. by apply IH.
  - unfold items in *. rewrite !items_bound_app, !items_bound_lits in *.
    by rewrite (items_bound_ints pr_str) by done.
  - unfold items. rewrite !format_text_lits, !length_app, !length_fmap.
    assert (∀ its, length its ≤ length (format_text its))%nat as Hg.
    { induction its as [|it its IH]; [done|].
      change (format_text (it :: its)) with (item_text it ++ format_text its). rewrite length_app.
      assert (0 < length (item_text it))%nat by (destruct it; cbn; lia). cbn [length]. lia. }
    specialize (Hg ((IDir <$> ds) ++ (ILit <$> post))). rewrite length_app, !length_fmap in Hg. lia.
Qed.

Context `{!SocDev D u}.

Lemma does_load P n a :
  ¬ uart_addr u a →
  does P (io_load n a) (λ v e, e = [Ld n a v] ∧ 0 ≤ v < 2 ^ (8 * Z.of_nat n) ∧
    ∃ d, v = wrap (8 * Z.of_nat n) (fst (bus_load n a d))).
Proof.
  intros Ha s Hs. destruct (other_load n a (dev s) Ha) as [Hb Hl].
  destruct (bus_load n a (dev s)) as [v d] eqn:E. cbn [snd] in Hb, Hl.
  eexists _, _, [_], []. unfold io_load. rewrite E. split; [done|]. cbn [ram dev io_trace].
  split; [by apply (pr_ok_ram s)|]. split; [by split; [|apply still_mapped_same]|].
  split; [by rewrite app_nil_r|]. split; [done|].
  unfold others. rewrite filter_cons_True, filter_nil by exact Ha. split; [done|]. split.
  - apply Z.mod_pos_bound. apply Z.pow_pos_nonneg; lia.
  - exists (dev s). by rewrite E.
Qed.

Lemma does_store P n a v :
  ¬ uart_addr u a → does P (io_store n a v) (λ _ e, e = [St n a (wrap (8 * Z.of_nat n) v)]).
Proof.
  intros Ha s Hs. destruct (other_store n a (wrap (8 * Z.of_nat n) v) (dev s) Ha) as [Hb Hl].
  eexists tt, _, [_], []. unfold io_store. split; [done|]. cbn [ram dev io_trace].
  split; [by apply (pr_ok_ram s)|]. split; [by split; [|apply still_mapped_same]|].
  split; [by rewrite app_nil_r|]. split; [done|].
  unfold others. by rewrite filter_cons_True, filter_nil by exact Ha.
Qed.
End does.

(** ** The SPI flash *)

(** The chips that can do quad reads. *)
Inductive flash_chip := Spansion | Micron | Issi.

Definition chip_of (id0 id1 id2 : Z) : option flash_chip :=
  if bool_decide (id0 = 0x01 ∧ id1 ∈ [0x02; 0x20; 0x60] ∧ id2 ∈ [0x18; 0x19]) then Some Spansion
  else if bool_decide (id0 = 0x20 ∧ id1 = 0xba ∧ id2 = 0x18) then Some Micron
  else if bool_decide (id0 = 0x9d ∧ id1 ∈ [0x60; 0x70] ∧ id2 = 0x19) then Some Issi
  else None.

(** The quad mode configuration of the controller for a chip. *)
Definition chip_autocfg (c : flash_chip) : Z :=
  match c with Issi => issi_autocfg | Spansion | Micron => default_autocfg end.

(** Nothing answers: the data lines are stuck at 0 or at 1. *)
Definition no_flash (id0 id1 id2 : Z) : Prop :=
  (id0 = 0 ∧ id1 = 0 ∧ id2 = 0) ∨ (id0 = 0xff ∧ id1 = 0xff ∧ id2 = 0xff).

(** One command to the chip: it is selected, the bytes [out] go to it and the
    bytes [inp] come from it, and it is deselected. *)
Definition spi_data : Z := SPI_FCTRL_BASE + SPI_REG_DATA.
Definition spi_ctrl : Z := SPI_FCTRL_BASE + SPI_REG_CTRL.
Definition spi_xfer (out inp : list Z) : list io_event :=
  [St 1 spi_ctrl SPI_REG_CTRL_MANUAL_CS] ++ (St 1 spi_data <$> out) ++ (Ld 1 spi_data <$> inp) ++
  [St 1 spi_ctrl 0].

(** The status is read until the write-in-progress bit is clear. *)
Definition wip_events (e : list io_event) : Prop :=
  ∃ busy last, Forall (λ sr, Z.testbit sr 0 = true) busy ∧ Z.testbit last 0 = false ∧
    e = flat_map (λ sr, spi_xfer [SPI_CMD_RDSR] [sr]) (busy ++ [last]).

(** The commands that put a chip into quad mode, when it is not in it already:
    write enable, then a write of the register with the quad bit set, then the wait
    for its end. *)
Definition quad_events (c : flash_chip) (e : list io_event) : Prop :=
  match c with
  | Micron => e = []
  | Spansion => ∃ cf1 wait, is_byte cf1 ∧ wip_events wait ∧
      e = [St 1 spi_data SPI_CMD_RDCR] ++ spi_xfer [SPI_CMD_RDCR] [cf1] ++
        (if Z.testbit cf1 1 then [] else
           spi_xfer [SPI_CMD_WREN] [] ++
           spi_xfer [SPI_CMD_WWR; 0; Z.setbit cf1 1] [] ++ [St 1 spi_ctrl 0] ++ wait)
  | Issi => ∃ sr wait, is_byte sr ∧ wip_events wait ∧
      e = spi_xfer [SPI_CMD_RDSR] [sr] ++
        (if Z.testbit sr 6 then [] else
           spi_xfer [SPI_CMD_WREN] [] ++ spi_xfer [SPI_CMD_WWR; Z.setbit sr 6] [] ++ wait)
  end.

(** The configuration, written when the chip can do quad reads. *)
Definition cfg_events (chip : option flash_chip) (e : list io_event) : Prop :=
  let reg := SPI_FCTRL_BASE + SPI_REG_AUTO_CFG in
  match chip with
  | Some c => ∃ e1 cfg, quad_events c e1 ∧
      e = e1 ++ [Ld 4 reg cfg;
                 St 4 reg (u32 (Z.lor (Z.land cfg SPI_REG_AUTO_CFG_CKDIV_MASK) (chip_autocfg c)))]
  | None => e = []
  end.

Lemma setbit_byte x i : 0 ≤ i < 8 → is_byte x → u8 (Z.lor x (2 ^ i)) = Z.setbit x i.
Proof.
  intros Hi Hx. rewrite Z.setbit_spec'. apply Z.bits_inj'. intros j Hj. unfold wrap.
  destruct (Z.ltb_spec j 8).
  - by rewrite Z.mod_pow2_bits_low by lia.
  - rewrite Z.mod_pow2_bits_high, Z.lor_spec, Z.pow2_bits_false by lia.
    by rewrite (wrap_testbit_high 8 x).
Qed.

Section flash.
Context {D : Type} `{!Bus D} (u : uart_state) `{!Uart D u, !Printf D, !PrintfOk D u, !SocDev D u}.
Context (P : Z → Prop) (fuel : nat).
Abbreviation MM := (M (machine D)).
Hypothesis base_ok : uart_base u = UART_BASE.
Hypothesis fmts_ok : Forall (λ m, m ∈ pr_formats) boot_formats.
Hypothesis P_ok : ∀ k, pr_addr k → P k.
Hypothesis fuel_ok : (wip_bound < fuel)%nat.

Lemma fmt_in m : m ∈ boot_formats → m ∈ pr_formats.
Proof. rewrite Forall_forall in fmts_ok. apply fmts_ok. Qed.

Lemma spi_addr k : SPI_FCTRL_BASE ≤ k → ¬ uart_addr u k.
Proof. unfold uart_addr. rewrite base_ok. unfold UART_BASE, SPI_FCTRL_BASE. lia. Qed.

(** Membership in the list of formats. *)
Ltac fmt_here := unfold boot_formats; repeat (apply list_elem_of_here || apply list_elem_of_further).

(** One access, and one message, of a longer piece of code. *)
Ltac does_st := eapply does_bind; [by apply (does_store u), spi_addr|intros _ _ ->].
Ltac does_ld x H :=
  eapply does_bind; [by apply (does_load u), spi_addr|intros x _ (-> & H & _)];
  change (2 ^ (8 * Z.of_nat 1)) with 256 in H.
Ltac does_say :=
  eapply does_bind; [apply (does_plain u); [done|apply fmt_in; fmt_here|done]|intros _ _ ->].

Lemma does_wren : does u P send_wren (λ _ e, e = spi_xfer [SPI_CMD_WREN] []).
Proof.
  unfold send_wren, fl_cs_on, fl_cs_off. do 2 does_st.
  eapply does_weaken; [by apply (does_store u), spi_addr|done|]. by intros _ _ ->.
Qed.

(** Waiting for the end of a write ends, since the chip is busy only for a while. *)
Lemma wait_wip_run n s :
  (wip (dev s) < n)%nat → pr_ok s →
  ∃ s' evs, wait_wip n s = Ret tt s' ∧ pr_ok s' ∧ ram s' = ram s ∧
    tx_log (dev s') = tx_log (dev s) ∧ io_trace s' = io_trace s ++ evs ∧ wip_events (others u evs).
Proof.
  revert s. induction n as [|n IH]; intros s Hn Hs; [lia|]. cbn [wait_wip].
  pose proof (spi_addr (SPI_FCTRL_BASE + SPI_REG_CTRL) ltac:(done)) as Hc.
  pose proof (spi_addr (SPI_FCTRL_BASE + SPI_REG_DATA) ltac:(done)) as Hd.
  set (d1 := bus_store 1 (SPI_FCTRL_BASE + SPI_REG_CTRL) SPI_REG_CTRL_MANUAL_CS (dev s)).
  set (d2 := bus_store 1 (SPI_FCTRL_BASE + SPI_REG_DATA) SPI_CMD_RDSR d1).
  pose proof (wip_poll (dev s)) as Hw. cbv zeta in Hw. fold d1 d2 in Hw.
  destruct (other_store 1 _ SPI_REG_CTRL_MANUAL_CS (dev s) Hc) as [B1 L1]. fold d1 in B1, L1.
  destruct (other_store 1 _ SPI_CMD_RDSR d1 Hd) as [B2 L2]. fold d2 in B2, L2.
  destruct (other_load 1 _ d2 Hd) as [B3 L3].
  destruct (bus_load 1 (SPI_FCTRL_BASE + SPI_REG_DATA) d2) as [v d3] eqn:E3. cbn [snd] in B3, L3.
  destruct (other_store 1 _ 0 d3 Hc) as [B4 L4]. destruct Hw as [Hv Hw].
  set (d4 := bus_store 1 (SPI_FCTRL_BASE + SPI_REG_CTRL) 0 d3) in *.
  set (evs := spi_xfer [SPI_CMD_RDSR] [u8 v]).
  set (s1 := Machine (ram s) d4 (io_trace s ++ evs)).
  assert (pr_ok s1) as Hs1 by (apply (pr_ok_ram s); [done|done|congruence]).
  assert (others u evs = evs) as Hev.
  { unfold others, evs, spi_xfer. cbn [fmap list_fmap app].
    by repeat (rewrite filter_cons_True; [f_equal|done]). }
  rewrite (bind_Ret _ _ s tt (Machine (ram s) d1 (io_trace s ++ take 1 evs))) by done.
  rewrite (bind_Ret _ _ _ tt (Machine (ram s) d2 (io_trace s ++ take 2 evs)))
    by (unfold writeb, io_store; cbn [ram dev io_trace]; by rewrite <- app_assoc).
  rewrite (bind_Ret _ _ _ (u8 v) (Machine (ram s) d3 (io_trace s ++ take 3 evs)))
    by (unfold readb, io_load; cbn [ram dev io_trace]; rewrite E3, <- app_assoc; done).
  rewrite (bind_Ret _ _ _ tt s1)
    by (unfold fl_cs_off, writeb, io_store; cbn [ram dev io_trace]; by rewrite <- app_assoc).
  assert (Z.testbit (u8 v) 0 = negb (wip (dev s) =? 0)%nat) as Hbit by (by rewrite testbit_wrap, Hv by lia).
  rewrite (Z.land_ones _ 1) by lia. change (2 ^ 1) with 2. rewrite <- Z.bit0_mod, Hbit.
  destruct (Nat.eqb_spec (wip (dev s)) 0) as [E|E]; cbn.
  { exists s1, evs. split_and!; try done; [cbn; congruence|]. rewrite Hev. by exists [], (u8 v). }
  destruct (IH s1) as (s2 & e2 & R & A & M & T & Tr & busy & last & F1 & F2 & F3); [cbn; lia|done|].
  exists s2, (evs ++ e2). rewrite others_app, Hev, F3. cbn in M, T, Tr.
  split_and!; [done|done|done|congruence|by rewrite Tr, app_assoc|].
  exists (u8 v :: busy), last. by split_and!; [constructor|done|].
Qed.

Lemma does_wait : does u P (wait_wip fuel) (λ _ e, wip_events e).
Proof.
  intros s Hs. pose proof (wip_le (dev s)).
  destruct (wait_wip_run fuel s ltac:(lia) Hs) as (s' & evs & R & A & M & T & Tr & F).
  exists tt, s', evs, []. rewrite app_nil_r, M. split_and!; first [done|by intros k].
Qed.

(** The directives of the messages with numbers. *)
Definition hex2_dir : directive := {| d_zero := true; d_width := [50]; d_len := LNone; d_conv := Cx |}.
Definition hex16_dir : directive := {| d_zero := true; d_width := [49; 54]; d_len := Lll; d_conv := Cx |}.
Definition hex_dir : directive := {| d_zero := false; d_width := []; d_len := LNone; d_conv := Cx |}.
Definition long_dir : directive := {| d_zero := false; d_width := []; d_len := Ll; d_conv := Cd |}.

(** [print] of a message made of [pre], the directives [ds] and [post]. *)
Ltac says_ints pre ds post :=
  apply (does_ints u P pre ds post);
  [ assumption | apply fmt_in; fmt_here | reflexivity | reflexivity
  | repeat (apply Forall_cons; split; [by apply wf_dir|]); constructor
  | reflexivity
  | repeat (apply Forall2_cons; split; [|]); try constructor; unfold is_byte in *; try lia
  | vm_compute; reflexivity ].

Lemma wip_events_ready : wip_events (spi_xfer [SPI_CMD_RDSR] [0]).
Proof. by exists [], 0. Qed.

Lemma does_spansion : does u P (check_spansion_quad_mode u fuel) (λ _ e, quad_events Spansion e).
Proof.
  unfold check_spansion_quad_mode, fl_cs_on, fl_cs_off. do 3 does_st. does_ld cf1 Hcf1. does_st.
  eapply does_bind; [says_ints (lit " Cypress/Spansion (CF1=") [hex2_dir] [41]|]. intros _ _ ->.
  change 0x02 with (2 ^ 1). rewrite tst_pow2 by lia.
  destruct (Z.testbit cf1 1) eqn:Ebit.
  { apply does_ret. eexists cf1, _. split; [done|]. split; [apply wip_events_ready|]. by rewrite Ebit. }
  does_say. eapply does_bind; [apply does_wren|intros _ _ ->]. do 6 does_st.
  eapply does_weaken; [apply does_wait|done|]. intros ? wait Hw. exists cf1, wait.
  split; [done|]. split; [done|]. rewrite Ebit, <- (setbit_byte cf1 1) by (done || lia). done.
Qed.

Lemma does_issi :
  does u P (check_enable_issi_quad u fuel) (λ a e, a = issi_autocfg ∧ quad_events Issi e).
Proof.
  unfold check_enable_issi_quad, fl_cs_on, fl_cs_off. do 2 does_st. does_ld sr Hsr. does_st.
  assert ((Z.land sr 64 =? 0) = negb (Z.testbit sr 6)) as ->.
  { pose proof (tst_pow2 sr 6 ltac:(lia)) as H. unfold tst in H. change (2 ^ 6) with 64 in H.
    rewrite <- H. by rewrite negb_involutive. }
  destruct (Z.testbit sr 6) eqn:Ebit; cbn [negb].
  { eapply (does_bind u P _ _ (λ _ e, e = [])); [by apply does_ret|intros _ _ ->]. apply does_ret. split; [done|].
    eexists sr, _. split; [done|]. split; [apply wip_events_ready|]. by rewrite Ebit. }
  eapply (does_bind u P _ _ (λ _ e, ∃ wait, wip_events wait ∧
    e = spi_xfer [SPI_CMD_WREN] [] ++ spi_xfer [SPI_CMD_WWR; Z.setbit sr 6] [] ++ wait)).
  - does_say. eapply does_bind; [apply does_wren|intros _ _ ->]. do 4 does_st.
    eapply does_weaken; [apply does_wait|done|]. intros ? wait Hw. exists wait. split; [done|].
    rewrite <- (setbit_byte sr 6) by (done || lia). done.
  - intros _ e (wait & Hw & ->). apply does_ret. split; [done|]. exists sr, wait. split; [done|].
    split; [done|]. by rewrite Ebit, app_nil_r.
Qed.

(** *** The whole identification *)

Lemma issi_id id1 : is_byte id1 → (Z.land id1 (Z.lnot 0x10) =? 0x60) = bool_decide (id1 ∈ [0x60; 0x70]).
Proof.
  intros Hb. assert (Forall (λ x, (Z.land x (Z.lnot 0x10) =? 0x60) = bool_decide (x ∈ [0x60; 0x70]))
    (seqZ 0 256)) as H by decided.
  rewrite Forall_forall in H. apply H. apply elem_of_seqZ. unfold is_byte in Hb. lia.
Qed.

Lemma check_flash_tail (chip : option flash_chip) autocfg e0 :
  match chip with Some c => quad_events c e0 ∧ autocfg = chip_autocfg c | None => e0 = [] end →
  does u P
    ((if bool_decide (is_Some chip) then
        print u msg_quad [];;
        cfg ← readl (SPI_FCTRL_BASE + SPI_REG_AUTO_CFG);
        let cfg := Z.land cfg SPI_REG_AUTO_CFG_CKDIV_MASK in
        let cfg := Z.lor cfg autocfg in
        writel cfg (SPI_FCTRL_BASE + SPI_REG_AUTO_CFG)
      else mret tt);;
     print u msg_nl [];;
     mret true)
    (λ r e, r = true ∧ cfg_events chip (e0 ++ e)).
Proof.
  intros He0. eapply (does_bind u P _ _ (λ _ e, cfg_events chip (e0 ++ e))).
  - destruct chip as [c|]; cbn [bool_decide].
    2:{ apply does_ret. by rewrite He0. }
    rewrite bool_decide_eq_true_2 by done. destruct He0 as [He0 ->].
    does_say. eapply does_bind; [by apply (does_load u), spi_addr|]. intros cfg _ (-> & _).
    eapply does_weaken; [by apply (does_store u), spi_addr|done|]. intros _ _ ->. by exists e0, cfg.
  - intros _ e1 He1. does_say. apply does_ret. by rewrite app_nil_r.
Qed.

Lemma no_flash_ids id0 id1 id2 :
  is_byte id0 → is_byte id1 → is_byte id2 →
  (Z.lor (Z.lor id0 id1) id2 =? 0) || (Z.land (Z.land id0 id1) id2 =? 0xff) = true ↔ no_flash id0 id1 id2.
Proof.
  intros H0 H1 H2. rewrite orb_true_iff, !Z.eqb_eq, !Z.lor_eq_0_iff. unfold no_flash.
  assert (∀ x y, is_byte x → Z.land x y = 0xff → x = 0xff) as Hff.
  { intros x y Hx E. unfold is_byte in Hx.
    apply Z.bits_inj'. intros i Hi. pose proof (f_equal (λ z, Z.testbit z i) E) as Ei. cbn beta in Ei.
    rewrite Z.land_spec in Ei. change 255 with (Z.ones 8) in Ei |- *.
    rewrite Z.testbit_ones_nonneg in Ei |- * by lia. destruct (Z.ltb_spec i 8).
    - by apply andb_prop in Ei as [-> _].
    - by apply (wrap_testbit_high 8 x). }
  split.
  - intros [[[-> ->] ->]|E]; [by left|]. right. split_and!.
    + apply (Hff _ (Z.land id1 id2)); [done|by rewrite Z.land_assoc].
    + apply (Hff _ (Z.land id0 id2)); [done|]. by rewrite Z.land_assoc, (Z.land_comm id1).
    + apply (Hff _ (Z.land id0 id1)); [done|]. by rewrite Z.land_comm.
  - intros [(-> & -> & ->)|(-> & -> & ->)]; [by left|by right].
Qed.

(** What the three tests on the identification select. *)
Lemma chip_of_tests id0 id1 id2 :
  is_byte id1 →
  let spansion := (id0 =? 0x01) && ((id1 =? 0x02) || (id1 =? 0x20) || (id1 =? 0x60)) &&
                  ((id2 =? 0x18) || (id2 =? 0x19)) in
  let micron := (id0 =? 0x20) && (id1 =? 0xba) && (id2 =? 0x18) in
  let issi := (id0 =? 0x9d) && (Z.land id1 (Z.lnot 0x10) =? 0x60) && (id2 =? 0x19) in
  chip_of id0 id1 id2 =
    (if spansion then Some Spansion else if micron then Some Micron
     else if issi then Some Issi else None) ∧
  (spansion = true → micron = false ∧ issi = false) ∧ (micron = true → issi = false).
Proof.
  intros Hb spansion micron issi.
  assert (bool_decide (id0 = 0x01 ∧ id1 ∈ [0x02; 0x20; 0x60] ∧ id2 ∈ [0x18; 0x19]) = spansion) as E1.
  { apply Bool.eq_iff_eq_true. rewrite bool_decide_eq_true.
    unfold spansion. rewrite !andb_true_iff, !orb_true_iff, !Z.eqb_eq. set_solver. }
  assert (bool_decide (id0 = 0x20 ∧ id1 = 0xba ∧ id2 = 0x18) = micron) as E2.
  { apply Bool.eq_iff_eq_true. rewrite bool_decide_eq_true. unfold micron.
    rewrite !andb_true_iff, !Z.eqb_eq. tauto. }
  assert (bool_decide (id0 = 0x9d ∧ id1 ∈ [0x60; 0x70] ∧ id2 = 0x19) = issi) as E3.
  { apply Bool.eq_iff_eq_true. rewrite bool_decide_eq_true. unfold issi. rewrite (issi_id id1 Hb).
    rewrite !andb_true_iff, !Z.eqb_eq, bool_decide_eq_true. tauto. }
  unfold chip_of. rewrite E1, E2, E3. split; [done|].
  unfold spansion, micron, issi. destruct (Z.eqb_spec id0 1) as [->|]; [done|].
  destruct (Z.eqb_spec id0 32) as [->|]; done.
Qed.

(** [check_flash] reads the identification of the chip, returns whether there is
    one, puts a chip it knows into quad mode and configures the controller once, at
    the end; the clock divider stays as it was. *)
Lemma check_flash_ok :
  does u P (check_flash u fuel) (λ r e, ∃ id0 id1 id2 e',
    e = spi_xfer [SPI_CMD_RDID] [id0; id1; id2] ++ e' ∧ (r = false ↔ no_flash id0 id1 id2) ∧
    cfg_events (chip_of id0 id1 id2) e').
Proof.
  unfold check_flash, fl_cs_on, fl_cs_off. do 2 does_st.
  does_ld id0 H0. does_ld id1 H1. does_ld id2 H2. does_st.
  eapply does_bind.
  { says_ints (lit "  SPI FLASH ID: ") [hex2_dir; hex2_dir; hex2_dir] (@nil Z). }
  intros _ _ ->. pose proof (no_flash_ids id0 id1 id2 H0 H1 H2) as Hno.
  destruct (_ || _).
  { apply does_ret. exists id0, id1, id2, []. split; [done|]. split; [tauto|].
    destruct (proj1 Hno eq_refl) as [(-> & -> & ->)|(-> & -> & ->)]; done. }
  assert (¬ no_flash id0 id1 id2) as Hn by (intros ?%Hno; done). clear Hno.
  destruct (chip_of_tests id0 id1 id2 H1) as (Hcfg & Hx1 & Hx2). cbv zeta in Hcfg, Hx1, Hx2.
  set (spansion := (id0 =? 0x01) && _ && _) in *. set (micron := (id0 =? 0x20) && _ && _) in *.
  set (issi := (id0 =? 0x9d) && _ && _) in *.
  eapply (does_bind u P _ _ (λ q e, q = spansion ∧ if spansion then quad_events Spansion e else e = [])).
  { destruct spansion; [|by apply does_ret].
    eapply does_bind; [apply does_spansion|]. intros ? e He. apply does_ret. by rewrite app_nil_r. }
  intros q e1 (-> & He1).
  eapply (does_bind u P _ _ (λ q e, q = spansion || micron ∧ e = [])).
  { destruct micron; [does_say|]; apply does_ret; by rewrite ?orb_true_r, ?orb_false_r. }
  intros q _ (-> & ->).
  eapply (does_bind u P _ _ (λ '(a, q) e, q = spansion || micron || issi ∧
    (if issi then quad_events Issi e else e = []) ∧ a = if issi then issi_autocfg else default_autocfg)).
  { destruct issi; [|apply does_ret; by rewrite orb_false_r].
    does_say. eapply does_bind; [apply does_issi|]. intros a e [-> He]. apply does_ret. cbn.
    by rewrite app_nil_r, orb_true_r. }
  intros [a q] e2 (-> & He2 & ->).
  assert (spansion || micron || issi = bool_decide (is_Some (chip_of id0 id1 id2))) as ->.
  { rewrite Hcfg. by destruct spansion, micron, issi. }
  eapply does_weaken; [apply (check_flash_tail (chip_of id0 id1 id2) _ (e1 ++ e2))|done|].
  - rewrite Hcfg. clearbody spansion micron issi.
    destruct spansion; [destruct (Hx1 eq_refl) as [-> ->]; by rewrite He2, app_nil_r|].
    destruct micron; [rewrite (Hx2 eq_refl) in *; by rewrite He1, He2|].
    by destruct issi; rewrite He1, ?He2.
  - intros r e [-> He]. rewrite <- app_assoc in He. by exists id0, id1, id2, (e1 ++ e2 ++ e).
Qed.
End flash.

(** ** [main] *)

Definition in_dram (k : Z) : Prop := DRAM_BASE ≤ k < BRAM_BASE.

Section main.
Context {D : Type} `{!Bus D} (u : uart_state) `{!Uart D u, !Printf D, !PrintfOk D u, !SocDev D u}.
Context (ddrctrl_init_done_read : M (machine D) Z) (sdram_init : M (machine D) unit).
Context (LITEX_GIT_SHA1 : Z) (fuel : nat).
Abbreviation MM := (M (machine D)).

(** What may change before an image is loaded. *)
Definition setup_addr (k : Z) : Prop := pr_addr k ∨ in_dram k.

(** The generated code: whether the DRAM is initialised is a register of its
    controller; initialising it may print, and test the DRAM. *)
Record dram_init_ok : Prop := {
  di_done : does u pr_addr ddrctrl_init_done_read (λ _ _, True);
  di_init : does u setup_addr sdram_init (λ _ _, True);
}.

(** The firmware and what it is linked with. *)
Record firmware_ok : Prop := {
  fi_base : uart_base u = UART_BASE;
  fi_fmts : Forall (λ m, m ∈ pr_formats) boot_formats;
  fi_fuel : (wip_bound < fuel)%nat;
  fi_sha : pr_str_at = LITEX_GIT_SHA1 ∧ 0 ≤ LITEX_GIT_SHA1 < 2 ^ 64 ∧ (length pr_str ≤ 80)%nat;
  fi_dram : dram_init_ok;
}.
Hypothesis fw : firmware_ok.

Abbreviation fmts := (fi_fmts fw).

Lemma setup_pr k : pr_addr k → setup_addr k.
Proof. by left. Qed.

Lemma sys_addr r : 0 ≤ r < 0x100 → ¬ uart_addr u (SYSCON_BASE + r).
Proof. intros Hr. unfold uart_addr. rewrite (fi_base fw). unfold UART_BASE, SYSCON_BASE. lia. Qed.

Lemma does_sys r :
  r ∈ info_regs → does u setup_addr (readq (SYSCON_BASE + r)) (λ v e, v = sys r ∧ 0 ≤ v < 2 ^ 64).
Proof.
  intros Hr. eapply does_weaken; [apply (does_load u)|done|].
  - apply sys_addr. unfold info_regs in Hr. set_unfold in Hr.
    unfold SYS_REG_SIGNATURE, SYS_REG_INFO, SYS_REG_BRAMINFO, SYS_REG_DRAMINFO, SYS_REG_CLKINFO,
      SYS_REG_DRAMINITINFO, SYS_REG_SPI_INFO in Hr. lia.
  - intros v e (_ & Hv & d & ->). split; [by apply sys_load|done].
Qed.

(** A feature that is announced, and a number that is shown. *)
Ltac fmt_here := unfold boot_formats; repeat (apply list_elem_of_here || apply list_elem_of_further).

Lemma does_msg fmt : plain fmt = true → fmt ∈ boot_formats → does u setup_addr (print u fmt []) (λ _ _, True).
Proof.
  intros Hp Hin. eapply does_weaken; [apply (does_plain u setup_addr)|done|done].
  - exact setup_pr.
  - by apply (fmt_in u fmts).
  - done.
Qed.

Lemma does_when b (m : MM unit) :
  does u setup_addr m (λ _ _, True) → does u setup_addr (when b m) (λ _ _, True).
Proof. intros H. destruct b; [done|by apply does_ret]. Qed.

Lemma does_then {A B} (m : MM A) (k : A → MM B) (V : A → Prop) (W : B → Prop) :
  does u setup_addr m (λ a _, V a) → (∀ a, V a → does u setup_addr (k a) (λ b _, W b)) →
  does u setup_addr (m ≫= k) (λ b _, W b).
Proof. intros Hm Hk. eapply does_bind; [exact Hm|]. intros a e. apply Hk. Qed.

Lemma does_num pre d post v :
  let items := (ILit <$> pre) ++ (IDir <$> [d]) ++ (ILit <$> post) in
  format_text items ∈ boot_formats → plain pre = true → plain post = true → wf_item (IDir d) →
  int_conv (d_conv d) = true → 0 ≤ v < 2 ^ 64 → items_bound [] items < PRINTF_BUFFER →
  does u setup_addr (print u (format_text items) [v]) (λ _ _, True).
Proof.
  intros items Hin H1 H2 H3 H4 Hv Hb. eapply does_weaken; [apply (does_ints u setup_addr pre [d] post)|done|done].
  - exact setup_pr.
  - by apply (fmt_in u fmts).
  - done.
  - done.
  - by constructor.
  - cbn. by rewrite H4.
  - constructor; [done|constructor].
  - done.
Qed.

Ltac num pre d post :=
  apply (does_num pre d post);
  [ fmt_here | reflexivity | reflexivity | by apply wf_dir | reflexivity | | vm_compute; reflexivity ].

Ltac info := apply does_sys; unfold info_regs; repeat (apply list_elem_of_here || apply list_elem_of_further).

Lemma div_u64 v d : 0 ≤ v < 2 ^ 64 → 0 < d → 0 ≤ v `div` d < 2 ^ 64.
Proof.
  intros Hv Hd. split; [apply Z.div_pos; lia|].
  apply (Z.le_lt_trans _ v); [|lia]. apply Z.div_le_upper_bound; [lia|]. nia.
Qed.

Lemma land_u64 v m : 0 ≤ v < 2 ^ 64 → 0 ≤ Z.land v m < 2 ^ 64.
Proof.
  intros Hv. assert (Z.land v m = wrap 64 (Z.land v m)) as ->; [|by apply wrap_range].
  apply Z.bits_inj'. intros i Hi. rewrite testbit_wrap, Z.land_spec by lia.
  destruct (Z.ltb_spec i 64); [done|]. by rewrite (wrap_testbit_high 64 v) by lia.
Qed.

Lemma main_info_ok ftr : does u setup_addr (main_info u ftr) (λ _ _, True).
Proof.
  unfold main_info.
  do 6 (eapply (does_then _ _ (λ _, True)); [apply does_when, does_msg; [reflexivity|fmt_here]|intros _ _]).
  eapply (does_then _ _ (λ _, True)); [apply does_msg; [reflexivity|fmt_here]|intros _ _].
  eapply (does_then _ _ (λ _, True)); [apply does_when|intros _ _].
  { eapply does_then; [info|intros v [_ Hv]].
    num (lit "          BRAM: ") long_dir (lit " KB" ++ [10]). apply div_u64; [by apply land_u64|lia]. }
  eapply (does_then _ _ (λ _, True)); [apply does_when|intros _ _].
  { eapply does_then; [info|intros v [_ Hv]].
    eapply (does_then _ _ (λ _, True)); [|intros _ _].
    { num (lit "          DRAM: ") long_dir (lit " MB" ++ [10]). apply div_u64; [by apply land_u64|lia]. }
    eapply does_then; [info|intros w [_ Hw]].
    num (lit "     DRAM INIT: ") long_dir (lit " KB" ++ [10]). by apply div_u64. }
  eapply does_then; [info|intros v [_ Hv]].
  num (lit "           CLK: ") long_dir (lit " MHz" ++ [10]). apply div_u64; [by apply land_u64|lia].
Qed.

(** Where the image is in the flash. *)
Definition flash_offset : Z := u32 (sys SYS_REG_SPI_INFO).

Lemma does_litex : does u setup_addr (print u msg_litex [LITEX_GIT_SHA1]) (λ _ _, True).
Proof.
  destruct (fi_sha fw) as (Hs1 & Hs2 & Hs3).
  set (items := (ILit <$> lit "LiteDRAM built from LiteX ") ++ [dir false [] LNone Cs; ILit 10]).
  change msg_litex with (format_text items).
  assert (does u setup_addr (print u (format_text items) [LITEX_GIT_SHA1]) (λ _ e, e = [])) as H.
  2:{ by eapply does_weaken. }
  apply does_print.
  - exact setup_pr.
  - apply (fmt_in u fmts). change (format_text items) with msg_litex. fmt_here.
  - apply Forall_app. split; [apply plain_lits; reflexivity|].
    constructor; [by apply wf_dir|]. by repeat constructor.
  - apply args_fit_lits. cbn. split; [done|]. split; [by intros _|]. by split.
  - unfold items. rewrite items_bound_app, items_bound_lits. change (length (lit _)) with 26%nat.
    unfold PRINTF_BUFFER. rewrite !items_bound_cons. cbn [item_bound dir d_width d_conv].
    change (width []) with 0. cbn. lia.
  - vm_compute. lia.
Qed.

Lemma clear_alt_reset v :
  0 ≤ v < 2 ^ 64 → u64 (Z.land v (Z.lnot SYS_REG_CTRL_ALT_RESET)) = Z.clearbit v 3.
Proof. intros Hv. rewrite (wrap_small 64) by (by apply land_u64). by rewrite <- Z.ldiff_land. Qed.

Lemma main_setup_ok :
  does u setup_addr (main_setup ddrctrl_init_done_read sdram_init LITEX_GIT_SHA1 fuel u)
    (λ r e, r = (sys SYS_REG_INFO, Z.testbit (sys SYS_REG_INFO) 3,
                 if Z.testbit (sys SYS_REG_INFO) 3 then flash_offset else 0) ∧
      ∃ e' v, e = e' ++ [Ld 8 (SYSCON_BASE + SYS_REG_CTRL) v;
                         St 8 (SYSCON_BASE + SYS_REG_CTRL) (Z.clearbit v 3)]).
Proof.
  set (info := sys SYS_REG_INFO).
  unfold main_setup.
  eapply does_bind; [apply does_msg; [reflexivity|fmt_here]|intros _ e1 _].
  eapply does_bind; [info|intros sig e2 [_ Hsig]].
  eapply does_bind; [num (lit " Soc signature: ") hex16_dir [10]; done|intros _ e3 _].
  eapply does_bind; [apply does_msg; [reflexivity|fmt_here]|intros _ e4 _].
  eapply does_bind; [info|intros ftr e5 [Hftr _]].
  eapply does_bind; [apply main_info_ok|intros _ e6 _]. fold info in Hftr. subst ftr.
  change SYS_REG_INFO_HAS_SPI_FLASH with (2 ^ 3). rewrite tst_pow2 by lia.
  eapply (does_bind _ _ _ _ (λ r _, r = (Z.testbit info 3, if Z.testbit info 3 then flash_offset else 0))).
  { destruct (Z.testbit info 3); [|by apply does_ret].
    eapply (does_then _ _ (λ v, v = sys SYS_REG_SPI_INFO ∧ 0 ≤ v < 2 ^ 64)); [info|intros v [-> Hv]].
    eapply (does_then _ _ (λ _, True)).
    { eapply does_weaken; [apply (check_flash_ok u setup_addr fuel)|done|done]; [apply fw..|exact setup_pr|apply fw]. }
    intros _ _. change SYS_REG_SPI_INFO_FLASH_OFF_MASK with (Z.ones 32). rewrite Z.land_ones by lia.
    change (u32 (?x `mod` 2 ^ 32)) with (u32 (u32 x)). rewrite wrap_wrap. fold flash_offset.
    pose proof (wrap_range 32 (sys SYS_REG_SPI_INFO) ltac:(lia)) as Ho. fold flash_offset in Ho.
    eapply (does_then _ _ (λ _, True)); [num (lit " SPI FLASH OFF: 0x") hex_dir (lit " bytes" ++ [10]); lia|].
    intros _ _. by apply does_ret. }
  intros r e7 ->.
  eapply does_bind; [apply does_msg; [reflexivity|fmt_here]|intros _ e8 _].
  eapply (does_bind _ _ _ _ (λ _ _, True)).
  { destruct (tst _ _); [|by apply does_ret]. eapply (does_then _ _ (λ _, True)); [|intros d _; by apply does_ret].
    eapply does_weaken; [apply (di_done (fi_dram fw))|exact setup_pr|done]. }
  intros init e9 _. eapply (does_bind _ _ _ _ (λ _ _, True)).
  { apply does_when. eapply (does_then _ _ (λ _, True)); [|intros _ _; apply (di_init (fi_dram fw))].
    apply does_litex. }
  intros _ e10 _. eapply does_bind; [apply (does_load u); by apply sys_addr|].
  intros v e11 (-> & Hv & _). eapply does_bind; [apply (does_store u); by apply sys_addr|].
  intros _ e12 ->. apply does_ret. split; [done|].
  exists (e1 ++ e2 ++ e3 ++ e4 ++ e5 ++ e6 ++ e7 ++ e8 ++ e9 ++ e10), v. rewrite <- !app_assoc. cbn [app].
  change (8 * Z.of_nat 8) with 64. by rewrite clear_alt_reset.
Qed.

(** *** What is booted *)

Context (f : boot_frame).
Abbreviation mainB := (main_body ddrctrl_init_done_read sdram_init LITEX_GIT_SHA1 fuel f u).
Abbreviation info := (sys SYS_REG_INFO).

(** The state in which the choice is made. *)
Lemma main_body_setup s :
  pr_ok s → ∃ s1 evs t,
    mainB s = main_boot fuel f u info (Z.testbit info 3) (if Z.testbit info 3 then flash_offset else 0) s1 ∧
    pr_ok s1 ∧ same_outside setup_addr (ram s) (ram s1) ∧ still_mapped u (ram s) (ram s1) ∧
    tx_log (dev s1) = tx_log (dev s) ++ t ∧ io_trace s1 = io_trace s ++ evs ∧
    ∃ e v, others u evs = e ++ [Ld 8 (SYSCON_BASE + SYS_REG_CTRL) v;
                                St 8 (SYSCON_BASE + SYS_REG_CTRL) (Z.clearbit v 3)].
Proof.
  intros Hs. destruct (main_setup_ok s Hs) as (r & s1 & evs & t & R & A & [M M'] & T & Tr & -> & E).
  exists s1, evs, t. split_and!; try done. unfold main_body. by rewrite (bind_Ret _ _ _ _ _ R).
Qed.

Lemma main_boots_bram s :
  pr_ok s → Z.testbit info 2 = true →
  ∃ s', mainB s = Ret 0 s' ∧ same_outside setup_addr (ram s) (ram s').
Proof.
  intros Hs Hb. destruct (main_body_setup s Hs) as (s1 & evs & t & -> & A & M & _).
  unfold main_boot. change SYS_REG_INFO_HAS_BRAM with (2 ^ 2). rewrite tst_pow2, Hb by lia.
  destruct (does_msg msg_boot_bram eq_refl ltac:(fmt_here) s1 A) as ([] & s2 & ? & ? & R & _ & [M2 _] & _).
  step_with R. exists s2. split; [done|]. by eapply same_outside_trans.
Qed.

Section image.
Context (img : list Z) (h : Elf64_Ehdr) (phs : list Elf64_Phdr).
Hypothesis frame : frame_ok u f.
Hypothesis offset_ok : flash_offset + Z.of_nat (length img) ≤ FLASH_WINDOW.

(** The setup leaves an image and the room for it in place. *)
Lemma boot_pre_setup s s1 :
  boot_pre u f (ram s) flash_offset img phs s → pr_ok s1 →
  same_outside setup_addr (ram s) (ram s1) → still_mapped u (ram s) (ram s1) →
  boot_pre u f (ram s1) flash_offset img phs s1.
Proof.
  intros [P1 _ P3 P4 P5 P6] A M M'. pose proof frame as [_ F1 F2 F3].
  assert (0 ≤ flash_offset) by (apply (wrap_range 32); lia).
  assert (∀ a n, mapped (ram s) a n → (∀ k, within a n k → ¬ pr_addr k) → mapped (ram s1) a n) as Hmap.
  { intros a n Ha Hk. apply mapped_intro. intros i Hi. apply M'; [apply Hk; unfold within; lia|].
    by apply (mapped_lookup _ a n). }
  constructor; [done|done| | | |].
  - apply Hmap; [done|]. intros k Hk. by apply F1.
  - apply Hmap; [done|]. intros k Hk. by apply F2.
  - apply bytes_at_intro. intros i b Hi. pose proof (lookup_lt_Some _ _ _ Hi).
    rewrite M; [by eapply bytes_at_lookup|].
    assert (in_flash (SPI_FLASH_BASE + flash_offset + Z.of_nat i)) as Hfl
      by (unfold in_flash, FLASH_WINDOW in *; lia).
    intros [Hk|Hk]; [by apply (F3 _ Hfl)|].
    unfold in_dram, in_flash, BRAM_BASE, SPI_FLASH_BASE in *. lia.
  - eapply Forall_impl; [exact P6|]. intros p [Q1 Q2]. split; [|done].
    apply Hmap; [done|]. intros k Hk Hp. destruct (Q2 k Hk) as [Q3 _]. apply Q3. by left.
Qed.

(** An image in the flash is loaded, and started at its entry point. *)
Lemma main_boots_image s :
  elf_image img h phs → boot_pre u f (ram s) flash_offset img phs s → Z.testbit info 2 = false → Z.testbit info 3 = true →
  ppc64le_elf h → (length phs < fuel)%nat → e_entry h ≠ ULONG_MAX →
  ∃ s' m1, mainB s = Ret (e_entry h) s' ∧ same_outside setup_addr (ram s) m1 ∧
    same_outside (scratch u f) (load_all img (load_prefix phs) m1) (ram s').
Proof.
  intros image Hpre H2 H3 He Hf Hent.
  assert (0 ≤ flash_offset) by (apply (wrap_range 32); lia).
  destruct (main_body_setup s (bp_pr _ _ _ _ _ _ _ Hpre)) as (s1 & evs & t & -> & A & M & M' & _).
  unfold main_boot. change SYS_REG_INFO_HAS_BRAM with (2 ^ 2). rewrite tst_pow2, H2, H3 by lia.
  pose proof (boot_pre_setup s s1 Hpre A M M') as Hpre1.
  destruct (boot_flash_ok u f frame (ram s1) flash_offset img h phs (elf_hdr_image _ _ _ image) ltac:(lia) image fuel s1 Hpre1 He Hf)
    as (s2 & R & _ & M2 & _).
  step_with R. rewrite (proj2 (Z.eqb_neq _ _) Hent). cbn [negb]. by exists s2, (ram s1).
Qed.
End image.

Hypothesis frame : frame_ok u f.

(** Without an image, the payload behind the firmware is copied to DRAM. *)
Definition payload_at : Z := DRAM_INIT_BASE + 0x6000.

Record payload_ok (payload : list Z) (m : mem) : Prop := {
  pl_bytes : bytes payload;
  pl_length : length payload = Z.to_nat 0xa000;
  pl_src : bytes_at m payload_at payload;
  pl_dst : mapped m DRAM_BASE (length payload);
  pl_src_free : ∀ k, within payload_at (length payload) k → ¬ scratch u f k;
  pl_dst_free : ∀ k, within DRAM_BASE (length payload) k → ¬ scratch u f k;
}.

Lemma boot_sdram_ok s payload :
  pr_ok s → payload_ok payload (ram s) →
  ∃ s', boot_sdram u s = Ret tt s' ∧ bytes_at (ram s') DRAM_BASE payload ∧
    same_outside setup_addr (ram s) (ram s').
Proof.
  intros Hs [Hb Hl Hsrc Hdst Hd1 Hd2]. unfold boot_sdram.
  assert (∀ k, within payload_at (length payload) k → ¬ pr_addr k) as Hs1 by (intros k Hk Hp; apply (Hd1 k Hk); by left).
  assert (∀ k, within DRAM_BASE (length payload) k → ¬ pr_addr k) as Hs2 by (intros k Hk Hp; apply (Hd2 k Hk); by left).
  destruct (print_ok u msg_payload [] msg_payload s Hs) as (s1 & R1 & A1 & M1 & _);
    [apply (fmt_in u fmts); fmt_here|by apply plain_call|].
  step_with R1.
  assert (in_ram (memcpy DRAM_BASE (DRAM_INIT_BASE + 0x6000) (0x10000 - 0x6000)) s1 =
    Ret DRAM_BASE (wr DRAM_BASE payload s1)) as R2.
  { apply in_ram_Ret. apply memcpy_ok; [rewrite Hl; done|done| | |].
    - by eapply same_outside_bytes.
    - by eapply same_outside_mapped.
    - left. unfold DRAM_BASE, DRAM_INIT_BASE. lia. }
  step_with R2.
  destruct (print_ok u msg_boot_sdram [] msg_boot_sdram (wr DRAM_BASE payload s1)) as (s3 & R3 & A3 & M3 & _);
    [by apply pr_ok_wr|apply (fmt_in u fmts); fmt_here|by apply plain_call|].
  step_with R3. exists s3. split; [done|]. split.
  - eapply same_outside_bytes; [exact M3|exact Hs2|]. apply bytes_at_write.
  - apply (same_outside_trans _ _ (ram s1)); [by eapply same_outside_sub; [exact setup_pr|]|].
    apply (same_outside_trans _ _ (ram (wr DRAM_BASE payload s1))); [|by eapply same_outside_sub; [exact setup_pr|]].
    intros k Hk. apply lookup_write_bytes_out. rewrite Hl. unfold setup_addr, in_dram, DRAM_BASE, BRAM_BASE in *. lia.
Qed.

Lemma payload_ok_kept payload (P : Z → Prop) m m' :
  payload_ok payload m → same_outside P m m' →
  (∀ k, within payload_at (length payload) k → ¬ P k) →
  mapped m' DRAM_BASE (length payload) → payload_ok payload m'.
Proof. intros [] H HP Hm. constructor; try done. by eapply same_outside_bytes. Qed.

Lemma payload_ok_setup payload (s s1 : machine D) :
  payload_ok payload (ram s) → same_outside setup_addr (ram s) (ram s1) → still_mapped u (ram s) (ram s1) →
  payload_ok payload (ram s1).
Proof.
  intros Hpl M M'. pose proof Hpl as [_ Hl _ Hdst Hd1 Hd2].
  apply (payload_ok_kept payload setup_addr (ram s)); [done|done| |].
  - intros k Hk [Hp|Hp]; [by apply (Hd1 k Hk); left|].
    unfold within, in_dram, payload_at, DRAM_INIT_BASE, BRAM_BASE in *. lia.
  - apply mapped_intro. intros i Hi. apply M'.
    + intros Hp. apply (Hd2 (DRAM_BASE + i)); [unfold within; lia|by left].
    + by apply (mapped_lookup _ DRAM_BASE (length payload)).
Qed.

(** Nothing to boot in the flash: there is none, or what it holds is not the
    header of a little-endian PPC64 ELF file. *)
Definition no_image (s : machine D) : Prop :=
  Z.testbit info 3 = false ∨
  ∃ hdr, hdr_pre u f (ram s) flash_offset hdr s ∧ ¬ ppc64le_hdr hdr.

Lemma hdr_pre_setup hdr s s1 :
  hdr_pre u f (ram s) flash_offset hdr s → pr_ok s1 →
  same_outside setup_addr (ram s) (ram s1) → still_mapped u (ram s) (ram s1) →
  hdr_pre u f (ram s1) flash_offset hdr s1.
Proof.
  intros [P1 _ P3 P4 P5 P6 P7 P8] A M M'.
  destruct (boot_pre_setup hdr [] frame ltac:(rewrite P7; lia) s s1) as [_ _ Q3 Q4 Q5 _]; [by constructor|done..|].
  by constructor.
Qed.

Lemma main_boots_payload s payload :
  pr_ok s → payload_ok payload (ram s) → Z.testbit info 2 = false → no_image s →
  ∃ s', mainB s = Ret 0 s' ∧ bytes_at (ram s') DRAM_BASE payload ∧
    same_outside (λ k, in_dram k ∨ scratch u f k) (ram s) (ram s').
Proof.
  intros Hs Hpl H2 Hno.
  assert (∀ k, setup_addr k → in_dram k ∨ scratch u f k) as Hset by (intros k [?|?]; [by right; left|by left]).
  destruct (main_body_setup s Hs) as (s1 & evs & t & -> & A & M & M' & _).
  pose proof (payload_ok_setup payload s s1 Hpl M M') as Hpl1.
  unfold main_boot. change SYS_REG_INFO_HAS_BRAM with (2 ^ 2). rewrite tst_pow2, H2 by lia.
  assert (∃ s2, (if Z.testbit info 3 then boot_flash u fuel f (if Z.testbit info 3 then flash_offset else 0)
      else mret ULONG_MAX) s1 = Ret ULONG_MAX s2 ∧ pr_ok s2 ∧ same_outside (scratch u f) (ram s1) (ram s2))
    as (s2 & R2 & A2 & M2).
  { destruct Hno as [->|(hdr & Hpre & Hn)]; [by exists s1|].
    destruct (Z.testbit info 3); [|by exists s1].
    pose proof (hdr_pre_setup hdr s s1 Hpre A M M') as Hpre1.
    destruct (boot_flash_refused_hdr u f frame (ram s1) flash_offset hdr fuel s1 Hpre1 Hn)
      as (s2 & R & A2 & M2 & _). by exists s2. }
  step_with R2. rewrite Z.eqb_refl. cbn [negb].
  destruct (boot_sdram_ok s2 payload A2) as (s3 & R3 & B3 & M3).
  { apply (payload_ok_kept payload (scratch u f) (ram s1)); [done|done|apply Hpl1|].
    eapply same_outside_mapped; [exact M2|apply Hpl1|apply Hpl1]. }
  step_with R3. exists s3. split; [done|]. split; [done|].
  apply (same_outside_trans _ _ (ram s1)); [by eapply same_outside_sub|].
  apply (same_outside_trans _ _ (ram s2)); eapply same_outside_sub; [|exact M2|exact Hset|exact M3].
  by right.
Qed.
End main.

(** ** A SoC with a flash chip

    The UART of [Console], system controller registers by offset, and a flash
    chip that answers to the commands [RDID] and [RDSR]; the chip is busy for
    [so_busy] more status reads. *)
Record sim_soc (u : uart_state) := SimSoc {
  so_uart : sim_uart u;
  so_cmd : Z;
  so_reply : list Z;
  so_busy : nat;
}.
Arguments SimSoc {u}.
Arguments so_uart {u}.
Arguments so_cmd {u}.
Arguments so_reply {u}.
Arguments so_busy {u}.

Section sim_soc.
Context (u : uart_state) (regs : Z → Z) (chip_id : list Z).

(** The reply of the chip to a command. *)
Definition chip_reply (cmd : Z) (busy : nat) : list Z :=
  if cmd =? SPI_CMD_RDID then chip_id
  else if cmd =? SPI_CMD_RDSR then [if (busy =? 0)%nat then 0 else 1]
  else [].

Definition sim_soc_bus : Bus (sim_soc u) := {|
  bus_load n a d :=
    if decide (uart_addr u a) then
      let '(v, d') := bus_load n a (so_uart d) in (v, SimSoc d' (so_cmd d) (so_reply d) (so_busy d))
    else if a =? SPI_FCTRL_BASE + SPI_REG_DATA then
      (hd 0 (so_reply d), SimSoc (so_uart d) (so_cmd d) (tail (so_reply d)) (so_busy d))
    else if a <? SPI_FCTRL_BASE then (regs (a - SYSCON_BASE), d)
    else (0, d);
  bus_store n a v d :=
    if decide (uart_addr u a) then
      SimSoc (bus_store n a v (so_uart d)) (so_cmd d) (so_reply d) (so_busy d)
    else if a =? SPI_FCTRL_BASE + SPI_REG_DATA then
      SimSoc (so_uart d) v (chip_reply v (Nat.min 8 (so_busy d))) (so_busy d)
    else if a =? SPI_FCTRL_BASE + SPI_REG_CTRL then
      SimSoc (so_uart d) 0 []
        (if (v =? 0) && (so_cmd d =? SPI_CMD_RDSR) then Nat.pred (Nat.min 8 (so_busy d)) else so_busy d)
    else d;
|}.
#[local] Existing Instance sim_soc_bus.

Lemma status_in : uart_addr u (status_addr u).
Proof.
  unfold uart_addr, status_addr. destruct (uart_is_std u); unfold UART_REG_LSR, POTATO_CONSOLE_STATUS; lia.
Qed.
Lemma tx_in : uart_addr u (tx_addr u).
Proof. unfold uart_addr, tx_addr. destruct (uart_is_std u); unfold UART_REG_TX, POTATO_CONSOLE_TX; lia. Qed.
Lemma rx_in : uart_addr u (rx_addr u).
Proof. unfold uart_addr, rx_addr. destruct (uart_is_std u); unfold UART_REG_RX, POTATO_CONSOLE_RX; lia. Qed.

#[program] Definition sim_soc_uart : Uart (sim_soc u) u := {|
  tx_busy d := tx_busy (so_uart d);
  tx_log d := tx_log (so_uart d);
  rx_wait d := rx_wait (so_uart d);
  rx_queue d := rx_queue (so_uart d);
  tx_bound := tx_bound (D := sim_uart u);
  rx_bound := rx_bound (D := sim_uart u);
|}.
Next Obligation.
  intros d. pose proof (status_load (so_uart d)) as H. unfold bus_load at 1, sim_soc_bus.
  rewrite decide_True by apply status_in. by destruct (bus_load _ _ (so_uart d)).
Qed.
Next Obligation.
  intros d c Hc Hb. pose proof (tx_store (so_uart d) c Hc Hb) as H. unfold bus_store at 1, sim_soc_bus.
  rewrite decide_True by apply tx_in. exact H.
Qed.
Next Obligation.
  intros d c q Hw Hq. pose proof (rx_load (so_uart d) c q Hw Hq) as H. unfold bus_load at 1, sim_soc_bus.
  rewrite decide_True by apply rx_in. by destruct (bus_load _ _ (so_uart d)).
Qed.
#[local] Existing Instance sim_soc_uart.

Hypothesis base_ok : uart_base u = UART_BASE.

#[program] Definition sim_soc_dev : SocDev (sim_soc u) u := {|
  sys r := u64 (regs r);
  wip d := Nat.min 8 (so_busy d);
  wip_bound := 8;
|}.
Next Obligation.
  intros n a d Ha. unfold bus_load, sim_soc_bus. rewrite decide_False by done. by repeat case_match.
Qed.
Next Obligation.
  intros n a v d Ha. unfold bus_store, sim_soc_bus. rewrite decide_False by done. by repeat case_match.
Qed.
Next Obligation.
  intros d r Hr. assert (0 ≤ r < 0x100) as Hb.
  { unfold info_regs in Hr. set_unfold in Hr.
    unfold SYS_REG_SIGNATURE, SYS_REG_INFO, SYS_REG_BRAMINFO, SYS_REG_DRAMINFO, SYS_REG_CLKINFO,
      SYS_REG_DRAMINITINFO, SYS_REG_SPI_INFO in Hr. lia. }
  unfold bus_load, sim_soc_bus. rewrite decide_False.
  2:{ unfold uart_addr. rewrite base_ok. unfold UART_BASE, SYSCON_BASE. lia. }
  rewrite (proj2 (Z.eqb_neq _ _)), (proj2 (Z.ltb_lt _ _)) by (unfold SYSCON_BASE, SPI_FCTRL_BASE, SPI_REG_DATA; lia).
  cbn [fst]. do 2 f_equal. lia.
Qed.
Next Obligation. intros d. apply Nat.le_min_l. Qed.
Next Obligation.
  intros d.
  assert (∀ a, SPI_FCTRL_BASE ≤ a < SPI_FCTRL_BASE + 16 → ¬ uart_addr u a) as Hu.
  { intros a Ha. unfold uart_addr. rewrite base_ok. unfold UART_BASE, SPI_FCTRL_BASE in *. lia. }
  unfold bus_store, bus_load, sim_soc_bus.
  rewrite !(decide_False (P := uart_addr u (SPI_FCTRL_BASE + SPI_REG_DATA))) by (apply Hu; unfold SPI_REG_DATA; lia).
  rewrite !(decide_False (P := uart_addr u (SPI_FCTRL_BASE + SPI_REG_CTRL))) by (apply Hu; unfold SPI_REG_CTRL; lia).
  change (SPI_FCTRL_BASE + SPI_REG_CTRL =? SPI_FCTRL_BASE + SPI_REG_DATA) with false.
  rewrite !Z.eqb_refl. destruct d as [du cmd rep busy]. cbn -[Nat.min].
  rewrite decide_False by (apply Hu; unfold SPI_REG_CTRL; lia). cbn -[Nat.min].
  split; [by destruct (_ =? 0)%nat|lia].
Qed.
End sim_soc.
