(* ===== verification/Termios.v ===== *)
(** * The terminal of the simulations

    [sim_console_c.c] and [verilator/uart-verilator.c] have the same functions
    [enable_raw_mode] and [disable_raw_mode]: the first use puts the terminal into raw
    mode, with the interrupt key kept ([EXIT_ON_CTRL_C]), and registers with
    [atexit] that the old attributes are set again.  The attributes are the flag
    words of [struct termios] with the values Linux gives them. *)
From S2P Require Import Prelude.

Record termios := Termios { c_iflag : Z; c_oflag : Z; c_cflag : Z; c_lflag : Z }.

(** [IGNBRK | BRKINT | PARMRK | ISTRIP | INLCR | IGNCR | ICRNL | IXON] *)
Definition RAW_IFLAG : Z := Z.lor 0x1 (Z.lor 0x2 (Z.lor 0x8 (Z.lor 0x20 (Z.lor 0x40 (Z.lor 0x80 (Z.lor 0x100 0x400)))))).
Definition OPOST : Z := 0x1.
Definition ISIG : Z := 0x1.
Definition ICANON : Z := 0x2.
Definition ECHO : Z := 0x8.
(** [ECHO | ECHONL | ICANON | ISIG | IEXTEN] *)
Definition RAW_LFLAG : Z := Z.lor ECHO (Z.lor 0x40 (Z.lor ICANON (Z.lor ISIG 0x8000))).
(** [CSIZE | PARENB], and [CS8] *)
Definition RAW_CFLAG : Z := Z.lor 0x30 0x100.
Definition CS8 : Z := 0x30.

(** [cfmakeraw] of the C library. *)
Definition cfmakeraw (t : termios) : termios :=
  Termios (Z.ldiff (c_iflag t) RAW_IFLAG) (Z.ldiff (c_oflag t) OPOST)
          (Z.lor (Z.ldiff (c_cflag t) RAW_CFLAG) CS8) (Z.ldiff (c_lflag t) RAW_LFLAG).

(** The terminal's attributes, the statics of the file, and how often
    [disable_raw_mode] is registered to run at exit. *)
Record tty := Tty { attrs : termios; oldt : termios; initialized : bool; registered : nat }.

Definition disable_raw_mode (t : tty) : tty := Tty (oldt t) (oldt t) (initialized t) (registered t).

Definition enable_raw_mode (t : tty) : tty :=
  if negb (initialized t) then
    let oldt := attrs t in
    let newt := cfmakeraw oldt in
    let newt := Termios (c_iflag newt) (c_oflag newt) (c_cflag newt) (Z.lor (c_lflag newt) ISIG) in
    Tty newt oldt true (S (registered t))
  else t.

(** [exit]: the registered functions run. *)
Definition at_exit (t : tty) : tty := Nat.iter (registered t) disable_raw_mode t.

(** The statics before [main]; [oldt] is zero. *)
Definition tty_init (a : termios) : tty := Tty a (Termios 0 0 0 0) false 0.

(** ** Raw mode, and back *)

(** The terminal was found with the attributes [a]: it has them still, or it is in
    raw mode and they are remembered. *)
Definition tty_ok (a : termios) (t : tty) : Prop :=
  t = tty_init a ∨ t = enable_raw_mode (tty_init a).

Lemma tty_ok_init a : tty_ok a (tty_init a).
Proof. by left. Qed.

Lemma tty_ok_enable a t : tty_ok a t → enable_raw_mode t = enable_raw_mode (tty_init a).
Proof. by intros [->| ->]. Qed.

Lemma tty_ok_raw a t : tty_ok a t → tty_ok a (enable_raw_mode t).
Proof. intros H. right. by apply tty_ok_enable. Qed.

Lemma tty_ok_exit a t : tty_ok a t → attrs (at_exit t) = a.
Proof. by intros [->| ->]. Qed.

(** Characters come at once and are not echoed; the interrupt key works. *)
Definition raw (a : termios) : Prop :=
  Z.land (c_lflag a) ICANON = 0 ∧ Z.land (c_lflag a) ECHO = 0 ∧ Z.land (c_lflag a) ISIG = ISIG.

Lemma land_ldiff_sub x r f : Z.land f r = f → Z.land (Z.ldiff x r) f = 0.
Proof.
  intros <-. apply Z.bits_inj'. intros n Hn. rewrite !Z.land_spec, Z.ldiff_spec, Z.bits_0.
  by destruct (Z.testbit x n), (Z.testbit r n), (Z.testbit f n).
Qed.

Lemma enable_raw a t : tty_ok a t → raw (attrs (enable_raw_mode t)).
Proof.
  intros ->%tty_ok_enable. unfold raw. cbn [attrs enable_raw_mode tty_init initialized negb c_lflag cfmakeraw].
  split_and!; rewrite Z.land_lor_distr_l, land_ldiff_sub; done.
Qed.

#[export] Hint Resolve tty_ok_init tty_ok_raw : core.
