(* ===== verification/UartSim.v ===== *)
(** * The serial line of the Verilator simulation

    [verilator/uart-verilator.c]: one function decodes what the simulated UART
    transmits, a sample per clock, and prints the bytes; the other sends the
    characters of the terminal.  Each is a state machine over the file's static
    variables.  The number of clocks per bit, [BITWIDTH], depends on
    [CLK_FREQUENCY], which the build sets; here it is the parameter [W].

    [is_error] compares quotients in floating point; [count / W] is compared with
    the exact 0.05 and 0.95, which gives the same answers for every [W] below
    [2 ^ 40]. *)
From S2P Require Import Prelude CMem Termios.

Definition BAUD : Z := 115200.
Definition BITWIDTH (CLK_FREQUENCY : Z) : Z := (CLK_FREQUENCY + BAUD `div` 2) `div` BAUD.
Definition RX_INTERVAL : Z := 10000.

Inductive uart_phase := IDLE | START_BIT | BITS | STOP_BIT | ERROR.

#[export] Instance uart_phase_eq_dec : EqDecision uart_phase.
Proof. solve_decision. Defined.

(** What is printed: a byte of the line, or a report of a bad transition with
    the state it was in and the count. *)
Inductive uart_out := OutByte (b : Z) | OutError (st : uart_phase) (count : Z).

(** ** The receiver of the simulated UART's output *)

Record tx_vars := TxVars {
  tx_state : uart_phase;
  tx_countbits : Z;
  tx_bits : Z;
  tx_byte : Z;
  tx_prev : Z;
}.

Definition tx_init : tx_vars := TxVars IDLE 0 0 0 0.

Section uart.
Context (W : Z).

(** The argument of the function is not used. *)
Definition is_error (tx_countbits : Z) : bool :=
  (20 * tx_countbits <=? 19 * W) && (W <=? 20 * tx_countbits).

(** [tx_countbits = BITWIDTH*2; tx_state = ERROR; break;] *)
Definition tx_fail (st : uart_phase) (v : tx_vars) : tx_vars * list uart_out :=
  (TxVars ERROR (W * 2) (tx_bits v) (tx_byte v) (tx_prev v), [OutError st (tx_countbits v)]).

Definition tx_dec (v : tx_vars) : tx_vars :=
  TxVars (tx_state v) (u64 (tx_countbits v - 1)) (tx_bits v) (tx_byte v) (tx_prev v).
Definition tx_goto (st : uart_phase) (count : Z) (v : tx_vars) : tx_vars :=
  TxVars st count (tx_bits v) (tx_byte v) (tx_prev v).

Definition tx_switch (tx : Z) (v : tx_vars) : tx_vars * list uart_out :=
  match tx_state v with
  | IDLE => (if tx =? 0 then TxVars START_BIT W 0 0 (tx_prev v) else v, [])
  | START_BIT =>
      let v := tx_dec v in
      if (tx =? 1) && is_error (tx_countbits v) then tx_fail START_BIT v
      else (if tx_countbits v =? 0 then tx_goto BITS W v else v, [])
  | BITS =>
      let v := tx_dec v in
      let v := if tx_countbits v =? W `div` 2
               then TxVars (tx_state v) (tx_countbits v) (u8 (tx_bits v + 1))
                      (u8 (Z.lor (tx_byte v) (Z.shiftl tx (tx_bits v)))) (tx_prev v)
               else v in
      if negb (tx =? tx_prev v) && is_error (tx_countbits v) then tx_fail BITS v
      else
        (if tx_countbits v =? 0
         then tx_goto (if tx_bits v =? 8 then STOP_BIT else BITS) W v
         else v, [])
  | STOP_BIT =>
      let v := tx_dec v in
      if (tx =? 0) && is_error (tx_countbits v) then tx_fail STOP_BIT v
      else
        (** A start bit ends the stop bit early; the test of the count follows
            all the same. *)
        let '(v, out) := if tx =? 0 then (tx_goto IDLE (tx_countbits v) v, [OutByte (tx_byte v)])
                         else (v, []) in
        if tx_countbits v =? 0
        then (tx_goto IDLE (tx_countbits v) v, out ++ [OutByte (tx_byte v)])
        else (v, out)
  | ERROR =>
      let v := tx_dec v in
      (if tx_countbits v =? 0 then tx_goto IDLE (tx_countbits v) v else v, [])
  end.

Definition uart_tx (tx : Z) (v : tx_vars) : tx_vars * list uart_out :=
  let '(v, out) := tx_switch tx v in
  (TxVars (tx_state v) (tx_countbits v) (tx_bits v) (tx_byte v) tx, out).

(** ** The sender of the terminal's characters *)

Record rx_vars := RxVars {
  rx_state : uart_phase;
  rx_char : Z;
  rx_countbits : Z;
  rx_bit : Z;
  rx : Z;
  rx_sometimes : Z;
}.

Definition rx_init : rx_vars := RxVars IDLE 0 0 0 1 0.

(** The terminal: the characters typed and not yet read, whether it is closed
    after them, its attributes and the statics that remember them, and the results
    of [read] that were reported as errors. *)
Record terminal := Term { typed : list Z; closed : bool; line_tty : tty; reported : list Z }.

Definition raw_mode : M terminal unit :=
  modify (λ t, Term (typed t) (closed t) (enable_raw_mode (line_tty t)) (reported t)).

(** [poll] finds nothing on an open terminal where nothing was typed; on a closed
    one it does, and [read] then returns 0, which ends the program. *)
Definition poll_read : M terminal (option Z) := λ t,
  match typed t with
  | c :: q => Ret (Some (u8 c)) (Term q (closed t) (line_tty t) (reported t))
  | [] => if closed t then Exit 1 (Term [] true (line_tty t) (reported t ++ [0])) else Ret None t
  end.

Definition nonblocking_read : M terminal (option Z) := raw_mode;; poll_read.

Definition rx_switch (v : rx_vars) : M terminal rx_vars :=
  match rx_state v with
  | IDLE =>
      let old := rx_sometimes v in
      let v := RxVars (rx_state v) (rx_char v) (rx_countbits v) (rx_bit v) (rx v) (u64 (old + 1)) in
      if RX_INTERVAL <=? old then
        let v := RxVars (rx_state v) (rx_char v) (rx_countbits v) (rx_bit v) (rx v) 0 in
        c ← nonblocking_read;
        match c with
        | Some c => mret (RxVars START_BIT c W 0 0 (rx_sometimes v))
        | None => mret v
        end
      else mret v
  | START_BIT =>
      let n := u64 (rx_countbits v - 1) in
      mret (if n =? 0 then RxVars BITS (rx_char v) W (rx_bit v) (Z.land (rx_char v) 1) (rx_sometimes v)
            else RxVars START_BIT (rx_char v) n (rx_bit v) (rx v) (rx_sometimes v))
  | BITS =>
      let n := u64 (rx_countbits v - 1) in
      mret (if n =? 0 then
              let bit := u8 (rx_bit v + 1) in
              if bit =? 8 then RxVars STOP_BIT (rx_char v) W bit 1 (rx_sometimes v)
              else RxVars BITS (rx_char v) W bit (Z.land (Z.shiftr (rx_char v) bit) 1) (rx_sometimes v)
            else RxVars BITS (rx_char v) n (rx_bit v) (rx v) (rx_sometimes v))
  | STOP_BIT =>
      let n := u64 (rx_countbits v - 1) in
      mret (RxVars (if n =? 0 then IDLE else STOP_BIT) (rx_char v) n (rx_bit v) (rx v) (rx_sometimes v))
  | ERROR => mret v
  end.

Definition uart_rx (v : rx_vars) : M terminal (Z * rx_vars) := v ← rx_switch v; mret (rx v, v).
End uart.

(** ** The two halves on one wire

    With the line looped back, a clock is a sample of [uart_rx] given to
    [uart_tx]. *)
Record wire := Wire { w_rx : rx_vars; w_tx : tx_vars; w_in : terminal; w_out : list uart_out }.

Definition clock (W : Z) : M wire unit := λ s,
  ('(b, r) ← zoom w_in (λ i s, Wire (w_rx s) (w_tx s) i (w_out s)) (uart_rx W (w_rx s));
   let '(t, o) := uart_tx W b (w_tx s) in
   modify (λ s', Wire r t (w_in s') (w_out s' ++ o))) s.

Fixpoint clocks (W : Z) (n : nat) : M wire unit :=
  match n with O => mret tt | S n => clock W;; clocks W n end.

(** A clock in which the sender gets to [r']. *)
Lemma clock_eq W r t i o r' i' :
  rx_switch W r i = Ret r' i' →
  clock W (Wire r t i o) =
  let '(t', o') := uart_tx W (rx r') t in Ret tt (Wire r' t' i' (o ++ o')).
Proof.
  intros H. unfold clock, uart_rx, zoom, mbind, M_bind. cbn [w_rx w_in w_tx]. rewrite H. cbn -[uart_tx].
  by destruct (uart_tx W (rx r') t).
Qed.

Lemma clocks_add W n m s s1 :
  clocks W n s = Ret tt s1 → clocks W (n + m) s = clocks W m s1.
Proof.
  revert s. induction n as [|n IH]; intros s H; cbn [clocks Nat.add] in H |- *.
  { by injection H as <-. }
  apply bind_Ret_inv in H as ([] & s' & H1 & H2). rewrite (bind_Ret _ _ _ _ _ H1). by apply IH.
Qed.

Section loopback.
Context (W : Z).
Hypothesis W_range : 2 ≤ W < 2 ^ 40.

Lemma u64_dec k : 0 < k ≤ W → u64 (k - 1) = k - 1.
Proof. intros. apply wrap_small. lia. Qed.

Lemma is_error_0 : is_error W 0 = false.
Proof. unfold is_error. conds. Qed.

Definition bit_of (c i : Z) : Z := Z.land (Z.shiftr c i) 1.

Lemma bit_of_testbit c i : 0 ≤ i → bit_of c i = Z.b2z (Z.testbit c i).
Proof.
  intros Hi. unfold bit_of. rewrite (Z.land_ones _ 1) by lia. change (2 ^ 1) with 2.
  rewrite <- Z.bit0_mod. by rewrite Z.shiftr_spec, Z.add_0_l.
Qed.

Lemma wrap_0 c : wrap 0 c = 0.
Proof. unfold wrap. change (2 ^ 0) with 1. apply Z.mod_1_r. Qed.

Lemma half_range : 1 ≤ W `div` 2 < W.
Proof. split; [apply Z.div_le_lower_bound|apply Z.div_lt_upper_bound]; lia. Qed.

Lemma wrap_S i c : 0 ≤ i → Z.lor (wrap i c) (Z.shiftl (bit_of c i) i) = wrap (i + 1) c.
Proof.
  intros Hi. rewrite bit_of_testbit by done. apply Z.bits_inj'. intros j Hj.
  rewrite Z.lor_spec, Z.shiftl_spec, !testbit_wrap by lia.
  destruct (Z.lt_trichotomy j i) as [Hlt|[->|Hgt]].
  - rewrite (proj2 (Z.ltb_lt j i)), (proj2 (Z.ltb_lt j (i + 1))), (Z.testbit_neg_r _ (j - i)) by lia.
    by rewrite orb_false_r.
  - rewrite Z.ltb_irrefl, (proj2 (Z.ltb_lt i (i + 1))), Z.sub_diag by lia. cbn [andb orb].
    by destruct (Z.testbit c i).
  - rewrite (proj2 (Z.ltb_ge j i)), (proj2 (Z.ltb_ge j (i + 1))) by lia. cbn [andb orb].
    apply Z.testbit_false; [lia|]. destruct (Z.testbit c i); cbn [Z.b2z].
    + rewrite Z.div_small; [done|]. split; [lia|]. apply Z.pow_gt_1; lia.
    + by rewrite Z.div_0_l by (apply Z.pow_nonzero; lia).
Qed.

Lemma bit_of_byte c i : 0 ≤ i → 0 ≤ bit_of c i ≤ 1.
Proof. intros. rewrite bit_of_testbit by done. destruct (Z.testbit c i); cbn; lia. Qed.

(** *** The receiver, a sample at a time *)

(** In the start bit, [k] samples before the next bit, which may be early. *)
Lemma tx_start_step k p b :
  0 < k ≤ W → (k ≠ 1 → b = 0) →
  uart_tx W b (TxVars START_BIT k 0 0 p) =
  (if k =? 1 then TxVars BITS W 0 0 b else TxVars START_BIT (k - 1) 0 0 b, []).
Proof.
  intros Hk Hb. unfold uart_tx, tx_switch, tx_dec, tx_goto. cbn -[wrap is_error Z.div]. rewrite u64_dec by done.
  replace (k - 1 =? 0) with (k =? 1) by conds. destruct (Z.eqb_spec k 1) as [->|Hne].
  - change (1 - 1) with 0. by rewrite is_error_0, andb_false_r.
  - by rewrite Hb.
Qed.

(** How many bits there are, [k] samples before the end of bit [i]: it is sampled
    in the middle. *)
Definition nbits (i k : Z) : Z := if k <=? W `div` 2 then i + 1 else i.

Lemma tx_bit_step c i k b :
  0 ≤ i ≤ 7 → 0 < k ≤ W → (k ≠ 1 → b = bit_of c i) →
  uart_tx W b (TxVars BITS k (nbits i k) (wrap (nbits i k) c) (bit_of c i)) =
  (if k =? 1 then TxVars (if i =? 7 then STOP_BIT else BITS) W (i + 1) (wrap (i + 1) c) b
   else TxVars BITS (k - 1) (nbits i (k - 1)) (wrap (nbits i (k - 1)) c) b, []).
Proof.
  intros Hi Hk Hb. pose proof half_range as Hh.
  assert (u8 (i + 1) = i + 1) as Hi8 by (apply wrap_small; lia).
  unfold uart_tx, tx_switch, tx_dec, tx_goto, tx_fail. cbn -[wrap Z.div is_error]. rewrite (u64_dec k) by done.
  destruct (Z.eqb_spec (k - 1) (W `div` 2)) as [Emid|Emid]; cbn -[wrap Z.div is_error].
  - rewrite (Hb ltac:(lia)), Z.eqb_refl. cbn -[wrap Z.div].
    assert (nbits i k = i) as -> by (unfold nbits; conds).
    assert (nbits i (k - 1) = i + 1) as -> by (unfold nbits; conds).
    rewrite (proj2 (Z.eqb_neq k 1)), (proj2 (Z.eqb_neq (k - 1) 0)), wrap_S, Hi8 by lia. cbn -[wrap].
    by rewrite (wrap_small 8 (wrap (i + 1) c)) by (pose proof (wrap_range (i + 1) c ltac:(lia));
      assert (2 ^ (i + 1) ≤ 2 ^ 8) by (apply Z.pow_le_mono_r; lia); lia).
  - assert (nbits i (k - 1) = nbits i k) as -> by (unfold nbits; conds).
    destruct (Z.eqb_spec k 1) as [->|Hne].
    + change (1 - 1) with 0. rewrite is_error_0, andb_false_r. cbn -[wrap Z.div].
      assert (nbits i 1 = i + 1) as -> by (unfold nbits; conds). by replace (i + 1 =? 8) with (i =? 7) by conds.
    + rewrite (Hb Hne), Z.eqb_refl, (proj2 (Z.eqb_neq (k - 1) 0)) by lia. done.
Qed.

Lemma tx_stop_step c n k p :
  0 < k ≤ W →
  uart_tx W 1 (TxVars STOP_BIT k n c p) =
  if k =? 1 then (TxVars IDLE 0 n c 1, [OutByte c]) else (TxVars STOP_BIT (k - 1) n c 1, []).
Proof.
  intros Hk. unfold uart_tx, tx_switch, tx_dec, tx_goto. cbn -[wrap]. rewrite (u64_dec k) by done.
  replace (k - 1 =? 0) with (k =? 1) by conds. by destruct (Z.eqb_spec k 1) as [->|Hne].
Qed.

(** *** Sender and receiver *)

(** Both in the start bit, [k] clocks before its end. *)
Definition in_start (c k : Z) (q : terminal) (out : list uart_out) : wire :=
  Wire (RxVars START_BIT c k 0 0 0) (TxVars START_BIT k 0 0 0) q out.

(** Both in data bit [i], [k] clocks before its end. *)
Definition in_bit (c i k : Z) (q : terminal) (out : list uart_out) : wire :=
  Wire (RxVars BITS c k i (bit_of c i) 0) (TxVars BITS k (nbits i k) (wrap (nbits i k) c) (bit_of c i)) q out.

Definition in_stop (c k : Z) (q : terminal) (out : list uart_out) : wire :=
  Wire (RxVars STOP_BIT c k 8 1 0) (TxVars STOP_BIT k 8 c 1) q out.

(** Between characters. *)
Definition at_rest (b c p n : Z) (q : terminal) (out : list uart_out) : wire :=
  Wire (RxVars IDLE b 0 c 1 n) (TxVars IDLE 0 c b p) q out.

Lemma nbits_W i : nbits i W = i.
Proof. pose proof half_range. unfold nbits. conds. Qed.

Lemma clock_start c k q out :
  0 < k ≤ W → clock W (in_start c k q out) =
  Ret tt (if k =? 1 then in_bit c 0 W q out else in_start c (k - 1) q out).
Proof.
  intros Hk. unfold in_start at 1. erewrite clock_eq by reflexivity.
  cbn -[wrap Z.div bit_of nbits uart_tx]. rewrite (u64_dec k) by done.
  replace (k - 1 =? 0) with (k =? 1) by conds. rewrite tx_start_step by (done || by intros ?%Z.eqb_neq; case_match).
  rewrite app_nil_r. unfold in_bit. rewrite nbits_W, wrap_0.
  replace (Z.land c 1) with (bit_of c 0) by (unfold bit_of; by rewrite Z.shiftr_0_r).
  by destruct (k =? 1).
Qed.

Lemma clock_bit c i k q out :
  is_byte c → 0 ≤ i ≤ 7 → 0 < k ≤ W → clock W (in_bit c i k q out) =
  Ret tt (if k =? 1 then if i =? 7 then in_stop c W q out else in_bit c (i + 1) W q out
          else in_bit c i (k - 1) q out).
Proof.
  intros Hc Hi Hk. assert (u8 (i + 1) = i + 1) as Hi8 by (apply wrap_small; lia).
  unfold in_bit at 1. erewrite clock_eq by reflexivity.
  cbn -[wrap Z.div bit_of nbits uart_tx]. rewrite (u64_dec k), Hi8 by done.
  replace (k - 1 =? 0) with (k =? 1) by conds. replace (i + 1 =? 8) with (i =? 7) by conds.
  rewrite tx_bit_step by (done || by intros ?%Z.eqb_neq; case_match). rewrite app_nil_r.
  destruct (k =? 1); [|done]. destruct (Z.eqb_spec i 7) as [->|Hi7]; unfold in_stop, in_bit.
  - change (7 + 1) with 8. by rewrite u8_id.
  - by rewrite nbits_W.
Qed.

Lemma clock_stop c k q out :
  0 < k ≤ W → clock W (in_stop c k q out) =
  Ret tt (if k =? 1 then at_rest c 8 1 0 q (out ++ [OutByte c]) else in_stop c (k - 1) q out).
Proof.
  intros Hk. unfold in_stop at 1. erewrite clock_eq by reflexivity.
  cbn -[wrap Z.div bit_of nbits uart_tx]. rewrite (u64_dec k) by done.
  replace (k - 1 =? 0) with (k =? 1) by conds. cbn [rx]. rewrite tx_stop_step by done.
  destruct (Z.eqb_spec k 1) as [->|Hne]; [done|]. by rewrite app_nil_r.
Qed.

(** A phase of [W] clocks, from the clocks it consists of. *)
Lemma phase_run (f : Z → wire) (next : wire) :
  (∀ k, 0 < k ≤ W → clock W (f k) = Ret tt (if k =? 1 then next else f (k - 1))) →
  clocks W (Z.to_nat W) (f W) = Ret tt next.
Proof.
  intros Hf. assert (∀ n : nat, (0 < n)%nat → Z.of_nat n ≤ W → clocks W n (f (Z.of_nat n)) = Ret tt next) as H.
  { induction n as [|n IH]; intros Hn Hle; [lia|]. cbn [clocks].
    rewrite (bind_Ret _ _ _ _ _ (Hf (Z.of_nat (S n)) ltac:(lia))).
    destruct (Z.eqb_spec (Z.of_nat (S n)) 1) as [E|E].
    - assert (n = 0)%nat as -> by lia. done.
    - replace (Z.of_nat (S n) - 1) with (Z.of_nat n) by lia. apply IH; lia. }
  specialize (H (Z.to_nat W)). rewrite Z2Nat.id in H by lia. apply H; lia.
Qed.

Lemma bits_run c i q out :
  is_byte c → (i ≤ 8)%nat →
  clocks W ((8 - i) * Z.to_nat W) (if (i =? 8)%nat then in_stop c W q out else in_bit c (Z.of_nat i) W q out) =
  Ret tt (in_stop c W q out).
Proof.
  intros Hc Hi. remember (8 - i)%nat as d eqn:Ed. revert i Hi Ed.
  induction d as [|d IH]; intros i Hi Ed.
  { assert (i = 8)%nat as -> by lia. done. }
  rewrite (proj2 (Nat.eqb_neq i 8)) by lia. cbn [Nat.mul].
  rewrite (clocks_add _ _ _ _ (if Z.of_nat i =? 7 then in_stop c W q out else in_bit c (Z.of_nat i + 1) W q out)).
  - rewrite <- (IH (S i)) by lia. destruct (Nat.eqb_spec (S i) 8) as [E|E].
    + by rewrite (proj2 (Z.eqb_eq (Z.of_nat i) 7)) by lia.
    + rewrite (proj2 (Z.eqb_neq (Z.of_nat i) 7)) by lia.
      by replace (Z.of_nat (S i)) with (Z.of_nat i + 1) by lia.
  - apply (phase_run (λ k, in_bit c (Z.of_nat i) k q out)).
    intros k Hk. apply clock_bit; [done|lia|done].
Qed.

(** Waiting for the next look at the terminal. *)
Lemma rest_run b c p n q out :
  0 ≤ n ≤ RX_INTERVAL →
  clocks W (Z.to_nat (RX_INTERVAL - n)) (at_rest b c p n q out) =
  Ret tt (at_rest b c (if n =? RX_INTERVAL then p else 1) RX_INTERVAL q out).
Proof.
  intros Hn. remember (Z.to_nat (RX_INTERVAL - n)) as d eqn:Ed. revert n p Hn Ed.
  induction d as [|d IH]; intros n p Hn Ed.
  { assert (n = RX_INTERVAL) as -> by lia. by rewrite Z.eqb_refl. }
  rewrite (proj2 (Z.eqb_neq n RX_INTERVAL)) by lia. cbn [clocks].
  rewrite (bind_Ret _ _ _ tt (at_rest b c 1 (n + 1) q out)).
  2:{ unfold at_rest. erewrite clock_eq.
      2:{ unfold rx_switch. cbn -[wrap RX_INTERVAL]. by rewrite (proj2 (Z.leb_gt RX_INTERVAL n)) by lia. }
      cbn -[wrap]. rewrite app_nil_r, (wrap_small 64) by (unfold RX_INTERVAL in *; lia). done. }
  rewrite IH by lia. by destruct (n + 1 =? RX_INTERVAL).
Qed.

(** One character, from rest to rest; the terminal is in raw mode afterwards. *)
Lemma char_run b c p n ch t out :
  is_byte ch → 0 ≤ n ≤ RX_INTERVAL →
  clocks W (Z.to_nat (RX_INTERVAL - n) + 1 + 10 * Z.to_nat W)
    (at_rest b c p n (Term (ch :: typed t) (closed t) (line_tty t) (reported t)) out) =
  Ret tt (at_rest ch 8 1 0 (Term (typed t) (closed t) (enable_raw_mode (line_tty t)) (reported t)) (out ++ [OutByte ch])).
Proof.
  intros Hch Hn. set (i := Term (ch :: _) _ _ _). set (q := Term (typed t) _ _ _).
  rewrite <- Nat.add_assoc, (clocks_add _ _ _ _ _ (rest_run b c p n i out Hn)).
  rewrite (clocks_add _ 1 _ _ (in_start ch W q out)).
  2:{ cbn [clocks]. rewrite (bind_Ret _ _ _ tt (in_start ch W q out)); [done|].
      unfold at_rest. rewrite (clock_eq W _ _ _ _ (RxVars START_BIT (u8 ch) W 0 0 0) q)
        by done.
      cbn -[wrap]. by rewrite app_nil_r, u8_id. }
  replace (10 * Z.to_nat W)%nat with (Z.to_nat W + ((8 - 0) * Z.to_nat W + Z.to_nat W))%nat by lia.
  rewrite (clocks_add _ _ _ _ (in_bit ch 0 W q out)).
  2:{ apply (phase_run (λ k, in_start ch k q out)). intros k. apply clock_start. }
  rewrite (clocks_add _ _ _ _ (in_stop ch W q out)).
  2:{ exact (bits_run ch 0 q out Hch ltac:(lia)). }
  apply (phase_run (λ k, in_stop ch k q out)). intros k. apply clock_stop.
Qed.

(** The clocks that the characters take. *)
Definition line_time (n : Z) (k : nat) : nat :=
  match k with
  | O => 0
  | S k => (Z.to_nat (RX_INTERVAL - n) + 1 + 10 * Z.to_nat W) +
           k * (Z.to_nat RX_INTERVAL + 1 + 10 * Z.to_nat W)
  end.

Lemma line_run b c p n cs t out :
  bytes cs → 0 ≤ n ≤ RX_INTERVAL →
  ∃ b' c' p' n' r', 0 ≤ n' ≤ RX_INTERVAL ∧
    clocks W (line_time n (length cs))
      (at_rest b c p n (Term (cs ++ typed t) (closed t) (line_tty t) (reported t)) out) =
    Ret tt (at_rest b' c' p' n' (Term (typed t) (closed t) r' (reported t)) (out ++ (OutByte <$> cs))).
Proof.
  intros Hcs. revert b c p n t out. induction Hcs as [|ch cs Hch Hcs IH]; intros b c p n t out Hn.
  { exists b, c, p, n, (line_tty t). cbn. by rewrite app_nil_r. }
  cbn [length line_time app].
  rewrite (clocks_add _ _ _ _ _ (char_run b c p n ch (Term (cs ++ typed t) (closed t) (line_tty t) (reported t)) out Hch Hn)).
  destruct (IH ch 8 1 0 (Term (typed t) (closed t) (enable_raw_mode (line_tty t)) (reported t)) (out ++ [OutByte ch]))
    as (b' & c' & p' & n' & r' & Hn' & Hr).
  { unfold RX_INTERVAL. lia. }
  exists b', c', p', n', r'. split; [done|].
  cbn [typed closed line_tty reported] in Hr |- *. rewrite <- app_assoc in Hr. cbn [app] in Hr.
  rewrite fmap_cons, <- Hr.
  f_equal. destruct (length cs); cbn [line_time]; [done|]. rewrite Z.sub_0_r. cbn. lia.
Qed.
End loopback.

(** A start bit at the very end of a stop bit makes the byte appear twice. *)
Lemma stop_bit_twice W b :
  20 < W → uart_tx W 0 (TxVars STOP_BIT 1 8 b 1) = (TxVars IDLE 0 8 b 0, [OutByte b; OutByte b]).
Proof.
  intros HW. unfold uart_tx, tx_switch, tx_dec. cbn -[wrap is_error]. change (u64 (1 - 1)) with 0.
  replace (is_error W 0) with false; [done|]. unfold is_error. conds.
Qed.

(** ** The terminal's attributes *)

Fixpoint rx_clocks (W : Z) (n : nat) (v : rx_vars) : M terminal rx_vars :=
  match n with
  | O => mret v
  | S n => '(_, v) ← uart_rx W v; rx_clocks W n v
  end.

(** Whether it returns or ends the program, a call of [uart_rx] leaves the terminal with
    a property that entering raw mode keeps. *)
Definition leaves_tty {A} (P : tty → Prop) (o : outcome terminal A) : Prop :=
  match o with
  | Ret _ t | Exit _ t => P (line_tty t)
  | _ => False
  end.

Section leaves.
Context (P : tty → Prop) (W : Z).
Hypothesis P_raw : ∀ t, P t → P (enable_raw_mode t).

Lemma leaves_tty_bind {A C} (m : M terminal A) (f : A → M terminal C) t :
  leaves_tty P (m t) → (∀ x t', P (line_tty t') → leaves_tty P (f x t')) → leaves_tty P ((m ≫= f) t).
Proof. intros Hm Hf. unfold mbind, M_bind. destruct (m t); try done. by apply Hf. Qed.

Lemma nonblocking_read_tty t : P (enable_raw_mode (line_tty t)) → leaves_tty P (nonblocking_read t).
Proof.
  intros Ht. unfold nonblocking_read, raw_mode, modify, poll_read, mbind, M_bind.
  cbn -[enable_raw_mode]. destruct (typed t); [|done]. by destruct (closed t).
Qed.

Lemma uart_rx_tty v t : P (line_tty t) → leaves_tty P (uart_rx W v t).
Proof.
  intros Ht. unfold uart_rx. apply leaves_tty_bind; [|done]. unfold rx_switch.
  destruct (rx_state v); cbn zeta; repeat case_match; try done.
  apply leaves_tty_bind; [by apply nonblocking_read_tty, P_raw|]. intros [c|] t' Ht'; done.
Qed.

Lemma rx_clocks_tty n v t : P (line_tty t) → leaves_tty P (rx_clocks W n v t).
Proof.
  revert v t. induction n as [|n IH]; intros v t Ht; [done|]. cbn [rx_clocks].
  apply leaves_tty_bind; [by apply uart_rx_tty|]. intros [x v'] t' Ht'. by apply IH.
Qed.
End leaves.

(** The terminal is not looked at for the first [RX_INTERVAL] clocks. *)
Lemma rx_clocks_quiet W k n m t :
  0 ≤ k → k + Z.of_nat n ≤ RX_INTERVAL →
  rx_clocks W (n + m) (RxVars IDLE 0 0 0 1 k) t = rx_clocks W m (RxVars IDLE 0 0 0 1 (k + Z.of_nat n)) t.
Proof.
  revert k. induction n as [|n IH]; intros k Hk Hn; [by rewrite Z.add_0_r|]. cbn [Nat.add rx_clocks].
  unfold uart_rx, rx_switch, mbind at 1 2, M_bind at 1 2. cbn [rx_state rx_sometimes rx_char rx_countbits rx_bit rx].
  rewrite (proj2 (Z.leb_gt RX_INTERVAL k)) by lia. unfold RX_INTERVAL in Hn. rewrite (wrap_small 64 (k + 1)) by lia.
  cbn. rewrite IH by (unfold RX_INTERVAL; lia). do 2 f_equal. lia.
Qed.

(** From the clock after that on it is in raw mode. *)
Lemma rx_clocks_raw a W n t :
  line_tty t = tty_init a → RX_INTERVAL < Z.of_nat n →
  leaves_tty (λ y, y = enable_raw_mode (tty_init a)) (rx_clocks W n rx_init t).
Proof.
  intros Ht Hn. pose proof (rx_clocks_quiet W 0 (Z.to_nat RX_INTERVAL) (n - Z.to_nat RX_INTERVAL) t ltac:(done)
    ltac:(by vm_compute)) as E.
  replace (Z.to_nat RX_INTERVAL + (n - Z.to_nat RX_INTERVAL))%nat with n in E by (unfold RX_INTERVAL in *; lia).
  change (RxVars IDLE 0 0 0 1 0) with rx_init in E. rewrite E, Z2Nat.id, Z.add_0_l by (unfold RX_INTERVAL; lia).
  destruct (n - Z.to_nat RX_INTERVAL)%nat as [|m] eqn:Em; [unfold RX_INTERVAL in *; lia|]. cbn [rx_clocks].
  assert (∀ y, y = enable_raw_mode (tty_init a) → enable_raw_mode y = enable_raw_mode (tty_init a)) as Hraw
    by (by intros y ->).
  apply leaves_tty_bind.
  - unfold uart_rx. apply leaves_tty_bind; [|done]. unfold rx_switch. cbn [rx_state rx_sometimes].
    rewrite (Z.leb_refl RX_INTERVAL). apply leaves_tty_bind; [|by intros [c|] t' Ht'].
    apply nonblocking_read_tty. by rewrite Ht.
  - intros [x v'] t' Ht'. apply rx_clocks_tty; [exact Hraw|done].
Qed.
