(* ===== verification/UartLine.v ===== *)
(** * Decoding a serial line

    [uart_tx] of [verilator/uart-verilator.c] on a whole line: it decodes well-formed
    characters from any idle state, its variables stay in range on every input, and
    it comes back to rest after any noise. *)
From S2P Require Import Prelude CMem UartSim.

(** The samples of a line, one per clock. *)
Fixpoint uart_tx_run (W : Z) (samples : list Z) (v : tx_vars) : tx_vars * list uart_out :=
  match samples with
  | [] => (v, [])
  | b :: bs =>
      let '(v1, o1) := uart_tx W b v in
      let '(v2, o2) := uart_tx_run W bs v1 in (v2, o1 ++ o2)
  end.

Lemma run_app W s1 s2 v v1 o1 :
  uart_tx_run W s1 v = (v1, o1) →
  uart_tx_run W (s1 ++ s2) v = let '(v2, o2) := uart_tx_run W s2 v1 in (v2, o1 ++ o2).
Proof.
  revert v o1. induction s1 as [|b s1 IH]; intros v o1 H; cbn [uart_tx_run app] in *.
  { simplify_eq. by destruct (uart_tx_run W s2 v1). }
  destruct (uart_tx W b v) as [v' o']. destruct (uart_tx_run W s1 v') as [v'' o''] eqn:E. simplify_eq.
  rewrite (IH _ _ E). destruct (uart_tx_run W s2 v1). by rewrite app_assoc.
Qed.

(** A step that prints nothing, and one that ends a run. *)
Lemma run_step W b bs v v1 o1 :
  uart_tx W b v = (v1, o1) →
  uart_tx_run W (b :: bs) v = let '(v2, o2) := uart_tx_run W bs v1 in (v2, o1 ++ o2).
Proof. intros H. cbn [uart_tx_run]. by rewrite H. Qed.

Lemma run_quiet W b bs v v1 :
  uart_tx W b v = (v1, []) → uart_tx_run W (b :: bs) v = uart_tx_run W bs v1.
Proof. intros H. rewrite (run_step _ _ _ _ _ _ H). by destruct (uart_tx_run W bs v1). Qed.

Section line.
Context (W : Z).
Hypothesis W_range : 2 ≤ W < 2 ^ 40.

(** ** Well-formed characters *)

Definition level (b : Z) : list Z := replicate (Z.to_nat W) b.

(** A start bit, eight data bits from the least significant one on, a stop bit. *)
Definition frame (c : Z) : list Z := level 0 ++ mjoin (level <$> (bit_of c <$> seqZ 0 8)) ++ level 1.

(** Characters, each followed by at least one more idle sample. *)
Definition line (cs : list (Z * nat)) : list Z :=
  mjoin ((λ '(c, gap), frame c ++ replicate (S gap) 1) <$> cs).

Lemma level_cons b : level b = b :: replicate (Z.to_nat (W - 1)) b.
Proof. unfold level. by replace (Z.to_nat W) with (S (Z.to_nat (W - 1))) by lia. Qed.

(** A phase of the receiver, up to its last sample. *)
Lemma phase_quiet (f : Z → tx_vars) b rest :
  (∀ k, 1 < k ≤ W → uart_tx W b (f k) = (f (k - 1), [])) →
  uart_tx_run W (replicate (Z.to_nat (W - 1)) b ++ rest) (f W) = uart_tx_run W rest (f 1).
Proof.
  intros Hf.
  assert (∀ n : nat, Z.of_nat n + 1 ≤ W →
    uart_tx_run W (replicate n b ++ rest) (f (Z.of_nat n + 1)) = uart_tx_run W rest (f 1)) as H.
  { induction n as [|n IH]; intros Hn; [done|]. cbn [replicate app].
    rewrite (run_quiet _ _ _ _ _ (Hf (Z.of_nat (S n) + 1) ltac:(lia))).
    replace (Z.of_nat (S n) + 1 - 1) with (Z.of_nat n + 1) by lia. apply IH. lia. }
  specialize (H (Z.to_nat (W - 1))). rewrite Z2Nat.id in H by lia.
  replace (W - 1 + 1) with W in H by lia. apply H. lia.
Qed.

Definition tx_in_bit (c i k : Z) : tx_vars := TxVars BITS k (nbits W i k) (wrap (nbits W i k) c) (bit_of c i).

(** From bit [i], whose first sample was seen, into the stop bit. *)
Lemma bits_decode c rest (d : nat) :
  is_byte c → (d ≤ 7)%nat →
  let i := 7 - Z.of_nat d in
  uart_tx_run W (replicate (Z.to_nat (W - 1)) (bit_of c i) ++
      mjoin (level <$> (bit_of c <$> seqZ (i + 1) (Z.of_nat d))) ++ level 1 ++ rest) (tx_in_bit c i W) =
  uart_tx_run W (replicate (Z.to_nat (W - 1)) 1 ++ rest) (TxVars STOP_BIT W 8 c 1).
Proof.
  intros Hc. induction d as [|d IH]; intros Hd i; rewrite (phase_quiet (tx_in_bit c i)).
  2,4: intros k Hk; unfold tx_in_bit; rewrite tx_bit_step by (done || lia); by rewrite (proj2 (Z.eqb_neq k 1)) by lia.
  - change (seqZ (i + 1) (Z.of_nat 0)) with (@nil Z). cbn [fmap list_fmap mjoin list_join app]. rewrite level_cons, <- app_comm_cons.
    rewrite (run_quiet _ _ _ _ (TxVars STOP_BIT W 8 c 1)); [done|].
    unfold tx_in_bit. rewrite tx_bit_step by lia. rewrite Z.eqb_refl. unfold i. cbn -[wrap].
    by rewrite u8_id.
  - rewrite seqZ_cons by lia. rewrite !fmap_cons. cbn [mjoin list_join]. rewrite <- app_assoc, level_cons, <- app_comm_cons.
    rewrite (run_quiet _ _ _ _ (tx_in_bit c (i + 1) W)).
    + specialize (IH ltac:(lia)). cbv zeta in IH.
      replace (7 - Z.of_nat d) with (i + 1) in IH by (unfold i; lia).
      replace (Z.pred (Z.of_nat (S d))) with (Z.of_nat d) by lia. by rewrite <- IH.
    + unfold tx_in_bit at 1. rewrite tx_bit_step by lia. rewrite Z.eqb_refl.
      rewrite (proj2 (Z.eqb_neq i 7)) by (unfold i; lia). unfold tx_in_bit. by rewrite nbits_W.
Qed.

(** At rest between characters. *)
Definition resting (v : tx_vars) : Prop := tx_state v = IDLE.

Lemma idle_run n rest v :
  resting v → ∃ v', resting v' ∧ uart_tx_run W (replicate n 1 ++ rest) v = uart_tx_run W rest v'.
Proof.
  revert v. induction n as [|n IH]; intros v Hv; [by exists v|]. cbn [replicate app].
  destruct v as [st cb bs by_ pv]. unfold resting in Hv. cbn in Hv. subst st.
  rewrite (run_quiet _ _ _ _ (TxVars IDLE cb bs by_ 1)) by done. by apply IH.
Qed.

Lemma frame_decode c rest v :
  is_byte c → resting v →
  ∃ v', resting v' ∧ uart_tx_run W (frame c ++ 1 :: rest) v =
    let '(v2, o2) := uart_tx_run W rest v' in (v2, OutByte c :: o2).
Proof.
  intros Hc Hv. unfold frame. destruct v as [st cb bs by_ pv]. unfold resting in Hv. cbn in Hv. subst st.
  rewrite <- !app_assoc, level_cons, <- app_comm_cons.
  rewrite (run_quiet _ _ _ _ (TxVars START_BIT W 0 0 0)) by done.
  rewrite (phase_quiet (λ k, TxVars START_BIT k 0 0 0)).
  2:{ intros k Hk. rewrite tx_start_step by (done || lia). by rewrite (proj2 (Z.eqb_neq k 1)) by lia. }
  rewrite seqZ_cons by lia. rewrite !fmap_cons. cbn [mjoin list_join]. rewrite <- app_assoc, level_cons, <- app_comm_cons.
  rewrite (run_quiet _ _ _ _ (tx_in_bit c 0 W)).
  2:{ rewrite tx_start_step by lia. unfold tx_in_bit. by rewrite nbits_W, wrap_0. }
  pose proof (bits_decode c (1 :: rest) 7 Hc ltac:(lia)) as Hd. cbv zeta in Hd.
  change (7 - Z.of_nat 7) with 0 in Hd. change (seqZ (Z.succ 0) (Z.pred 8)) with (seqZ (0 + 1) (Z.of_nat 7)).
  exists (TxVars IDLE 0 8 c 1). split; [done|]. etransitivity; [exact Hd|]. clear Hd.
  rewrite (phase_quiet (λ k, TxVars STOP_BIT k 8 c 1)).
  2:{ intros k Hk. rewrite tx_stop_step by (done || lia). by rewrite (proj2 (Z.eqb_neq k 1)) by lia. }
  rewrite (run_step W 1 rest _ _ _ (tx_stop_step W W_range c 8 1 1 ltac:(lia))). done.
Qed.

Lemma line_cons c gap cs : line ((c, gap) :: cs) = frame c ++ 1 :: replicate gap 1 ++ line cs.
Proof. unfold line. cbn -[frame]. by rewrite <- app_assoc. Qed.

Lemma line_decode cs v :
  bytes (fst <$> cs) → resting v →
  ∃ v', resting v' ∧ uart_tx_run W (line cs) v = (v', OutByte <$> (fst <$> cs)).
Proof.
  revert v. induction cs as [|[c gap] cs IH]; intros v Hc Hv.
  { by exists v. }
  rewrite fmap_cons in Hc. apply Forall_cons in Hc as [Hc Hcs].
  rewrite line_cons.
  destruct (frame_decode c (replicate gap 1 ++ line cs) v Hc Hv) as (v1 & Hv1 & ->).
  destruct (idle_run gap (line cs) v1 Hv1) as (v2 & Hv2 & ->).
  destruct (IH v2 Hcs Hv2) as (v3 & Hv3 & ->). by exists v3.
Qed.

(** ** Every line *)

(** The range of the counters in each state; in [BITS], the count of the bits is
    ahead by one in the second half of a bit. *)
Definition phase_ok (v : tx_vars) : Prop :=
  match tx_state v with
  | IDLE => True
  | START_BIT => 0 < tx_countbits v ≤ W ∧ tx_bits v = 0
  | BITS => 0 < tx_countbits v ≤ W ∧ ∃ i, 0 ≤ i ≤ 7 ∧ tx_bits v = nbits W i (tx_countbits v)
  | STOP_BIT => 0 < tx_countbits v ≤ W ∧ tx_bits v = 8
  | ERROR => 0 < tx_countbits v ≤ 2 * W
  end.
Definition tx_inv (v : tx_vars) : Prop := is_byte (tx_byte v) ∧ phase_ok v.

(** What may be printed: bytes, and errors in the middle of a bit. *)
Definition out_ok (o : uart_out) : Prop :=
  match o with
  | OutByte b => is_byte b
  | OutError st count => st ≠ IDLE ∧ st ≠ ERROR ∧ W ≤ 20 * count ≤ 19 * W
  end.

Lemma tx_init_inv : tx_inv tx_init.
Proof. split; [unfold is_byte; cbn; lia|done]. Qed.

Lemma is_error_true k : is_error W k = true → W ≤ 20 * k ≤ 19 * W.
Proof. unfold is_error. rewrite andb_true_iff, !Z.leb_le. lia. Qed.

Lemma dec_ok k : 0 < k ≤ 2 * W → u64 (k - 1) = k - 1.
Proof. intros. apply wrap_small. lia. Qed.

(** The bits so far and the byte, after a sample. *)
Definition bits_sample (tx : Z) (v : tx_vars) : tx_vars :=
  let v := tx_dec v in
  if tx_countbits v =? W `div` 2
  then TxVars (tx_state v) (tx_countbits v) (u8 (tx_bits v + 1))
         (u8 (Z.lor (tx_byte v) (Z.shiftl tx (tx_bits v)))) (tx_prev v)
  else v.

Lemma bits_sample_ok tx k i byte p :
  0 ≤ i ≤ 7 → 0 < k ≤ W → is_byte byte →
  ∃ byte', is_byte byte' ∧
    bits_sample tx (TxVars BITS k (nbits W i k) byte p) = TxVars BITS (k - 1) (nbits W i (k - 1)) byte' p.
Proof.
  intros Hi Hk Hb. pose proof (half_range W W_range) as Hh.
  unfold bits_sample, tx_dec. cbn -[wrap Z.div nbits]. rewrite dec_ok by lia.
  destruct (Z.eqb_spec (k - 1) (W `div` 2)) as [E|E].
  - eexists. split; [apply u8_byte|]. f_equal. unfold nbits.
    rewrite (proj2 (Z.leb_gt k _)), (proj2 (Z.leb_le (k - 1) _)) by lia. apply wrap_small. lia.
  - exists byte. split; [done|]. unfold nbits. f_equal. conds.
Qed.

Lemma tx_bits_eq tx k n byte p :
  tx_switch W tx (TxVars BITS k n byte p) =
  let v := bits_sample tx (TxVars BITS k n byte p) in
  if negb (tx =? p) && is_error W (tx_countbits v) then tx_fail W BITS v
  else (if tx_countbits v =? 0 then tx_goto (if tx_bits v =? 8 then STOP_BIT else BITS) W v else v, []).
Proof.
  unfold tx_switch, bits_sample, tx_dec. cbn -[wrap Z.div is_error].
  by destruct (_ =? W `div` 2).
Qed.

(** How many more samples of an idle line the receiver can take to come to rest. *)
Definition restless (v : tx_vars) : Z :=
  match tx_state v with
  | IDLE => 0
  | START_BIT => tx_countbits v + 11 * W
  | BITS => tx_countbits v + (10 - (tx_bits v - (if tx_countbits v <=? W `div` 2 then 1 else 0))) * W
  | STOP_BIT => tx_countbits v + 2 * W
  | ERROR => tx_countbits v
  end.

(** A sample keeps the variables in range, and brings an idle line closer to rest. *)
Definition step_ok (b : Z) (v : tx_vars) : Prop :=
  let '(v', o) := uart_tx W b v in
  tx_inv v' ∧ Forall out_ok o ∧ (b = 1 → resting v' ∨ restless v' < restless v).

Ltac step_open :=
  unfold step_ok, uart_tx, tx_switch, tx_dec, tx_goto, tx_inv, phase_ok, resting, restless;
  cbn -[wrap is_error Z.div nbits]; rewrite ?dec_ok by lia.
Ltac step_close := split; [split; [first [done|apply u8_byte|unfold is_byte; lia]|lia]|split; [done|]].
Ltac fails E := apply andb_prop in E as [?E1 E%is_error_true]; unfold tx_fail; cbn -[Z.div nbits];
  split; [split; [done|lia]|]; split; [apply Forall_singleton; cbn; split; [done|split; [done|lia]]|].

Lemma idle_step_ok k n byte p b : is_byte byte → step_ok b (TxVars IDLE k n byte p).
Proof.
  intros Hb. step_open. destruct (Z.eqb_spec b 0) as [->|]; cbn.
  - step_close. done.
  - split; [done|]. split; [done|]. by left.
Qed.

Lemma start_step_ok k byte p b : is_byte byte → 0 < k ≤ W → step_ok b (TxVars START_BIT k 0 byte p).
Proof.
  intros Hb Hk. pose proof (half_range W W_range) as Hh. step_open.
  destruct ((b =? 1) && is_error W (k - 1)) eqn:E; [fails E; intros _; right; lia|].
  destruct (Z.eqb_spec (k - 1) 0) as [E0|E0]; cbn -[Z.div nbits]; [|step_close; right; lia].
  split.
  - split; [done|]. split; [lia|]. exists 0. by rewrite nbits_W.
  - split; [done|]. intros _. right. rewrite (proj2 (Z.leb_gt W _)); lia.
Qed.

Lemma bits_step_ok k i byte p b :
  is_byte byte → 0 < k ≤ W → 0 ≤ i ≤ 7 → step_ok b (TxVars BITS k (nbits W i k) byte p).
Proof.
  intros Hbyte Hk Hi. pose proof (half_range W W_range) as Hh. unfold step_ok, uart_tx. rewrite tx_bits_eq.
  destruct (bits_sample_ok b k i byte p Hi Hk Hbyte) as (byte' & Hbyte' & ->). step_open.
  assert (∀ j m, nbits W j m - (if m <=? W `div` 2 then 1 else 0) = j) as Hn
    by (intros j m; unfold nbits; destruct (m <=? _); lia).
  rewrite (Hn i k). destruct (negb (b =? p) && is_error W (k - 1)) eqn:E; [fails E; intros _; right; nia|].
  destruct (Z.eqb_spec (k - 1) 0) as [E0|E0]; cbn -[Z.div nbits].
  - assert (nbits W i (k - 1) = i + 1) as -> by (unfold nbits; conds).
    destruct (Z.eqb_spec (i + 1) 8) as [E8|E8]; cbn -[Z.div nbits]; [step_close; right; nia|]. split.
    + split; [done|]. split; [lia|]. exists (i + 1). split; [lia|by rewrite nbits_W].
    + split; [done|]. intros _. right. rewrite (proj2 (Z.leb_gt W _)) by lia. nia.
  - split; [split; [done|]; split; [lia|]; by exists i|]. split; [done|]. intros _. right. rewrite (Hn i). nia.
Qed.

Lemma stop_step_ok k byte p b : is_byte byte → 0 < k ≤ W → step_ok b (TxVars STOP_BIT k 8 byte p).
Proof.
  intros Hb Hk. step_open.
  destruct ((b =? 0) && is_error W (k - 1)) eqn:E; [fails E; intros ->; done|].
  destruct (b =? 0), (k - 1 =? 0) eqn:E0; cbn; rewrite ?E0; cbn.
  - split; [done|]. split; [by repeat apply Forall_cons_2|]. by left.
  - split; [done|]. split; [by repeat apply Forall_cons_2|]. by left.
  - split; [done|]. split; [by repeat apply Forall_cons_2|]. by left.
  - apply Z.eqb_neq in E0. step_close. right. lia.
Qed.

Lemma error_step_ok k n byte p b : is_byte byte → 0 < k ≤ 2 * W → step_ok b (TxVars ERROR k n byte p).
Proof.
  intros Hb Hk. step_open. destruct (Z.eqb_spec (k - 1) 0) as [E0|E0]; cbn.
  - split; [done|]. split; [done|]. by left.
  - step_close. right. lia.
Qed.

Lemma tx_step_ok b v : tx_inv v → step_ok b v.
Proof.
  destruct v as [st k n byte p]. intros [Hb Hp]. destruct st; cbn in Hb, Hp.
  - by apply idle_step_ok.
  - destruct Hp as [Hk ->]. by apply start_step_ok.
  - destruct Hp as [Hk (i & Hi & ->)]. by apply bits_step_ok.
  - destruct Hp as [Hk ->]. by apply stop_step_ok.
  - by apply error_step_ok.
Qed.

Lemma tx_run_ok samples v :
  tx_inv v → let '(v', o) := uart_tx_run W samples v in tx_inv v' ∧ Forall out_ok o.
Proof.
  revert v. induction samples as [|b bs IH]; intros v Hv; [done|]. cbn [uart_tx_run].
  pose proof (tx_step_ok b v Hv) as H. unfold step_ok in H. destruct (uart_tx W b v) as [v1 o1].
  destruct H as (H1 & H2 & _). specialize (IH v1 H1). destruct (uart_tx_run W bs v1) as [v2 o2].
  destruct IH as [H3 H4]. split; [done|]. by apply Forall_app.
Qed.

(** Twelve bit times of an idle line are enough, from any state in range. *)
Lemma restless_bound v : tx_inv v → 0 ≤ restless v ≤ 12 * W.
Proof.
  destruct v as [st k n byte p]. intros [_ Hp]. unfold restless, phase_ok in *. destruct st; cbn -[Z.div nbits] in *.
  - lia.
  - lia.
  - destruct Hp as [Hk (i & Hi & ->)]. unfold nbits. destruct (k <=? _); nia.
  - lia.
  - lia.
Qed.

Lemma idle_recovers n v :
  tx_inv v → restless v ≤ Z.of_nat n →
  let '(v', _) := uart_tx_run W (replicate n 1) v in resting v'.
Proof.
  revert v. induction n as [|n IH]; intros v Hv Hn; cbn [replicate uart_tx_run].
  { destruct v as [st k m byte p]. destruct Hv as [_ Hp]. unfold resting, restless, phase_ok in *.
    destruct st; cbn -[Z.div nbits] in *; try lia; [done|]. destruct Hp as [Hk (i & Hi & ->)].
    unfold nbits in Hn. destruct (k <=? _); nia. }
  pose proof (tx_step_ok 1 v Hv) as H. unfold step_ok in H. destruct (uart_tx W 1 v) as [v1 o1].
  destruct H as (H1 & _ & H3). specialize (IH v1 H1).
  destruct (uart_tx_run W (replicate n 1) v1) as [v2 o2] eqn:E. destruct (H3 eq_refl) as [Hr|Hr].
  - destruct (idle_run n [] v1 Hr) as (v3 & Hv3 & E3). rewrite app_nil_r, E in E3. cbn in E3. by injection E3 as -> _.
  - apply IH. lia.
Qed.
End line.
