(* ===== verification/UartRate.v ===== *)
(** * A serial line at a slightly different rate

    [uart_tx] of [verilator/uart-verilator.c] expects [W] clocks per bit; a UART
    divides the clock by a multiple of sixteen and may send bits of [w] clocks.  The
    decoder tolerates transitions in the last twentieth of a bit, and starts anew with
    every character: it decodes a line whose bits are shorter by less than a
    two-hundredth, with or without pauses between the characters. *)
From S2P Require Import Prelude CMem UartSim UartLine.

Definition hold (b n : Z) : list Z := replicate (Z.to_nat n) b.

Lemma hold_cons b n : 0 < n → hold b n = b :: hold b (n - 1).
Proof. intros. unfold hold. by replace (Z.to_nat n) with (S (Z.to_nat (n - 1))) by lia. Qed.

Lemma hold_app b n m : 0 ≤ n → 0 ≤ m → hold b (n + m) = hold b n ++ hold b m.
Proof. intros. unfold hold. rewrite Z2Nat.inj_add by lia. apply replicate_add. Qed.

Section rate.
Context (W w : Z).
Hypothesis W_range : 2 ≤ W < 2 ^ 40.
Hypothesis rate_ok : w < W ∧ 20 * (10 * (W - w) + 1) < W.

Abbreviation run := (uart_tx_run W).

(** A character on the line, of which [e] samples have gone by. *)
Definition data_bits (c i n : Z) : list Z := mjoin ((λ j, hold (bit_of c j) w) <$> seqZ i n).
Definition frame_from (e c : Z) : list Z := hold 0 (w - e) ++ data_bits c 0 8 ++ hold 1 w.

(** Characters with pauses. *)
Fixpoint rate_line (cs : list (Z * Z)) : list Z :=
  match cs with
  | [] => []
  | (c, gap) :: cs => frame_from 0 c ++ hold 1 gap ++ rate_line cs
  end.

(** A pause is none at all, or longer than the decoder is late at the end of a
    character; after the last one the line rests. *)
Definition long_gap (gap : Z) : Prop := 10 * (W - w) + 2 ≤ gap.
Fixpoint gaps_ok (cs : list (Z * Z)) : Prop :=
  match cs with
  | [] => True
  | [(_, gap)] => long_gap gap
  | (_, gap) :: cs => (gap = 0 ∨ long_gap gap) ∧ gaps_ok cs
  end.

(** ** A phase of the decoder *)

Lemma hold_quiet (f : Z → tx_vars) b n k rest :
  0 ≤ n → (∀ j, k < j ≤ k + n → uart_tx W b (f j) = (f (j - 1), [])) →
  run (hold b n ++ rest) (f (k + n)) = run rest (f k).
Proof.
  intros Hn Hf. unfold hold. rewrite <- (Z2Nat.id n) in Hf |- * by done. rewrite Nat2Z.id.
  induction (Z.to_nat n) as [|m IH]; cbn [replicate app].
  { by replace (k + Z.of_nat 0) with k by lia. }
  rewrite (run_quiet _ _ _ _ _ (Hf (k + Z.of_nat (S m)) ltac:(lia))).
  replace (k + Z.of_nat (S m) - 1) with (k + Z.of_nat m) by lia. apply IH.
  intros j Hj. apply Hf. lia.
Qed.

Lemma late_no_error k : 20 * k < W → is_error W k = false.
Proof. intros. unfold is_error. apply andb_false_intro2, Z.leb_gt. lia. Qed.

(** Near its end, a phase takes any level. *)
Lemma start_late k p b :
  0 < k → 20 * (k - 1) < W →
  uart_tx W b (TxVars START_BIT k 0 0 p) = (if k =? 1 then TxVars BITS W 0 0 b else TxVars START_BIT (k - 1) 0 0 b, []).
Proof.
  intros Hk He. unfold uart_tx, tx_switch, tx_dec, tx_goto. cbn -[wrap is_error Z.div].
  rewrite (u64_dec W W_range) by lia. rewrite late_no_error, andb_false_r by done.
  replace (k - 1 =? 0) with (k =? 1) by conds. by destruct (k =? 1).
Qed.

Lemma bit_late c i k p b :
  0 ≤ i ≤ 7 → 0 < k → 20 * (k - 1) < W →
  uart_tx W b (TxVars BITS k (i + 1) (wrap (i + 1) c) p) =
  (TxVars (if (k =? 1) && (i =? 7) then STOP_BIT else BITS) (if k =? 1 then W else k - 1) (i + 1) (wrap (i + 1) c) b, []).
Proof.
  intros Hi Hk He. pose proof (half_range W W_range). assert (k ≤ W `div` 2) by (apply Z.div_le_lower_bound; lia).
  unfold uart_tx, tx_switch, tx_dec, tx_goto. cbn -[wrap is_error Z.div].
  rewrite (u64_dec W W_range) by lia. rewrite (proj2 (Z.eqb_neq (k - 1) _)) by lia. cbn -[wrap is_error Z.div].
  rewrite late_no_error, andb_false_r by done.
  replace (k - 1 =? 0) with (k =? 1) by conds. replace (i + 1 =? 8) with (i =? 7) by conds.
  destruct (k =? 1); [by destruct (i =? 7)|done].
Qed.

(** ** A character *)

(** The line changes [D] samples before the end of the phase. *)
Lemma start_phase D b rest :
  0 < D → 20 * D < W →
  run (hold 0 (W - D - 1) ++ hold b (D + 1) ++ rest) (TxVars START_BIT W 0 0 0) = run rest (TxVars BITS W 0 0 b).
Proof.
  intros HD He.
  pose proof (hold_quiet (λ k, TxVars START_BIT k 0 0 0) 0 (W - D - 1) (D + 1) (hold b (D + 1) ++ rest)) as H.
  cbn beta in H. replace (D + 1 + (W - D - 1)) with W in H by lia. rewrite H; [|lia|].
  2:{ intros j Hj. rewrite (tx_start_step W W_range) by lia. by rewrite (proj2 (Z.eqb_neq j 1)) by lia. }
  rewrite hold_cons, <- app_comm_cons by lia. rewrite (run_quiet _ _ _ _ _ (start_late (D + 1) 0 b ltac:(lia) ltac:(lia))).
  rewrite (proj2 (Z.eqb_neq (D + 1) 1)) by lia. replace (D + 1 - 1) with (1 + (D - 1)) at 2 by lia.
  replace (D + 1 - 1) with (D - 1 + 1) by lia. rewrite hold_app, <- app_assoc by lia.
  rewrite (hold_quiet (λ k, TxVars START_BIT k 0 0 b)); [|lia|].
  2:{ intros j Hj. rewrite start_late by lia. by rewrite (proj2 (Z.eqb_neq j 1)) by lia. }
  change (hold b 1) with [b]. cbn [app]. by rewrite (run_quiet _ _ _ _ _ (start_late 1 b b ltac:(lia) ltac:(lia))).
Qed.

Lemma bit_phase c i D b rest :
  0 ≤ i ≤ 7 → 0 < D → 20 * D < W →
  run (hold (bit_of c i) (W - D - 1) ++ hold b (D + 1) ++ rest) (TxVars BITS W i (wrap i c) (bit_of c i)) =
  run rest (TxVars (if i =? 7 then STOP_BIT else BITS) W (i + 1) (wrap (i + 1) c) b).
Proof.
  intros Hi HD He. assert (D + 1 ≤ W `div` 2) as Hh by (apply Z.div_le_lower_bound; lia).
  pose proof (hold_quiet (tx_in_bit W c i) (bit_of c i) (W - D - 1) (D + 1) (hold b (D + 1) ++ rest)) as H.
  replace (D + 1 + (W - D - 1)) with W in H by lia. 
  assert (tx_in_bit W c i W = TxVars BITS W i (wrap i c) (bit_of c i)) as EW by (unfold tx_in_bit; by rewrite (nbits_W W W_range)).
  rewrite EW in H. rewrite H; [|lia|].
  2:{ intros j Hj. unfold tx_in_bit. rewrite (tx_bit_step W W_range) by lia. by rewrite (proj2 (Z.eqb_neq j 1)) by lia. }
  unfold tx_in_bit. assert (nbits W i (D + 1) = i + 1) as -> by (unfold nbits; conds).
  rewrite hold_cons, <- app_comm_cons by lia. rewrite (run_quiet _ _ _ _ _ (bit_late c i (D + 1) (bit_of c i) b Hi ltac:(lia) ltac:(lia))).
  rewrite (proj2 (Z.eqb_neq (D + 1) 1)) by lia. cbn [andb]. replace (D + 1 - 1) with (1 + (D - 1)) at 2 by lia.
  replace (D + 1 - 1) with (D - 1 + 1) by lia. rewrite hold_app, <- app_assoc by lia.
  rewrite (hold_quiet (λ k, TxVars BITS k (i + 1) (wrap (i + 1) c) b)); [|lia|].
  2:{ intros j Hj. rewrite bit_late by lia. by rewrite (proj2 (Z.eqb_neq j 1)) by lia. }
  change (hold b 1) with [b]. cbn [app]. by rewrite (run_quiet _ _ _ _ _ (bit_late c i 1 b b Hi ltac:(lia) ltac:(lia))).
Qed.

(** From the first sample of bit [8 - n] that the decoder sees as such, into the stop
    bit; the line is ahead by [e] samples more than the bits are short. *)
Lemma bits_phases c e (n : nat) rest :
  is_byte c → 0 ≤ e ≤ 1 → (0 < n ≤ 8)%nat →
  let i := 8 - Z.of_nat n in
  run (hold (bit_of c i) (w - ((W - w) * (i + 1) + e + 1)) ++ data_bits c (i + 1) (Z.of_nat n - 1) ++ hold 1 w ++ rest)
    (TxVars BITS W i (wrap i c) (bit_of c i)) =
  run (hold 1 (w - ((W - w) * 9 + e + 1)) ++ rest) (TxVars STOP_BIT W 8 c 1).
Proof.
  intros Hc He. induction n as [|n IH]; intros Hn i; [lia|].
  set (D := (W - w) * (i + 2) + e). assert (0 < D ∧ 20 * D < W) as [HD0 HD] by (unfold D, i; nia).
  replace (w - ((W - w) * (i + 1) + e + 1)) with (W - D - 1) by (unfold D; lia).
  destruct (decide (n = 0%nat)) as [->|Hne].
  - replace i with 7 in * by (unfold i; lia). change (data_bits c (7 + 1) _) with (@nil Z). cbn [app].
    replace w with (D + 1 + (w - ((W - w) * 9 + e + 1))) at 1 by (unfold D; lia).
    rewrite hold_app, <- app_assoc by (unfold D; lia). rewrite bit_phase by lia. cbn [Z.eqb Pos.eqb].
    by rewrite (u8_id c Hc : wrap (7 + 1) c = c).
  - unfold data_bits. rewrite (seqZ_cons (i + 1)) by lia. rewrite fmap_cons. cbn [mjoin list_join].
    replace w with (D + 1 + (w - ((W - w) * (i + 1 + 1) + e + 1))) at 1 by (unfold D; lia).
    rewrite hold_app, <- !app_assoc by (unfold D, i; nia). rewrite bit_phase by lia.
    rewrite (proj2 (Z.eqb_neq i 7)) by lia. specialize (IH ltac:(lia)). cbv zeta in IH.
    replace (8 - Z.of_nat n) with (i + 1) in IH by lia. rewrite <- IH. unfold data_bits.
    by replace (Z.pred (Z.of_nat (S n) - 1)) with (Z.of_nat n - 1) by lia.
Qed.

(** A whole character, up to where the decoder expects the end of its stop bit. *)
Lemma char_phases c e rest v :
  is_byte c → 0 ≤ e ≤ 1 → resting v →
  run (frame_from e c ++ rest) v = run rest (TxVars STOP_BIT (10 * (W - w) + e + 1) 8 c 1).
Proof.
  intros Hc He Hv. destruct v as [st cb bs by_ pv]. unfold resting in Hv. cbn in Hv. subst st.
  unfold frame_from. rewrite <- !app_assoc, hold_cons, <- app_comm_cons by lia.
  rewrite (run_quiet _ _ _ _ (TxVars START_BIT W 0 0 0)) by done.
  set (D := (W - w) + e). replace (w - e - 1) with (W - D - 1) by (unfold D; lia).
  unfold data_bits. rewrite seqZ_cons by lia. rewrite fmap_cons. cbn [mjoin list_join].
  replace w with (D + 1 + (w - ((W - w) * (0 + 1) + e + 1))) at 1 by (unfold D; lia).
  rewrite hold_app, <- !app_assoc by (unfold D; lia). rewrite start_phase by (unfold D; lia).
  pose proof (bits_phases c e 8 rest Hc He ltac:(lia)) as H. cbv zeta in H. change (8 - Z.of_nat 8) with 0 in H.
  rewrite (wrap_0 c) in H. change (Z.succ 0) with (0 + 1). change (Z.pred 8) with (Z.of_nat 8 - 1).
  etransitivity; [exact H|]. clear H. set (E := 10 * (W - w) + e).
  replace (w - ((W - w) * 9 + e + 1)) with (W - E - 1) by (unfold E; lia).
  pose proof (hold_quiet (λ k, TxVars STOP_BIT k 8 c 1) 1 (W - E - 1) (E + 1) rest) as H. cbn beta in H.
  replace (E + 1 + (W - E - 1)) with W in H by lia. rewrite H; [done|unfold E; lia|].
  intros j Hj. rewrite (tx_stop_step W W_range) by (unfold E in *; lia). by rewrite (proj2 (Z.eqb_neq j 1)) by (unfold E in *; lia).
Qed.

(** The next start bit ends the character, or its stop bit does. *)
Lemma stop_early c k p :
  0 < k → 20 * k < W → uart_tx W 0 (TxVars STOP_BIT (k + 1) 8 c p) = (TxVars IDLE k 8 c 0, [OutByte c]).
Proof.
  intros Hk He. unfold uart_tx, tx_switch, tx_dec, tx_goto. cbn -[wrap is_error Z.div].
  rewrite (u64_dec W W_range) by lia. replace (k + 1 - 1) with k by lia. rewrite late_no_error by done.
  cbn -[wrap]. by rewrite (proj2 (Z.eqb_neq k 0)) by lia.
Qed.

Lemma stop_rest c k rest :
  0 < k ≤ W → run (hold 1 k ++ rest) (TxVars STOP_BIT k 8 c 1) =
    let '(v, o) := run rest (TxVars IDLE 0 8 c 1) in (v, OutByte c :: o).
Proof.
  intros Hk. replace k with (k - 1 + 1) at 1 by lia. replace k with (1 + (k - 1)) at 2 by lia.
  rewrite hold_app, <- app_assoc by lia. rewrite (hold_quiet (λ k, TxVars STOP_BIT k 8 c 1)); [|lia|].
  2:{ intros j Hj. rewrite (tx_stop_step W W_range) by lia. by rewrite (proj2 (Z.eqb_neq j 1)) by lia. }
  change (hold 1 1) with [1]. cbn [app]. by rewrite (run_step _ _ _ _ _ _ (tx_stop_step W W_range c 8 1 1 ltac:(lia))).
Qed.

Definition rate_line_from (e : Z) (cs : list (Z * Z)) : list Z :=
  match cs with
  | [] => []
  | (c, gap) :: cs => frame_from e c ++ hold 1 gap ++ rate_line cs
  end.

Lemma rate_line_late c gap cs : rate_line ((c, gap) :: cs) = 0 :: rate_line_from 1 ((c, gap) :: cs).
Proof. cbn [rate_line rate_line_from]. unfold frame_from. rewrite Z.sub_0_r, (hold_cons 0 w) by lia. done. Qed.

Lemma rate_decode cs e v :
  bytes (fst <$> cs) → gaps_ok cs → 0 ≤ e ≤ 1 → resting v →
  ∃ v', resting v' ∧ run (rate_line_from e cs) v = (v', OutByte <$> (fst <$> cs)).
Proof.
  revert e v. induction cs as [|[c gap] cs IH]; intros e v Hc Hg He Hv; [by exists v|].
  rewrite fmap_cons in Hc. apply Forall_cons in Hc as [Hc Hcs]. cbn [rate_line_from]. rewrite char_phases by done.
  set (E := 10 * (W - w) + e).
  assert ((long_gap gap ∧ gaps_ok cs) ∨ (gap = 0 ∧ cs ≠ [] ∧ gaps_ok cs)) as [[Hl Hg']|(-> & Hne & Hg')].
  { destruct cs as [|c' cs]; cbn in Hg; [by left|]. destruct Hg as [[->|?] ?]; [by right|by left]. }
  - unfold long_gap in Hl. replace gap with (E + 1 + (gap - E - 1)) by lia.
    rewrite hold_app, <- app_assoc by (unfold E; lia). rewrite stop_rest by (unfold E; lia).
    destruct (idle_run W (Z.to_nat (gap - E - 1)) (rate_line cs) (TxVars IDLE 0 8 c 1) eq_refl) as (v1 & Hv1 & H1).
    unfold hold. rewrite H1. destruct (IH 0 v1 Hcs Hg' ltac:(lia) Hv1) as (v2 & Hv2 & H2). exists v2. split; [done|].
    assert (rate_line_from 0 cs = rate_line cs) as Hz by (by destruct cs as [|[]]). rewrite Hz in H2. by rewrite H2.
  - destruct cs as [|[c' gap'] cs]; [done|]. change (hold 1 0) with (@nil Z). cbn [app]. rewrite rate_line_late.
    rewrite (run_step _ _ _ _ _ _ (stop_early c E 1 ltac:(unfold E; lia) ltac:(unfold E; lia))).
    destruct (IH 1 (TxVars IDLE E 8 c 0) Hcs Hg' ltac:(lia) eq_refl) as (v2 & Hv2 & H2).
    exists v2. split; [done|]. by rewrite H2.
Qed.

(** Any pause, then such a line. *)
Lemma rate_line_decode n cs v :
  bytes (fst <$> cs) → gaps_ok cs → resting v →
  ∃ v', resting v' ∧ run (replicate n 1 ++ rate_line cs) v = (v', OutByte <$> (fst <$> cs)).
Proof.
  intros Hc Hg Hv. destruct (idle_run W n (rate_line cs) v Hv) as (v1 & Hv1 & ->).
  destruct (rate_decode cs 0 v1 Hc Hg ltac:(lia) Hv1) as (v2 & Hv2 & H2). exists v2. split; [done|].
  by destruct cs as [|[]].
Qed.
End rate.

(** ** Lines the decoder understands *)

(** The samples [bs] carry the characters [cs]: with bits of exactly [W] samples and
    at least one more idle sample behind every stop bit, or with bits that are a little
    shorter, back to back or with pauses.  A start bit right behind a stop bit of [W]
    samples is left out: [stop_bit_twice]. *)
Inductive carries (W : Z) : list Z → list Z → Prop :=
  | carries_exact idle cs : carries W (replicate idle 1 ++ line W cs) (fst <$> cs)
  | carries_fast w idle cs :
      w < W ∧ 20 * (10 * (W - w) + 1) < W → gaps_ok W w cs →
      carries W (replicate idle 1 ++ rate_line w cs) (fst <$> cs).

Lemma carries_decode W bs cs v :
  2 ≤ W < 2 ^ 40 → bytes cs → carries W bs cs → resting v →
  ∃ v', resting v' ∧ uart_tx_run W bs v = (v', OutByte <$> cs).
Proof.
  intros HW Hcs Hb Hv. destruct Hb as [idle cs|w idle cs Hw Hg].
  - destruct (idle_run W idle (line W cs) v Hv) as (v1 & Hv1 & ->). by apply line_decode.
  - by apply rate_line_decode.
Qed.
