(* ===== verification/PpFifo.v ===== *)
(** * The FIFO of the UART

    [fpga/pp_fifo.vhd], clock by clock: two indices into a memory, and the last
    operation, which tells a full buffer from an empty one.  As long as nothing is
    popped from an empty buffer or pushed into a full one, it is a queue. *)
From S2P Require Import Prelude.

Inductive fifo_op := FIFO_POP | FIFO_PUSH.

#[export] Instance fifo_op_eq_dec : EqDecision fifo_op.
Proof. solve_decision. Defined.

Record pp_fifo := PpFifo {
  memory : list Z;
  top : nat;
  bottom : nat;
  prev_op : fifo_op;
  data_out : Z;
}.

(** What drives it: [reset], [push], [pop] and [data_in]. *)
Record fifo_in := FifoIn { f_reset : bool; f_push : bool; f_pop : bool; f_data_in : Z }.

Section fifo.
Context (DEPTH : nat).

Definition empty (f : pp_fifo) : bool := (top f =? bottom f)%nat && bool_decide (prev_op f = FIFO_POP).
Definition full (f : pp_fifo) : bool := (top f =? bottom f)%nat && bool_decide (prev_op f = FIFO_PUSH).

(** The three processes, on a rising edge of the clock. *)
Definition fifo_read (i : fifo_in) (f : pp_fifo) : nat * Z :=
  if f_reset i then (0%nat, data_out f)
  else if f_pop i then (((bottom f + 1) `mod` DEPTH)%nat, default 0 (memory f !! bottom f))
  else (bottom f, data_out f).

Definition fifo_write (i : fifo_in) (f : pp_fifo) : nat * list Z :=
  if f_reset i then (0%nat, memory f)
  else if f_push i then (((top f + 1) `mod` DEPTH)%nat, <[top f := f_data_in i]> (memory f))
  else (top f, memory f).

Definition set_prev_op (i : fifo_in) (f : pp_fifo) : fifo_op :=
  if f_reset i then FIFO_POP
  else if f_push i && f_pop i then prev_op f
  else if f_push i then FIFO_PUSH
  else if f_pop i then FIFO_POP
  else prev_op f.

Definition fifo_clk (i : fifo_in) (f : pp_fifo) : pp_fifo :=
  let '(bottom', data_out') := fifo_read i f in
  let '(top', memory') := fifo_write i f in
  PpFifo memory' top' bottom' (set_prev_op i f) data_out'.

(** ** It holds a queue *)

Record holds (f : pp_fifo) (q : list Z) : Prop := {
  h_depth : length (memory f) = DEPTH;
  h_bottom : (bottom f < DEPTH)%nat;
  h_length : (length q ≤ DEPTH)%nat;
  h_top : top f = ((bottom f + length q) `mod` DEPTH)%nat;
  h_op : match prev_op f with FIFO_POP => (length q < DEPTH)%nat | FIFO_PUSH => q ≠ [] end;
  h_at : ∀ i c, q !! i = Some c → memory f !! ((bottom f + i) `mod` DEPTH)%nat = Some c;
}.

Lemma mod_small_or a b : (a < DEPTH → b ≤ DEPTH → (a + b) `mod` DEPTH = if decide (a + b < DEPTH) then a + b else a + b - DEPTH)%nat.
Proof.
  intros Ha Hb. case_decide; [by apply Nat.mod_small|].
  replace (a + b)%nat with (a + b - DEPTH + 1 * DEPTH)%nat at 1 by lia.
  rewrite Nat.Div0.mod_add. apply Nat.mod_small. lia.
Qed.

Lemma holds_met f q : holds f q → (top f =? bottom f)%nat = (length q =? 0)%nat || (length q =? DEPTH)%nat.
Proof.
  intros [_ Hb Hl Ht _ _]. apply eq_bool_prop_intro. rewrite orb_True, !Is_true_true, !Nat.eqb_eq, Ht, mod_small_or by lia.
  case_decide; lia.
Qed.

Lemma holds_empty f q : holds f q → empty f = bool_decide (q = []).
Proof.
  intros Hf. unfold empty. rewrite (holds_met _ _ Hf). destruct Hf as [_ Hb _ _ Ho _].
  destruct q as [|c q]; cbn [length] in *; [by destruct (prev_op f); [|destruct Ho]|].
  rewrite (bool_decide_eq_false_2 (c :: q = [])) by done. change (S (length q) =? 0)%nat with false. cbn [orb].
  destruct (Nat.eqb_spec (S (length q)) DEPTH); [|done]. destruct (prev_op f); [lia|done].
Qed.

Lemma holds_full f q : holds f q → full f = (length q =? DEPTH)%nat.
Proof.
  intros Hf. unfold full. rewrite (holds_met _ _ Hf). destruct Hf as [_ Hb _ _ Ho _].
  destruct (Nat.eqb_spec (length q) DEPTH).
  - rewrite orb_true_r. destruct (prev_op f); [lia|done].
  - destruct q as [|c q]; [|done]. destruct (prev_op f); [by rewrite andb_false_r|by destruct Ho].
Qed.

(** The queue after a clock. *)
Definition queue_clk (i : fifo_in) (q : list Z) : list Z :=
  (if f_pop i then tail q else q) ++ (if f_push i then [f_data_in i] else []).

Lemma fifo_clk_holds i f q :
  f_reset i = false → holds f q →
  (f_push i = true → f_pop i = true ∨ (length q < DEPTH)%nat) → (f_pop i = true → q ≠ []) →
  holds (fifo_clk i f) (queue_clk i q) ∧
  data_out (fifo_clk i f) = (if f_pop i then default 0 (head q) else data_out f).
Proof.
  intros Hr [Hd Hb Hl Ht Ho Hat] Hpush Hpop.
  unfold fifo_clk, fifo_read, fifo_write, set_prev_op, queue_clk. rewrite Hr.
  assert (f_pop i = true → ∃ c q', q = c :: q' ∧ memory f !! bottom f = Some c) as Hhead.
  { intros Hp. destruct q as [|c q']; [by destruct (Hpop Hp)|]. exists c, q'. split; [done|].
    specialize (Hat 0%nat c eq_refl). by rewrite Nat.add_0_r, Nat.mod_small in Hat by lia. }
  assert (∀ a b, (a `mod` DEPTH + b) `mod` DEPTH = (a + b) `mod` DEPTH)%nat as Hmod by (intros; apply Nat.Div0.add_mod_idemp_l).
  assert (∀ j, (j < length q)%nat → (length q < DEPTH)%nat → ((bottom f + j) `mod` DEPTH)%nat ≠ top f) as Hdiff.
  { intros j Hj Hlt. rewrite Ht, !mod_small_or by lia. repeat case_decide; lia. }
  split.
  - destruct (f_pop i) eqn:Ep, (f_push i) eqn:Eq; cbn [andb].
    + destruct (Hhead eq_refl) as (c & q' & -> & Hc). cbn [tail length] in *.
      constructor; cbn; rewrite ?length_insert, ?length_app; cbn [length]; try done; try lia.
      * apply Nat.mod_upper_bound. lia.
      * rewrite Ht, !Hmod. f_equal. lia.
      * destruct (prev_op f); [lia|]. by destruct q'.
      * intros j d Hj. rewrite Hmod. destruct (decide (j = length q')) as [->|Hne].
        { rewrite list_lookup_middle in Hj by done. injection Hj as <-.
          replace (bottom f + 1 + length q')%nat with (bottom f + S (length q'))%nat by lia. rewrite <- Ht.
          apply list_lookup_insert_eq. rewrite Hd, Ht. apply Nat.mod_upper_bound. lia. }
        assert (j < length q')%nat as Hlt.
        { apply lookup_lt_Some in Hj. rewrite length_app in Hj. cbn in Hj. lia. }
        rewrite lookup_app_l in Hj by done. replace (bottom f + 1 + j)%nat with (bottom f + S j)%nat by lia.
        rewrite list_lookup_insert_ne; [by apply Hat|].
        rewrite Ht, !mod_small_or by lia. repeat case_decide; lia.
    + destruct (Hhead eq_refl) as (c & q' & -> & Hc). cbn [tail length] in *. rewrite app_nil_r.
      constructor; cbn; try done; try lia.
      * apply Nat.mod_upper_bound. lia.
      * rewrite Ht, !Hmod. f_equal. lia.
      * intros j d Hj. rewrite Hmod. replace (bottom f + 1 + j)%nat with (bottom f + S j)%nat by lia. by apply Hat.
    + destruct (Hpush eq_refl) as [|Hlt]; [done|].
      constructor; cbn; rewrite ?length_insert, ?length_app; cbn [length]; try done; try lia.
      * rewrite Ht, !Hmod. f_equal. lia.
      * by destruct q.
      * intros j d Hj. destruct (decide (j = length q)) as [->|Hne].
        { rewrite list_lookup_middle in Hj by done. injection Hj as <-. rewrite <- Ht.
          apply list_lookup_insert_eq. rewrite Hd, Ht. apply Nat.mod_upper_bound. lia. }
        assert (j < length q)%nat.
        { apply lookup_lt_Some in Hj. rewrite length_app in Hj. cbn in Hj. lia. }
        rewrite lookup_app_l in Hj by done. rewrite list_lookup_insert_ne by (by apply not_eq_sym, Hdiff). by apply Hat.
    + rewrite app_nil_r. by constructor.
  - destruct (f_pop i) eqn:Ep; [|by destruct (f_push i)]. destruct (Hhead eq_refl) as (c & q' & -> & Hc).
    rewrite Hc. by destruct (f_push i).
Qed.

Lemma holds_reset f i : f_reset i = true → (0 < DEPTH)%nat → length (memory f) = DEPTH → holds (fifo_clk i f) [].
Proof.
  intros Hr HD Hl. unfold fifo_clk, fifo_read, fifo_write, set_prev_op. rewrite Hr.
  constructor; cbn; try done; try lia. by rewrite Nat.Div0.mod_0_l.
Qed.

(** ** A run of it *)

(** At every clock: the two flags before it, and what a pop puts out. *)
Fixpoint fifo_run (ins : list fifo_in) (f : pp_fifo) : list (bool * bool * option Z) :=
  match ins with
  | [] => []
  | i :: ins =>
      let f' := fifo_clk i f in
      (empty f, full f, if f_pop i then Some (data_out f') else None) :: fifo_run ins f'
  end.

(** The same of a queue, for clocks without a reset, without a pop from the empty queue
    and without a push to the full one that does not come with a pop. *)
Fixpoint queue_run (ins : list fifo_in) (q : list Z) : option (list (bool * bool * option Z)) :=
  match ins with
  | [] => Some []
  | i :: ins =>
      if negb (f_reset i) && (negb (f_push i) || f_pop i || (length q <? DEPTH)%nat) && (negb (f_pop i) || negb (bool_decide (q = [])))
      then out ← queue_run ins (queue_clk i q);
           Some ((bool_decide (q = []), (length q =? DEPTH)%nat, if f_pop i then Some (default 0 (head q)) else None) :: out)
      else None
  end.

Lemma fifo_run_queue ins f q out : holds f q → queue_run ins q = Some out → fifo_run ins f = out.
Proof.
  revert f q out. induction ins as [|i ins IH]; intros f q out Hf; cbn [queue_run fifo_run]; [by injection 1|].
  destruct (_ && _ && _) eqn:E; [|done]. apply andb_true_iff in E as [[Hr%negb_true_iff Hpush]%andb_true_iff Hpop].
  destruct (queue_run ins (queue_clk i q)) as [out'|] eqn:Eq; [|done]. cbn. intros [= <-].
  destruct (fifo_clk_holds i f q Hr Hf) as [Hf' Hout].
  - intros Hp. rewrite Hp in Hpush. destruct (f_pop i); [by left|right]. by apply Nat.ltb_lt.
  - intros Hp ->. by rewrite Hp in Hpop.
  - rewrite (IH _ _ _ Hf' Eq), Hout, (holds_empty _ _ Hf), (holds_full _ _ Hf). by destruct (f_pop i).
Qed.
End fifo.
