(* ===== verification/PpUart.v ===== *)
(** * The UART of the FPGA designs

    [fpga/pp_soc_uart.vhd], the "potato" UART, clock by clock: a function per process
    of the entity, all of them on the signals of the last clock.  The signals a process
    drives are a record.  A level of a line is 0 or 1. *)
From S2P Require Import Prelude PpFifo.

(** The inputs of a clock. *)
Record pp_in := PpIn {
  reset : bool;
  rxd : Z;
  wb_adr_in : Z;
  wb_dat_in : Z;
  wb_we_in : bool;
  wb_cyc_in : bool;
  wb_stb_in : bool;
}.

Inductive rx_state_type := RX_IDLE | RX_RECEIVE | RX_STARTBIT | RX_STOPBIT.
Inductive tx_state_type := TX_IDLE | TX_TRANSMIT | TX_STOPBIT.
Inductive wb_state_type := WB_IDLE | WB_WRITE_ACK | WB_READ_ACK.

(** The sample clock, the sample counter and the transmit clock. *)
Record baud := Baud {
  sample_clk : bool;
  sample_clk_counter : Z;
  rx_sample_counter : Z;
  uart_tx_counter : Z;
  uart_tx_clk : bool;
}.

Record receiver := Receiver {
  rx_st : rx_state_type;
  rx_byte : Z;
  rx_current_bit : Z;
  rx_sample_value : Z;
  rx_sample_delay : Z;
  recv_buffer_push : bool;
  rxd2 : Z;
  rxd3 : Z;
}.

Record transmitter := Transmitter {
  txd2 : Z;
  tx_st : tx_state_type;
  send_buffer_pop : bool;
  tx_current_bit : Z;
}.

Record registers := Registers {
  wb_ack_out : bool;
  wb_dat_out : Z;
  wb_state : wb_state_type;
  send_buffer_push : bool;
  send_buffer_input : Z;
  recv_buffer_pop : bool;
  sample_clk_divisor : Z;
  irq_recv_enable : bool;
  irq_tx_ready_enable : bool;
}.

Record pp_uart := PpUart {
  u_baud : baud;
  u_rx : receiver;
  u_tx : transmitter;
  u_wb : registers;
  send_buffer : pp_fifo;
  recv_buffer : pp_fifo;
}.

Section uart.
Context (FIFO_DEPTH : nat).

(** [txd <= txd2], and the interrupt. *)
Definition txd (s : pp_uart) : Z := txd2 (u_tx s).

Definition pp_irq (s : pp_uart) : bool :=
  (irq_recv_enable (u_wb s) && negb (empty (recv_buffer s))) || (irq_tx_ready_enable (u_wb s) && empty (send_buffer s)).

(** ** Receive *)

Definition put_bit (byte i b : Z) : Z := Z.lor (Z.ldiff byte (Z.shiftl 1 i)) (Z.shiftl b i).

Definition uart_receive (i : pp_in) (s : pp_uart) : receiver :=
  let r := u_rx s in
  let clk := sample_clk (u_baud s) in
  let cnt := rx_sample_counter (u_baud s) in
  let at_bit := clk && (cnt =? rx_sample_value r) in
  let next st byte bit value delay push := Receiver st byte bit value delay push (rxd i) (rxd2 r) in
  if reset i then next RX_IDLE (rx_byte r) (rx_current_bit r) (rx_sample_value r) (rx_sample_delay r) false
  else match rx_st r with
  | RX_IDLE =>
      if clk && (rxd3 r =? 0) then next RX_STARTBIT (rx_byte r) 0 cnt 0 false
      else next RX_IDLE (rx_byte r) (rx_current_bit r) (rx_sample_value r) (rx_sample_delay r) false
  | RX_STARTBIT =>
      if clk then
        if rx_sample_delay r =? 7 then next RX_RECEIVE (rx_byte r) (rx_current_bit r) cnt 0 (recv_buffer_push r)
        else next RX_STARTBIT (rx_byte r) (rx_current_bit r) (rx_sample_value r) (rx_sample_delay r + 1) (recv_buffer_push r)
      else next RX_STARTBIT (rx_byte r) (rx_current_bit r) (rx_sample_value r) (rx_sample_delay r) (recv_buffer_push r)
  | RX_RECEIVE =>
      if at_bit then
        let byte := put_bit (rx_byte r) (rx_current_bit r) (rxd3 r) in
        if negb (rx_current_bit r =? 7)
        then next RX_RECEIVE byte (rx_current_bit r + 1) (rx_sample_value r) (rx_sample_delay r) (recv_buffer_push r)
        else next RX_STOPBIT byte (rx_current_bit r) (rx_sample_value r) (rx_sample_delay r) (recv_buffer_push r)
      else next RX_RECEIVE (rx_byte r) (rx_current_bit r) (rx_sample_value r) (rx_sample_delay r) (recv_buffer_push r)
  | RX_STOPBIT =>
      if at_bit
      then next RX_IDLE (rx_byte r) (rx_current_bit r) (rx_sample_value r) (rx_sample_delay r)
             (negb (full (recv_buffer s)) || recv_buffer_push r)
      else next RX_STOPBIT (rx_byte r) (rx_current_bit r) (rx_sample_value r) (rx_sample_delay r) (recv_buffer_push r)
  end.

Definition sample_counter (i : pp_in) (s : pp_uart) : Z :=
  let n := rx_sample_counter (u_baud s) in
  if reset i then 0 else if sample_clk (u_baud s) then if n =? 15 then 0 else n + 1 else n.

(** ** Transmit *)

(** [tx_byte <= send_buffer_output] *)
Definition tx_byte (s : pp_uart) : Z := data_out (send_buffer s).
Definition tx_byte_bit (s : pp_uart) : Z := Z.b2z (Z.testbit (tx_byte s) (tx_current_bit (u_tx s))).

Definition uart_transmit (i : pp_in) (s : pp_uart) : transmitter :=
  let t := u_tx s in
  let clk := uart_tx_clk (u_baud s) in
  if reset i then Transmitter 1 TX_IDLE false 0
  else match tx_st t with
  | TX_IDLE =>
      if negb (empty (send_buffer s)) && clk then Transmitter 0 TX_TRANSMIT true 0
      else if clk then Transmitter 1 TX_IDLE (send_buffer_pop t) (tx_current_bit t)
      else t
  | TX_TRANSMIT =>
      if send_buffer_pop t then Transmitter (txd2 t) TX_TRANSMIT false (tx_current_bit t)
      else if clk && (tx_current_bit t =? 7) then Transmitter (tx_byte_bit s) TX_STOPBIT (send_buffer_pop t) (tx_current_bit t)
      else if clk then Transmitter (tx_byte_bit s) TX_TRANSMIT (send_buffer_pop t) (tx_current_bit t + 1)
      else t
  | TX_STOPBIT =>
      if clk then Transmitter 1 TX_IDLE (send_buffer_pop t) (tx_current_bit t) else t
  end.

Definition uart_tx_clock_generator (i : pp_in) (s : pp_uart) : Z * bool :=
  let n := uart_tx_counter (u_baud s) in
  if reset i then (0, false)
  else if sample_clk (u_baud s) then if n =? 15 then (0, true) else (n + 1, false)
  else (n, false).

Definition sample_clock_generator (i : pp_in) (s : pp_uart) : Z * bool :=
  let n := sample_clk_counter (u_baud s) in
  let d := sample_clk_divisor (u_wb s) in
  if reset i then (0, false)
  else if negb (d =? 0) then if n =? d then (0, true) else (u8 (n + 1), false)
  else (n, sample_clk (u_baud s)).

(** ** The Wishbone interface *)

Definition status_register (s : pp_uart) : Z :=
  Z.lor (Z.shiftl (Z.b2z (full (send_buffer s))) 3)
    (Z.lor (Z.shiftl (Z.b2z (full (recv_buffer s))) 2)
      (Z.lor (Z.shiftl (Z.b2z (empty (send_buffer s))) 1) (Z.b2z (empty (recv_buffer s))))).

Definition wishbone (i : pp_in) (s : pp_uart) : registers :=
  let r := u_wb s in
  if reset i then Registers false (wb_dat_out r) WB_IDLE false (send_buffer_input r) false 0 false false
  else match wb_state r with
  | WB_IDLE =>
      if wb_cyc_in i && wb_stb_in i then
        if wb_we_in i then
          let push := if wb_adr_in i =? 0x000 then true else send_buffer_push r in
          let input := if wb_adr_in i =? 0x000 then wb_dat_in i else send_buffer_input r in
          let divisor := if wb_adr_in i =? 0x018 then wb_dat_in i else sample_clk_divisor r in
          let irq_rx := if wb_adr_in i =? 0x020 then Z.testbit (wb_dat_in i) 0 else irq_recv_enable r in
          let irq_tx := if wb_adr_in i =? 0x020 then Z.testbit (wb_dat_in i) 1 else irq_tx_ready_enable r in
          Registers true (wb_dat_out r) WB_WRITE_ACK push input (recv_buffer_pop r) divisor irq_rx irq_tx
        else
          let '(ack, dat, pop) :=
            if wb_adr_in i =? 0x008 then (wb_ack_out r, wb_dat_out r, true)
            else if wb_adr_in i =? 0x010 then (true, status_register s, recv_buffer_pop r)
            else if wb_adr_in i =? 0x018 then (true, sample_clk_divisor r, recv_buffer_pop r)
            else if wb_adr_in i =? 0x020
                 then (true, Z.lor (Z.b2z (irq_recv_enable r)) (Z.shiftl (Z.b2z (irq_tx_ready_enable r)) 1), recv_buffer_pop r)
            else (true, 0, recv_buffer_pop r) in
          Registers ack dat WB_READ_ACK (send_buffer_push r) (send_buffer_input r) pop
            (sample_clk_divisor r) (irq_recv_enable r) (irq_tx_ready_enable r)
      else r
  | WB_WRITE_ACK =>
      Registers (if wb_stb_in i then wb_ack_out r else false) (wb_dat_out r) (if wb_stb_in i then WB_WRITE_ACK else WB_IDLE)
        false (send_buffer_input r) (recv_buffer_pop r) (sample_clk_divisor r) (irq_recv_enable r) (irq_tx_ready_enable r)
  | WB_READ_ACK =>
      let '(ack, dat, pop) :=
        if recv_buffer_pop r then (wb_ack_out r, wb_dat_out r, false)
        else (true, data_out (recv_buffer s), recv_buffer_pop r) in
      Registers (if wb_stb_in i then ack else false) dat (if wb_stb_in i then WB_READ_ACK else WB_IDLE)
        (send_buffer_push r) (send_buffer_input r) pop (sample_clk_divisor r) (irq_recv_enable r) (irq_tx_ready_enable r)
  end.

(** ** A rising edge of the clock *)

Definition pp_clk (i : pp_in) (s : pp_uart) : pp_uart :=
  let '(tx_counter, tx_clk) := uart_tx_clock_generator i s in
  let '(clk_counter, clk) := sample_clock_generator i s in
  PpUart (Baud clk clk_counter (sample_counter i s) tx_counter tx_clk)
    (uart_receive i s) (uart_transmit i s) (wishbone i s)
    (fifo_clk FIFO_DEPTH (FifoIn (reset i) (send_buffer_push (u_wb s)) (send_buffer_pop (u_tx s)) (send_buffer_input (u_wb s))) (send_buffer s))
    (fifo_clk FIFO_DEPTH (FifoIn (reset i) (recv_buffer_push (u_rx s)) (recv_buffer_pop (u_wb s)) (rx_byte (u_rx s))) (recv_buffer s)).

Definition pp_run (ins : list pp_in) (s : pp_uart) : pp_uart := foldl (λ s i, pp_clk i s) s ins.

(** The transmitted line, a sample after every clock. *)
Fixpoint txd_samples (ins : list pp_in) (s : pp_uart) : list Z :=
  match ins with
  | [] => []
  | i :: ins => let s := pp_clk i s in txd s :: txd_samples ins s
  end.
End uart.
