(* ===== verification/PpUartTx.v ===== *)
(** * What the UART transmits

    The transmitter of [fpga/pp_soc_uart.vhd] against a specification: a clock that
    ticks once per bit, the level of the line, the levels that are left of the current
    character, and a queue of characters.  From it, the line: every character that was
    pushed, in order, each as ten bits of the same length. *)
From S2P Require Import Prelude CMem UartSim UartLine UartRate PpFifo PpUart.

(** ** Runs *)

Section run.
Context (DEPTH : nat).

(** No reset, and the divisor is left alone. *)
Definition steady (i : pp_in) (s : pp_uart) : bool :=
  negb (reset i) && (sample_clk_divisor (wishbone i s) =? sample_clk_divisor (u_wb s)).

(** The character that goes into the buffer at this clock. *)
Definition pushed (s : pp_uart) : option Z :=
  if send_buffer_push (u_wb s) then Some (send_buffer_input (u_wb s)) else None.

Lemma u_tx_clk i s : u_tx (pp_clk DEPTH i s) = uart_transmit i s.
Proof. unfold pp_clk. by destruct (uart_tx_clock_generator i s), (sample_clock_generator i s). Qed.
Lemma u_wb_clk i s : u_wb (pp_clk DEPTH i s) = wishbone i s.
Proof. unfold pp_clk. by destruct (uart_tx_clock_generator i s), (sample_clock_generator i s). Qed.

(** What is pushed during a run, and that it never is into a full buffer while
    the clocks go on. *)
Fixpoint pushes (ins : list pp_in) (s : pp_uart) : list Z :=
  match ins with
  | [] => []
  | i :: ins => option_list (pushed s) ++ pushes ins (pp_clk DEPTH i s)
  end.

Fixpoint steady_run (ins : list pp_in) (s : pp_uart) : bool :=
  match ins with
  | [] => true
  | i :: ins => steady i s && negb (send_buffer_push (u_wb s) && full (send_buffer s)) && steady_run ins (pp_clk DEPTH i s)
  end.

Lemma steady_run_cons i ins s : steady_run (i :: ins) s = true →
  steady i s = true ∧ (send_buffer_push (u_wb s) = true → full (send_buffer s) = false) ∧ steady_run ins (pp_clk DEPTH i s) = true.
Proof.
  intros [[H1 H3%negb_true_iff]%andb_true_iff H4]%andb_true_iff. split; [done|]. split; [|done].
  intros E. by rewrite E in H3.
Qed.

Lemma steady_run_app ins ins' s :
  steady_run (ins ++ ins') s = true ↔ steady_run ins s = true ∧ steady_run ins' (pp_run DEPTH ins s) = true.
Proof.
  revert s. induction ins as [|i ins IH]; intros s; cbn [app steady_run pp_run foldl]; [naive_solver|].
  rewrite !andb_true_iff. specialize (IH (pp_clk DEPTH i s)). unfold pp_run in IH. naive_solver.
Qed.

Lemma txd_samples_app ins ins' s :
  txd_samples DEPTH (ins ++ ins') s = txd_samples DEPTH ins s ++ txd_samples DEPTH ins' (pp_run DEPTH ins s).
Proof. revert s. induction ins as [|i ins IH]; intros s; cbn; [done|]. by rewrite IH. Qed.

Lemma pushes_app ins ins' s : pushes (ins ++ ins') s = pushes ins s ++ pushes ins' (pp_run DEPTH ins s).
Proof. revert s. induction ins as [|i ins IH]; intros s; cbn; [done|]. by rewrite IH, app_assoc. Qed.

(** Without a strobe nothing happens. *)
Lemma idle_steady i n s : reset i = false → wb_stb_in i = false → wb_state (u_wb s) = WB_IDLE → send_buffer_push (u_wb s) = false →
  steady_run (replicate n i) s = true ∧ pushes (replicate n i) s = [].
Proof.
  intros Hr Hs. revert s. induction n as [|n IH]; intros s Hw Hp; [done|].
  assert (wishbone i s = u_wb s) as E by (unfold wishbone; by rewrite Hr, Hw, Hs, andb_false_r).
  cbn [replicate steady_run pushes]. unfold steady, pushed. rewrite Hr, Hp, E, Z.eqb_refl.
  apply IH; by rewrite u_wb_clk, E.
Qed.
End run.

(** ** The specification *)

Record txspec := TxSpec {
  ts_time : Z;          (** clocks until the next tick *)
  ts_tick : bool;
  ts_level : Z;
  ts_rem : list Z;
  ts_queue : list Z;
}.

(** The ten levels of a character. *)
Definition levels_of (c : Z) : list Z := 0 :: (bit_of c <$> seqZ 0 8) ++ [1].

Section spec.
Context (d : Z).
Hypothesis d_range : 1 ≤ d < 256.

(** Clocks per bit. *)
Definition bit_clocks : Z := 16 * (d + 1).

(** On a tick the next level is put on the line: of the character, or the start bit of
    the next one. *)
Definition ts_shift (a : txspec) : Z * list Z * list Z :=
  if ts_tick a then
    match ts_rem a, ts_queue a with
    | b :: rem, q => (b, rem, q)
    | [], c :: q => (0, tail (levels_of c), q)
    | [], [] => (1, [], [])
    end
  else (ts_level a, ts_rem a, ts_queue a).

Definition ts_clk (push : option Z) (a : txspec) : txspec :=
  let '(level, rem, q) := ts_shift a in
  TxSpec (if ts_time a =? 1 then bit_clocks else ts_time a - 1) (ts_time a =? 1) level rem (q ++ option_list push).

(** ** The clocks *)

Definition countdown (b : baud) : Z :=
  (16 - uart_tx_counter b) * (d + 1) - (if sample_clk b then d + 1 else sample_clk_counter b) + 1.

Record baud_ok (b : baud) : Prop := {
  bo_counter : 0 ≤ sample_clk_counter b ≤ d;
  bo_tx : 0 ≤ uart_tx_counter b ≤ 15;
  bo_clk : sample_clk b = true → sample_clk_counter b = 0;
  bo_tick : uart_tx_clk b = true → countdown b = bit_clocks;
}.

Lemma countdown_range b : baud_ok b → 1 ≤ countdown b ≤ bit_clocks + 1.
Proof. intros [H1 H2 H3 _]. unfold countdown, bit_clocks. destruct (sample_clk b); nia. Qed.

Ltac baud_close := constructor; unfold countdown, bit_clocks; cbn -[Z.mul]; intros; first [done|lia].

Lemma baud_clk DEPTH i s : reset i = false → sample_clk_divisor (u_wb s) = d → baud_ok (u_baud s) →
  let b' := u_baud (pp_clk DEPTH i s) in
  baud_ok b' ∧ uart_tx_clk b' = (countdown (u_baud s) =? 1) ∧
  countdown b' = if countdown (u_baud s) =? 1 then bit_clocks else countdown (u_baud s) - 1.
Proof.
  intros Hr Hd Hb. pose proof (countdown_range _ Hb) as HT. destruct Hb as [H1 H2 H3 H4].
  unfold pp_clk, uart_tx_clock_generator, sample_clock_generator. rewrite Hr, Hd, (proj2 (Z.eqb_neq d 0)) by lia.
  destruct (u_baud s) as [clk n rxn c tick]. cbn -[wrap Z.mul] in *. unfold countdown, bit_clocks in *. cbn -[wrap Z.mul] in *.
  destruct clk.
  - rewrite (H3 eq_refl), (proj2 (Z.eqb_neq 0 d)) by lia. change (u8 (0 + 1)) with 1.
    destruct (Z.eqb_spec c 15) as [->|Hc]; cbn -[Z.mul].
    + replace (_ =? 1) with true by (symmetry; apply Z.eqb_eq; lia). split; [|split; [done|lia]]. baud_close.
    + replace (_ =? 1) with false by (symmetry; apply Z.eqb_neq; nia). split; [|split; [done|lia]]. baud_close.
  - replace (_ =? 1) with false by (symmetry; apply Z.eqb_neq; nia).
    destruct (Z.eqb_spec n d) as [->|Hn]; cbn -[wrap Z.mul].
    + split; [|split; [done|lia]]. baud_close.
    + rewrite wrap_small by lia. split; [|split; [done|lia]]. baud_close.
Qed.

(** ** The transmitter *)

Section refine.
Context (DEPTH : nat).

(** The bits from [i] on, and the stop bit. *)
Definition rest_of (c i : Z) : list Z := (bit_of c <$> seqZ i (8 - i)) ++ [1].

Lemma rest_of_cons c i : 0 ≤ i < 8 → rest_of c i = bit_of c i :: rest_of c (i + 1).
Proof.
  intros Hi. unfold rest_of. rewrite seqZ_cons by lia. rewrite fmap_cons. cbn [app]. do 3 f_equal.
  f_equal; lia.
Qed.

Definition shifting (s : pp_uart) (a : txspec) : Prop :=
  let t := u_tx s in
  match tx_st t with
  | TX_IDLE => send_buffer_pop t = false ∧ ts_rem a = [] ∧ holds DEPTH (send_buffer s) (ts_queue a)
  | TX_TRANSMIT =>
      if send_buffer_pop t
      then tx_current_bit t = 0 ∧ ts_tick a = false ∧
           ∃ c, ts_rem a = rest_of c 0 ∧ holds DEPTH (send_buffer s) (c :: ts_queue a)
      else 0 ≤ tx_current_bit t < 8 ∧ ts_rem a = rest_of (tx_byte s) (tx_current_bit t) ∧
           holds DEPTH (send_buffer s) (ts_queue a)
  | TX_STOPBIT => send_buffer_pop t = false ∧ ts_rem a = [1] ∧ holds DEPTH (send_buffer s) (ts_queue a)
  end.

Record tx_rel (s : pp_uart) (a : txspec) : Prop := {
  tr_divisor : sample_clk_divisor (u_wb s) = d;
  tr_baud : baud_ok (u_baud s);
  tr_time : ts_time a = countdown (u_baud s);
  tr_tick : ts_tick a = uart_tx_clk (u_baud s);
  tr_level : ts_level a = txd s;
  tr_shift : shifting s a;
}.

Lemma send_buffer_clk i s q :
  reset i = false → (send_buffer_push (u_wb s) = true → full (send_buffer s) = false) →
  holds DEPTH (send_buffer s) q → (send_buffer_pop (u_tx s) = true → q ≠ []) →
  holds DEPTH (send_buffer (pp_clk DEPTH i s)) ((if send_buffer_pop (u_tx s) then tail q else q) ++ option_list (pushed s)) ∧
  tx_byte (pp_clk DEPTH i s) = if send_buffer_pop (u_tx s) then default 0 (head q) else tx_byte s.
Proof.
  intros Hr Hfull Hq Hpop.
  destruct (fifo_clk_holds DEPTH (FifoIn (reset i) (send_buffer_push (u_wb s)) (send_buffer_pop (u_tx s))
    (send_buffer_input (u_wb s))) (send_buffer s) q) as [H1 H2]; [done|done| |done|].
  { cbn. intros Hp. right. specialize (Hfull Hp). rewrite (holds_full _ _ _ Hq) in Hfull. apply Nat.eqb_neq in Hfull.
    pose proof (h_length _ _ _ Hq). lia. }
  unfold tx_byte, pp_clk. destruct (uart_tx_clock_generator i s), (sample_clock_generator i s). cbn [send_buffer]. split; [|exact H2].
  unfold queue_clk, pushed in *. cbn in *. by destruct (send_buffer_push (u_wb s)).
Qed.

(** The level, what is left of the character, and the queue after a clock. *)
Lemma shifting_clk i s a :
  steady i s = true → tx_rel s a → (send_buffer_push (u_wb s) = true → full (send_buffer s) = false) →
  let '(level, rem, q) := ts_shift a in
  txd (pp_clk DEPTH i s) = level ∧
  ∀ time, shifting (pp_clk DEPTH i s) (TxSpec time (countdown (u_baud s) =? 1) level rem (q ++ option_list (pushed s))).
Proof.
  intros Hi [Hd Hb Ht Hk Hl Hs] Hfull.
  assert (reset i = false) as Hr by (unfold steady in Hi; by destruct (reset i)).
  assert (ts_tick a = true → (countdown (u_baud s) =? 1) = false) as Hnext.
  { intros E. rewrite Hk in E. rewrite (bo_tick _ Hb E). apply Z.eqb_neq. unfold bit_clocks. lia. }
  unfold shifting in Hs |- *. unfold txd in *. rewrite u_tx_clk. unfold uart_transmit. rewrite Hr, <- Hk. unfold ts_shift.
  destruct a as [time tick level rem q]. cbn [ts_time ts_tick ts_level ts_rem ts_queue] in *. subst level.
  destruct (u_tx s) as [txd' st pop bit] eqn:Eu. cbn [txd2 tx_st send_buffer_pop tx_current_bit] in *.
  destruct st.
  - destruct Hs as (-> & -> & Hq). rewrite (holds_empty _ _ _ Hq).
    destruct (send_buffer_clk i s q Hr Hfull Hq) as [Hq' _]; [by rewrite Eu|]. rewrite Eu in Hq'. cbn in Hq'.
    destruct tick; [|by rewrite andb_false_r].
    destruct q as [|c q]; cbn; [done|]. split; [done|]. intros _. split; [done|]. split; [by apply Hnext|]. by exists c.
  - destruct pop.
    + destruct Hs as (-> & -> & c & -> & Hq). cbn. split; [done|]. intros _.
      destruct (send_buffer_clk i s (c :: q) Hr Hfull Hq) as [Hq' Hc]; [done|]. rewrite Eu in Hq', Hc. cbn in Hq', Hc.
      rewrite Hc. split_and!; [lia|lia|done|done].
    + destruct Hs as (Hbit & -> & Hq).
      destruct (send_buffer_clk i s q Hr Hfull Hq) as [Hq' Hc]; [by rewrite Eu|]. rewrite Eu in Hq', Hc. cbn in Hq', Hc.
      destruct tick; [|cbn; rewrite Hc; by split_and!; try lia].
      rewrite rest_of_cons by lia. unfold tx_byte_bit. rewrite Eu. cbn [tx_current_bit andb]. rewrite <- bit_of_testbit by lia.
      destruct (Z.eqb_spec bit 7) as [->|Hne]; cbn -[rest_of]; [done|].
      split; [done|]. intros _. rewrite Hc. split_and!; [lia|lia|done|done].
  - destruct Hs as (-> & -> & Hq).
    destruct (send_buffer_clk i s q Hr Hfull Hq) as [Hq' _]; [by rewrite Eu|]. rewrite Eu in Hq'. cbn in Hq'.
    by destruct tick; cbn.
Qed.

Lemma tx_clk_rel i s a :
  steady i s = true → tx_rel s a → (send_buffer_push (u_wb s) = true → full (send_buffer s) = false) →
  tx_rel (pp_clk DEPTH i s) (ts_clk (pushed s) a).
Proof.
  intros Hi R Hfull. pose proof (shifting_clk i s a Hi R Hfull) as Hs. unfold ts_clk.
  destruct (ts_shift a) as [[level rem] q]. destruct Hs as [Hl Hs], R as [Hd Hb Ht Hk _ _].
  destruct (baud_clk DEPTH i s) as (B1 & B2 & B3); [unfold steady in Hi; by destruct (reset i)|done|done|].
  rewrite Ht. constructor; cbn; try done. rewrite u_wb_clk. apply andb_true_iff in Hi as [_ Hi%Z.eqb_eq]. congruence.
Qed.
End refine.

(** ** The line *)

Abbreviation w := bit_clocks.

Definition levels_line (bs : list Z) : list Z := mjoin ((λ b, hold b w) <$> bs).

Lemma levels_line_app bs bs' : levels_line (bs ++ bs') = levels_line bs ++ levels_line bs'.
Proof. unfold levels_line. by rewrite fmap_app, join_app. Qed.

Lemma frame_levels c : frame_from w 0 c = levels_line (levels_of c).
Proof.
  unfold frame_from, levels_of. rewrite Z.sub_0_r. change (0 :: ?l) with ([0] ++ l). rewrite !levels_line_app.
  unfold levels_line, data_bits. rewrite <- list_fmap_compose. cbn [fmap list_fmap mjoin list_join]. by rewrite !app_nil_r.
Qed.

Lemma rate_line_snoc cs c gap : rate_line w (cs ++ [(c, gap)]) = rate_line w cs ++ levels_line (levels_of c) ++ hold 1 gap.
Proof.
  rewrite <- frame_levels. induction cs as [|[c' gap'] cs IH]; cbn [app rate_line]; [by rewrite app_nil_r|].
  by rewrite IH, <- !app_assoc.
Qed.

(** The stop bit is the last level. *)
Lemma levels_line_stop c : levels_line (take 9 (levels_of c)) ++ hold 1 w = levels_line (levels_of c).
Proof.
  rewrite <- (take_drop 9 (levels_of c)) at 2. rewrite levels_line_app. f_equal.
  change (drop 9 (levels_of c)) with [1]. unfold levels_line. cbn [fmap list_fmap mjoin list_join]. by rewrite app_nil_r.
Qed.

(** Samples of the current level since the last tick. *)
Definition since_tick (a : txspec) : Z := if ts_tick a then w else w - ts_time a.

(** The line so far and the characters on it: before the first one; or in level [j]
    of a character, or [k] bit times after its end. *)
Inductive line_ok (a : txspec) : list Z → list Z → Prop :=
  | line_fresh n : ts_rem a = [] → ts_level a = 1 → line_ok a (replicate n 1) []
  | line_char n cs c (j : nat) k :
      (1 ≤ j ≤ 10)%nat → ts_rem a = drop j (levels_of c) → levels_of c !! (j - 1)%nat = Some (ts_level a) →
      0 ≤ k → (k = 0 ∨ j = 10%nat) → 1 ≤ ts_time a ≤ w → Forall (λ x, ∃ g, 0 ≤ g ∧ snd x = g * w) cs →
      line_ok a (replicate n 1 ++ rate_line w cs ++ levels_line (take (j - 1) (levels_of c)) ++ hold (ts_level a) (k * w + since_tick a))
        (fst <$> cs ++ [(c, 0)]).

Definition tick_ok (a : txspec) : Prop := (ts_tick a = true → ts_time a = w) ∧ 1 ≤ ts_time a.

Lemma bit_clocks_big : 32 ≤ w.
Proof. unfold bit_clocks. lia. Qed.

Lemma hold_snoc b n : 0 ≤ n → hold b (n + 1) = hold b n ++ [b].
Proof. intros. by rewrite hold_app by lia. Qed.

Lemma length_levels c : length (levels_of c) = 10%nat.
Proof. done. Qed.

Lemma line_clk p a tr sent :
  tick_ok a → line_ok a tr sent →
  let a' := ts_clk p a in
  tick_ok a' ∧ ∃ sent', line_ok a' (tr ++ [ts_level a']) sent' ∧ sent' ++ ts_queue a' = sent ++ ts_queue a ++ option_list p.
Proof.
  intros [Htick Htime] Hl. pose proof bit_clocks_big as Hw. split.
  { unfold ts_clk, tick_ok. destruct (ts_shift a) as [[level rem] q]. cbn. destruct (Z.eqb_spec (ts_time a) 1); split; done || lia. }
  destruct a as [time tick level rem queue]. unfold ts_clk, ts_shift. cbn [ts_time ts_tick ts_level ts_rem ts_queue] in *.
  destruct tick; [specialize (Htick eq_refl)|]; inversion Hl as [n Hr Hlev|n cs c j k Hj Hr Hlev Hk Hk' Ht Hg]; cbn [ts_rem ts_level ts_time] in *; subst.
  - rewrite (proj2 (Z.eqb_neq w 1)) by lia. destruct queue as [|c q]; cbn [ts_level ts_queue ts_rem].
    + exists []. split; [|done]. rewrite <- replicate_S_end. by constructor.
    + exists [c]. split; [|done].
      pose proof (line_char (TxSpec (w - 1) false 0 (tail (levels_of c)) (q ++ option_list p)) n [] c 1 0) as H.
      unfold since_tick in H. cbn [ts_level ts_rem ts_time ts_tick] in H.
      replace (0 * w + (w - (w - 1))) with 1 in H by lia. apply H; try done; lia.
  - rewrite (proj2 (Z.eqb_neq w 1)) by lia. unfold since_tick. cbn [ts_tick].
    destruct (decide (j = 10%nat)) as [->|Hne].
    + rewrite (drop_ge (levels_of c)) by (by rewrite length_levels). injection Hlev as <-.
      replace (k * w + w) with (w + k * w) by lia. rewrite hold_app by lia.
      destruct queue as [|c' q]; cbn [ts_level ts_queue ts_rem].
      * exists (fst <$> cs ++ [(c, 0)]). split; [|done].
        pose proof (line_char (TxSpec (w - 1) false 1 [] (option_list p)) n cs c 10 (k + 1)) as H. cbn [ts_level ts_rem ts_time ts_tick since_tick] in H.
        unfold since_tick in H. cbn [ts_tick ts_time] in H.
        replace ((k + 1) * w + (w - (w - 1))) with (w + k * w + 1) in H by lia. rewrite hold_snoc, hold_app in H by lia.
        rewrite <- ?app_assoc in H. rewrite <- !app_assoc. apply H; try done; lia.
      * exists (fst <$> (cs ++ [(c, k * w)]) ++ [(c', 0)]). split; [|by rewrite !fmap_app, <- !app_assoc].
        pose proof (line_char (TxSpec (w - 1) false 0 (tail (levels_of c')) (q ++ option_list p)) n (cs ++ [(c, k * w)]) c' 1 0) as H.
        unfold since_tick in H. cbn [ts_level ts_rem ts_time ts_tick] in H. rewrite rate_line_snoc, <- levels_line_stop in H.
        replace (0 * w + (w - (w - 1))) with 1 in H by lia. change (hold 0 1) with [0] in H.
        change (levels_line (take (1 - 1) (levels_of c'))) with (@nil Z) in H. cbn [app] in H.
        rewrite <- ?app_assoc in H. rewrite <- !app_assoc. apply H; try done; try lia. apply Forall_app. split; [done|].
        apply Forall_singleton. by exists k.
    + destruct Hk' as [->|?]; [|done].
      destruct (levels_of c !! j) as [b|] eqn:Eb; [|apply lookup_ge_None in Eb; rewrite length_levels in Eb; lia].
      rewrite (drop_S _ _ _ Eb). exists (fst <$> cs ++ [(c, 0)]). split; [|done].
      pose proof (line_char (TxSpec (w - 1) false b (drop (S j) (levels_of c)) (queue ++ option_list p)) n cs c (S j) 0) as H.
      unfold since_tick in H. cbn [ts_level ts_rem ts_time ts_tick] in H.
      replace (S j - 1)%nat with (S (j - 1))%nat in H by lia. rewrite (take_S_r _ _ _ Hlev), levels_line_app in H.
      replace (0 * w + (w - (w - 1))) with 1 in H by lia. change (hold b 1) with [b] in H.
      unfold levels_line at 2 in H. cbn [fmap list_fmap mjoin list_join] in H. rewrite app_nil_r in H.
      replace (0 * w + w) with w by lia. rewrite <- ?app_assoc in H. rewrite <- !app_assoc. apply H; try done; try lia.
      by replace (S (j - 1)) with j by lia.
  - exists []. split; [|done]. cbn [ts_level]. rewrite <- replicate_S_end. by constructor.
  - exists (fst <$> cs ++ [(c, 0)]). split; [|done]. cbn [ts_level].
    pose proof (line_char (TxSpec (if time =? 1 then w else time - 1) (time =? 1) level (drop j (levels_of c)) (queue ++ option_list p)) n cs c j k) as H.
    unfold since_tick in H |- *. cbn [ts_level ts_rem ts_time ts_tick] in H |- *.
    replace (k * w + (if time =? 1 then w else w - (if time =? 1 then w else time - 1))) with (k * w + (w - time) + 1) in H by conds.
    rewrite hold_snoc in H by lia. rewrite <- !app_assoc. apply H; try done. destruct (Z.eqb_spec time 1); lia.
Qed.

(** ** Along a run *)

Section runs.
Context (DEPTH : nat).

Lemma tx_rel_tick s a : tx_rel DEPTH s a → tick_ok a.
Proof.
  intros [_ Hb Ht Hk _ _]. pose proof (countdown_range _ Hb). unfold tick_ok. rewrite Ht, Hk. split; [apply Hb|lia].
Qed.

(** The specification along a run. *)
Fixpoint ts_run (ins : list pp_in) (s : pp_uart) (a : txspec) : txspec :=
  match ins with
  | [] => a
  | i :: ins => ts_run ins (pp_clk DEPTH i s) (ts_clk (pushed s) a)
  end.

Lemma ts_run_app ins ins' s a : ts_run (ins ++ ins') s a = ts_run ins' (pp_run DEPTH ins s) (ts_run ins s a).
Proof. revert s a. induction ins as [|i ins IH]; intros s a; [done|]. apply IH. Qed.

Lemma run_rel ins s a : steady_run DEPTH ins s = true → tx_rel DEPTH s a → tx_rel DEPTH (pp_run DEPTH ins s) (ts_run ins s a).
Proof.
  revert s a. induction ins as [|i ins IH]; intros s a Hs R; [done|].
  apply steady_run_cons in Hs as (Hi & Hf & Hs). by apply IH; [|apply tx_clk_rel].
Qed.

Lemma run_line ins s a tr sent :
  steady_run DEPTH ins s = true → tx_rel DEPTH s a → line_ok a tr sent →
  ∃ sent', line_ok (ts_run ins s a) (tr ++ txd_samples DEPTH ins s) sent' ∧
    sent' ++ ts_queue (ts_run ins s a) = sent ++ ts_queue a ++ pushes DEPTH ins s.
Proof.
  revert s a tr sent. induction ins as [|i ins IH]; intros s a tr sent Hs R L.
  { exists sent. cbn. by rewrite !app_nil_r. }
  apply steady_run_cons in Hs as (Hi & Hf & Hs). pose proof (tx_clk_rel DEPTH i s a Hi R Hf) as R1.
  destruct (line_clk (pushed s) a tr sent (tx_rel_tick _ _ R) L) as (_ & sent1 & L1 & E1).
  destruct (IH _ _ _ _ Hs R1 L1) as (sent' & L' & E'). exists sent'.
  cbn [txd_samples pushes ts_run]. rewrite (tr_level _ _ _ R1), <- app_assoc in L'. split; [done|].
  by rewrite E', app_assoc, E1, <- !app_assoc.
Qed.

(** ** Everything gets out *)

(** Clocks until the last stop bit begins, when nothing more is pushed. *)
Definition backlog (a : txspec) : Z := Z.of_nat (length (ts_rem a)) + 10 * Z.of_nat (length (ts_queue a)).
Definition clocks_left (a : txspec) : Z := (if ts_tick a then 0 else ts_time a) + w * backlog a.

Lemma drain_clk a : tick_ok a →
  let a' := ts_clk None a in
  (backlog a = 0 → backlog a' = 0 ∧ (ts_level a = 1 → ts_level a' = 1)) ∧ (0 < backlog a → clocks_left a' = clocks_left a - 1).
Proof.
  intros [Htick Htime]. pose proof bit_clocks_big as Hw. destruct a as [time tick level rem q].
  unfold clocks_left, backlog, ts_clk, ts_shift. cbn [ts_time ts_tick ts_level ts_rem ts_queue] in *.
  destruct tick; [specialize (Htick eq_refl); subst time; rewrite (proj2 (Z.eqb_neq w 1)) by lia|].
  - destruct rem as [|b rem], q as [|c q]; cbn [ts_time ts_tick ts_level ts_rem ts_queue option_list];
      rewrite ?app_nil_r; cbn [length tail levels_of]; split; intros; try done; try lia.
    change (length ((bit_of c <$> seqZ 0 8) ++ [1])) with 9%nat. lia.
  - cbn [ts_time ts_tick ts_level ts_rem ts_queue option_list]. rewrite app_nil_r. split; [done|]. intros. destruct (Z.eqb_spec time 1); lia.
Qed.

Lemma backlog_0 a : backlog a = 0 → ts_rem a = [] ∧ ts_queue a = [].
Proof. unfold backlog. destruct (ts_rem a), (ts_queue a); cbn [length]; intros; first [done|lia]. Qed.

(** A line at rest stays so; with nothing pushed for long enough, it comes to rest. *)
Lemma stays_drained ins s a :
  steady_run DEPTH ins s = true → tx_rel DEPTH s a → pushes DEPTH ins s = [] → backlog a = 0 →
  backlog (ts_run ins s a) = 0 ∧
  (ts_level a = 1 → ts_level (ts_run ins s a) = 1 ∧ txd_samples DEPTH ins s = replicate (length ins) 1).
Proof.
  revert s a. induction ins as [|i ins IH]; intros s a Hs R Hp Hb; [done|].
  apply steady_run_cons in Hs as (Hi & Hf & Hs). cbn [pushes] in Hp. apply app_eq_nil in Hp as [Hp1 Hp].
  pose proof (tx_clk_rel DEPTH i s a Hi R Hf) as R1. destruct (pushed s) eqn:Ep; [done|].
  destruct (drain_clk a (tx_rel_tick _ _ R)) as [D0 _]. destruct (D0 Hb) as [Hb1 Hl1].
  destruct (IH _ _ Hs R1 Hp Hb1) as [Hb' Ht]. cbn [ts_run]. rewrite Ep. split; [done|].
  intros Hl. destruct (Ht (Hl1 Hl)) as [H1 H2]. split; [done|].
  cbn [txd_samples length replicate]. by rewrite <- (tr_level _ _ _ R1), Hl1, H2 by auto.
Qed.

(** With nothing pushed, [clocks_left] counts the clocks. *)
Lemma drains ins s a :
  steady_run DEPTH ins s = true → tx_rel DEPTH s a → pushes DEPTH ins s = [] →
  backlog (ts_run ins s a) = 0 ∨ clocks_left (ts_run ins s a) ≤ clocks_left a - Z.of_nat (length ins).
Proof.
  revert s a. induction ins as [|i ins IH]; intros s a Hs R Hp; [right; cbn; lia|].
  destruct (decide (backlog a = 0)) as [E|E]; [left; by apply (stays_drained _ s a Hs R Hp E)|].
  apply steady_run_cons in Hs as (Hi & Hf & Hs). cbn [pushes] in Hp. apply app_eq_nil in Hp as [Hp1 Hp].
  pose proof (tx_clk_rel DEPTH i s a Hi R Hf) as R1. destruct (pushed s) eqn:Ep; [done|].
  destruct (drain_clk a (tx_rel_tick _ _ R)) as [_ D1]. cbn [ts_run]. rewrite Ep.
  destruct (IH _ _ Hs R1 Hp) as [?|H]; [by left|right]. rewrite D1 in H by (unfold backlog in *; lia). cbn [length]. lia.
Qed.

Lemma clocks_left_pos s a : tx_rel DEPTH s a → backlog a ≠ 0 → 0 < clocks_left a.
Proof.
  intros R Hb. destruct (tx_rel_tick _ _ R) as [_ ?]. pose proof bit_clocks_big. unfold clocks_left.
  assert (0 < backlog a) by (unfold backlog in *; lia). destruct (ts_tick a); nia.
Qed.

Lemma drained ins s a :
  steady_run DEPTH ins s = true → tx_rel DEPTH s a → pushes DEPTH ins s = [] → clocks_left a ≤ Z.of_nat (length ins) →
  backlog (ts_run ins s a) = 0.
Proof.
  intros Hs R Hp Hn. destruct (drains ins s a Hs R Hp) as [?|H]; [done|].
  destruct (decide (backlog (ts_run ins s a) = 0)) as [?|E]; [done|].
  pose proof (clocks_left_pos _ _ (run_rel _ _ _ Hs R) E). lia.
Qed.

Lemma length_rest_of c i : 0 ≤ i < 8 → Z.of_nat (length (rest_of c i)) = 9 - i.
Proof. intros Hi. unfold rest_of. rewrite length_app, length_fmap, length_seqZ. cbn [length]. lia. Qed.

(** The characters in the buffer. *)
Lemma shifting_holds s a : shifting DEPTH s a →
  (length (ts_rem a) ≤ 9)%nat ∧ ∃ q, holds DEPTH (send_buffer s) q ∧ (length (ts_queue a) ≤ length q)%nat ∧
    (send_buffer_pop (u_tx s) = true → q ≠ []) ∧ (ts_rem a = [] → q = ts_queue a).
Proof.
  unfold shifting. destruct (tx_st (u_tx s)).
  - intros (-> & -> & Hq). split; [cbn; lia|]. by exists (ts_queue a).
  - destruct (send_buffer_pop (u_tx s)).
    + intros (_ & _ & c & -> & Hq). pose proof (length_rest_of c 0). split; [lia|]. exists (c :: ts_queue a).
      split_and!; [done|cbn; lia|done|]. intros E. by rewrite E in *.
    + intros (Hi & -> & Hq). pose proof (length_rest_of (tx_byte s) (tx_current_bit (u_tx s)) Hi) as Hl. split; [lia|].
      exists (ts_queue a). by split_and!.
  - intros (-> & -> & Hq). split; [cbn; lia|]. by exists (ts_queue a).
Qed.

Lemma clocks_left_bound s a : tx_rel DEPTH s a → clocks_left a ≤ (10 * Z.of_nat DEPTH + 10) * w + 1.
Proof.
  intros R. pose proof (countdown_range _ (tr_baud _ _ _ R)) as HT. rewrite <- (tr_time _ _ _ R) in HT. pose proof bit_clocks_big.
  destruct (shifting_holds _ _ (tr_shift _ _ _ R)) as (Hr & q & Hq%h_length & Hl & _).
  unfold clocks_left, backlog. destruct (ts_tick a); nia.
Qed.

(** A buffer that is not full stays so while nothing is pushed, and one that is
    drained is not full. *)
Lemma stays_not_full ins s a :
  steady_run DEPTH ins s = true → tx_rel DEPTH s a → pushes DEPTH ins s = [] →
  full (send_buffer s) = false → full (send_buffer (pp_run DEPTH ins s)) = false.
Proof.
  revert s a. induction ins as [|i ins IH]; intros s a Hs R Hp Hf; [done|].
  apply steady_run_cons in Hs as (Hi & Hf' & Hs). cbn [pushes] in Hp. apply app_eq_nil in Hp as [Hp1 Hp].
  apply (IH _ _ Hs (tx_clk_rel DEPTH i s a Hi R Hf') Hp).
  destruct (shifting_holds _ _ (tr_shift _ _ _ R)) as (_ & q & Hq & _ & Hpop & _).
  destruct (send_buffer_clk DEPTH i s q) as [Hq' _]; [unfold steady in Hi; by destruct (reset i)|done..|].
  rewrite Hp1, app_nil_r in Hq'. rewrite (holds_full _ _ _ Hq) in Hf. rewrite (holds_full _ _ _ Hq').
  apply Nat.eqb_neq in Hf. apply Nat.eqb_neq. pose proof (h_length _ _ _ Hq).
  destruct (send_buffer_pop (u_tx s)); [destruct q; cbn [tail length] in *|]; lia.
Qed.

Lemma drained_not_full s a : (0 < DEPTH)%nat → tx_rel DEPTH s a → backlog a = 0 → full (send_buffer s) = false.
Proof.
  intros HD R Hb. apply backlog_0 in Hb as [Hr Hq]. destruct (shifting_holds _ _ (tr_shift _ _ _ R)) as (_ & q & H & _ & _ & E).
  rewrite (holds_full _ _ _ H), (E Hr), Hq. apply Nat.eqb_neq. cbn. lia.
Qed.

(** What the transmitter has sent on a line at rest for a while. *)
Lemma rested_line a tr sent M :
  line_ok a tr sent → ts_rem a = [] → w ≤ Z.of_nat M →
  ∃ n cs, tr ++ replicate M 1 = replicate n 1 ++ rate_line w cs ∧ fst <$> cs = sent ∧
    ∀ W, 10 * (W - w) + 2 ≤ Z.of_nat M - w → 10 * (W - w) + 2 ≤ w → gaps_ok W w cs.
Proof.
  intros L Hrem HM. pose proof bit_clocks_big as Hw. destruct L as [n _ _|n cs c j k Hj Hr Hlev Hk Hk' Ht Hg].
  { exists (n + M)%nat, []. rewrite replicate_add, app_nil_r. by split_and!. }
  assert (j = 10%nat) as ->.
  { rewrite Hrem in Hr. symmetry in Hr. apply (f_equal length) in Hr. rewrite length_drop, length_levels in Hr. cbn in Hr. lia. }
  change (levels_of c !! (10 - 1)%nat) with (Some 1) in Hlev. injection Hlev as Hl. rewrite <- Hl.
  set (x := k * w + since_tick a). assert (0 ≤ x) as Hx by (unfold x, since_tick; destruct (ts_tick a); nia).
  exists n, (cs ++ [(c, x + Z.of_nat M - w)]). split; [|split; [by rewrite !fmap_app|]].
  - rewrite rate_line_snoc, <- !app_assoc. do 2 f_equal.
    change (replicate M 1) with (hold 1 (Z.of_nat M)) || (replace (replicate M 1) with (hold 1 (Z.of_nat M)) by (unfold hold; by rewrite Nat2Z.id)).
    rewrite <- hold_app by lia. replace (x + Z.of_nat M) with (w + (x + Z.of_nat M - w)) at 1 by lia. rewrite hold_app by lia.
    rewrite app_assoc. f_equal. apply levels_line_stop.
  - intros W H1 H2. clear -Hg H1 H2 Hx Hw. induction Hg as [|[c' g'] cs [g [Hg0 Hg]] _ IH]; cbn [app gaps_ok].
    + unfold long_gap. lia.
    + cbn [snd] in Hg. assert (gaps_ok W w (cs ++ [(c, x + Z.of_nat M - w)])) as IH' by done.
      destruct (cs ++ [(c, x + Z.of_nat M - w)]) as [|y ys] eqn:E; [by destruct cs|]. split; [|done].
      destruct (decide (g = 0)) as [->|]; [left; lia|right]. unfold long_gap. nia.
Qed.

(** Nothing on the line and nothing to send. *)
Definition at_ease (s : pp_uart) : Prop := ∃ a, tx_rel DEPTH s a ∧ backlog a = 0 ∧ ts_level a = 1.

(** The characters pushed, and only they, come out of the decoder, in order. *)
Lemma transmit_decodes W ins1 ins2 s v :
  2 ≤ W < 2 ^ 40 → w < W ∧ 20 * (10 * (W - w) + 1) < W →
  at_ease s → steady_run DEPTH (ins1 ++ ins2) s = true → pushes DEPTH ins2 (pp_run DEPTH ins1 s) = [] →
  (10 * Z.of_nat DEPTH + 13) * w ≤ Z.of_nat (length ins2) → bytes (pushes DEPTH ins1 s) → resting v →
  ∃ v', resting v' ∧ uart_tx_run W (txd_samples DEPTH (ins1 ++ ins2) s) v = (v', OutByte <$> pushes DEPTH ins1 s).
Proof.
  intros HW Hrate (a & R & Hb & Hl) Hs Hp Hn Hbytes Hv. pose proof bit_clocks_big as Hw.
  apply backlog_0 in Hb as [Hrem Hqueue].
  assert (line_ok a [] []) as L by (by apply (line_fresh a 0)).
  apply steady_run_app in Hs as [Hs1 Hs2].
  set (N := Z.to_nat ((10 * Z.of_nat DEPTH + 10) * w + 1)). set (M := (length ins2 - N)%nat).
  assert (2 * w ≤ Z.of_nat M) as HM by (unfold M, N; lia).
  assert (length (take N ins2) = N) as HlN by (apply length_take_le; unfold N; lia).
  pose proof (take_drop N ins2) as Hsplit. rewrite <- Hsplit in Hs2, Hp. rewrite pushes_app in Hp. apply app_eq_nil in Hp as [Hp1 Hp2].
  apply steady_run_app in Hs2 as [Hs2 Hs3].
  pose proof (run_rel _ _ _ Hs1 R) as R1. destruct (run_line _ _ _ _ _ Hs1 R L) as (sent1 & L1 & E1).
  set (s1 := pp_run DEPTH ins1 s) in *. set (a1 := ts_run ins1 s a) in *.
  pose proof (clocks_left_bound _ _ R1) as Hc.
  pose proof (run_rel _ _ _ Hs2 R1) as R2. destruct (run_line _ _ _ _ _ Hs2 R1 L1) as (sent2 & L2 & E2).
  assert (backlog (ts_run (take N ins2) s1 a1) = 0) as Hb2 by (apply drained; try done; rewrite HlN; unfold N; lia).
  set (s2 := pp_run DEPTH (take N ins2) s1) in *. set (a2 := ts_run (take N ins2) s1 a1) in *.
  apply backlog_0 in Hb2 as Hrq. destruct Hrq as [Hrem2 Hq2].
  assert (ts_level a2 = 1) as Hl2.
  { inversion L2 as [n _ H|n cs c j k Hj Hr Hlev]; [done|]. rewrite Hrem2 in Hr. symmetry in Hr. apply (f_equal length) in Hr.
    rewrite length_drop, length_levels in Hr. cbn in Hr. assert (j = 10%nat) as -> by lia. by injection Hlev. }
  destruct (stays_drained _ _ _ Hs3 R2 Hp2 Hb2) as [_ Ht]. destruct (Ht Hl2) as [_ Ht'].
  destruct (rested_line a2 _ _ M L2 Hrem2 ltac:(lia)) as (n & cs & Htr & Hcs & Hgaps).
  rewrite Hq2, app_nil_r, Hp1, app_nil_r in E2. rewrite E1, Hqueue in E2. cbn [app] in E2.
  assert (txd_samples DEPTH (ins1 ++ ins2) s = replicate n 1 ++ rate_line w cs) as ->.
  { rewrite <- Htr, txd_samples_app. fold s1. rewrite <- Hsplit at 1. rewrite txd_samples_app. fold s2. rewrite Ht', length_drop. fold M.
    by rewrite app_nil_l, <- app_assoc. }
  rewrite <- E2, <- Hcs. apply (rate_line_decode W w HW Hrate); [by rewrite Hcs, E2|apply Hgaps; lia|done].
Qed.
End runs.
End spec.
