(* ===== verification/PpUartRx.v ===== *)
(** * What the UART receives

    The receiver of [fpga/pp_soc_uart.vhd]: it looks at the line on the sample clock
    only, sixteen times per bit.  A line of characters, with bits of a length near
    enough to its own, ends up in the receive buffer, in order. *)
From S2P Require Import Prelude CMem UartSim UartLine UartRate PpFifo PpUart PpUartTx.

(** ** The receiver on the sample clock *)

Record rxst := Rx { x_st : rx_state_type; x_byte : Z; x_bit : Z; x_value : Z; x_delay : Z }.

(** One sample, and the character that is complete with it. *)
Definition rx_tick (cnt level : Z) (r : rxst) : rxst * list Z :=
  match x_st r with
  | RX_IDLE => (if level =? 0 then Rx RX_STARTBIT (x_byte r) 0 cnt 0 else r, [])
  | RX_STARTBIT =>
      (if x_delay r =? 7 then Rx RX_RECEIVE (x_byte r) (x_bit r) cnt 0
       else Rx RX_STARTBIT (x_byte r) (x_bit r) (x_value r) (x_delay r + 1), [])
  | RX_RECEIVE =>
      (if cnt =? x_value r then
         let byte := put_bit (x_byte r) (x_bit r) level in
         if negb (x_bit r =? 7) then Rx RX_RECEIVE byte (x_bit r + 1) (x_value r) (x_delay r)
         else Rx RX_STOPBIT byte (x_bit r) (x_value r) (x_delay r)
       else r, [])
  | RX_STOPBIT =>
      if cnt =? x_value r then (Rx RX_IDLE (x_byte r) (x_bit r) (x_value r) (x_delay r), [x_byte r]) else (r, [])
  end.

Definition next_cnt (cnt : Z) : Z := if cnt =? 15 then 0 else cnt + 1.

(** A level per clock; the sample clock comes after [tau] more clocks, and then every
    [p] clocks. *)
Section levels.
Context (p : nat).

Fixpoint rx_spec (tau : nat) (cnt : Z) (r : rxst) (ls : list Z) : nat * Z * rxst * list Z :=
  match ls with
  | [] => (tau, cnt, r, [])
  | l :: ls =>
      match tau with
      | S tau => rx_spec tau cnt r ls
      | O =>
          let '(r', o) := rx_tick cnt l r in
          let '(z, os) := rx_spec (p - 1) (next_cnt cnt) r' ls in (z, o ++ os)
      end
  end.

(** Output in front. *)
Definition out_first (o : list Z) (z : nat * Z * rxst * list Z) : nat * Z * rxst * list Z := let '(y, os) := z in (y, o ++ os).

Lemma out_first_nil z : out_first [] z = z.
Proof. by destruct z. Qed.

Lemma spec_tick tau cnt r ls l : ls !! tau = Some l →
  rx_spec tau cnt r ls =
  out_first (snd (rx_tick cnt l r)) (rx_spec (p - 1) (next_cnt cnt) (fst (rx_tick cnt l r)) (drop (S tau) ls)).
Proof.
  revert ls. induction tau as [|tau IH]; intros [|x ls] Hl; [done| |done|].
  - injection Hl as ->. cbn. by destruct (rx_tick cnt l r).
  - cbn [rx_spec drop]. by apply IH.
Qed.

(** A sample at which nothing happens. *)
Lemma spec_quiet tau cnt r ls : (tau < length ls)%nat → (∀ l, rx_tick cnt l r = (r, [])) →
  rx_spec tau cnt r ls = rx_spec (p - 1) (next_cnt cnt) r (drop (S tau) ls).
Proof.
  intros Hlen Hq. destruct (lookup_lt_is_Some_2 ls tau Hlen) as [l Hl]. by rewrite (spec_tick _ _ _ _ _ Hl), Hq, out_first_nil.
Qed.

Hypothesis p_pos : (0 < p)%nat.

Lemma drop_tick n ls : drop (S (p - 1)) (drop n ls) = drop (n + p) (ls : list Z).
Proof. rewrite drop_drop. f_equal. lia. Qed.

(** [j] samples after the one at [v]. *)
Definition cnt_after (v j : Z) : Z := (v + j) `mod` 16.

Lemma next_cnt_after v j : next_cnt (cnt_after v j) = cnt_after v (j + 1).
Proof.
  unfold next_cnt, cnt_after. rewrite Z.add_assoc, <- (Z.add_mod_idemp_l (v + j) 1) by lia.
  pose proof (Z.mod_pos_bound (v + j) 16 ltac:(lia)). destruct (Z.eqb_spec ((v + j) `mod` 16) 15) as [->|]; [done|].
  rewrite (Z.mod_small (_ + 1)) by lia. done.
Qed.

Lemma cnt_after_ne v j : 0 ≤ v < 16 → 0 < j < 16 → (cnt_after v j =? v) = false.
Proof. intros Hv Hj. apply Z.eqb_neq. unfold cnt_after. intros E. pose proof (Z.div_mod (v + j) 16 ltac:(lia)). lia. Qed.

Lemma cnt_after_16 v : 0 ≤ v < 16 → cnt_after v 16 = v.
Proof. intros Hv. unfold cnt_after. rewrite <- (Z.mod_small v 16) at 2 by lia. apply (Z_mod_plus_full v 1 16). Qed.

(** Between two samples of the line, fifteen do nothing. *)
Lemma wait_sample r (j : nat) ls l :
  x_st r = RX_RECEIVE ∨ x_st r = RX_STOPBIT → 0 ≤ x_value r < 16 → (1 ≤ j ≤ 16)%nat →
  ls !! ((16 - j) * p + (p - 1))%nat = Some l →
  rx_spec (p - 1) (cnt_after (x_value r) (Z.of_nat j)) r ls =
  out_first (snd (rx_tick (x_value r) l r))
    (rx_spec (p - 1) (cnt_after (x_value r) 1) (fst (rx_tick (x_value r) l r)) (drop ((17 - j) * p) ls)).
Proof.
  intros Hst Hv Hj. remember (16 - j)%nat as k eqn:Ek. revert j Ek Hj ls. induction k as [|k IH]; intros j Ek Hj ls Hl.
  - assert (j = 16%nat) as -> by lia. cbn in Hl. rewrite (spec_tick _ _ _ _ _ Hl). change (Z.of_nat 16) with 16.
    rewrite cnt_after_16 by done. f_equal. f_equal; [|f_equal; lia].
    rewrite <- (cnt_after_16 (x_value r)) at 1 by done. rewrite next_cnt_after. unfold cnt_after.
    replace (x_value r + (16 + 1)) with (x_value r + 1 + 1 * 16) by lia. apply Z_mod_plus_full.
  - assert (S k * p + (p - 1) < length ls)%nat as Hlen by (by eapply lookup_lt_Some).
    rewrite spec_quiet; [|lia|].
    + rewrite next_cnt_after. replace (Z.of_nat j + 1) with (Z.of_nat (S j)) by lia. rewrite (IH (S j)); [|lia|lia|].
      * rewrite drop_drop. do 3 f_equal. nia.
      * rewrite lookup_drop, <- Hl. f_equal. lia.
    + intros x. unfold rx_tick. rewrite cnt_after_ne by lia. by destruct Hst as [-> | ->].
Qed.

(** The start bit. *)
Lemma start_wait (k : nat) cnt byte bit value ls :
  (k ≤ 7)%nat → 0 ≤ cnt < 16 → ((S k) * p ≤ length ls)%nat →
  ∃ v, 0 ≤ v < 16 ∧
    rx_spec (p - 1) cnt (Rx RX_STARTBIT byte bit value (7 - Z.of_nat k)) ls =
    rx_spec (p - 1) (cnt_after v 1) (Rx RX_RECEIVE byte bit v 0) (drop ((S k) * p) ls).
Proof.
  assert (∀ c, 0 ≤ c < 16 → next_cnt c = cnt_after c 1 ∧ 0 ≤ next_cnt c < 16) as Hnext.
  { intros c Hc. unfold next_cnt, cnt_after. destruct (Z.eqb_spec c 15) as [->|]; [done|]. rewrite Z.mod_small by lia. lia. }
  revert cnt ls. induction k as [|k IH]; intros cnt ls Hk Hc Hlen;
    (destruct (lookup_lt_is_Some_2 ls (p - 1)) as [l Hl]; [lia|]);
    rewrite (spec_tick _ _ _ _ _ Hl); unfold rx_tick; cbn [x_st x_delay x_byte x_bit x_value fst snd]; rewrite out_first_nil.
  - exists cnt. split; [done|]. destruct (Hnext cnt Hc) as [-> _]. change (7 - Z.of_nat 0 =? 7) with true. cbv iota.
    do 2 f_equal. lia.
  - rewrite (proj2 (Z.eqb_neq _ 7)) by lia. cbn [fst].
    destruct (IH (next_cnt cnt) (drop (S (p - 1)) ls)) as (v & Hv & E); [lia|by apply Hnext|rewrite length_drop; lia|].
    exists v. split; [done|]. replace (7 - Z.of_nat (S k) + 1) with (7 - Z.of_nat k) by lia. rewrite E, drop_drop. do 2 f_equal. lia.
Qed.

(** ** The bits of a character *)

Definition agree (n byte c : Z) : Prop := ∀ j, 0 ≤ j < n → Z.testbit byte j = Z.testbit c j.

Lemma byte_bits_high b j : is_byte b → 8 ≤ j → Z.testbit b j = false.
Proof. intros Hb Hj. apply (wrap_testbit_high 8); [lia|done|done]. Qed.

Lemma is_byte_bits b : (∀ j, 8 ≤ j → Z.testbit b j = false) → is_byte b.
Proof.
  intros Hb. assert (b = u8 b) as ->; [|apply u8_byte]. apply Z.bits_inj'. intros j Hj. rewrite testbit_wrap by lia.
  destruct (Z.ltb_spec j 8); [done|]. by rewrite Hb.
Qed.

Lemma put_bit_agree byte c i : 0 ≤ i → agree i byte c → agree (i + 1) (put_bit byte i (bit_of c i)) c.
Proof.
  intros Hi Ha j Hj. unfold put_bit. rewrite bit_of_testbit by done.
  rewrite Z.lor_spec, Z.ldiff_spec, !Z.shiftl_spec by lia. destruct (decide (j = i)) as [->|].
  - rewrite Z.sub_diag. rewrite andb_false_r. by destruct (Z.testbit c i).
  - rewrite (Z.testbit_neg_r 1), (Z.testbit_neg_r (Z.b2z _)) by lia. rewrite orb_false_r, andb_true_r. apply Ha. lia.
Qed.

Lemma put_bit_byte byte c i : 0 ≤ i < 8 → is_byte byte → is_byte (put_bit byte i (bit_of c i)).
Proof.
  intros Hi Hb. apply is_byte_bits. unfold put_bit. rewrite bit_of_testbit by lia. intros j Hj.
  rewrite Z.lor_spec, Z.ldiff_spec, !Z.shiftl_spec by lia. rewrite (byte_bits_high byte) by (done || lia).
  cbn [andb orb]. destruct (Z.testbit c i); [|apply Z.testbit_0_l]. apply (Z.bits_above_log2 1); cbn; lia.
Qed.

Lemma agree_eq byte c : is_byte byte → is_byte c → agree 8 byte c → byte = c.
Proof.
  intros Hb Hc Ha. apply Z.bits_inj'. intros j Hj. destruct (decide (j < 8)); [by apply Ha|]. rewrite !byte_bits_high by (done || lia). done.
Qed.

Lemma receive_bits c (n : nat) v dl byte ls :
  is_byte c → is_byte byte → 0 ≤ v < 16 → (1 ≤ n ≤ 8)%nat → agree (8 - Z.of_nat n) byte c →
  (∀ k : nat, (k < n)%nat → ls !! (16 * p * k + (16 * p - 1))%nat = Some (bit_of c (8 - Z.of_nat n + Z.of_nat k))) →
  rx_spec (p - 1) (cnt_after v 1) (Rx RX_RECEIVE byte (8 - Z.of_nat n) v dl) ls =
  rx_spec (p - 1) (cnt_after v 1) (Rx RX_STOPBIT c 7 v dl) (drop (16 * p * n) ls).
Proof.
  intros Hc Hb Hv. revert byte ls Hb. induction n as [|n IH]; intros byte ls Hb Hn Ha Hl; [lia|].
  pose proof (Hl 0%nat ltac:(lia)) as H0. rewrite Z.add_0_r in H0. set (i := 8 - Z.of_nat (S n)) in *.
  change (cnt_after v 1) with (cnt_after (x_value (Rx RX_RECEIVE byte i v dl)) (Z.of_nat 1)).
  rewrite (wait_sample _ 1 ls (bit_of c i)); [|by left|done|lia|rewrite <- H0; f_equal; lia].
  unfold rx_tick. cbn [x_st x_value x_byte x_bit x_delay]. rewrite Z.eqb_refl.
  pose proof (put_bit_agree byte c i ltac:(unfold i; lia) Ha) as Ha'. pose proof (put_bit_byte byte c i ltac:(unfold i; lia) Hb) as Hb'.
  destruct n as [|n].
  - assert (i = 7) as E by (unfold i; lia). rewrite E in *. cbn [fst snd negb Z.eqb Pos.eqb]. rewrite out_first_nil.
    rewrite (agree_eq _ c Hb' Hc Ha'). do 2 f_equal. lia.
  - rewrite (proj2 (Z.eqb_neq i 7)) by (unfold i; lia). cbn [fst snd negb]. rewrite out_first_nil.
    replace (i + 1) with (8 - Z.of_nat (S n)) in * by (unfold i; lia). rewrite IH; [|done|lia|done|].
    + rewrite drop_drop. do 2 f_equal. lia.
    + intros k Hk. rewrite lookup_drop.
      replace (8 - Z.of_nat (S n) + Z.of_nat k) with (i + Z.of_nat (S k)) by (unfold i; lia). rewrite <- (Hl (S k)) by lia. f_equal. lia.
Qed.

(** Without a start bit nothing is received. *)
Lemma receive_idle n tau cnt r rest :
  (tau ≤ p)%nat → 0 ≤ cnt < 16 → x_st r = RX_IDLE →
  ∃ tau' cnt', (tau' ≤ p)%nat ∧ 0 ≤ cnt' < 16 ∧ rx_spec tau cnt r (replicate n 1 ++ rest) = rx_spec tau' cnt' r rest.
Proof.
  intros Ht Hc Hr. revert tau cnt Ht Hc. induction n as [|n IH]; intros tau cnt Ht Hc; [by exists tau, cnt|].
  destruct tau as [|tau]; [|apply (IH tau cnt); [lia|done]].
  cbn [replicate app rx_spec]. unfold rx_tick. rewrite Hr. change (1 =? 0) with false. cbv iota.
  assert (0 ≤ next_cnt cnt < 16) as Hn by (unfold next_cnt; destruct (Z.eqb_spec cnt 15); lia).
  destruct (IH (p - 1)%nat (next_cnt cnt) ltac:(lia) Hn) as (tau' & cnt' & ? & ? & E). exists tau', cnt'. split_and!; [done|lia|lia|].
  rewrite E. by destruct (rx_spec tau' cnt' r rest).
Qed.

(** The run is one of its parts. *)
Lemma rx_spec_app ls ls' tau cnt r :
  rx_spec tau cnt r (ls ++ ls') = let '(tau', cnt', r', o) := rx_spec tau cnt r ls in out_first o (rx_spec tau' cnt' r' ls').
Proof.
  revert tau cnt r. induction ls as [|l ls IH]; intros tau cnt r; cbn [app rx_spec]; [by rewrite out_first_nil|].
  destruct tau as [|tau]; [|apply IH]. destruct (rx_tick cnt l r) as [r1 o1]. rewrite IH.
  destruct (rx_spec (p - 1) (next_cnt cnt) r1 ls) as [[[tau' cnt'] r'] o]. cbn. destruct (rx_spec tau' cnt' r' ls'). cbn. by rewrite app_assoc.
Qed.
(** ** A line *)

Lemma join_hold_lookup n (bs : list Z) x : (0 < n)%nat → mjoin ((λ b, replicate n b) <$> bs) !! x = bs !! (x / n)%nat.
Proof.
  intros Hn. revert x. induction bs as [|b bs IH]; intros x; [by rewrite !lookup_nil|].
  rewrite fmap_cons. cbn [mjoin list_join]. destruct (decide (x < n)%nat) as [Hx|Hx].
  - rewrite lookup_app_l, lookup_replicate_2 by (rewrite ?length_replicate; lia). by rewrite Nat.div_small.
  - rewrite lookup_app_r, length_replicate by (rewrite length_replicate; lia). rewrite IH.
    assert (x / n = S ((x - n) / n))%nat as ->; [|done].
    replace x with ((x - n) + 1 * n)%nat at 1 by lia. rewrite Nat.div_add by lia. lia.
Qed.

Lemma length_join_hold n (bs : list Z) : length (mjoin ((λ b, replicate n b) <$> bs)) = (length bs * n)%nat.
Proof. induction bs as [|b bs IH]; [done|]. rewrite fmap_cons. change (mjoin (?x :: ?l)) with (x ++ mjoin l). rewrite length_app, length_replicate, IH. cbn [length]. lia. Qed.

Lemma frame_join W c : frame_from (Z.of_nat W) 0 c = mjoin ((λ b, replicate W b) <$> levels_of c).
Proof.
  unfold frame_from, data_bits, levels_of, hold. rewrite Z.sub_0_r, Nat2Z.id, fmap_cons, fmap_app, <- list_fmap_compose.
  cbn [mjoin list_join]. rewrite join_app. cbn [fmap list_fmap mjoin list_join]. by rewrite app_nil_r.
Qed.

Context (W : nat).
Hypothesis rate : (16 * p ≤ W)%nat ∧ (9 * (W - 16 * p) ≤ 8 * p)%nat.

Lemma frame_lookup c x i : (i < 10)%nat → (W * i ≤ x < W * S i)%nat → frame_from (Z.of_nat W) 0 c !! x = levels_of c !! i.
Proof.
  intros Hi Hx. rewrite frame_join, join_hold_lookup by lia. f_equal. symmetry. apply (Nat.div_unique x W i (x - W * i)); lia.
Qed.

Lemma length_frame c : length (frame_from (Z.of_nat W) 0 c) = (10 * W)%nat.
Proof. by rewrite frame_join, length_join_hold. Qed.

Lemma levels_bit c (k : nat) : (k < 8)%nat → levels_of c !! S k = Some (bit_of c (8 - Z.of_nat 8 + Z.of_nat k)).
Proof. intros Hk. do 8 (destruct k as [|k]; [done|]). lia. Qed.

(** At the middle of the stop bit the character is there. *)
Lemma receive_frame e cnt r c rest :
  (e ≤ p)%nat → 0 ≤ cnt < 16 → x_st r = RX_IDLE → is_byte (x_byte r) → is_byte c →
  ∃ cnt' r', 0 ≤ cnt' < 16 ∧ x_st r' = RX_IDLE ∧ is_byte (x_byte r') ∧
    rx_spec e cnt r (frame_from (Z.of_nat W) 0 c ++ rest) =
    out_first [c] (rx_spec (p - 1) cnt' r' (replicate (10 * W - (e + 1 + 152 * p)) 1 ++ rest)).
Proof.
  intros He Hcnt Hr Hb Hc. set (ls := frame_from (Z.of_nat W) 0 c ++ rest).
  assert (∀ x i, (i < 10)%nat → (W * i ≤ x < W * S i)%nat → ls !! x = levels_of c !! i) as Hls.
  { intros x i Hi Hx. unfold ls. rewrite lookup_app_l by (rewrite length_frame; nia). by apply frame_lookup. }
  assert (10 * W ≤ length ls)%nat as Hlen by (unfold ls; rewrite length_app, length_frame; lia).
  assert (∀ k : nat, (k < 9)%nat → ls !! (e + 8 * p + 16 * p * S k)%nat = levels_of c !! S k) as Hbit.
  { intros k Hk. apply Hls; [lia|]. nia. }
  rewrite (spec_tick _ _ _ _ 0); [|by apply (Hls e 0%nat); lia].
  unfold rx_tick. rewrite Hr. cbn [fst snd Z.eqb]. rewrite out_first_nil.
  assert (0 ≤ next_cnt cnt < 16) as Hn by (unfold next_cnt; destruct (Z.eqb_spec cnt 15); lia).
  destruct (start_wait 7 (next_cnt cnt) (x_byte r) 0 cnt (drop (S e) ls)) as (v & Hv & E); [lia|done|rewrite length_drop; lia|].
  change (7 - Z.of_nat 7) with 0 in E. rewrite E. change 0 with (8 - Z.of_nat 8) at 2. rewrite drop_drop.
  rewrite (receive_bits c 8); [|done|done|done|lia|intros j Hj; lia|].
  2:{ intros k Hk. rewrite lookup_drop. replace (S e + 8 * p + (16 * p * k + (16 * p - 1)))%nat with (e + 8 * p + 16 * p * S k)%nat by lia.
      rewrite Hbit by lia. by apply levels_bit. }
  rewrite drop_drop. change (cnt_after v 1) with (cnt_after (x_value (Rx RX_STOPBIT c 7 v 0)) (Z.of_nat 1)) at 1.
  rewrite (wait_sample _ 1 _ 1); [|by right|done|lia|].
  2:{ rewrite lookup_drop. replace (S e + 8 * p + 16 * p * 8 + ((16 - 1) * p + (p - 1)))%nat with (e + 8 * p + 16 * p * 9)%nat by lia.
      by rewrite (Hbit 8%nat) by lia. }
  unfold rx_tick. cbn [x_st x_value x_byte x_bit x_delay]. rewrite Z.eqb_refl. cbn [fst snd].
  exists (cnt_after v 1), (Rx RX_IDLE c 7 v 0). split_and!; try done; [apply Z.mod_pos_bound; lia..|].
  do 2 f_equal. rewrite drop_drop. replace (S e + 8 * p + 16 * p * 8 + (17 - 1) * p)%nat with (e + 1 + 152 * p)%nat by lia.
  unfold ls. rewrite drop_app_le by (rewrite length_frame; lia). f_equal.
  apply list_eq. intros x. rewrite lookup_drop. destruct (decide (x < 10 * W - (e + 1 + 152 * p))%nat) as [Hx|Hx].
  - rewrite lookup_replicate_2 by done. by rewrite (frame_lookup c _ 9) by lia.
  - rewrite !lookup_ge_None_2 by (rewrite ?length_frame, ?length_replicate; lia). done.
Qed.

(** Every character of the line, whatever the pauses. *)
Lemma receive_line cs n m tau cnt r :
  (tau ≤ p)%nat → 0 ≤ cnt < 16 → x_st r = RX_IDLE → is_byte (x_byte r) → bytes (fst <$> cs) → Forall (λ x, 0 ≤ snd x) cs →
  ∃ tau' cnt' r', (tau' ≤ p)%nat ∧ 0 ≤ cnt' < 16 ∧ x_st r' = RX_IDLE ∧ is_byte (x_byte r') ∧
    rx_spec tau cnt r (replicate n 1 ++ rate_line (Z.of_nat W) cs ++ replicate m 1) = (tau', cnt', r', fst <$> cs).
Proof.
  revert n tau cnt r. induction cs as [|[c gap] cs IH]; intros n tau cnt r Ht Hc Hr Hb Hcs Hg.
  - cbn [rate_line fmap list_fmap app]. rewrite <- replicate_add, <- (app_nil_r (replicate _ _)).
    destruct (receive_idle (n + m) tau cnt r [] Ht Hc Hr) as (tau' & cnt' & ? & ? & ->). by exists tau', cnt', r.
  - apply Forall_cons in Hg as [Hg0 Hg]. rewrite fmap_cons in Hcs. apply Forall_cons in Hcs as [Hc0 Hcs]. cbn [fst snd] in *.
    destruct (receive_idle n tau cnt r (rate_line (Z.of_nat W) ((c, gap) :: cs) ++ replicate m 1) Ht Hc Hr) as (tau1 & cnt1 & Ht1 & Hc1 & ->).
    cbn [rate_line]. rewrite <- !app_assoc.
    destruct (receive_frame tau1 cnt1 r c (hold 1 gap ++ rate_line (Z.of_nat W) cs ++ replicate m 1) Ht1 Hc1 Hr Hb Hc0)
      as (cnt2 & r2 & Hc2 & Hr2 & Hb2 & ->).
    unfold hold. rewrite app_assoc, <- replicate_add.
    destruct (IH (10 * W - (tau1 + 1 + 152 * p) + Z.to_nat gap)%nat (p - 1)%nat cnt2 r2) as (tau' & cnt' & r' & ? & ? & ? & ? & ->); try done; [lia|].
    by exists tau', cnt', r'.
Qed.

End levels.

(** ** The receiver of the UART *)

Section receiver.
Context (d : Z) (DEPTH : nat).
Hypothesis d_range : 1 ≤ d < 256.
Abbreviation p := (Z.to_nat (d + 1)).

(** A character that goes into the buffer at the next clock. *)
Definition pending (s : pp_uart) : list Z := if recv_buffer_push (u_rx s) then [rx_byte (u_rx s)] else [].

Definition rx_of (s : pp_uart) : rxst :=
  let r := u_rx s in Rx (rx_st r) (rx_byte r) (rx_current_bit r) (rx_sample_value r) (rx_sample_delay r).

(** Clocks until the next sample. *)
Definition sample_time (b : baud) : nat := if sample_clk b then 0 else Z.to_nat (d - sample_clk_counter b + 1).

Record rx_rel (s : pp_uart) : Prop := {
  rr_divisor : sample_clk_divisor (u_wb s) = d;
  rr_counter : 0 ≤ sample_clk_counter (u_baud s) ≤ d;
  rr_clk : sample_clk (u_baud s) = true → sample_clk_counter (u_baud s) = 0;
  rr_push : recv_buffer_push (u_rx s) = true → rx_st (u_rx s) = RX_IDLE;
  rr_pop : recv_buffer_pop (u_wb s) = false;
  rr_wb : wb_state (u_wb s) = WB_IDLE;
}.

(** A clock without an access. *)
Definition no_access (i : pp_in) : Prop := reset i = false ∧ wb_stb_in i = false.

Lemma receive_clk i s : reset i = false → (recv_buffer_push (u_rx s) = true → rx_st (u_rx s) = RX_IDLE) →
  let '(r', o) := if sample_clk (u_baud s) then rx_tick (rx_sample_counter (u_baud s)) (rxd3 (u_rx s)) (rx_of s) else (rx_of s, []) in
  (o ≠ [] → full (recv_buffer s) = false) →
  let r := uart_receive i s in
  Rx (rx_st r) (rx_byte r) (rx_current_bit r) (rx_sample_value r) (rx_sample_delay r) = r' ∧
  (if recv_buffer_push r then [rx_byte r] else []) = o ∧ rxd3 r = rxd2 (u_rx s) ∧ rxd2 r = rxd i ∧
  (recv_buffer_push r = true → rx_st r = RX_IDLE).
Proof.
  intros Hr Hp. unfold uart_receive, rx_tick, rx_of. rewrite Hr. cbn [x_st x_byte x_bit x_value x_delay].
  destruct (u_rx s) as [st byte bit value delay push r2 r3]. cbn [rx_st rx_byte rx_current_bit rx_sample_value rx_sample_delay recv_buffer_push rxd2 rxd3] in *.
  assert (st ≠ RX_IDLE → push = false) as Hp' by (destruct push; [intros E; by destruct E; apply Hp|done]).
  destruct (sample_clk (u_baud s)), st; cbn [andb]; try rewrite Hp' by done.
  all: try (by destruct (r3 =? 0)); try (by destruct (delay =? 7)).
  all: try (destruct (rx_sample_counter (u_baud s) =? value); [|done]).
  all: try (by destruct (negb (bit =? 7))).
  all: try (intros Hf; rewrite Hf by done); try done.
Qed.

Lemma rx_clk i s q : no_access i → rx_rel s → holds DEPTH (recv_buffer s) q →
  let '(tau', cnt', r', o) := rx_spec p (sample_time (u_baud s)) (rx_sample_counter (u_baud s)) (rx_of s) [rxd3 (u_rx s)] in
  (length q + length (pending s) + length o ≤ DEPTH)%nat →
  let s' := pp_clk DEPTH i s in
  rx_rel s' ∧ sample_time (u_baud s') = tau' ∧ rx_sample_counter (u_baud s') = cnt' ∧ rx_of s' = r' ∧
  rxd3 (u_rx s') = rxd2 (u_rx s) ∧ rxd2 (u_rx s') = rxd i ∧ pending s' = o ∧ holds DEPTH (recv_buffer s') (q ++ pending s).
Proof.
  intros [Hi Hstb] [Hd Hn Hclk Hpush Hpop Hwb] Hq. pose proof (receive_clk i s Hi Hpush) as Hrx.
  assert (wishbone i s = u_wb s) as Ewb by (unfold wishbone; by rewrite Hi, Hwb, Hstb, andb_false_r).
  assert ((length q + length (pending s) ≤ DEPTH)%nat →
    holds DEPTH (recv_buffer (pp_clk DEPTH i s)) (q ++ pending s)) as Hbuf.
  { intros Hlen. destruct (fifo_clk_holds DEPTH (FifoIn (reset i) (recv_buffer_push (u_rx s)) (recv_buffer_pop (u_wb s)) (rx_byte (u_rx s)))
      (recv_buffer s) q) as [H _]; [done|done| |by rewrite Hpop|].
    - cbn. intros E. right. unfold pending in Hlen. rewrite E in Hlen. cbn in Hlen. lia.
    - unfold pp_clk. destruct (uart_tx_clock_generator i s), (sample_clock_generator i s). cbn [recv_buffer].
      unfold queue_clk, pending in *. cbn [f_pop f_push f_data_in] in H. by rewrite Hpop in *. }
  assert (∀ o : list Z, (length q + length (pending s) + length o ≤ DEPTH)%nat → o ≠ [] → full (recv_buffer s) = false) as Hfull.
  { intros o Ho Hne. rewrite (holds_full _ _ _ Hq). apply Nat.eqb_neq. destruct o; [done|]. cbn in Ho. lia. }
  unfold pp_clk, uart_tx_clock_generator, sample_clock_generator, sample_counter, sample_time in *.
  rewrite Hi, Hd, (proj2 (Z.eqb_neq d 0)) in * by lia. cbn [negb] in *.
  destruct (sample_clk (u_baud s)) eqn:Ec.
  - rewrite (Hclk eq_refl) in *. rewrite (proj2 (Z.eqb_neq 0 d)) in * by lia. change (u8 (0 + 1)) with 1 in *.
    cbn [rx_spec]. destruct (rx_tick _ _ _) as [r' o]. rewrite app_nil_r. intros Ho.
    destruct (Hrx (Hfull o Ho)) as (R1 & R2 & R3 & R4 & R5).
    destruct (uart_tx_counter (u_baud s) =? 15); cbn [u_baud u_rx u_wb sample_clk sample_clk_counter rx_sample_counter recv_buffer] in *.
    all: rewrite Ewb; split_and!; try done; [constructor; cbn; rewrite ?Ewb; done || lia|lia|apply Hbuf; lia].
  - assert (Z.to_nat (d - sample_clk_counter (u_baud s) + 1) = S (Z.to_nat (d - sample_clk_counter (u_baud s)))) as -> by lia.
    cbn [rx_spec]. intros Ho. destruct (Hrx ltac:(done)) as (R1 & R2 & R3 & R4 & R5).
    destruct (Z.eqb_spec (sample_clk_counter (u_baud s)) d); cbn [u_baud u_rx u_wb sample_clk sample_clk_counter rx_sample_counter recv_buffer] in *.
    all: rewrite ?(wrap_small 8 (_ + 1)) by lia.
    all: split_and!; try done; [constructor; cbn -[wrap]; rewrite ?Ewb, ?(wrap_small 8 (_ + 1)) by lia; done || lia|lia|apply Hbuf; cbn in Ho; lia].
Qed.

(** A run: the levels are seen two clocks late. *)
Lemma rx_run ins s q : Forall no_access ins → rx_rel s → holds DEPTH (recv_buffer s) q →
  let seen := rxd3 (u_rx s) :: rxd2 (u_rx s) :: (rxd <$> ins) in
  let '(tau', cnt', r', o) := rx_spec p (sample_time (u_baud s)) (rx_sample_counter (u_baud s)) (rx_of s) (take (length ins) seen) in
  (length q + length (pending s) + length o ≤ DEPTH)%nat →
  let s' := pp_run DEPTH ins s in
  rx_rel s' ∧ sample_time (u_baud s') = tau' ∧ rx_sample_counter (u_baud s') = cnt' ∧ rx_of s' = r' ∧
  [rxd3 (u_rx s'); rxd2 (u_rx s')] = drop (length ins) seen ∧
  ∃ q', holds DEPTH (recv_buffer s') q' ∧ q' ++ pending s' = q ++ pending s ++ o.
Proof.
  intros Hins. revert s q. induction Hins as [|i ins Hi _ IH]; intros s q R Hq seen.
  { cbn. intros _. split_and!; try done. exists q. by rewrite app_nil_r. }
  unfold seen. cbn [length take fmap list_fmap]. change (?a :: take ?n ?l) with ([a] ++ take n l). rewrite rx_spec_app.
  pose proof (rx_clk i s q Hi R Hq) as Hclk. destruct (rx_spec _ _ _ _ [_]) as [[[tau1 cnt1] r1] o1].
  specialize (IH (pp_clk DEPTH i s) (q ++ pending s)). cbn zeta in IH.
  destruct (rx_spec p tau1 cnt1 r1 _) as [[[tau2 cnt2] r2] o2] eqn:E2. cbn [out_first]. intros Hlen.
  rewrite length_app in Hlen. destruct (Hclk ltac:(lia)) as (R1 & T1 & C1 & X1 & D3 & D2 & P1 & Q1).
  specialize (IH R1 Q1). rewrite T1, C1, X1, D3, D2, P1, E2 in IH. rewrite length_app in IH.
  destruct IH as (R' & T' & C' & X' & D' & q' & Q' & E'); [lia|]. split_and!; try done.
  exists q'. split; [done|]. change (pp_run DEPTH (i :: ins) s) with (pp_run DEPTH ins (pp_clk DEPTH i s)). by rewrite E', <- app_assoc.
Qed.

(** Waiting for a start bit. *)
Record rx_rest (s : pp_uart) : Prop := {
  re_rel : rx_rel s;
  re_state : rx_st (u_rx s) = RX_IDLE ∧ is_byte (rx_byte (u_rx s)) ∧ recv_buffer_push (u_rx s) = false;
  re_line : rxd2 (u_rx s) = 1 ∧ rxd3 (u_rx s) = 1;
  re_cnt : 0 ≤ rx_sample_counter (u_baud s) < 16;
}.

Lemma sample_time_le s : rx_rel s → (sample_time (u_baud s) ≤ p)%nat.
Proof. intros [_ ? _ _ _ _]. unfold sample_time. destruct (sample_clk (u_baud s)); lia. Qed.

(** The characters of a line are in the buffer. *)
Lemma receive_delivers W ins s q cs n m :
  (16 * p ≤ W)%nat ∧ (9 * (W - 16 * p) ≤ 8 * p)%nat →
  Forall no_access ins → rx_rest s → holds DEPTH (recv_buffer s) q → bytes (fst <$> cs) → Forall (λ x, 0 ≤ snd x) cs →
  (length q + length cs ≤ DEPTH)%nat →
  rxd <$> ins = replicate n 1 ++ rate_line (Z.of_nat W) cs ++ replicate m 1 ++ [1; 1; 1] →
  rx_rest (pp_run DEPTH ins s) ∧ holds DEPTH (recv_buffer (pp_run DEPTH ins s)) (q ++ (fst <$> cs)).
Proof.
  intros Hrate Hins [R [Hst [Hb Hp]] [L2 L3] Hc] Hq Hcs Hg Hlen Hline.
  set (line := replicate n 1 ++ rate_line (Z.of_nat W) cs ++ replicate m 1).
  assert (rxd <$> ins = (line ++ [1; 1]) ++ [1]) as Hline' by (unfold line; by rewrite Hline, <- !app_assoc).
  apply fmap_app_inv in Hline' as (ins1 & ins2 & Hl1 & Hl2 & ->). apply Forall_app in Hins as [Hins1 Hins2].
  symmetry in Hl1, Hl2. destruct ins2 as [|i [|]]; [done| |done]. injection Hl2 as Hi. apply Forall_cons in Hins2 as [Hin _].
  assert (length ins1 = length line + 2)%nat as Hn by (rewrite <- (length_fmap rxd ins1), Hl1, length_app; done).
  assert (pending s = []) as Hp0 by (unfold pending; by rewrite Hp).
  destruct (receive_line p ltac:(lia) W Hrate cs (S (S n)) m (sample_time (u_baud s)) (rx_sample_counter (u_baud s)) (rx_of s))
    as (tau' & cnt' & r' & Ht & Hc' & Hr' & Hb' & E); try done; [by apply sample_time_le|].
  pose proof (rx_run ins1 s q Hins1 R Hq) as Hrun. cbn zeta in Hrun. rewrite L2, L3, Hl1, Hn in Hrun.
  change (1 :: 1 :: line ++ [1; 1]) with ((1 :: 1 :: line) ++ [1; 1]) in Hrun.
  rewrite take_app_length', drop_app_length' in Hrun by (cbn; lia). change (1 :: 1 :: line) with (replicate (S (S n)) 1 ++ rate_line (Z.of_nat W) cs ++ replicate m 1) in Hrun.
  rewrite E, Hp0, length_fmap in Hrun. destruct Hrun as (R1 & T1 & C1 & X1 & D1 & q1 & Q1 & E1); [cbn; lia|].
  unfold pp_run. rewrite foldl_app. fold (pp_run DEPTH ins1 s). set (s1 := pp_run DEPTH ins1 s) in *. cbn [foldl].
  injection D1 as D3 D2. pose proof (rx_clk i s1 q1 Hin R1 Q1) as Hclk. rewrite T1, C1, X1, D3 in Hclk.
  destruct (receive_idle p ltac:(lia) 1 tau' cnt' r' [] Ht Hc' Hr') as (tau2 & cnt2 & Ht2 & Hc2 & E2).
  cbn [replicate app] in E2. rewrite E2 in Hclk. cbn [rx_spec length] in Hclk.
  assert (length q1 + length (pending s1) = length q + length cs)%nat as Hlen1.
  { rewrite <- length_app, E1. rewrite !length_app, length_fmap. done. }
  destruct Hclk as (R2 & T2 & C2 & X2 & D3' & D2' & P2 & Q2); [lia|]. rewrite E1 in Q2. split; [|done].
  constructor; [done| |split; congruence|by rewrite C2].
  rewrite <- X2 in Hr', Hb'. unfold pending in P2. by destruct (recv_buffer_push (u_rx (pp_clk DEPTH i s1))).
Qed.
End receiver.
