(* ===== verification/PpSoc.v ===== *)
(** * The UART on the bus of the SoC

    [slave_io_latch] of [soc.vhdl] between the core and the UART of [PpUart], clock by
    clock: it splits an access of eight bytes in two and waits for the
    acknowledgements.  An access of a program is a request to it, the clocks until it
    is acknowledged, and as many more as the core takes before the next one.  The
    receiving line is idle.  Other devices are a function of the address. *)
From S2P Require Import Prelude CMem Soc Io PpFifo PpUart.

Inductive latch_state := L_IDLE | L_WAIT_ACK_BOT | L_WAIT_ACK_TOP.

(** The registers of the process: towards the device, and back to the core. *)
Record latch := Latch {
  l_state : latch_state;
  l_has_top : bool;
  dat_latch : Z;
  sio_stb : bool;
  sio_we : bool;
  sio_adr : Z;
  sio_dat : Z;
  io_cycle_uart : bool;
  io_ack : bool;
  io_dat_bot : Z;
  io_dat_top : Z;
}.

(** A request of the core: [sel] of the two words, write enable, the address of the
    doubleword within the UART, and the data. *)
Record request := Request { rq_bot : bool; rq_top : bool; rq_we : bool; rq_adr : Z; rq_dat : Z }.

Definition latch_reset : latch := Latch L_IDLE false 0 false false 0 0 false false 0 0.

(** [ack] and [dat] are those of the device; it stalls while it does not acknowledge. *)
Definition slave_io_latch (rq : option request) (ack : bool) (dat : Z) (l : latch) : latch :=
  match l_state l with
  | L_IDLE =>
      match rq with
      | Some rq =>
          let dat := if rq_bot rq then wrap 32 (rq_dat rq) else Z.shiftr (rq_dat rq) 32 in
          let adr := if rq_bot rq then rq_adr rq else rq_adr rq + 4 in
          Latch (if rq_bot rq then L_WAIT_ACK_BOT else L_WAIT_ACK_TOP) (rq_top rq) (Z.shiftr (rq_dat rq) 32)
            true (rq_we rq) adr dat true false (io_dat_bot l) (io_dat_top l)
      | None => Latch L_IDLE (l_has_top l) (dat_latch l) (sio_stb l) (sio_we l) (sio_adr l) (sio_dat l) (io_cycle_uart l)
                  false (io_dat_bot l) (io_dat_top l)
      end
  | L_WAIT_ACK_BOT =>
      if ack then
        if l_has_top l
        then Latch L_WAIT_ACK_TOP (l_has_top l) (dat_latch l) true (sio_we l) (sio_adr l + 4) (dat_latch l)
               (io_cycle_uart l) (io_ack l) dat (io_dat_top l)
        else Latch L_IDLE (l_has_top l) (dat_latch l) false (sio_we l) (sio_adr l) (sio_dat l) false true dat (io_dat_top l)
      else l
  | L_WAIT_ACK_TOP =>
      if ack
      then Latch L_IDLE (l_has_top l) (dat_latch l) false (sio_we l) (sio_adr l) (sio_dat l) false true (io_dat_bot l) dat
      else l
  end.

(** The latch, the UART, and the samples of its line, one per clock; [so_delays] are
    the clocks the core takes after each of the next accesses. *)
Record io_soc := IoSoc {
  so_latch : latch;
  so_uart : pp_uart;
  so_samples : list Z;
  so_delays : list nat;
}.

Section soc.
Context (DEPTH : nat).

(** The wires to the UART: the address of a word, and the low byte of the data. *)
Definition uart_wires (l : latch) : pp_in :=
  PpIn false 1 (sio_adr l) (u8 (sio_dat l)) (sio_we l) (io_cycle_uart l) (sio_stb l).

Definition soc_clk (rq : option request) (s : io_soc) : io_soc :=
  let u := pp_clk DEPTH (uart_wires (so_latch s)) (so_uart s) in
  IoSoc (slave_io_latch rq (wb_ack_out (u_wb (so_uart s))) (wb_dat_out (u_wb (so_uart s))) (so_latch s)) u
    (so_samples s ++ [txd u]) (so_delays s).

Definition soc_clks (n : nat) (s : io_soc) : io_soc := Nat.iter n (soc_clk None) s.

(** The core waits for the acknowledgement, at most [fuel] clocks. *)
Fixpoint wait_ack (fuel : nat) (s : io_soc) : io_soc :=
  match fuel with
  | O => s
  | S fuel => let s := soc_clk None s in if io_ack (so_latch s) then s else wait_ack fuel s
  end.

(** After an access: the clock in which the core sees the acknowledgement, and more. *)
Definition core_delay (s : io_soc) : io_soc :=
  let s := soc_clks (S (hd 0%nat (so_delays s))) s in
  IoSoc (so_latch s) (so_uart s) (so_samples s) (tail (so_delays s)).

Definition io_access (rq : request) (s : io_soc) : Z * io_soc :=
  let s := wait_ack 8 (soc_clk (Some rq) s) in
  let v := (if rq_bot rq then io_dat_bot (so_latch s) else 0)
           + (if rq_top rq then io_dat_top (so_latch s) else 0) * 2 ^ 32 in
  (v, core_delay s).

(** An access of [n] bytes: the whole doubleword, or one of its words. *)
Definition request_of (n : nat) (we : bool) (off v : Z) : request :=
  if (n =? 8)%nat then Request true true we off v
  else if off `mod` 8 <? 4 then Request true false we (off - off `mod` 8) (Z.shiftl v (8 * (off `mod` 8)))
  else Request false true we (off - off `mod` 8) (Z.shiftl v (8 * (off `mod` 8))).

Context (sysreg : Z → Z).

Definition in_uart (addr : Z) : bool := (UART_BASE <=? addr) && (addr <? UART_BASE + 0x1000).

#[export] Instance soc_bus : Bus io_soc := {|
  bus_load n addr s :=
    if in_uart addr
    then let '(v, s) := io_access (request_of n false (addr - UART_BASE) 0) s in
         (Z.shiftr v (if (n =? 8)%nat then 0 else 8 * (addr `mod` 8)), s)
    else (sysreg addr, core_delay s);
  bus_store n addr v s :=
    if in_uart addr then snd (io_access (request_of n true (addr - UART_BASE) v) s) else core_delay s;
|}.
End soc.
