(* ===== verification/PpConsole.v ===== *)
(** * The console on the UART

    The console driver of [lib/console.c] on the bus of [PpSoc]: each access as the
    clocks it takes, the polling loop, and the characters that are pushed. *)
From S2P Require Import Prelude CMem LibStr Soc Io Console UartSim UartLine UartRate PpFifo PpUart PpUartTx PpUartRx PpSoc.

Section console.
Context (DEPTH : nat).

(** ** Clocks *)

(** Nothing arrives, and [q] is in the receive buffer. *)
Record rx_holds (u : pp_uart) (q : list Z) : Prop := {
  rh_state : rx_st (u_rx u) = RX_IDLE ∧ recv_buffer_push (u_rx u) = false;
  rh_line : rxd2 (u_rx u) = 1 ∧ rxd3 (u_rx u) = 1;
  rh_buffer : holds DEPTH (recv_buffer u) q;
}.

Lemma rx_holds_clk i u q : reset i = false → rxd i = 1 → rx_holds u q → (recv_buffer_pop (u_wb u) = true → q ≠ []) →
  rx_holds (pp_clk DEPTH i u) (if recv_buffer_pop (u_wb u) then tail q else q) ∧
  data_out (recv_buffer (pp_clk DEPTH i u)) = if recv_buffer_pop (u_wb u) then default 0 (head q) else data_out (recv_buffer u).
Proof.
  intros Hr Hd [[H1 H2] [H3 H4] H5] Hp.
  destruct (fifo_clk_holds DEPTH (FifoIn (reset i) (recv_buffer_push (u_rx u)) (recv_buffer_pop (u_wb u)) (rx_byte (u_rx u)))
    (recv_buffer u) q) as [Hq Ho]; [done|done|cbn; by rewrite H2|done|].
  unfold queue_clk in Hq. cbn [f_pop f_push] in Hq, Ho. rewrite H2, app_nil_r in Hq.
  unfold pp_clk. destruct (uart_tx_clock_generator i u), (sample_clock_generator i u). cbn [recv_buffer u_rx]. rewrite H2 in *. split; [|done].
  assert (uart_receive i u = Receiver RX_IDLE (rx_byte (u_rx u)) (rx_current_bit (u_rx u)) (rx_sample_value (u_rx u)) (rx_sample_delay (u_rx u)) false 1 1) as E.
  { unfold uart_receive. by rewrite Hr, H1, H4, H3, Hd, andb_false_r. }
  constructor; cbn [u_rx recv_buffer]; rewrite ?E; done.
Qed.

Definition kept (u u' : pp_uart) : Prop := ∀ q, rx_holds u q → rx_holds u' q.

(** From [s] to [s'] the UART has made at least [n] steady clocks, the characters [cs]
    were pushed, and none was taken from the receive buffer. *)
Definition did (s s' : io_soc) (cs : list Z) (n : Z) : Prop :=
  kept (so_uart s) (so_uart s') ∧ ∃ ins, so_uart s' = pp_run DEPTH ins (so_uart s) ∧
    so_samples s' = so_samples s ++ txd_samples DEPTH ins (so_uart s) ∧
    steady_run DEPTH ins (so_uart s) = true ∧ pushes DEPTH ins (so_uart s) = cs ∧ n ≤ Z.of_nat (length ins).

Lemma did_refl s : did s s [] 0.
Proof. split; [by intros q|]. exists []. cbn. rewrite app_nil_r. by split_and!. Qed.

Lemma did_trans s s1 s2 cs cs' n n' : did s s1 cs n → did s1 s2 cs' n' → did s s2 (cs ++ cs') (n + n').
Proof.
  intros (K & ins & H1 & H2 & H3 & H4 & H5) (K' & ins' & J1 & J2 & J3 & J4 & J5). split; [intros q Hq; by apply K', K|]. exists (ins ++ ins').
  unfold pp_run in *. rewrite foldl_app, steady_run_app, pushes_app, txd_samples_app, length_app. unfold pp_run. rewrite <- H1.
  split_and!; [done|by rewrite J2, H2, app_assoc|done|done|by rewrite H4, J4|lia].
Qed.

Lemma did_weaken s s' cs cs' n m : did s s' cs n → cs = cs' → m ≤ n → did s s' cs' m.
Proof. intros (K & ins & ? & ? & ? & ? & ?) <- Hm. split; [done|]. exists ins. split_and!; done || lia. Qed.

(** A clock of the SoC. *)
Lemma soc_clk_did rq s :
  steady (uart_wires (so_latch s)) (so_uart s) = true →
  (send_buffer_push (u_wb (so_uart s)) = true → full (send_buffer (so_uart s)) = false) →
  recv_buffer_pop (u_wb (so_uart s)) = false →
  did s (soc_clk DEPTH rq s) (option_list (pushed (so_uart s))) 1.
Proof.
  intros H1 H2 H3. split.
  { intros q Hq. destruct (rx_holds_clk (uart_wires (so_latch s)) (so_uart s) q) as [H _]; [done..|by rewrite H3|]. by rewrite H3 in H. }
  exists [uart_wires (so_latch s)]. cbn [pp_run foldl txd_samples steady_run pushes length]. rewrite H1, app_nil_r. split_and!; try done.
  destruct (send_buffer_push (u_wb (so_uart s))); [by rewrite H2|done].
Qed.

(** The process of the bus and the registers of the UART between accesses. *)
Record idle (s : io_soc) : Prop := {
  i_latch : l_state (so_latch s) = L_IDLE ∧ sio_stb (so_latch s) = false;
  i_wb : wb_state (u_wb (so_uart s)) = WB_IDLE ∧ wb_ack_out (u_wb (so_uart s)) = false;
  i_fifos : send_buffer_push (u_wb (so_uart s)) = false ∧ recv_buffer_pop (u_wb (so_uart s)) = false;
}.

Lemma so_wb_clk rq s : u_wb (so_uart (soc_clk DEPTH rq s)) = wishbone (uart_wires (so_latch s)) (so_uart s).
Proof. apply u_wb_clk. Qed.

Lemma so_latch_clk rq s :
  so_latch (soc_clk DEPTH rq s) = slave_io_latch rq (wb_ack_out (u_wb (so_uart s))) (wb_dat_out (u_wb (so_uart s))) (so_latch s).
Proof. done. Qed.

(** Without a strobe an idle UART keeps its registers. *)
Lemma wishbone_idle l u : sio_stb l = false → wb_state (u_wb u) = WB_IDLE → wishbone (uart_wires l) u = u_wb u.
Proof. intros H1 H2. unfold wishbone. cbn. by rewrite H2, H1, andb_false_r. Qed.

Lemma idle_clk rq s : idle s → did s (soc_clk DEPTH rq s) [] 1 ∧ u_wb (so_uart (soc_clk DEPTH rq s)) = u_wb (so_uart s).
Proof.
  intros [[Hl Hs] [Hw Ha] [Hp Hq]]. rewrite so_wb_clk, wishbone_idle by done. split; [|done].
  assert (option_list (pushed (so_uart s)) = []) as <- by (unfold pushed; by rewrite Hp).
  apply soc_clk_did; [|by rewrite Hp|done]. unfold steady. rewrite wishbone_idle by done. cbn. apply Z.eqb_refl.
Qed.

Lemma idle_next s : idle s → idle (soc_clk DEPTH None s).
Proof.
  intros Hs. pose proof (proj2 (idle_clk None s Hs)) as Hw. destruct Hs as [[Hl Hs] Hb Hf].
  constructor; [|by rewrite Hw..]. cbn. unfold slave_io_latch. by rewrite Hl.
Qed.

Lemma idle_clks n s : idle s → did s (soc_clks DEPTH n s) [] (Z.of_nat n) ∧ idle (soc_clks DEPTH n s).
Proof.
  intros Hs. unfold soc_clks. induction n as [|n [IH1 IH2]]; [split; [apply did_refl|done]|].
  cbn [Nat.iter nat_rect]. split; [|by apply idle_next].
  replace (Z.of_nat (S n)) with (Z.of_nat n + 1) by lia. change (@nil Z) with (@nil Z ++ []).
  eapply did_trans; [exact IH1|]. by apply idle_clk.
Qed.

(** ** An access *)

(** The device has answered: until the strobe falls it keeps to its answer. *)
Record acked (r : registers) : Prop := {
  ak_ack : wb_ack_out r = true;
  ak_state : wb_state r ≠ WB_IDLE;
  ak_pop : recv_buffer_pop r = false;
  ak_push : send_buffer_push r = true → wb_state r = WB_WRITE_ACK;
}.

Lemma wishbone_acked i u : reset i = false → acked (u_wb u) →
  let r := wishbone i u in
  sample_clk_divisor r = sample_clk_divisor (u_wb u) ∧ send_buffer_push r = false ∧ recv_buffer_pop r = false ∧
  if wb_stb_in i then acked r else wb_state r = WB_IDLE ∧ wb_ack_out r = false.
Proof.
  intros Hr [Ha Hs Hp Hq]. unfold wishbone. rewrite Hr. destruct (wb_state (u_wb u)); [done|..].
  - destruct (wb_stb_in i); split_and!; try done; by constructor.
  - rewrite Hp. cbn. destruct (send_buffer_push (u_wb u)); [by specialize (Hq eq_refl)|].
    destruct (wb_stb_in i); split_and!; try done; by constructor.
Qed.

Lemma acked_clk rq s :
  acked (u_wb (so_uart s)) → (send_buffer_push (u_wb (so_uart s)) = true → full (send_buffer (so_uart s)) = false) →
  let s' := soc_clk DEPTH rq s in
  did s s' (option_list (pushed (so_uart s))) 1 ∧
  send_buffer_push (u_wb (so_uart s')) = false ∧ recv_buffer_pop (u_wb (so_uart s')) = false ∧
  if sio_stb (so_latch s) then acked (u_wb (so_uart s'))
  else wb_state (u_wb (so_uart s')) = WB_IDLE ∧ wb_ack_out (u_wb (so_uart s')) = false.
Proof.
  intros Ha Hf s'. unfold s'. rewrite so_wb_clk.
  destruct (wishbone_acked (uart_wires (so_latch s)) (so_uart s) eq_refl Ha) as (H1 & H2 & H3 & H4).
  split; [|done]. apply soc_clk_did; [|done|apply Ha]. unfold steady. cbn [reset uart_wires]. rewrite H1. apply Z.eqb_refl.
Qed.

Lemma not_pushed u : send_buffer_push (u_wb u) = false → pushed u = None.
Proof. intros H. unfold pushed. by rewrite H. Qed.

(** From the answer to the end of the access: the top half ends with the answer that
    is still there. *)
Lemma answered n s :
  l_state (so_latch s) = L_WAIT_ACK_BOT → l_has_top (so_latch s) = true → sio_stb (so_latch s) = true →
  io_ack (so_latch s) = false →
  acked (u_wb (so_uart s)) → (send_buffer_push (u_wb (so_uart s)) = true → full (send_buffer (so_uart s)) = false) →
  let s4 := wait_ack DEPTH (S (S n)) s in
  io_dat_bot (so_latch s4) = wb_dat_out (u_wb (so_uart s)) ∧
  did s (core_delay DEPTH s4) (option_list (pushed (so_uart s))) 3 ∧ idle (core_delay DEPTH s4).
Proof.
  intros Hl Ht Hs Hio Ha Hf. set (s3 := soc_clk DEPTH None s). set (s4 := soc_clk DEPTH None s3).
  destruct (acked_clk None s Ha Hf) as (D3 & Q3 & P3 & A3). rewrite Hs in A3. fold s3 in D3, Q3, P3, A3.
  destruct (acked_clk None s3 A3) as (D4 & Q4 & P4 & A4); [by rewrite Q3|]. fold s4 in D4, Q4, P4, A4.
  assert (so_latch s3 = Latch L_WAIT_ACK_TOP true (dat_latch (so_latch s)) true (sio_we (so_latch s)) (sio_adr (so_latch s) + 4)
    (dat_latch (so_latch s)) (io_cycle_uart (so_latch s)) false (wb_dat_out (u_wb (so_uart s))) (io_dat_top (so_latch s))) as L3.
  { unfold s3. rewrite so_latch_clk. unfold slave_io_latch. by rewrite Hl, (ak_ack _ Ha), Ht, Hio. }
  rewrite L3 in A4. cbn [sio_stb] in A4.
  assert (l_state (so_latch s4) = L_IDLE ∧ sio_stb (so_latch s4) = false ∧ io_ack (so_latch s4) = true ∧
    io_dat_bot (so_latch s4) = wb_dat_out (u_wb (so_uart s))) as (L4 & S4 & I4 & B4).
  { unfold s4. rewrite so_latch_clk. unfold slave_io_latch. by rewrite L3, (ak_ack _ A3). }
  destruct (acked_clk None s4 A4) as (D5 & Q5 & P5 & A5); [by rewrite Q4|]. rewrite S4 in A5.
  assert (idle (soc_clk DEPTH None s4)) as Hidle.
  { constructor; [|done|done]. rewrite so_latch_clk. unfold slave_io_latch. by rewrite L4. }
  assert (wait_ack DEPTH (S (S n)) s = s4) as ->.
  { cbn [wait_ack]. fold s3. rewrite L3. cbn [io_ack]. fold s4. by rewrite I4. }
  split; [done|]. rewrite (not_pushed _ Q3) in D4. rewrite (not_pushed _ Q4) in D5.
  destruct (idle_clks (hd 0%nat (so_delays s4)) _ Hidle) as [D6 I6].
  unfold core_delay, soc_clks in *. rewrite Nat.iter_succ_r. set (s5 := Nat.iter _ _ _) in *.
  split; [|by destruct I6].
  change (did s s5 (option_list (pushed (so_uart s))) 3).
  eapply did_weaken; [exact (did_trans _ _ _ _ _ _ _ (did_trans _ _ _ _ _ _ _ (did_trans _ _ _ _ _ _ _ D3 D4) D5) D6)|by rewrite !app_nil_r|lia].
Qed.

(** The first two clocks: the request reaches the device. *)
Definition asked (rq : request) (s : io_soc) : io_soc := soc_clk DEPTH None (soc_clk DEPTH (Some rq) s).

Lemma asked_ok we off v s : idle s →
  let rq := Request true true we off v in
  let s1 := soc_clk DEPTH (Some rq) s in let s2 := asked rq s in
  snd (io_access DEPTH rq s) = core_delay DEPTH (wait_ack DEPTH 7 s2) ∧
  (io_dat_bot (so_latch (wait_ack DEPTH 7 s2)) = wb_dat_out (u_wb (so_uart s2)) →
   wrap 32 (fst (io_access DEPTH rq s)) = wrap 32 (wb_dat_out (u_wb (so_uart s2)))) ∧
  l_state (so_latch s2) = L_WAIT_ACK_BOT ∧ l_has_top (so_latch s2) = true ∧ sio_stb (so_latch s2) = true ∧
  io_ack (so_latch s2) = false ∧ u_wb (so_uart s1) = u_wb (so_uart s) ∧
  u_wb (so_uart s2) = wishbone (PpIn false 1 off (u8 (wrap 32 v)) we true true) (so_uart s1).
Proof.
  intros Hs rq s1 s2. destruct (idle_clk (Some rq) s Hs) as [_ Hw]. fold s1 in Hw. destruct Hs as [[Hl _] [Hst Ha] _].
  assert (so_latch s1 = Latch L_WAIT_ACK_BOT true (Z.shiftr v 32) true we off (wrap 32 v) true false
    (io_dat_bot (so_latch s)) (io_dat_top (so_latch s))) as L1.
  { unfold s1. rewrite so_latch_clk. unfold slave_io_latch. by rewrite Hl. }
  assert (so_latch s2 = so_latch s1) as L2.
  { unfold s2, asked. fold s1. rewrite so_latch_clk. unfold slave_io_latch. by rewrite L1, Hw, Ha. }
  assert (wait_ack DEPTH 8 s1 = wait_ack DEPTH 7 s2) as E8.
  { cbn [wait_ack]. unfold asked in s2. fold s1 in s2. fold s2. by rewrite L2, L1. }
  rewrite L2, L1. unfold io_access. fold s1. rewrite E8. split_and!; try done.
  - cbn [rq_bot rq_top rq fst]. intros ->. unfold wrap. by rewrite Z.mod_add.
  - unfold s2, asked. rewrite so_wb_clk. fold s1. by rewrite L1.
Qed.

Lemma asked_did we off v s : idle s → (we = true → off ≠ 0x18) →
  let rq := Request true true we off v in did (soc_clk DEPTH (Some rq) s) (asked rq s) [] 1.
Proof.
  intros Hs Hoff rq. destruct (asked_ok we off v s Hs) as (_ & _ & _ & _ & _ & _ & W1 & W2). destruct Hs as [_ [Hst _] [Hp Hq]].
  fold rq in W1, W2. unfold asked in *. set (s1 := soc_clk DEPTH (Some rq) s) in *.
  change (@nil Z) with (option_list (@None Z)). rewrite <- (not_pushed (so_uart s1)) by (by rewrite W1).
  apply soc_clk_did; [|by rewrite W1, Hp|by rewrite W1]. unfold steady. cbn [reset uart_wires negb andb].
  rewrite <- (so_wb_clk None s1), W2. unfold wishbone. rewrite W1, Hst.
  cbn [reset wb_cyc_in wb_stb_in wb_we_in wb_adr_in wb_dat_in andb].
  destruct we; [rewrite (proj2 (Z.eqb_neq off 24)) by auto; apply Z.eqb_refl|].
  destruct (off =? 8), (off =? 16), (off =? 24), (off =? 32); apply Z.eqb_refl.
Qed.

(** A store to a register other than the divisor; a character is pushed at the third
    clock. *)
Lemma store_access off v s : idle s → off ≠ 0x18 →
  let rq := Request true true true off v in
  (off = 0 → full (send_buffer (so_uart (asked rq s))) = false) →
  did s (snd (io_access DEPTH rq s)) (if off =? 0 then [u8 (wrap 32 v)] else []) 5 ∧ idle (snd (io_access DEPTH rq s)).
Proof.
  intros Hs Hoff rq Hf. destruct (asked_ok true off v s Hs) as (Eacc & _ & L2 & T2 & S2 & I2 & W1 & W2).
  pose proof (asked_did true off v s Hs (λ _, Hoff)) as D2.
  destruct (idle_clk (Some rq) s Hs) as [D1 _]. destruct Hs as [_ [Hst Ha] [Hp Hq]].
  fold rq in Eacc, D2, L2, T2, S2, I2, W1, W2. rewrite Eacc. set (s1 := soc_clk DEPTH (Some rq) s) in *.
  unfold wishbone in W2. rewrite W1, Hst in W2. cbn [reset wb_cyc_in wb_stb_in wb_we_in wb_adr_in wb_dat_in andb Z.eqb Pos.eqb] in W2. rewrite (proj2 (Z.eqb_neq off 24) Hoff) in W2.
  destruct (answered 5 (asked rq s) L2 T2 S2 I2) as (_ & D3 & I3).
  { rewrite W2. by constructor. }
  { rewrite W2. cbn [send_buffer_push]. destruct (Z.eqb_spec off 0); [by intros _; apply Hf|by rewrite Hp]. }
  split; [|done]. eapply did_weaken; [exact (did_trans _ _ _ _ _ _ _ (did_trans _ _ _ _ _ _ _ D1 D2) D3)| |lia].
  unfold pushed. rewrite W2. cbn [send_buffer_push send_buffer_input]. rewrite Hp. by destruct (off =? 0).
Qed.

(** A load of the status. *)
Lemma status_access s : idle s →
  let rq := Request true true false 0x10 0 in
  let s1 := soc_clk DEPTH (Some rq) s in
  did s s1 [] 1 ∧ did s1 (snd (io_access DEPTH rq s)) [] 4 ∧ idle (snd (io_access DEPTH rq s)) ∧
  wrap 32 (fst (io_access DEPTH rq s)) = status_register (so_uart s1).
Proof.
  intros Hs rq. destruct (asked_ok false 0x10 0 s Hs) as (Eacc & Hv & L2 & T2 & S2 & I2 & W1 & W2).
  pose proof (asked_did false 0x10 0 s Hs ltac:(done)) as D2.
  destruct (idle_clk (Some rq) s Hs) as [D1 _]. destruct Hs as [_ [Hst Ha] [Hp Hq]].
  fold rq in Eacc, Hv, D2, L2, T2, S2, I2, W1, W2. rewrite Eacc. set (s1 := soc_clk DEPTH (Some rq) s) in *.
  unfold wishbone in W2. rewrite W1, Hst in W2. cbn [reset wb_cyc_in wb_stb_in wb_we_in wb_adr_in wb_dat_in andb Z.eqb Pos.eqb] in W2.
  destruct (answered 5 (asked rq s) L2 T2 S2 I2) as (B3 & D3 & I3).
  { rewrite W2. constructor; try done. cbn. by rewrite Hp. }
  { by rewrite W2; cbn; rewrite Hp. }
  split_and!; try done.
  - rewrite (not_pushed (so_uart (asked rq s))) in D3 by (by rewrite W2). exact (did_trans _ _ _ _ _ _ _ D2 D3).
  - rewrite (Hv B3), W2. cbn [wb_dat_out]. unfold status_register.
    by destruct (full (send_buffer (so_uart s1))), (full (recv_buffer (so_uart s1))), (empty (send_buffer (so_uart s1))), (empty (recv_buffer (so_uart s1))).
Qed.
End console.

(** ** The driver *)

Section driver.
Context (DEPTH : nat) (sysreg : Z → Z) (d : Z).
Hypothesis DEPTH_pos : (0 < DEPTH)%nat.
Hypothesis d_range : 1 ≤ d < 256.
#[local] Instance potato_bus : Bus io_soc := soc_bus DEPTH sysreg.

(** With nothing pushed, the buffer drains within [n] clocks. *)
Definition slack (s : io_soc) (n : Z) : Prop :=
  ∃ a, tx_rel d DEPTH (so_uart s) a ∧ (backlog a = 0 ∨ clocks_left d a ≤ n).

Lemma did_slack s s' n k : did DEPTH s s' [] k → slack s n → slack s' (n - k).
Proof.
  intros (_ & ins & E & _ & Hs & Hp & Hk) (a & R & Hn). exists (ts_run d DEPTH ins (so_uart s) a).
  rewrite E. split; [by apply run_rel|]. destruct (drains d d_range DEPTH ins _ a Hs R Hp) as [?|H]; [by left|].
  destruct Hn as [Hn|Hn]; [left; by apply (stays_drained d d_range DEPTH ins _ a)|right; lia].
Qed.

Lemma slack_mono s n m : n ≤ m → slack s n → slack s m.
Proof. intros Hm (a & R & H). exists a. split; [done|]. destruct H; [by left|right; lia]. Qed.

Lemma slack_0 s n : n ≤ 0 → slack s n → full (send_buffer (so_uart s)) = false.
Proof.
  intros Hn (a & R & H). apply (drained_not_full d DEPTH _ a DEPTH_pos R).
  destruct H as [?|H]; [done|]. destruct (decide (backlog a = 0)) as [?|E]; [done|].
  pose proof (clocks_left_pos d d_range DEPTH _ a R E). lia.
Qed.

(** The most clocks it takes. *)
Definition drain_clocks : Z := (10 * Z.of_nat DEPTH + 10) * bit_clocks d + 1.

Lemma any_slack s a : tx_rel d DEPTH (so_uart s) a → slack s drain_clocks.
Proof. intros R. exists a. split; [done|right]. exact (clocks_left_bound d d_range DEPTH _ a R). Qed.

Lemma status_bit u : Z.testbit (status_register u) 3 = full (send_buffer u).
Proof. unfold status_register. by destruct (full (send_buffer u)), (full (recv_buffer u)), (empty (send_buffer u)), (empty (recv_buffer u)). Qed.

Lemma poll_test st :
  tx_full_test potato st =
  let rq := Request true true false 0x10 0 in
  Ret (Z.testbit (wrap 32 (fst (io_access DEPTH rq (dev st)))) 3)
    (Machine (ram st) (snd (io_access DEPTH rq (dev st)))
      (io_trace st ++ [Ld 8 (UART_BASE + 0x10) (wrap 64 (fst (io_access DEPTH rq (dev st))))])).
Proof.
  unfold tx_full_test, io_load, status_tx_full, mbind, M_bind.
  change (bus_load (status_width potato) (status_addr potato) (dev st)) with
    (let '(v, s) := io_access DEPTH (Request true true false 0x10 0) (dev st) in (Z.shiftr v 0, s)).
  destruct (io_access DEPTH (Request true true false 0x10 0) (dev st)) as [v s]. cbn [fst snd]. rewrite Z.shiftr_0_r.
  cbn [potato uart_is_std]. unfold POTATO_CONSOLE_STATUS_TX_FULL. change 0x08 with (2 ^ 3). rewrite tst_pow2 by lia.
  change (8 * Z.of_nat (status_width potato)) with 64. unfold wrap. rewrite (Z.mod_pow2_bits_low _ 64 3), (Z.mod_pow2_bits_low _ 32 3) by lia. done.
Qed.

(** The polling loop ends, with room in the buffer. *)
Lemma poll_ok fuel st n :
  idle (dev st) → slack (dev st) n → 0 ≤ n < Z.of_nat fuel →
  ∃ st', spin fuel (tx_full_test potato) st = Ret tt st' ∧ ram st' = ram st ∧ idle (dev st') ∧
    did DEPTH (dev st) (dev st') [] 0 ∧ full (send_buffer (so_uart (dev st'))) = false.
Proof.
  revert st n. induction fuel as [|fuel IH]; intros st n Hi Hn Hf; [lia|]. cbn [spin].
  destruct (status_access DEPTH (dev st) Hi) as (D1 & D2 & I2 & Hv). pose proof (did_slack _ _ _ _ D1 Hn) as N1.
  pose proof (did_slack _ _ _ _ D2 N1) as N2. pose proof (did_trans _ _ _ _ _ _ _ _ D1 D2) as D3.
  erewrite bind_Ret by apply poll_test. cbv beta zeta. rewrite Hv, status_bit.
  set (s1 := soc_clk _ _ _) in *. set (s2 := snd (io_access _ _ _)) in *.
  destruct (full (send_buffer (so_uart s1))) eqn:Ef.
  - assert (0 < n - 1). { destruct (decide (0 < n - 1)); [done|]. by rewrite (slack_0 s1 (n - 1)) in Ef by (lia || done). }
    destruct (IH (Machine (ram st) s2 (io_trace st ++ [Ld 8 (UART_BASE + 0x10) (wrap 64 (fst (io_access DEPTH (Request true true false 0x10 0) (dev st))))])) (n - 1))
      as (st' & Hr & Hm & I' & D' & F'); [done|by eapply slack_mono; [|exact N2]; lia|lia|].
    exists st'. split_and!; try done. by apply (did_weaken _ _ _ _ _ _ _ (did_trans _ _ _ _ _ _ _ _ D3 D')).
  - eexists. split; [done|]. cbn [ram dev]. split_and!; try done.
    + by apply (did_weaken _ _ _ _ _ _ _ D3).
    + destruct N1 as (a & R & _), D2 as (_ & ins & -> & _ & Hs & Hp & _). by apply (stays_not_full d d_range DEPTH ins _ a).
Qed.

(** Ready for the next access, and transmitting. *)
Definition running (s : io_soc) : Prop := idle s ∧ ∃ a, tx_rel d DEPTH (so_uart s) a.

Lemma did_running s s' cs n : did DEPTH s s' cs n → idle s' → running s → running s'.
Proof.
  intros (_ & ins & E & _ & Hs & _) Hi [_ [a R]]. split; [done|]. exists (ts_run d DEPTH ins (so_uart s) a). rewrite E. by apply run_rel.
Qed.

(** A character goes into the buffer. *)
Lemma putchar_pushes fuel c st :
  is_byte c → running (dev st) → drain_clocks < Z.of_nat fuel →
  ∃ st', putchar fuel potato c st = Ret c st' ∧ ram st' = ram st ∧ running (dev st') ∧ did DEPTH (dev st) (dev st') [c] 0.
Proof.
  intros Hc Hrun Hf. pose proof Hrun as [Hi [a R]]. rewrite putchar_eq.
  destruct (poll_ok fuel st drain_clocks Hi (any_slack _ a R)) as (st1 & Hr & Hm & I1 & D1 & F1).
  { split; [|done]. unfold drain_clocks, bit_clocks. lia. }
  pose proof (did_running _ _ _ _ D1 I1 Hrun) as [_ [a1 R1]].
  step_with Hr. eexists. split; [done|]. cbn [ram dev].
  change (bus_store (status_width potato) (tx_addr potato) ?v (dev st1)) with (snd (io_access DEPTH (Request true true true 0 v) (dev st1))).
  change (wrap (8 * Z.of_nat (status_width potato)) (u8 c)) with (wrap 64 (u8 c)).
  set (rq := Request true true true 0 (wrap 64 (u8 c))).
  assert (did DEPTH (dev st1) (asked DEPTH rq (dev st1)) [] (1 + 1)) as (_ & ins & E & _ & Hs & Hp & _).
  { change (@nil Z) with (@nil Z ++ []). eapply did_trans; [by apply (idle_clk DEPTH (Some rq))|by apply asked_did]. }
  destruct (store_access DEPTH 0 (wrap 64 (u8 c)) (dev st1) I1 ltac:(done)) as [D3 I3].
  { intros _. fold rq. rewrite E. by apply (stays_not_full d d_range DEPTH ins _ a1). }
  fold rq in D3, I3. change (0 =? 0) with true in D3. cbn [app] in D3.
  rewrite !wrap_wrap_le, u8_id in D3 by (done || lia).
  pose proof (did_trans _ _ _ _ _ _ _ _ D1 D3) as D. split_and!; [done| |by apply (did_weaken _ _ _ _ _ _ _ D)].
  by apply (did_running _ _ _ _ D).
Qed.
End driver.
