(* ===== verification/PpGetchar.v ===== *)
(** * Characters that were typed

    [getchar] of [lib/console.c] on the bus of [PpSoc]: what the receiver has put into
    its buffer is returned, a character per call, in order. *)
From S2P Require Import Prelude CMem LibStr Soc Io Console UartSim UartLine UartRate PpFifo PpUart PpUartTx PpUartRx PpSoc PpConsole.

(** [n] calls. *)
Fixpoint getchars {D : Type} `{!Bus D} (fuel n : nat) (u : uart_state) : M (machine D) (list Z) :=
  match n with
  | O => mret []
  | S n => c ← getchar fuel u; cs ← getchars fuel n u; mret (c :: cs)
  end.

Section getchar.
Context (DEPTH : nat) (sysreg : Z → Z).
#[local] Instance getchar_bus : Bus io_soc := soc_bus DEPTH sysreg.
Abbreviation clk := (soc_clk DEPTH None).

Lemma pop_clk rq s q : rx_holds DEPTH (so_uart s) q → (recv_buffer_pop (u_wb (so_uart s)) = true → q ≠ []) →
  let u' := so_uart (soc_clk DEPTH rq s) in
  rx_holds DEPTH u' (if recv_buffer_pop (u_wb (so_uart s)) then tail q else q) ∧
  data_out (recv_buffer u') = if recv_buffer_pop (u_wb (so_uart s)) then default 0 (head q) else data_out (recv_buffer (so_uart s)).
Proof. intros Hq Hp. by apply rx_holds_clk. Qed.

(** A load of the receive register: it pops at the third clock and answers at the
    fourth. *)
Lemma rx_access s c q : idle s → rx_holds DEPTH (so_uart s) (c :: q) →
  let rq := Request true true false 0x08 0 in
  idle (snd (io_access DEPTH rq s)) ∧ rx_holds DEPTH (so_uart (snd (io_access DEPTH rq s))) q ∧
  wrap 32 (fst (io_access DEPTH rq s)) = wrap 32 c.
Proof.
  intros Hs Hq rq. destruct (asked_ok DEPTH false 0x08 0 s Hs) as (Eacc & _ & L2 & T2 & S2 & I2 & W1 & W2).
  fold rq in Eacc, L2, T2, S2, I2, W1, W2. set (s1 := soc_clk DEPTH (Some rq) s) in *. set (s2 := asked DEPTH rq s) in *.
  destruct Hs as [_ [Hst Ha] [Hp Hpop]].
  unfold wishbone in W2. rewrite W1, Hst in W2. cbn [reset wb_cyc_in wb_stb_in wb_we_in wb_adr_in wb_dat_in andb Z.eqb Pos.eqb] in W2.
  rewrite Ha, Hp in W2.
  destruct (pop_clk (Some rq) s _ Hq) as [Q1 _]; [by rewrite Hpop|]. fold s1 in Q1. rewrite Hpop in Q1.
  destruct (pop_clk None s1 _ Q1) as [Q2 _]; [by rewrite W1, Hpop|]. rewrite W1, Hpop in Q2. change (clk s1) with s2 in Q2.
  set (s3 := clk s2). destruct (pop_clk None s2 _ Q2) as [Q3 O3]; [done|]. fold s3 in Q3, O3. rewrite W2 in Q3, O3. cbn [recv_buffer_pop tail head default] in Q3, O3.
  assert (so_latch s3 = so_latch s2) as L3.
  { unfold s3. rewrite so_latch_clk. unfold slave_io_latch. by rewrite L2, W2. }
  assert (u_wb (so_uart s3) = Registers false (wb_dat_out (u_wb (so_uart s))) WB_READ_ACK false (send_buffer_input (u_wb (so_uart s))) false
    (sample_clk_divisor (u_wb (so_uart s))) (irq_recv_enable (u_wb (so_uart s))) (irq_tx_ready_enable (u_wb (so_uart s)))) as W3.
  { unfold s3. rewrite so_wb_clk. unfold wishbone. rewrite W2. cbn [reset uart_wires wb_state recv_buffer_pop wb_stb_in]. by rewrite S2. }
  set (s4 := clk s3). destruct (pop_clk None s3 _ Q3) as [Q4 _]; [by rewrite W3|]. fold s4 in Q4. rewrite W3 in Q4. cbn [recv_buffer_pop] in Q4.
  assert (so_latch s4 = so_latch s2) as L4.
  { unfold s4. rewrite so_latch_clk. unfold slave_io_latch. by rewrite L3, L2, W3. }
  assert (u_wb (so_uart s4) = Registers true c WB_READ_ACK false (send_buffer_input (u_wb (so_uart s))) false
    (sample_clk_divisor (u_wb (so_uart s))) (irq_recv_enable (u_wb (so_uart s))) (irq_tx_ready_enable (u_wb (so_uart s)))) as W4.
  { unfold s4. rewrite so_wb_clk. unfold wishbone. rewrite W3. cbn [reset uart_wires wb_state recv_buffer_pop wb_stb_in]. by rewrite L3, S2, O3. }
  destruct (answered DEPTH 3 s4) as (B4 & (K4 & _) & I4); [by rewrite L4..|rewrite W4; by constructor|by rewrite W4|].
  assert (wait_ack DEPTH 7 s2 = wait_ack DEPTH 5 s4) as E7.
  { cbn [wait_ack]. fold s3. rewrite L3, I2. fold s4. by rewrite L4, I2. }
  unfold io_access. fold s1. assert (wait_ack DEPTH 8 s1 = wait_ack DEPTH 5 s4) as ->.
  { rewrite <- E7. change (wait_ack DEPTH 8 s1) with (if io_ack (so_latch s2) then s2 else wait_ack DEPTH 7 s2). by rewrite I2. }
  cbn [fst snd rq_bot rq_top rq]. split; [done|]. split; [by apply K4|].
  rewrite B4, W4. cbn [wb_dat_out]. unfold wrap. by rewrite Z_mod_plus_full.
Qed.

Lemma load_doubleword off st : off = 0x08 ∨ off = 0x10 →
  let r := io_access DEPTH (Request true true false off 0) (dev st) in
  ∃ tr, readq (UART_BASE + off) st = Ret (wrap 64 (fst r)) (Machine (ram st) (snd r) tr).
Proof.
  intros Hoff. unfold readq, io_load.
  assert (bus_load 8 (UART_BASE + off) (dev st) =
    let '(v, s) := io_access DEPTH (Request true true false off 0) (dev st) in (Z.shiftr v 0, s)) as -> by (by destruct Hoff as [-> | ->]).
  destruct (io_access DEPTH (Request true true false off 0) (dev st)) as [v s]. rewrite Z.shiftr_0_r. by eexists.
Qed.

Lemma status_empty_bit u : Z.testbit (status_register u) 0 = empty (recv_buffer u).
Proof. unfold status_register. by destruct (full (send_buffer u)), (full (recv_buffer u)), (empty (send_buffer u)), (empty (recv_buffer u)). Qed.

Lemma low_byte v c : is_byte c → wrap 32 v = wrap 32 c → u8 (Z.land (wrap 64 v) 0xff) = c.
Proof.
  intros Hc E. change 0xff with (Z.ones 8). rewrite Z.land_ones by lia. change (?x `mod` 2 ^ 8) with (wrap 8 x).
  rewrite wrap_wrap, wrap_wrap_le, <- (wrap_wrap_le 8 32), E, wrap_wrap_le by lia. by apply u8_id.
Qed.

Lemma getchar_reads fuel st c q :
  (0 < fuel)%nat → idle (dev st) → rx_holds DEPTH (so_uart (dev st)) (c :: q) → is_byte c →
  ∃ st', getchar fuel potato st = Ret c st' ∧ ram st' = ram st ∧ idle (dev st') ∧ rx_holds DEPTH (so_uart (dev st')) q.
Proof.
  intros Hf Hi Hq Hc. destruct fuel as [|fuel]; [lia|]. unfold getchar. cbn [potato uart_is_std].
  destruct (status_access DEPTH (dev st) Hi) as ((K1 & _) & (K2 & _) & I2 & Hv).
  destruct (load_doubleword 0x10 st) as [tr1 E1]; [by right|].
  set (r1 := io_access DEPTH (Request true true false 0x10 0) (dev st)) in *. set (st1 := Machine (ram st) (snd r1) tr1) in *.
  assert (potato_uart_rx_empty potato st = Ret false st1) as Hempty.
  { unfold potato_uart_rx_empty, potato_uart_reg_read. change (uart_base potato + POTATO_CONSOLE_STATUS) with (UART_BASE + 0x10).
    step_with E1. unfold POTATO_CONSOLE_STATUS_RX_EMPTY. change 0x01 with (2 ^ 0). rewrite tst_pow2 by lia.
    assert (Z.testbit (wrap 64 (fst r1)) 0 = Z.testbit (wrap 32 (fst r1)) 0) as -> by (unfold wrap; by rewrite !Z.mod_pow2_bits_low by lia).
    rewrite Hv, status_empty_bit. rewrite (holds_empty DEPTH _ (c :: q)); [done|]. apply (rh_buffer _ _ _ (K1 _ Hq)). }
  assert (spin (S fuel) (potato_uart_rx_empty potato) st = Ret tt st1) as Hspin by (cbn [spin]; by rewrite (bind_Ret _ _ _ _ _ Hempty)).
  step_with Hspin.
  pose proof (K2 _ (K1 _ Hq)) as Q1. destruct (rx_access (snd r1) c q I2 Q1) as (I3 & Q3 & V3).
  destruct (load_doubleword 0x08 st1) as [tr2 E2]; [by left|]. cbn [dev st1] in E2.
  unfold potato_uart_read, potato_uart_reg_read. change (uart_base potato + POTATO_CONSOLE_RX) with (UART_BASE + 0x08). step_with E2.
  exists (Machine (ram st) (snd (io_access DEPTH (Request true true false 0x08 0) (snd r1))) tr2).
  split; [|by split_and!]. unfold mret, M_ret. f_equal.
  by apply low_byte.
Qed.

Lemma getchars_read fuel cs q st :
  (0 < fuel)%nat → idle (dev st) → rx_holds DEPTH (so_uart (dev st)) (cs ++ q) → bytes cs →
  ∃ st', getchars fuel (length cs) potato st = Ret cs st' ∧ ram st' = ram st ∧ idle (dev st') ∧ rx_holds DEPTH (so_uart (dev st')) q.
Proof.
  intros Hf. revert st. induction cs as [|c cs IH]; intros st Hi Hq Hcs; [by exists st|].
  apply Forall_cons in Hcs as [Hc Hcs]. cbn [length getchars].
  destruct (getchar_reads fuel st c (cs ++ q) Hf Hi Hq Hc) as (st1 & E1 & M1 & I1 & Q1). step_with E1.
  destruct (IH st1 I1 Q1 Hcs) as (st2 & E2 & M2 & I2 & Q2). step_with E2. exists st2. by rewrite M2.
Qed.

(** ** From the line to the program *)

(** A SoC whose program makes no access while the line goes by. *)
Definition meanwhile (ins : list pp_in) (s : io_soc) : io_soc :=
  IoSoc (so_latch s) (pp_run DEPTH ins (so_uart s)) (so_samples s ++ txd_samples DEPTH ins (so_uart s)) (so_delays s).

Lemma no_access_wb ins u : Forall no_access ins → wb_state (u_wb u) = WB_IDLE → u_wb (pp_run DEPTH ins u) = u_wb u.
Proof.
  intros Hins. revert u. induction Hins as [|i ins [Hr Hs] _ IH]; intros u Hw; [done|].
  assert (u_wb (pp_clk DEPTH i u) = u_wb u) as E by (rewrite u_wb_clk; unfold wishbone; by rewrite Hr, Hw, Hs, andb_false_r).
  change (pp_run DEPTH (i :: ins) u) with (pp_run DEPTH ins (pp_clk DEPTH i u)). rewrite IH; by rewrite E.
Qed.

Lemma typed_arrive d W ins s cs n m fuel mem tr :
  1 ≤ d < 256 → let p := Z.to_nat (d + 1) in
  (16 * p ≤ W)%nat ∧ (9 * (W - 16 * p) ≤ 8 * p)%nat →
  idle s → rx_rest d (so_uart s) → holds DEPTH (recv_buffer (so_uart s)) [] →
  Forall no_access ins → bytes (fst <$> cs) → Forall (λ x, 0 ≤ snd x) cs → (length cs ≤ DEPTH)%nat → (0 < fuel)%nat →
  rxd <$> ins = replicate n 1 ++ rate_line (Z.of_nat W) cs ++ replicate m 1 ++ [1; 1; 1] →
  ∃ st', getchars fuel (length cs) potato (Machine mem (meanwhile ins s) tr) = Ret (fst <$> cs) st' ∧ ram st' = mem ∧
    idle (dev st') ∧ rx_holds DEPTH (so_uart (dev st')) [].
Proof.
  intros Hd p Hrate Hi Hrest Hq Hins Hcs Hg Hlen Hf Hline.
  destruct (receive_delivers d DEPTH Hd W ins (so_uart s) [] cs n m Hrate Hins Hrest Hq Hcs Hg Hlen Hline) as [[_ [R1 [_ R2]] R3 _] Hq'].
  rewrite <- (length_fmap fst cs). apply getchars_read; [done| | |done].
  - destruct Hi as [H1 H2 H3]. cbn [dev]. constructor; [done|..]; cbn [meanwhile so_uart]; by rewrite no_access_wb by (done || apply H2).
  - cbn [dev meanwhile so_uart]. rewrite app_nil_r. by constructor.
Qed.
End getchar.
