(* ===== verification/PpBoot.v ===== *)
(** * From reset to text on the line

    The UART of [PpUart] after a reset, [console_init] on the bus of [PpSoc], and what
    a program that then prints has sent, as [uart-verilator.c] decodes it. *)
From S2P Require Import Prelude CMem LibStr Soc Io Console UartSim UartLine UartRate PpFifo PpUart PpUartTx PpSoc PpConsole.

Section boot.
Context (DEPTH : nat) (sysreg : Z → Z).
Hypothesis DEPTH_pos : (0 < DEPTH)%nat.
#[local] Instance boot_bus : Bus io_soc := soc_bus DEPTH sysreg.

(** ** Reset *)

(** Without a divisor the clocks stand still. *)
Record asleep (u : pp_uart) : Prop := {
  as_clk : sample_clk (u_baud u) = false ∧ sample_clk_counter (u_baud u) = 0;
  as_tx_clk : uart_tx_counter (u_baud u) = 0 ∧ uart_tx_clk (u_baud u) = false;
  as_tx : u_tx u = Transmitter 1 TX_IDLE false 0;
  as_buffer : holds DEPTH (send_buffer u) [];
}.

(** The state after a clock with the reset asserted, whatever it was before. *)
Definition reset_soc (i : pp_in) (u : pp_uart) (delays : list nat) : io_soc :=
  IoSoc latch_reset (pp_clk DEPTH (PpIn true (rxd i) (wb_adr_in i) (wb_dat_in i) (wb_we_in i) (wb_cyc_in i) (wb_stb_in i)) u) [] delays.

Lemma reset_ok i u delays : length (memory (send_buffer u)) = DEPTH →
  let s := reset_soc i u delays in
  idle s ∧ asleep (so_uart s) ∧ sample_clk_divisor (u_wb (so_uart s)) = 0 ∧ so_samples s = [].
Proof.
  intros Hm. split_and!; [by constructor|..|done|done]. constructor; [done..|]. by apply holds_reset.
Qed.

(** A clock in which nothing is pushed leaves all of it as it is. *)
Lemma asleep_clk rq s :
  asleep (so_uart s) → sample_clk_divisor (u_wb (so_uart s)) = 0 → send_buffer_push (u_wb (so_uart s)) = false →
  asleep (so_uart (soc_clk DEPTH rq s)) ∧ so_samples (soc_clk DEPTH rq s) = so_samples s ++ [1].
Proof.
  intros [[A1 A2] [A3 A4] A5 A6] Hd Hp. unfold soc_clk, pp_clk, uart_tx_clock_generator, sample_clock_generator.
  cbn [reset uart_wires]. rewrite Hd, A1, A2, A3. cbn [negb Z.eqb].
  assert (uart_transmit (uart_wires (so_latch s)) (so_uart s) = Transmitter 1 TX_IDLE false 0) as Et.
  { unfold uart_transmit. cbn [reset uart_wires]. by rewrite A5, A4, andb_false_r. }
  cbn [so_uart so_samples]. split; [|unfold txd; cbn [u_tx]; by rewrite Et].
  constructor; cbn [u_baud u_tx send_buffer]; [done|done|done|]. rewrite Hp, A5.
  by apply (fifo_clk_holds DEPTH (FifoIn false false false (send_buffer_input (u_wb (so_uart s)))) (send_buffer (so_uart s)) []).
Qed.

(** Only ones were put on the line. *)
Definition dark (s s' : io_soc) : Prop := ∃ n, so_samples s' = so_samples s ++ replicate n 1.

Lemma dark_trans s s1 s2 : dark s s1 → dark s1 s2 → dark s s2.
Proof. intros [n Hn] [m Hm]. exists (n + m)%nat. by rewrite Hm, Hn, replicate_add, app_assoc. Qed.

Lemma asleep_delay s : idle s → asleep (so_uart s) → sample_clk_divisor (u_wb (so_uart s)) = 0 →
  let s' := core_delay DEPTH s in
  idle s' ∧ asleep (so_uart s') ∧ sample_clk_divisor (u_wb (so_uart s')) = 0 ∧ dark s s'.
Proof.
  intros Hi Ha Hd. unfold core_delay. set (k := S _). unfold dark. cbn [so_samples so_uart].
  assert (idle (soc_clks DEPTH k s) ∧ asleep (so_uart (soc_clks DEPTH k s)) ∧
    sample_clk_divisor (u_wb (so_uart (soc_clks DEPTH k s))) = 0 ∧
    so_samples (soc_clks DEPTH k s) = so_samples s ++ replicate k 1) as ([] & ? & ? & ?); [|split_and!; [done..|by exists k]].
  clearbody k. induction k as [|k (I & A & D & E)]; [cbn; by rewrite app_nil_r|]. unfold soc_clks in *. rewrite Nat.iter_succ.
  set (s1 := Nat.iter k _ s) in *. destruct (asleep_clk None s1 A D) as [A' E']; [apply I|].
  split_and!; [by apply idle_next|done|by rewrite (proj2 (idle_clk DEPTH None s1 I))|].
  by rewrite E', E, <- app_assoc, <- replicate_S_end.
Qed.

(** ** The divisor *)

Lemma divisor_store v s d :
  1 ≤ d < 256 → u8 (wrap 32 v) = d → idle s → asleep (so_uart s) → sample_clk_divisor (u_wb (so_uart s)) = 0 →
  let s' := snd (io_access DEPTH (Request true true true 0x18 v) s) in
  idle s' ∧ at_ease d DEPTH (so_uart s') ∧ dark s s'.
Proof.
  intros Hd Hv Hi Ha H0. set (rq := Request true true true 0x18 v).
  destruct (asked_ok DEPTH true 0x18 v s Hi) as (Eacc & _ & L2 & T2 & S2 & I2 & W1 & W2). fold rq in Eacc, L2, T2, S2, I2, W1, W2.
  rewrite Eacc. set (s1 := soc_clk DEPTH (Some rq) s) in *.
  destruct (asleep_clk (Some rq) s Ha H0) as [A1 E1]; [apply Hi|]. fold s1 in A1, E1.
  destruct (asleep_clk None s1 A1) as [A2 E2]; [by rewrite W1|rewrite W1; apply Hi|].
  change (soc_clk DEPTH None s1) with (asked DEPTH rq s) in A2, E2. set (s2 := asked DEPTH rq s) in *.
  destruct Hi as [_ [Hst _] [Hp Hq]]. unfold wishbone in W2. rewrite W1, Hst in W2.
  cbn [reset wb_cyc_in wb_stb_in wb_we_in wb_adr_in wb_dat_in andb Z.eqb Pos.eqb] in W2. rewrite Hv in W2.
  assert (tx_rel d DEPTH (so_uart s2) (TxSpec (bit_clocks d + 1) false 1 [] [])) as R2.
  { destruct A2 as [[B1 B2] [B3 B4] B5 B6].
    assert (countdown d (u_baud (so_uart s2)) = bit_clocks d + 1) as Hc by (unfold countdown, bit_clocks; rewrite B1, B2, B3; lia).
    constructor; cbn [ts_time ts_tick ts_level]; try done.
    - by rewrite W2.
    - constructor; rewrite ?B1, ?B2, ?B3, ?B4; done || lia.
    - unfold txd. by rewrite B5.
    - unfold shifting. rewrite B5. done. }
  destruct (answered DEPTH 5 s2 L2 T2 S2 I2) as (_ & (_ & ins & U3 & E3 & S3 & P3 & _) & I3).
  { rewrite W2. by constructor. }
  { rewrite W2. cbn [send_buffer_push]. by rewrite Hp. }
  rewrite (not_pushed (so_uart s2)) in P3 by (by rewrite W2).
  destruct (stays_drained d Hd DEPTH ins _ _ S3 R2 P3 eq_refl) as [B3 Hl]. destruct (Hl eq_refl) as [L3 Et].
  split_and!; [done| |].
  - eexists. split; [rewrite U3; by apply (run_rel d Hd DEPTH ins _ _ S3 R2)|done].
  - exists (2 + length ins)%nat. rewrite E3, Et, E2, E1, <- !app_assoc. done.
Qed.

(** ** [console_init] *)

(** Nothing was sent yet. *)
Definition fresh (s : io_soc) : Prop := idle s ∧ asleep (so_uart s) ∧ sample_clk_divisor (u_wb (so_uart s)) = 0.

(** A register of the system controller; meanwhile the UART sleeps. *)
Lemma read_sysreg addr st : in_uart addr = false → fresh (dev st) →
  ∃ st', readq addr st = Ret (wrap 64 (sysreg addr)) st' ∧ ram st' = ram st ∧ fresh (dev st') ∧ dark (dev st) (dev st').
Proof.
  intros Ha (Hi & Hs & Hd). eexists. split.
  { unfold readq, io_load. cbn [bus_load boot_bus soc_bus]. by rewrite Ha. }
  cbn [ram dev]. destruct (asleep_delay (dev st) Hi Hs Hd) as (? & ? & ? & ?). by split_and!.
Qed.

Lemma potato_init_ok st F d :
  1 ≤ d < 256 → uart_divisor F UART_BAUDS = d + 1 → fresh (dev st) →
  ∃ st', potato_uart_init potato F st = Ret tt st' ∧ ram st' = ram st ∧
    idle (dev st') ∧ at_ease d DEPTH (so_uart (dev st')) ∧ dark (dev st) (dev st').
Proof.
  intros Hd HF (Hi & Hs & H0). unfold potato_uart_init, potato_uart_reg_write, writeq, io_store. rewrite HF, Z.add_simpl_r.
  eexists. split; [done|]. cbn [ram dev]. split; [done|].
  change (8 * Z.of_nat 8) with 64. set (v := wrap 64 (u64 d)).
  change (bus_store 8 (uart_base potato + POTATO_CONSOLE_CLOCK_DIV) v (dev st)) with (snd (io_access DEPTH (Request true true true 0x18 v) (dev st))).
  apply divisor_store; try done. unfold v. by rewrite !wrap_wrap_le, wrap_small by lia.
Qed.

Context (F d : Z).
Hypothesis d_range : 1 ≤ d < 256.
Hypothesis divisor : uart_divisor F UART_BAUDS = d + 1.
Hypothesis freq : Z.land (wrap 64 (sysreg (SYSCON_BASE + SYS_REG_CLKINFO))) SYS_REG_CLKINFO_FREQ_MASK = F.
Hypothesis is_potato :
  tst (wrap 64 (sysreg (SYSCON_BASE + SYS_REG_INFO))) SYS_REG_INFO_HAS_LARGE_SYSCON = true →
  tst (wrap 64 (sysreg (SYSCON_BASE + SYS_REG_UART0_INFO))) SYS_REG_UART_IS_16550 = false.

Lemma console_init_potato st : fresh (dev st) →
  ∃ st', console_init st = Ret potato st' ∧ ram st' = ram st ∧
    idle (dev st') ∧ at_ease d DEPTH (so_uart (dev st')) ∧ dark (dev st) (dev st').
Proof.
  intros Hf. unfold console_init.
  destruct (read_sysreg (SYSCON_BASE + SYS_REG_CLKINFO) st eq_refl Hf) as (st1 & E1 & M1 & F1 & K1). step_with E1.
  destruct (read_sysreg (SYSCON_BASE + SYS_REG_INFO) st1 eq_refl F1) as (st2 & E2 & M2 & F2 & K2). step_with E2.
  set (info := tst _ SYS_REG_INFO_HAS_LARGE_SYSCON) in *.
  assert (∃ st3 v w, (if info then uart_info ← readq (SYSCON_BASE + SYS_REG_UART0_INFO); mret (uart_info, Z.land uart_info 0xffffffff)
      else mret (0, 0)) st2 = Ret (v, w) st3 ∧ tst v SYS_REG_UART_IS_16550 = false ∧ ram st3 = ram st2 ∧ fresh (dev st3) ∧
      dark (dev st2) (dev st3)) as (st3 & v & w & E3 & Hv & M3 & F3 & K3).
  { destruct info.
    - destruct (read_sysreg (SYSCON_BASE + SYS_REG_UART0_INFO) st2 eq_refl F2) as (st3 & E3 & M3 & F3 & K3).
      eexists st3, _, _. rewrite (bind_Ret _ _ _ _ _ E3). split_and!; try done. by apply is_potato.
    - exists st2, 0, 0. split_and!; try done. exists 0%nat. by rewrite app_nil_r. }
  step_with E3. cbv beta iota zeta. rewrite Hv, freq.
  destruct (potato_init_ok st3 F d d_range divisor F3) as (st4 & E4 & M4 & I4 & A4 & K4). fold potato. step_with E4.
  exists st4. split_and!; [done|congruence|done|done|]. eauto using dark_trans.
Qed.

(** ** What arrives *)

Lemma ease_running s : idle s → at_ease d DEPTH (so_uart s) → running DEPTH d s.
Proof. intros Hi (a & R & _). split; [done|]. by exists a. Qed.

Lemma puts_pushes fuel k str s st :
  running DEPTH d (dev st) → drain_clocks DEPTH d < Z.of_nat fuel → (length s < k)%nat → cstr (ram st) str s →
  ∃ st', puts_loop fuel k potato str st = Ret tt st' ∧ running DEPTH d (dev st') ∧ did DEPTH (dev st) (dev st') (crlf s) 0.
Proof.
  intros Hr Hf Hk Hs.
  destruct (puts_loop_sends potato fuel (λ st, running DEPTH d (dev st)) (λ st cs st', did DEPTH (dev st) (dev st') cs 0))
    with (k := k) (str := str) (s := s) (st := st) as (st' & ? & _ & ? & ?); try done.
  - intros ?. apply did_refl.
  - intros ????? H1 H2. exact (did_trans _ _ _ _ _ _ _ _ H1 H2).
  - intros c st0 Hc Hi. by apply (putchar_pushes DEPTH sysreg d DEPTH_pos d_range).
  - by exists st'.
Qed.

(** From reset: the console is set up, a string is printed, and the line is left alone
    until everything is out. *)
Lemma text_arrives W fuel k str s st N :
  2 ≤ W < 2 ^ 40 → bit_clocks d < W ∧ 20 * (10 * (W - bit_clocks d) + 1) < W →
  fresh (dev st) → so_samples (dev st) = [] → cstr (ram st) str s → (length s < k)%nat → drain_clocks DEPTH d < Z.of_nat fuel →
  (10 * Z.of_nat DEPTH + 13) * bit_clocks d ≤ Z.of_nat N →
  ∃ st' v, (u ← console_init; puts fuel k u str) st = Ret 0 st' ∧
    uart_tx_run W (so_samples (soc_clks DEPTH N (dev st'))) tx_init = (v, OutByte <$> crlf s).
Proof.
  intros HW Hrate Hf H0 Hs Hk Hfuel HN.
  destruct (console_init_potato st Hf) as (st1 & E1 & M1 & I1 & A1 & [n K1]).
  rewrite <- M1 in Hs. destruct (puts_pushes fuel k str s st1 (ease_running _ I1 A1) Hfuel Hk Hs) as (st2 & E2 & [I2 _] & D2).
  destruct (idle_clks DEPTH N (dev st2) I2) as [D3 _].
  destruct D2 as (_ & ins1 & U2 & S2 & T2 & P2 & _), D3 as (_ & ins2 & U3 & S3 & T3 & P3 & L3). rewrite U2 in S3, T3, P3.
  rewrite H0 in K1. cbn [app] in K1.
  exists st2. destruct (idle_run W n (txd_samples DEPTH (ins1 ++ ins2) (so_uart (dev st1))) tx_init eq_refl) as (v1 & Hv1 & Ev1).
  destruct (transmit_decodes d d_range DEPTH W ins1 ins2 (so_uart (dev st1)) v1) as (v2 & _ & Ev2); try done.
  - apply steady_run_app. done.
  - lia.
  - rewrite P2. by apply crlf_bytes, (cstr_bytes (ram st1) str).
  - exists v2. split.
    + step_with E1. unfold puts. by step_with E2.
    + by rewrite S3, S2, K1, <- app_assoc, <- txd_samples_app, Ev1, Ev2, P2.
Qed.
End boot.
