(* ===== verification/Verilator.v ===== *)
(** * The Verilator test bench

    [verilator/microwatt-verilator.cpp]: the loop that clocks the SoC and connects
    its serial port to [uart_tx] and [uart_rx].  The SoC is code Verilator generates:
    the class [Toplevel] has the pins and [eval] the bench uses, with no law.
    [VM_TRACE] is set by the build; a trace is the list of the times dumped. *)
From S2P Require Import Prelude CMem UartSim UartLine.

Class Toplevel (T : Type) := {
  set_ext_clk : Z → T → T;
  set_ext_rst : Z → T → T;
  set_uart0_rxd : Z → T → T;
  uart0_txd : T → Z;
  eval : T → T;
  gotFinish : T → bool;
}.

Record bench (T : Type) := Bench {
  b_top : T;
  main_time : Z;
  b_dumps : list Z;
  b_rx : rx_vars;
  b_tx : tx_vars;
  b_term : terminal;
  b_out : list uart_out;
}.
Arguments Bench {T}.
Arguments b_top {T}.
Arguments main_time {T}.
Arguments b_dumps {T}.
Arguments b_rx {T}.
Arguments b_tx {T}.
Arguments b_term {T}.
Arguments b_out {T}.

Section bench.
Context {T : Type} `{!Toplevel T} (W : Z) (VM_TRACE : bool).
Abbreviation MM := (M (bench T)).

Definition on_top (f : T → T) : MM unit :=
  modify (λ s, Bench (f (b_top s)) (main_time s) (b_dumps s) (b_rx s) (b_tx s) (b_term s) (b_out s)).

(** [if (tfp) tfp->dump(main_time); main_time++;] *)
Definition dump_time : MM unit :=
  modify (λ s, Bench (b_top s) (u64 (main_time s + 1))
    (if VM_TRACE then b_dumps s ++ [main_time s] else b_dumps s) (b_rx s) (b_tx s) (b_term s) (b_out s)).

Definition tick : MM unit :=
  on_top (set_ext_clk 1);;
  on_top eval;;
  dump_time;;
  on_top (set_ext_clk 0);;
  on_top eval;;
  dump_time.

Fixpoint ticks (n : nat) : MM unit :=
  match n with O => mret tt | S n => tick;; ticks n end.

(** [uart_tx(top->uart0_txd)] and [top->uart0_rxd = uart_rx()]. *)
Definition bench_tx : MM unit := modify (λ s,
  let '(t, o) := uart_tx W (uart0_txd (b_top s)) (b_tx s) in
  Bench (b_top s) (main_time s) (b_dumps s) (b_rx s) t (b_term s) (b_out s ++ o)).
Definition bench_rx : MM unit := λ s,
  ('(b, r) ← zoom b_term (λ i s, Bench (b_top s) (main_time s) (b_dumps s) (b_rx s) (b_tx s) i (b_out s))
     (uart_rx W (b_rx s));
   modify (λ s, Bench (set_uart0_rxd b (b_top s)) (main_time s) (b_dumps s) r (b_tx s) (b_term s) (b_out s))) s.

Fixpoint main_loop (fuel : nat) : MM unit :=
  match fuel with
  | O => out_of_fuel
  | S fuel =>
      s ← get;
      if gotFinish (b_top s) then mret tt else
      tick;;
      bench_tx;;
      bench_rx;;
      main_loop fuel
  end.

Definition main (fuel : nat) : MM unit :=
  on_top (set_ext_rst 0);;
  ticks 5;;
  on_top (set_ext_rst 1);;
  main_loop fuel.

(** The state before [main]: a new SoC, and a terminal. *)
Definition bench_init (top : T) (t : terminal) : bench T := Bench top 0 [] rx_init tx_init t [].

(** ** What the SoC sends is printed *)

Definition cycle (t : T) : T := eval (set_ext_clk 0 (eval (set_ext_clk 1 t))).

Definition reset (t : T) : T := set_ext_rst 1 (Nat.iter 5 cycle (set_ext_rst 0 t)).

(** The serial output of the SoC over [n] cycles while nothing is typed. *)
Fixpoint txd_trace (n : nat) (t : T) : list Z :=
  match n with
  | O => []
  | S n => let t := cycle t in uart0_txd t :: txd_trace n (set_uart0_rxd 1 t)
  end.

(** The SoC finishes after exactly [n] cycles of an idle input. *)
Fixpoint finishes (n : nat) (t : T) : Prop :=
  match n with
  | O => gotFinish t = true
  | S n => gotFinish t = false ∧ finishes n (set_uart0_rxd 1 (cycle t))
  end.

Lemma tick_run s :
  ∃ d, tick s = Ret tt (Bench (cycle (b_top s)) (u64 (main_time s + 2)) d (b_rx s) (b_tx s) (b_term s) (b_out s)).
Proof.
  eexists. unfold tick, on_top, dump_time, modify, mbind, M_bind. cbn -[wrap].
  replace (u64 (u64 (main_time s + 1) + 1)) with (u64 (main_time s + 2)); [done|].
  unfold wrap. by rewrite Zplus_mod_idemp_l, <- Z.add_assoc.
Qed.

(** While nothing is typed, the input stays at 1. *)
Definition quiet_rx (r : rx_vars) (t : terminal) : Prop :=
  rx_state r = IDLE ∧ rx r = 1 ∧ typed t = [] ∧ closed t = false.

Lemma quiet_rx_step r t :
  quiet_rx r t → ∃ r' t', uart_rx W r t = Ret (1, r') t' ∧ quiet_rx r' t'.
Proof.
  destruct r as [st c k b r n], t as [ty cl rw rp]. intros (H1 & H2 & H3 & H4). cbn in *. subst.
  unfold uart_rx, rx_switch. cbn -[wrap RX_INTERVAL].
  destruct (RX_INTERVAL <=? n); by eexists _, _.
Qed.

Lemma bench_rx_quiet s :
  quiet_rx (b_rx s) (b_term s) →
  ∃ r t, quiet_rx r t ∧ bench_rx s =
    Ret tt (Bench (set_uart0_rxd 1 (b_top s)) (main_time s) (b_dumps s) r (b_tx s) t (b_out s)).
Proof.
  intros H. destruct (quiet_rx_step _ _ H) as (r & t & Hr & Hq). exists r, t. split; [done|].
  unfold bench_rx. unfold zoom. unfold mbind, M_bind. by rewrite Hr.
Qed.

Lemma u64_add a b : u64 (u64 a + b) = u64 (a + b).
Proof. unfold wrap. by rewrite Zplus_mod_idemp_l. Qed.

Lemma main_loop_ok n fuel s :
  quiet_rx (b_rx s) (b_term s) → finishes n (b_top s) → (n < fuel)%nat → u64 (main_time s) = main_time s →
  ∃ s', main_loop fuel s = Ret tt s' ∧ main_time s' = u64 (main_time s + 2 * Z.of_nat n) ∧
    b_out s' = b_out s ++ snd (uart_tx_run W (txd_trace n (b_top s)) (b_tx s)).
Proof.
  revert fuel s. induction n as [|n IH]; intros [|fuel] s Hq Hn Hf Ht; [lia| |lia|]; cbn [main_loop finishes] in *.
  { exists s. unfold get, mbind, M_bind. rewrite Hn. split; [done|]. rewrite Z.add_0_r. cbn. by rewrite app_nil_r. }
  destruct Hn as [Hno Hn]. rewrite (bind_Ret _ _ s s s) by done. rewrite Hno.
  destruct (tick_run s) as [d Hd]. step_with Hd.
  rewrite (bind_Ret bench_tx _ _ _ _ eq_refl). cbn [b_top b_tx].
  destruct (uart_tx W (uart0_txd (cycle (b_top s))) (b_tx s)) as [v1 o1] eqn:E1. cbn [b_rx b_term main_time b_dumps b_out].
  match goal with |- context [(bench_rx ≫= _) ?st] => destruct (bench_rx_quiet st Hq) as (r & t & Hq' & Hr) end.
  step_with Hr. cbn [b_top main_time b_dumps b_tx b_out].
  match goal with |- context [main_loop fuel ?st] => destruct (IH fuel st) as (s' & R & T' & O') end.
  - done.
  - done.
  - lia.
  - cbn [main_time]. apply wrap_wrap.
  - exists s'. split; [done|]. cbn [main_time b_out b_top b_tx] in T', O'. split.
    + rewrite T', u64_add. f_equal. lia.
    + rewrite O'. cbn [txd_trace uart_tx_run]. rewrite E1. destruct (uart_tx_run _ _ v1). cbn. by rewrite app_assoc.
Qed.

Lemma ticks_run n s :
  u64 (main_time s) = main_time s →
  ∃ d, ticks n s = Ret tt (Bench (Nat.iter n cycle (b_top s)) (u64 (main_time s + 2 * Z.of_nat n)) d
                             (b_rx s) (b_tx s) (b_term s) (b_out s)).
Proof.
  revert s. induction n as [|n IH]; intros s Ht.
  { exists (b_dumps s). rewrite Z.add_0_r, Ht. by destruct s. }
  cbn [ticks]. destruct (tick_run s) as [d Hd]. step_with Hd.
  match goal with |- context [ticks n ?st] => destruct (IH st) as [d' Hr] end; [apply wrap_wrap|].
  exists d'. rewrite Hr. cbn [b_top main_time b_rx b_tx b_term b_out]. rewrite u64_add, Nat.iter_succ_r.
  by replace (main_time s + 2 + 2 * Z.of_nat n) with (main_time s + 2 * Z.of_nat (S n)) by lia.
Qed.

(** [main] on a SoC that finishes after [n] cycles: it returns, after two evaluations
    per cycle, and has printed what the samples of the serial output decode to. *)
Lemma main_ok n fuel top t :
  typed t = [] → closed t = false → finishes n (reset top) → (n < fuel)%nat →
  ∃ s, main fuel (bench_init top t) = Ret tt s ∧ main_time s = u64 (2 * (5 + Z.of_nat n)) ∧
    b_out s = snd (uart_tx_run W (txd_trace n (reset top)) tx_init).
Proof.
  intros H1 H2 Hn Hf. unfold main, bench_init. rewrite (bind_Ret (on_top _) _ _ _ _ eq_refl).
  match goal with |- context [(ticks 5 ≫= _) ?st] => destruct (ticks_run 5 st eq_refl) as [d Hd] end.
  rewrite (bind_Ret _ _ _ _ _ Hd). rewrite (bind_Ret (on_top _) _ _ _ _ eq_refl).
  cbn [b_top main_time b_dumps b_rx b_tx b_term b_out].
  match goal with |- context [main_loop fuel ?st] => destruct (main_loop_ok n fuel st) as (s & R & T' & O') end.
  - by repeat split.
  - done.
  - done.
  - apply wrap_wrap.
  - exists s. split; [done|]. cbn [main_time b_out] in T', O'. split; [|exact O'].
    rewrite T'. change (0 + 2 * Z.of_nat 5) with 10. rewrite u64_add. f_equal. lia.
Qed.
End bench.
