(* ===== verification/Vhpi.v ===== *)
(** * Values that cross into the VHDL simulator

    [sim_vhpi_c.c] and [sim_vhpi_c.h]: a [std_logic_vector] is an array of
    bytes, one per bit, most significant first.  [host] is the state of a
    program on the host that the simulation calls: its memory and what it has
    printed. *)
From S2P Require Import Prelude CMem LibMem.

(** ** Host programs *)

(** The arguments of the host's [printf]. *)
Inductive parg := PZ (z : Z) | PS (s : list Z).

(** A call of [printf], or of [fprintf (stderr, ...)]: the format, without the
    newline and carriage return characters in it, and the arguments. *)
Inductive msg := Out (fmt : String.string) (args : list parg)
               | Err (fmt : String.string) (args : list parg).

Record host := Host { hmem : mem; hlog : list msg }.

Definition say (m : msg) : M host unit := modify (λ s, Host (hmem s) (hlog s ++ [m])).
Definition in_mem {A} (m : M mem A) : M host A := zoom hmem (λ m s, Host m (hlog s)) m.

Lemma in_mem_Ret {A} (p : M mem A) s a m' :
  p (hmem s) = Ret a m' → in_mem p s = Ret a (Host m' (hlog s)).
Proof. intros H. unfold in_mem. by rewrite (zoom_Ret _ _ _ _ _ _ H). Qed.

(** ** Strings *)

(** [struct fat_pointer] and [struct int_bounds]: where their fields lie. *)
Definition fat_base (p : Z) : M mem Z := load 8 (p + 0).
Definition fat_bounds (p : Z) : M mem Z := load 8 (p + 8).
Definition bounds_len (p : Z) : M mem Z := load 4 (p + 12).

(** [m] is what [malloc] returns. *)
Definition from_string (p m : Z) : M host Z :=
  bounds ← in_mem (fat_bounds p);
  len ← in_mem (bounds_len bounds);
  if m =? NULL then say (Err "malloc" []);; exit_ 1 else
  base ← in_mem (fat_base p);
  in_mem (memcpy m base len);;
  in_mem (store8 (m + len) 0x0);;
  mret m.

(** ** Vectors *)

Definition vhpi0 : Z := 2.
Definition vhpi1 : Z := 3.

Fixpoint from_slv_loop (n : nat) (p ret : Z) : M host Z :=
  match n with
  | O => mret ret
  | S n =>
      b ← in_mem (load8 p);
      bit ← (if b =? vhpi0 then mret 0
             else if b =? vhpi1 then mret 1
             else say (Err "%s: bad bit %d" [PS (lit "from_std_logic_vector"); PZ b]);; mret 0);
      from_slv_loop n (p + 1) (u64 (Z.lor (Z.shiftl ret 1) bit))
  end.

Definition from_std_logic_vector (p len : Z) : M host Z :=
  if 64 <? len then
    say (Err "%s: invalid length %lu" [PS (lit "from_std_logic_vector"); PZ len]);; exit_ 1
  else from_slv_loop (Z.to_nat len) p 0.

(** [n] of the [len] bits are left. *)
Fixpoint to_slv_loop (n : nat) (val p : Z) : M mem unit :=
  match n with
  | O => mret tt
  | S n =>
      store8 p (if tst (Z.shiftr val (Z.of_nat n)) 1 then vhpi1 else vhpi0);;
      to_slv_loop n val (p + 1)
  end.

Definition to_std_logic_vector (val p len : Z) : M host unit :=
  if 64 <? len then
    say (Err "%s: invalid length %lu" [PS (lit "to_std_logic_vector"); PZ len]);; exit_ 1
  else in_mem (to_slv_loop (Z.to_nat len) val p).

(** ** What a vector stands for *)

Definition slv_bit (b : bool) : Z := if b then vhpi1 else vhpi0.

(** The [n]-bit vector of a value, most significant bit first. *)
Fixpoint slv (n : nat) (v : Z) : list Z :=
  match n with
  | O => []
  | S n => slv_bit (Z.testbit v (Z.of_nat n)) :: slv n v
  end.

Lemma length_slv n v : length (slv n v) = n.
Proof. induction n; simpl; congruence. Qed.

Lemma slv_bytes n v : bytes (slv n v).
Proof.
  induction n as [|n IH]; [constructor|]. constructor; [|done].
  by destruct (Z.testbit v (Z.of_nat n)).
Qed.

Lemma to_slv_loop_ok n val p m :
  mapped m p n → to_slv_loop n val p m = Ret tt (write_bytes p (slv n val) m).
Proof.
  revert p m. induction n as [|n IH]; intros p m Hm; [done|].
  destruct Hm as [[b Hb] Hm]. cbn [to_slv_loop slv].
  step_with (store8_Ret m p (if tst (Z.shiftr val (Z.of_nat n)) 1 then vhpi1 else vhpi0) b Hb).
  rewrite IH.
  - cbn [write_bytes]. do 2 f_equal.
    change 1 with (2 ^ 0). rewrite tst_pow2, Z.shiftr_spec, Z.add_0_l by lia.
    by destruct (Z.testbit val (Z.of_nat n)).
  - change (<[p:=?v]> m) with (write_bytes p [v] m). by apply mapped_write.
Qed.

Lemma shiftr_step v n :
  0 ≤ n → Z.lor (Z.shiftl (Z.shiftr v (n + 1)) 1) (Z.b2z (Z.testbit v n)) = Z.shiftr v n.
Proof.
  intros Hn. apply Z.bits_inj'. intros i Hi. rewrite Z.lor_spec, Z.shiftl_spec, (Z.shiftr_spec v n i) by done.
  destruct (decide (i = 0)) as [->|Hne].
  - rewrite (Z.testbit_neg_r _ (0 - 1)) by lia. rewrite Z.add_0_l. by destruct (Z.testbit v n).
  - rewrite Z.shiftr_spec by lia.
    replace (Z.testbit (Z.b2z (Z.testbit v n)) i) with false.
    + rewrite orb_false_r. f_equal. lia.
    + symmetry. destruct (Z.testbit v n); cbn [Z.b2z]; [|apply Z.bits_0].
      change 1 with (2 ^ 0). by rewrite Z.pow2_bits_false by lia.
Qed.

Lemma in_mem_pure {A} (q : M mem A) (s : host) a :
  q (hmem s) = Ret a (hmem s) → in_mem q s = Ret a s.
Proof. intros Hq. rewrite (in_mem_Ret q s a (hmem s) Hq). by destruct s. Qed.

Lemma from_slv_loop_ok n p v s :
  0 ≤ v < 2 ^ 64 → bytes_at (hmem s) p (slv n v) →
  from_slv_loop n p (Z.shiftr v (Z.of_nat n)) s = Ret v s.
Proof.
  intros Hv. revert p. induction n as [|n IH]; intros p Hb; cbn [from_slv_loop].
  { by rewrite Z.shiftr_0_r. }
  destruct Hb as [Hb Hbs].
  step_with (in_mem_pure _ s _ (load8_Ret _ p _ Hb)).
  assert ((if slv_bit (Z.testbit v (Z.of_nat n)) =? vhpi0 then mret 0
           else if slv_bit (Z.testbit v (Z.of_nat n)) =? vhpi1 then mret 1
           else say (Err "%s: bad bit %d" [PS (lit "from_std_logic_vector");
                  PZ (slv_bit (Z.testbit v (Z.of_nat n)))]);; mret 0) s =
          Ret (Z.b2z (Z.testbit v (Z.of_nat n))) s) as Hbit by (by destruct (Z.testbit v (Z.of_nat n))).
  step_with Hbit. rewrite Nat2Z.inj_succ. unfold Z.succ. rewrite shiftr_step by lia.
  rewrite wrap_small; [by apply IH|]. rewrite Z.shiftr_div_pow2 by lia. split; [apply Z.div_pos; lia|].
  eapply Z.le_lt_trans; [apply Z.div_le_upper_bound with (q := v)|apply Hv]; [lia|].
  assert (1 ≤ 2 ^ Z.of_nat n) by (apply Z.lt_pred_le, Z.pow_pos_nonneg; lia). nia.
Qed.

(** A vector of up to 64 bits gives the value back. *)
Lemma from_slv_ok len p v s :
  (len ≤ 64)%nat → 0 ≤ v < 2 ^ Z.of_nat len → bytes_at (hmem s) p (slv len v) →
  from_std_logic_vector p (Z.of_nat len) s = Ret v s.
Proof.
  intros Hl Hv Hb. unfold from_std_logic_vector. rewrite (proj2 (Z.ltb_ge 64 _)), Nat2Z.id by lia.
  assert (2 ^ Z.of_nat len ≤ 2 ^ 64) by (apply Z.pow_le_mono_r; lia).
  rewrite <- (from_slv_loop_ok len p v s) by (done || lia). f_equal.
  rewrite Z.shiftr_div_pow2, Z.div_small by lia. done.
Qed.

Lemma to_slv_ok len p v s :
  (len ≤ 64)%nat → mapped (hmem s) p len →
  to_std_logic_vector v p (Z.of_nat len) s = Ret tt (Host (write_bytes p (slv len v) (hmem s)) (hlog s)).
Proof.
  intros Hl Hm. unfold to_std_logic_vector. rewrite (proj2 (Z.ltb_ge 64 _)), Nat2Z.id by lia.
  apply in_mem_Ret. by apply to_slv_loop_ok.
Qed.

Lemma slv_wrap n w v : Z.of_nat n ≤ w → slv n (wrap w v) = slv n v.
Proof.
  intros Hn. induction n as [|n IH]; [done|]. cbn. rewrite testbit_wrap by lia.
  rewrite (proj2 (Z.ltb_lt (Z.of_nat n) w)), IH by lia. done.
Qed.

(** The string the simulator passes is copied and terminated. *)
Lemma from_string_ok p m bounds base len str s :
  m ≠ NULL → fat_bounds p (hmem s) = Ret bounds (hmem s) →
  bounds_len bounds (hmem s) = Ret len (hmem s) → fat_base p (hmem s) = Ret base (hmem s) →
  len = Z.of_nat (length str) → bytes str → bytes_at (hmem s) base str →
  mapped (hmem s) m (S (length str)) → m ≤ base ∨ base + len ≤ m →
  from_string p m s = Ret m (Host (write_bytes m (str ++ [0]) (hmem s)) (hlog s)).
Proof.
  intros Hm H1 H2 H3 -> Hb Hs Hd Ho. unfold from_string.
  step_with (in_mem_pure _ s _ H1). step_with (in_mem_pure _ s _ H2).
  rewrite (proj2 (Z.eqb_neq m NULL)) by done. step_with (in_mem_pure _ s _ H3).
  replace (S (length str)) with (length str + 1)%nat in Hd by lia.
  apply mapped_app in Hd as [Hd1 Hd2].
  step_with (in_mem_Ret _ s _ _ (memcpy_ok m base _ str (hmem s) eq_refl Hb Hs Hd1 Ho)).
  destruct (mapped_write (hmem s) m str _ _ Hd2) as [[x Hx] _].
  rewrite (bind_Ret _ _ _ _ _ (in_mem_Ret (store8 (m + Z.of_nat (length str)) 0)
    (Host (write_bytes m str (hmem s)) (hlog s)) tt _ (store8_Ret _ _ _ _ Hx))).
  cbn. by rewrite write_bytes_app.
Qed.
