(* ===== verification/LiteDram.v ===== *)
(** * The LiteDRAM model of the simulation

    [litedram/extras/sim_litedram_c.cpp]: the VHDL test bench drives the generated
    LiteDRAM core through six procedures; requests and responses are vectors whose
    layout [sim_litedram.vhdl] documents.  The core is code Verilator generates: its
    state, [eval] and outputs are parameters.  Verilator's [CData], [SData] and
    [IData] are the unsigned types of 8, 16 and 32 bits. *)
From S2P Require Import Prelude CMem Vhpi.

(** ** The pins of the core *)

Record dram_in := DramIn {
  in_clk : Z;
  wb_ctrl_cti : Z; wb_ctrl_bte : Z; wb_ctrl_sel : Z; wb_ctrl_we : Z; wb_ctrl_stb : Z; wb_ctrl_cyc : Z;
  wb_ctrl_adr : Z; wb_ctrl_dat_w : Z;
  cmd_valid : Z; cmd_we : Z; wdata_valid : Z; rdata_ready : Z; cmd_addr : Z; wdata_we : Z;
  wdata_data : Z * Z * Z * Z;
}.

Record dram_out := DramOut {
  init_error : Z; init_done : Z; wb_ctrl_err : Z; wb_ctrl_ack : Z; wb_ctrl_dat_r : Z;
  cmd_ready : Z; wdata_ready : Z; rdata_valid : Z;
  rdata_data : Z * Z * Z * Z;
}.

(** Fields are zero in a new core. *)
Definition pins0 : dram_in := DramIn 0 0 0 0 0 0 0 0 0 0 0 0 0 0 0 (0, 0, 0, 0).

Definition set_clk (c : Z) (p : dram_in) : dram_in :=
  DramIn c (wb_ctrl_cti p) (wb_ctrl_bte p) (wb_ctrl_sel p) (wb_ctrl_we p) (wb_ctrl_stb p) (wb_ctrl_cyc p)
    (wb_ctrl_adr p) (wb_ctrl_dat_w p) (cmd_valid p) (cmd_we p) (wdata_valid p) (rdata_ready p) (cmd_addr p)
    (wdata_we p) (wdata_data p).

(** ** Bits of a vector *)

(** The pointer is returned, moved past what was read or written. *)
Definition get_bit (p : Z) : M mem (Z * Z) :=
  b ← load8 p;
  mret (if b =? vhpi1 then 1 else 0, p + 1).

Fixpoint get_bits_loop (len : nat) (p r : Z) : M mem (Z * Z) :=
  match len with
  | O => mret (r, p)
  | S len =>
      '(b, p) ← get_bit p;
      get_bits_loop len p (u64 (Z.lor (Z.shiftl r 1) b))
  end.
Definition get_bits (p : Z) (len : nat) : M mem (Z * Z) := get_bits_loop len p 0.

Definition set_bit (p bit : Z) : M mem Z :=
  store8 p (if bit =? 0 then vhpi0 else vhpi1);;
  mret (p + 1).

Fixpoint set_bits (p val : Z) (len : nat) : M mem Z :=
  match len with
  | O => mret p
  | S len =>
      p ← set_bit p (Z.land (Z.shiftr val (Z.of_nat len)) 1);
      set_bits p val len
  end.

(** ** The model's state *)

Section litedram.
Context {X : Type} (x0 : X) (v_eval : dram_in → X → X) (v_outs : X → dram_out) (VM_TRACE : bool).

(** The core and its input pins once it is made, the time, the times dumped to the
    trace when it is on, whether [cleanup] is to run at the end, and the host. *)
Record dsim := Dsim {
  ds_v : option (dram_in * X);
  ds_time : Z;
  ds_tfp : option (list Z);
  ds_atexit : bool;
  ds_host : host;
}.
Abbreviation MM := (M dsim).

Definition in_host {A} (m : M host A) : MM A :=
  zoom ds_host (λ h s, Dsim (ds_v s) (ds_time s) (ds_tfp s) (ds_atexit s) h) m.

Definition check_init (traces : bool) : MM unit := λ s,
  match ds_v s with
  | Some _ => Ret tt s
  | None =>
      Ret tt (Dsim (Some (pins0, x0)) (ds_time s)
                (if VM_TRACE && traces then Some [] else ds_tfp s) true (ds_host s))
  end.

(** [v->field = ...], and a field of [v]. *)
Definition set_pins (f : dram_in → dram_in) : MM unit := λ s,
  match ds_v s with
  | Some (p, x) => Ret tt (Dsim (Some (f p, x)) (ds_time s) (ds_tfp s) (ds_atexit s) (ds_host s))
  | None => Stuck
  end.
Definition get_outs : MM dram_out := λ s,
  match ds_v s with Some (p, x) => Ret (v_outs x) s | None => Stuck end.

Definition do_eval : MM unit := λ s,
  match ds_v s with
  | Some (p, x) =>
      Ret tt (Dsim (Some (p, v_eval p x)) (u64 (ds_time s + 1))
                (if VM_TRACE then (λ d, d ++ [ds_time s]) <$> ds_tfp s else ds_tfp s)
                (ds_atexit s) (ds_host s))
  | None => Stuck
  end.

Definition check_size (func : String.string) (s exp : Z) : MM unit :=
  if s =? exp then mret tt
  else in_host (say (Err "WARNING: %s exp %d got %d" [PS (lit func); PZ exp; PZ s])).

Abbreviation bit p := (in_host (in_mem (get_bit p))).
Abbreviation bits p n := (in_host (in_mem (get_bits p n))).
Abbreviation out_bit p b := (in_host (in_mem (set_bit p b))).
Abbreviation out_bits p v n := (in_host (in_mem (set_bits p v n))).

Definition litedram_set_wb (orig : Z) : MM unit :=
  check_init false;;
  '(cti, req) ← bits orig 3;
  '(bte, req) ← bits req 2;
  '(sel, req) ← bits req 4;
  '(we, req) ← bit req;
  '(stb, req) ← bit req;
  '(cyc, req) ← bit req;
  '(adr, req) ← bits req 30;
  '(dat, req) ← bits req 32;
  set_pins (λ p, DramIn (in_clk p) (u8 cti) (u8 bte) (u8 sel) (u8 we) (u8 stb) (u8 cyc) (u32 adr) (u32 dat)
    (cmd_valid p) (cmd_we p) (wdata_valid p) (rdata_ready p) (cmd_addr p) (wdata_we p) (wdata_data p));;
  check_size "litedram_set_wb" (req - orig) 74;;
  do_eval.

Definition litedram_get_wb (orig : Z) : MM unit :=
  check_init false;;
  v ← get_outs;
  req ← out_bit orig (init_error v);
  req ← out_bit req (init_done v);
  req ← out_bit req (wb_ctrl_err v);
  req ← out_bit req (wb_ctrl_ack v);
  req ← out_bits req (wb_ctrl_dat_r v) 32;
  check_size "litedram_get_wb" (req - orig) 36.

Definition litedram_set_user (orig : Z) : MM unit :=
  check_init false;;
  '(cv, req) ← bit orig;
  '(cw, req) ← bit req;
  '(wv, req) ← bit req;
  '(rr, req) ← bit req;
  '(ca, req) ← bits req 24;
  '(we, req) ← bits req 16;
  '(d3, req) ← bits req 32;
  '(d2, req) ← bits req 32;
  '(d1, req) ← bits req 32;
  '(d0, req) ← bits req 32;
  set_pins (λ p, DramIn (in_clk p) (wb_ctrl_cti p) (wb_ctrl_bte p) (wb_ctrl_sel p) (wb_ctrl_we p)
    (wb_ctrl_stb p) (wb_ctrl_cyc p) (wb_ctrl_adr p) (wb_ctrl_dat_w p)
    (u8 cv) (u8 cw) (u8 wv) (u8 rr) (u32 ca) (u16 we) (u32 d3, u32 d2, u32 d1, u32 d0));;
  check_size "litedram_set_user" (req - orig) 172;;
  do_eval.

Definition litedram_get_user (orig : Z) : MM unit :=
  check_init false;;
  v ← get_outs;
  let '(d3, d2, d1, d0) := rdata_data v in
  req ← out_bit orig (cmd_ready v);
  req ← out_bit req (wdata_ready v);
  req ← out_bit req (rdata_valid v);
  req ← out_bits req d3 32;
  req ← out_bits req d2 32;
  req ← out_bits req d1 32;
  req ← out_bits req d0 32;
  check_size "litedram_get_user" (req - orig) 131.

Definition litedram_clock : MM unit :=
  check_init false;;
  set_pins (set_clk 1);;
  do_eval;;
  set_pins (set_clk 0);;
  do_eval.

(** Called by [$time]; the conversion to [double] is exact up to [2 ^ 53]. *)
Definition sc_time_stamp : MM Z := λ s, Ret (ds_time s) s.

(** At exit the trace, if there is one, is written out, and is gone. *)
Definition cleanup : MM (option (list Z)) := λ s,
  if VM_TRACE then
    match ds_tfp s with
    | Some dumps => Ret (Some dumps) (Dsim (ds_v s) (ds_time s) None (ds_atexit s) (ds_host s))
    | None => Ret None s
    end
  else Ret None s.

Definition litedram_init (trace_on : Z) : MM unit := check_init (negb (trace_on =? 0)).

(** ** What the vectors mean *)

Lemma in_vec_pure {A} (q : M mem A) s a :
  q (hmem (ds_host s)) = Ret a (hmem (ds_host s)) → in_host (in_mem q) s = Ret a s.
Proof. intros H. unfold in_host. rewrite (zoom_Ret _ _ _ _ _ _ (in_mem_pure q _ a H)). by destruct s. Qed.

Lemma get_bit_at b p rest m :
  bytes_at m p (slv_bit b :: rest) → get_bit p m = Ret (Z.b2z b, p + 1) m ∧ bytes_at m (p + 1) rest.
Proof. intros [H1 H2]. split; [|done]. unfold get_bit. step_with (load8_Ret m p _ H1). by destruct b. Qed.

Lemma get_bits_loop_ok len p v m :
  0 ≤ v < 2 ^ 64 → bytes_at m p (slv len v) →
  get_bits_loop len p (Z.shiftr v (Z.of_nat len)) m = Ret (v, p + Z.of_nat len) m.
Proof.
  intros Hv. revert p. induction len as [|len IH]; intros p Hb; cbn [get_bits_loop].
  { rewrite Z.shiftr_0_r, Z.add_0_r. done. }
  destruct (get_bit_at _ _ _ _ Hb) as [Hr Hb']. step_with Hr.
  rewrite Nat2Z.inj_succ. unfold Z.succ. rewrite shiftr_step by lia. rewrite wrap_small.
  - rewrite (IH _ Hb'). do 2 f_equal. lia.
  - split; [apply Z.shiftr_nonneg; lia|]. rewrite Z.shiftr_div_pow2 by lia.
    apply (Z.le_lt_trans _ v); [|lia]. apply Z.div_le_upper_bound; [lia|].
    assert (1 ≤ 2 ^ Z.of_nat len) by (apply Z.lt_pred_le, Z.pow_pos_nonneg; lia). nia.
Qed.

Lemma get_bits_at n v p rest m :
  (n ≤ 64)%nat → bytes_at m p (slv n v ++ rest) →
  get_bits p n m = Ret (wrap (Z.of_nat n) v, p + Z.of_nat n) m ∧ bytes_at m (p + Z.of_nat n) rest.
Proof.
  intros Hn Hb. apply bytes_at_app in Hb as [H1 H2]. rewrite length_slv in H2. split; [|done].
  pose proof (wrap_range (Z.of_nat n) v ltac:(lia)) as Hw.
  assert (2 ^ Z.of_nat n ≤ 2 ^ 64) by (apply Z.pow_le_mono_r; lia).
  unfold get_bits. rewrite <- (get_bits_loop_ok n p (wrap (Z.of_nat n) v) m); [|lia|by rewrite slv_wrap].
  f_equal. by rewrite Z.shiftr_div_pow2, Z.div_small by lia.
Qed.

Lemma set_bit_ok p b m :
  mapped m p 1 → set_bit p b m = Ret (p + 1) (write_bytes p [slv_bit (negb (b =? 0))] m).
Proof.
  intros [[x Hx] _]. unfold set_bit. step_with (store8_Ret m p (if b =? 0 then vhpi0 else vhpi1) x Hx).
  cbn [write_bytes]. by destruct (b =? 0).
Qed.

Lemma set_bits_ok p v n m :
  mapped m p n → set_bits p v n m = Ret (p + Z.of_nat n) (write_bytes p (slv n v) m).
Proof.
  revert p m. induction n as [|n IH]; intros p m Hm; cbn [set_bits].
  { by rewrite Z.add_0_r. }
  change (S n) with (1 + n)%nat in Hm. apply mapped_app in Hm as [Hm1 Hm2].
  step_with (set_bit_ok p (Z.land (Z.shiftr v (Z.of_nat n)) 1) m Hm1).
  change (Z.of_nat 1) with 1 in Hm2. rewrite IH by (by apply mapped_write).
  replace (negb (Z.land (Z.shiftr v (Z.of_nat n)) 1 =? 0)) with (Z.testbit v (Z.of_nat n)).
  - replace (p + 1 + Z.of_nat n) with (p + Z.of_nat (S n)) by lia. done.
  - change (negb (Z.land ?a 1 =? 0)) with (tst a (2 ^ 0)).
    by rewrite tst_pow2, Z.shiftr_spec, Z.add_0_l by lia.
Qed.

(** *** The requests and the responses, as [sim_litedram.vhdl] lays them out *)

Record wb_req := WbReq {
  rq_cti : Z; rq_bte : Z; rq_sel : Z; rq_we : bool; rq_stb : bool; rq_cyc : bool; rq_adr : Z; rq_dat : Z;
}.
Record user_req := UserReq {
  rq_cmd_valid : bool; rq_cmd_we : bool; rq_wdata_valid : bool; rq_rdata_ready : bool;
  rq_cmd_addr : Z; rq_wdata_we : Z; rq_d3 : Z; rq_d2 : Z; rq_d1 : Z; rq_d0 : Z;
}.

Definition wb_req_vec (r : wb_req) : list Z :=
  slv 3 (rq_cti r) ++ slv 2 (rq_bte r) ++ slv 4 (rq_sel r) ++
  slv_bit (rq_we r) :: slv_bit (rq_stb r) :: slv_bit (rq_cyc r) :: slv 30 (rq_adr r) ++ slv 32 (rq_dat r).
Definition user_req_vec (r : user_req) : list Z :=
  slv_bit (rq_cmd_valid r) :: slv_bit (rq_cmd_we r) :: slv_bit (rq_wdata_valid r) ::
  slv_bit (rq_rdata_ready r) :: slv 24 (rq_cmd_addr r) ++ slv 16 (rq_wdata_we r) ++
  slv 32 (rq_d3 r) ++ slv 32 (rq_d2 r) ++ slv 32 (rq_d1 r) ++ slv 32 (rq_d0 r).

Definition out_flag (z : Z) : Z := slv_bit (negb (z =? 0)).
Definition wb_rsp_vec (v : dram_out) : list Z :=
  [out_flag (init_error v); out_flag (init_done v); out_flag (wb_ctrl_err v); out_flag (wb_ctrl_ack v)] ++
  slv 32 (wb_ctrl_dat_r v).
Definition user_rsp_vec (v : dram_out) : list Z :=
  let '(d3, d2, d1, d0) := rdata_data v in
  [out_flag (cmd_ready v); out_flag (wdata_ready v); out_flag (rdata_valid v)] ++
  slv 32 d3 ++ slv 32 d2 ++ slv 32 d1 ++ slv 32 d0.

(** What the pins are after a request. *)
Definition wb_pins (r : wb_req) (p : dram_in) : dram_in :=
  DramIn (in_clk p) (wrap 3 (rq_cti r)) (wrap 2 (rq_bte r)) (wrap 4 (rq_sel r))
    (Z.b2z (rq_we r)) (Z.b2z (rq_stb r)) (Z.b2z (rq_cyc r)) (wrap 30 (rq_adr r)) (u32 (rq_dat r))
    (cmd_valid p) (cmd_we p) (wdata_valid p) (rdata_ready p) (cmd_addr p) (wdata_we p) (wdata_data p).
Definition user_pins (r : user_req) (p : dram_in) : dram_in :=
  DramIn (in_clk p) (wb_ctrl_cti p) (wb_ctrl_bte p) (wb_ctrl_sel p) (wb_ctrl_we p) (wb_ctrl_stb p)
    (wb_ctrl_cyc p) (wb_ctrl_adr p) (wb_ctrl_dat_w p)
    (Z.b2z (rq_cmd_valid r)) (Z.b2z (rq_cmd_we r)) (Z.b2z (rq_wdata_valid r)) (Z.b2z (rq_rdata_ready r))
    (wrap 24 (rq_cmd_addr r)) (u16 (rq_wdata_we r)) (u32 (rq_d3 r), u32 (rq_d2 r), u32 (rq_d1 r), u32 (rq_d0 r)).

(** The core before the first call is a new one. *)
Definition core_of (s : dsim) : dram_in * X := default (pins0, x0) (ds_v s).
Definition started (s : dsim) : dsim :=
  match ds_v s with
  | Some _ => s
  | None => Dsim (Some (pins0, x0)) (ds_time s) (ds_tfp s) true (ds_host s)
  end.

Lemma check_init_run s : check_init false s = Ret tt (started s).
Proof. unfold check_init, started. rewrite andb_false_r. by destruct s as [[[]|]]. Qed.

(** The state after the core is evaluated on the pins [p]. *)
Definition evaluated (p : dram_in) (s : dsim) : dsim :=
  let s := started s in
  Dsim (Some (p, v_eval p (snd (core_of s)))) (u64 (ds_time s + 1))
    (if VM_TRACE then (λ d, d ++ [ds_time s]) <$> ds_tfp s else ds_tfp s) (ds_atexit s) (ds_host s).

Lemma set_pins_eval f func n s :
  (set_pins f;; check_size func n n;; do_eval) (started s) = Ret tt (evaluated (f (fst (core_of s))) s).
Proof. unfold check_size. rewrite Z.eqb_refl. destruct s as [[[]|]]; reflexivity. Qed.

Lemma wrap_narrow w k z : 0 ≤ k ≤ w → wrap w (wrap k z) = wrap k z.
Proof.
  intros H. apply wrap_small. pose proof (wrap_range k z ltac:(lia)).
  assert (2 ^ k ≤ 2 ^ w) by (apply Z.pow_le_mono_r; lia). lia.
Qed.

Lemma u8_b2z b : u8 (Z.b2z b) = Z.b2z b.
Proof. by destruct b. Qed.

Ltac next_bits n := match goal with
  | Hb : bytes_at ?m _ (slv n _ ++ _) |- _ =>
      apply (get_bits_at n) in Hb as [?Hr Hb]; [|lia];
      match goal with Hr : get_bits _ n m = _ |- context [_ (started ?s)] =>
        rewrite (bind_Ret _ _ _ _ _ (in_vec_pure _ (started s) _ Hr)); clear Hr; cbn beta iota end end.
Ltac next_bit := match goal with
  | Hb : bytes_at ?m _ (slv_bit _ :: _) |- _ =>
      apply get_bit_at in Hb as [?Hr Hb];
      match goal with Hr : get_bit _ m = _ |- context [_ (started ?s)] =>
        rewrite (bind_Ret _ _ _ _ _ (in_vec_pure _ (started s) _ Hr)); clear Hr; cbn beta iota end end.

Lemma started_mem s : hmem (ds_host (started s)) = hmem (ds_host s).
Proof. by destruct s as [[[]|]]. Qed.

Lemma litedram_set_wb_ok req r s :
  bytes_at (hmem (ds_host s)) req (wb_req_vec r) →
  litedram_set_wb req s = Ret tt (evaluated (wb_pins r (fst (core_of s))) s).
Proof.
  intros Hb. rewrite <- (started_mem s), <- (app_nil_r (wb_req_vec r)) in Hb. unfold litedram_set_wb.
  rewrite (bind_Ret _ _ _ _ _ (check_init_run s)). unfold wb_req_vec in Hb.
  repeat rewrite <- ?app_assoc, <- ?app_comm_cons in Hb.
  next_bits 3%nat. next_bits 2%nat. next_bits 4%nat. do 3 next_bit. next_bits 30%nat. next_bits 32%nat.
  replace (_ - req) with 74 by lia. rewrite set_pins_eval. unfold wb_pins.
  by rewrite !wrap_narrow, !u8_b2z by lia.
Qed.

Lemma litedram_set_user_ok req r s :
  bytes_at (hmem (ds_host s)) req (user_req_vec r) →
  litedram_set_user req s = Ret tt (evaluated (user_pins r (fst (core_of s))) s).
Proof.
  intros Hb. rewrite <- (started_mem s), <- (app_nil_r (user_req_vec r)) in Hb. unfold litedram_set_user.
  rewrite (bind_Ret _ _ _ _ _ (check_init_run s)). unfold user_req_vec in Hb.
  repeat rewrite <- ?app_assoc, <- ?app_comm_cons in Hb.
  do 4 next_bit. next_bits 24%nat. next_bits 16%nat. do 4 next_bits 32%nat.
  replace (_ - req) with 172 by lia. rewrite set_pins_eval. unfold user_pins.
  by rewrite !wrap_narrow, !u8_b2z by lia.
Qed.

(** The part of a response that is written already. *)
Definition wrote (p : Z) (bs : list Z) (s : dsim) : dsim :=
  Dsim (ds_v s) (ds_time s) (ds_tfp s) (ds_atexit s)
    (Host (write_bytes p bs (hmem (ds_host s))) (hlog (ds_host s))).

Lemma wrote_more (q : Z → M mem Z) p p' bs bs' s :
  p' = p + Z.of_nat (length bs) →
  (∀ m, mapped m p' (length bs') → q p' m = Ret (p' + Z.of_nat (length bs')) (write_bytes p' bs' m)) →
  mapped (hmem (ds_host s)) p (length bs + length bs') →
  in_host (in_mem (q p')) (wrote p bs s) = Ret (p' + Z.of_nat (length bs')) (wrote p (bs ++ bs') s).
Proof.
  intros -> Hq Hm. apply mapped_app in Hm as [_ Hm].
  specialize (Hq (write_bytes p bs (hmem (ds_host s))) (mapped_write _ _ _ _ _ Hm)).
  unfold in_host. rewrite (zoom_Ret _ _ _ _ _ _ (in_mem_Ret _ (ds_host (wrote p bs s)) _ _ Hq)).
  unfold wrote. cbn. by rewrite write_bytes_app.
Qed.

Lemma out_bit_next p p' bs b s :
  mapped (hmem (ds_host s)) p (length bs + 1) → p' = p + Z.of_nat (length bs) →
  out_bit p' b (wrote p bs s) = Ret (p' + 1) (wrote p (bs ++ [out_flag b]) s).
Proof.
  intros Hm Hp. rewrite (wrote_more (λ p, set_bit p b) p p' bs [out_flag b] s Hp); [done| |done].
  intros m. apply set_bit_ok.
Qed.

Lemma out_bits_next p p' bs v n s :
  mapped (hmem (ds_host s)) p (length bs + n) → p' = p + Z.of_nat (length bs) →
  out_bits p' v n (wrote p bs s) = Ret (p' + Z.of_nat n) (wrote p (bs ++ slv n v) s).
Proof.
  intros Hm Hp. rewrite (wrote_more (λ p, set_bits p v n) p p' bs (slv n v) s Hp); rewrite length_slv; [done| |done].
  intros m. apply set_bits_ok.
Qed.

Lemma wrote_nil p s : wrote p [] s = s.
Proof. by destruct s as [? ? ? ? []]. Qed.

Ltac out_fits Hm :=
  cbn [length]; rewrite ?length_app, ?length_slv; cbn [length]; first [lia | apply (mapped_le _ _ _ _ Hm); lia].
Ltac out_next Hm :=
  match goal with
  | |- (in_host (in_mem (set_bit ?p' ?b)) ≫= _) (wrote ?p ?bs ?s) = _ =>
      rewrite (bind_Ret _ _ _ _ _ (out_bit_next p p' bs b s ltac:(out_fits Hm) ltac:(out_fits Hm)))
  | |- (in_host (in_mem (set_bits ?p' ?v ?n)) ≫= _) (wrote ?p ?bs ?s) = _ =>
      rewrite (bind_Ret _ _ _ _ _ (out_bits_next p p' bs v n s ltac:(out_fits Hm) ltac:(out_fits Hm)))
  end; cbn beta; rewrite <- ?app_assoc; cbn [app].

Lemma get_outs_run s : get_outs (started s) = Ret (v_outs (snd (core_of s))) (started s).
Proof. by destruct s as [[[]|]]. Qed.

Lemma litedram_get_wb_ok rsp s :
  mapped (hmem (ds_host s)) rsp 36 →
  litedram_get_wb rsp s = Ret tt (wrote rsp (wb_rsp_vec (v_outs (snd (core_of s)))) (started s)).
Proof.
  intros Hm. rewrite <- (started_mem s) in Hm. unfold litedram_get_wb.
  rewrite (bind_Ret _ _ _ _ _ (check_init_run s)), (bind_Ret _ _ _ _ _ (get_outs_run s)).
  rewrite <- (wrote_nil rsp (started s)) at 1.
  do 5 out_next Hm. unfold check_size. by rewrite (proj2 (Z.eqb_eq _ _)) by lia.
Qed.

Lemma litedram_get_user_ok rsp s :
  mapped (hmem (ds_host s)) rsp 131 →
  litedram_get_user rsp s = Ret tt (wrote rsp (user_rsp_vec (v_outs (snd (core_of s)))) (started s)).
Proof.
  intros Hm. rewrite <- (started_mem s) in Hm. unfold litedram_get_user, user_rsp_vec.
  rewrite (bind_Ret _ _ _ _ _ (check_init_run s)), (bind_Ret _ _ _ _ _ (get_outs_run s)).
  destruct (rdata_data _) as [[[d3 d2] d1] d0]. rewrite <- (wrote_nil rsp (started s)) at 1. cbn beta iota zeta.
  do 7 out_next Hm. unfold check_size. by rewrite (proj2 (Z.eqb_eq _ _)) by lia.
Qed.

Lemma litedram_clock_ok s :
  litedram_clock s = Ret tt (evaluated (set_clk 0 (fst (core_of s))) (evaluated (set_clk 1 (fst (core_of s))) s)).
Proof.
  unfold litedram_clock. rewrite (bind_Ret _ _ _ _ _ (check_init_run s)). destruct s as [[[]|]]; reflexivity.
Qed.

(** A cycle of the test bench: both requests, a clock, both responses. *)
Definition litedram_cycle (wb_req user_req wb_rsp user_rsp : Z) : MM unit :=
  litedram_set_wb wb_req;;
  litedram_set_user user_req;;
  litedram_clock;;
  litedram_get_wb wb_rsp;;
  litedram_get_user user_rsp.

(** The pins and the core after it. *)
Definition cycle_pins (w : wb_req) (r : user_req) (s : dsim) : dram_in :=
  set_clk 0 (user_pins r (wb_pins w (fst (core_of s)))).
Definition cycle_core (w : wb_req) (r : user_req) (s : dsim) : X :=
  let '(p, x) := core_of s in
  let x := v_eval (wb_pins w p) x in
  let x := v_eval (user_pins r (wb_pins w p)) x in
  let x := v_eval (set_clk 1 (user_pins r (wb_pins w p))) x in
  v_eval (set_clk 0 (user_pins r (wb_pins w p))) x.

Lemma litedram_cycle_ok wb_req user_req wb_rsp user_rsp w r s :
  bytes_at (hmem (ds_host s)) wb_req (wb_req_vec w) →
  bytes_at (hmem (ds_host s)) user_req (user_req_vec r) →
  mapped (hmem (ds_host s)) wb_rsp 36 → mapped (hmem (ds_host s)) user_rsp 131 →
  ∃ s', litedram_cycle wb_req user_req wb_rsp user_rsp s = Ret tt s' ∧
    ds_v s' = Some (cycle_pins w r s, cycle_core w r s) ∧ ds_time s' = u64 (ds_time s + 4) ∧
    hlog (ds_host s') = hlog (ds_host s) ∧
    hmem (ds_host s') = write_bytes user_rsp (user_rsp_vec (v_outs (cycle_core w r s)))
      (write_bytes wb_rsp (wb_rsp_vec (v_outs (cycle_core w r s))) (hmem (ds_host s))).
Proof.
  intros H1 H2 H3 H4. unfold litedram_cycle.
  assert (∀ p s, hmem (ds_host (evaluated p s)) = hmem (ds_host s)) as Hev by (by intros p [[[]|]]).
  step_with (litedram_set_wb_ok wb_req w s H1). set (s1 := evaluated _ s).
  step_with (litedram_set_user_ok user_req r s1 ltac:(unfold s1; by rewrite Hev)). set (s2 := evaluated _ s1).
  step_with (litedram_clock_ok s2). set (s4 := evaluated _ (evaluated _ s2)).
  assert (hmem (ds_host s4) = hmem (ds_host s)) as E4 by (unfold s4, s2, s1; by rewrite !Hev).
  step_with (litedram_get_wb_ok wb_rsp s4 ltac:(by rewrite E4)).
  rewrite litedram_get_user_ok.
  2:{ apply (mapped_write (hmem (ds_host (started s4)))). by rewrite started_mem, E4. }
  eexists. split; [done|].
  assert (∀ t, u64 (u64 (u64 (u64 (t + 1) + 1) + 1) + 1) = u64 (t + 4)) as Ht.
  { intros t. unfold wrap. by repeat rewrite Zplus_mod_idemp_l, <- ?Z.add_assoc. }
  destruct s as [[[p x]|] t tf ae [m l]]; cbn -[wrap]; by rewrite Ht.
Qed.
End litedram.
