(* ===== verification/SimBram.v ===== *)
(** * The behavioural memory of the simulation

    [sim_bram_helpers_c.c]: memories of the simulated SoC that live in mappings
    of files on the host.  The table of regions and their number are static
    variables.  What the operating system contributes to
    [behavioural_initialize] is a record [os]: the contents of a file, the page
    size, and the address a mapping gets. *)
From S2P Require Import Prelude CMem LibMem Vhpi.

Definition MAX_REGIONS : Z := 128.

(** [ALIGN_UP] on [unsigned long]. *)
Definition ALIGN_UP (v size : Z) : Z := Z.land (u64 (v + (size - 1))) (Z.lnot (size - 1)).

Record ram_behavioural := { r_filename : Z; r_size : Z; r_m : Z }.

(** A slot of the static table that was never written. *)
Definition no_region : ram_behavioural := {| r_filename := NULL; r_size := 0; r_m := NULL |}.

Record bram := Bram { b_host : host; b_regions : list ram_behavioural; b_region_nr : Z }.

Definition bram_init (h : host) : bram := Bram h (replicate 128 no_region) 0.

Definition on_host {A} (m : M host A) : M bram A :=
  zoom b_host (λ h s, Bram h (b_regions s) (b_region_nr s)) m.

Record os := {
  os_pagesize : Z;
  os_malloc : Z;
  os_file : Z → M mem (option (list Z));
  os_mmap : Z → mem → option Z;
}.

(** [&behavioural_regions[i]] *)
Definition region (i : Z) : M bram ram_behavioural := λ s,
  if (0 <=? i) then
    match b_regions s !! Z.to_nat i with Some r => Ret r s | None => Stuck end
  else Stuck.
Definition set_region (i : Z) (r : ram_behavioural) : M bram unit := λ s,
  if (0 <=? i) && (i <? Z.of_nat (length (b_regions s)))
  then Ret tt (Bram (b_host s) (<[Z.to_nat i := r]> (b_regions s)) (b_region_nr s))
  else Stuck.

(** [region_nr] and [region_nr++] *)
Definition get_nr : M bram Z := λ s, Ret (b_region_nr s) s.
Definition incr_nr : M bram Z := λ s,
  Ret (b_region_nr s) (Bram (b_host s) (b_regions s) (u64 (b_region_nr s + 1))).

(** A private mapping of [n] bytes that starts with the file and ends in zeros. *)
Definition map_file (o : os) (contents : list Z) (n : Z) : M host Z := λ s,
  if n =? 0 then Exit 1 (Host (hmem s) (hlog s ++ [Err "mmap" []])) else
  match os_mmap o n (hmem s) with
  | None => Exit 1 (Host (hmem s) (hlog s ++ [Err "mmap" []]))
  | Some a =>
      let bs := contents ++ replicate (Z.to_nat n - length contents) 0 in
      Ret a (Host (write_bytes a bs (hmem s)) (hlog s))
  end.

Definition behavioural_initialize (o : os) (f size : Z) : M bram Z :=
  nr ← get_nr;
  if nr =? MAX_REGIONS then
    on_host (say (Err "%s: too many regions, bump MAX_REGIONS" [PS (lit "behavioural_initialize")]));;
    exit_ 1
  else
  filename ← on_host (from_string f (os_malloc o));
  let rsize := ALIGN_UP size (os_pagesize o) in
  set_region nr {| r_filename := filename; r_size := rsize; r_m := NULL |};;
  contents ← on_host (in_mem (os_file o filename));
  match contents with
  | None =>
      on_host (say (Err "%s: could not open %s" [PS (lit "behavioural_initialize"); PZ filename]));;
      exit_ 1
  | Some contents =>
      let tmp_size := ALIGN_UP (Z.of_nat (length contents)) (os_pagesize o) in
      mem ← on_host (map_file o contents (if tmp_size <? rsize then rsize else tmp_size));
      set_region nr {| r_filename := filename; r_size := rsize; r_m := mem |};;
      incr_nr
  end.

(** The guard both accesses start with; [identifier] is an [int]. *)
Definition check_region (func : String.string) (identifier : Z) : M bram ram_behavioural :=
  nr ← get_nr;
  if nr <? u64 identifier then
    on_host (say (Err "%s: bad index %d" [PS (lit func); PZ identifier]));; exit_ 1
  else region identifier.

Definition check_access (func : String.string) (r : ram_behavioural) (addr i : Z) : M bram unit :=
  if r_size r <? u64 (addr + i) then
    on_host (say (Err "%s: bad memory access %lx %lx" [PS (lit func); PZ (u64 (addr + i)); PZ (r_size r)]));;
    exit_ 1
  else mret tt.

Fixpoint read_loop (n : nat) (r : ram_behavioural) (addr i val : Z) : M bram Z :=
  match n with
  | O => mret val
  | S n =>
      check_access "behavioural_read" r addr i;;
      b ← on_host (in_mem (load8 (u64 (r_m r + addr + i))));
      read_loop n r addr (i + 1) (Z.lor val (u64 (Z.shiftl b (i * 8))))
  end.

Definition behavioural_read (val addr sel identifier : Z) : M bram unit :=
  addr ← on_host (from_std_logic_vector addr 64);
  r ← check_region "behavioural_read" identifier;
  v ← read_loop 8 r addr 0 0;
  on_host (to_std_logic_vector v val 64).

Fixpoint write_loop (n : nat) (r : ram_behavioural) (addr sel val i : Z) : M bram unit :=
  match n with
  | O => mret tt
  | S n =>
      (if tst sel (Z.shiftl 1 i) then
         check_access "behavioural_write" r addr i;;
         on_host (in_mem (store8 (u64 (r_m r + addr + i)) (Z.land (Z.shiftr val (i * 8)) 0xff)))
       else mret tt);;
      write_loop n r addr sel val (i + 1)
  end.

Definition behavioural_write (val addr sel identifier : Z) : M bram unit :=
  v ← on_host (from_std_logic_vector val 64);
  a ← on_host (from_std_logic_vector addr 64);
  r ← check_region "behavioural_write" identifier;
  write_loop 8 r a sel v 0.

(** ** Accesses *)

Lemma on_host_Ret {A} (p : M host A) s a h :
  p (b_host s) = Ret a h → on_host p s = Ret a (Bram h (b_regions s) (b_region_nr s)).
Proof. intros H. unfold on_host. by rewrite (zoom_Ret _ _ _ _ _ _ H). Qed.

Lemma on_host_pure {A} (p : M host A) s a :
  p (b_host s) = Ret a (b_host s) → on_host p s = Ret a s.
Proof. intros H. rewrite (on_host_Ret p s a _ H). by destruct s. Qed.

(** The memory of the host, and a state with another one. *)
Definition bmem (s : bram) : mem := hmem (b_host s).
Definition with_mem (s : bram) (m : mem) : bram :=
  Bram (Host m (hlog (b_host s))) (b_regions s) (b_region_nr s).

Lemma with_mem_id s : with_mem s (bmem s) = s.
Proof. by destruct s as [[m l] r n]. Qed.

Lemma on_mem_Ret {A} (p : M mem A) s a m' :
  p (bmem s) = Ret a m' → on_host (in_mem p) s = Ret a (with_mem s m').
Proof. intros H. apply on_host_Ret, in_mem_Ret, H. Qed.

(** One more byte at the top of a value. *)
Lemma le_combine_snoc bs w :
  bytes bs → is_byte w →
  le_combine (bs ++ [w]) = Z.lor (le_combine bs) (Z.shiftl w (8 * Z.of_nat (length bs))).
Proof.
  intros Hb Hw. pose proof (le_combine_range bs Hb).
  rewrite lor_shiftl_add by lia. clear H.
  induction Hb as [|b bs Hb Hbs IH]; cbn [app].
  - rewrite le_combine_cons by done. cbn. lia.
  - rewrite !le_combine_cons, IH by done. cbn [length].
    replace (8 * Z.of_nat (S (length bs))) with (8 + 8 * Z.of_nat (length bs)) by lia.
    rewrite Z.pow_add_r by lia. change (2 ^ 8) with 256. lia.
Qed.

Section region.
Context (s : bram) (id : Z) (r : ram_behavioural).

(** [id] names a region, which lies in the address space. *)
Record region_ok : Prop := {
  rg_id : 0 ≤ id < b_region_nr s;
  rg_nr : b_region_nr s ≤ 128;
  rg_reg : b_regions s !! Z.to_nat id = Some r;
  rg_m : 0 ≤ r_m r;
  rg_end : 0 ≤ r_size r ∧ r_m r + r_size r < 2 ^ 64;
}.
Hypothesis ok : region_ok.

Lemma check_region_ok func m : check_region func id (with_mem s m) = Ret r (with_mem s m).
Proof.
  destruct ok as [H1 H2 H3 _ _]. unfold check_region, get_nr, mbind, M_bind. cbn -[wrap].
  rewrite (wrap_small 64), (proj2 (Z.ltb_ge _ id)) by lia.
  unfold region. rewrite (proj2 (Z.leb_le 0 id)) by lia. cbn. by rewrite H3.
Qed.

(** The guard lets the byte after the region pass, too. *)
Lemma check_access_ok func addr i st :
  0 ≤ addr → 0 ≤ i → addr + i ≤ r_size r → check_access func r addr i st = Ret tt st.
Proof.
  destruct ok as [_ _ _ Hm H]. intros. unfold check_access.
  by rewrite (wrap_small 64), (proj2 (Z.ltb_ge (r_size r) _)) by lia.
Qed.

Lemma check_access_bad func addr i st :
  0 ≤ addr + i < 2 ^ 64 → r_size r < addr + i →
  ∃ st', check_access func r addr i st = Exit 1 st' ∧ bmem st' = bmem st.
Proof.
  intros H1 H2. unfold check_access. rewrite (wrap_small 64), (proj2 (Z.ltb_lt (r_size r) _)) by lia.
  by eexists.
Qed.

Lemma read_loop_ok n addr i m ws acc :
  0 ≤ addr → addr + Z.of_nat i + Z.of_nat n ≤ r_size r + 1 → (i + n ≤ 8)%nat →
  length acc = i → bytes acc → length ws = n → bytes ws →
  bytes_at m (r_m r + addr + Z.of_nat i) ws →
  read_loop n r addr (Z.of_nat i) (le_combine acc) (with_mem s m) =
  Ret (le_combine (acc ++ ws)) (with_mem s m).
Proof.
  revert i ws acc. induction n as [|n IH]; intros i ws acc Ha Hb Hn Hacc Hba Hws Hbw Hat; cbn [read_loop].
  { destruct ws; [|done]. by rewrite app_nil_r. }
  destruct ws as [|w ws]; [done|]. apply Forall_cons in Hbw as [Hw Hbw]. destruct Hat as [Hat1 Hat2].
  step_with (check_access_ok "behavioural_read" addr (Z.of_nat i) (with_mem s m) Ha ltac:(lia) ltac:(lia)).
  destruct ok as [_ _ _ H4 [H5 H6]].
  rewrite (wrap_small 64 (r_m r + addr + Z.of_nat i)) by lia.
  rewrite (bind_Ret _ _ _ w (with_mem s m)).
  2:{ apply on_host_pure, in_mem_pure, load8_Ret, Hat1. }
  replace (Z.lor (le_combine acc) (u64 (Z.shiftl w (Z.of_nat i * 8)))) with (le_combine (acc ++ [w])).
  - replace (Z.of_nat i + 1) with (Z.of_nat (S i)) by lia.
    rewrite (IH (S i) ws (acc ++ [w])); try done; try lia.
    + by rewrite <- app_assoc.
    + rewrite length_app. cbn. lia.
    + apply Forall_app. by split; [|constructor].
    + cbn in Hws. lia.
    + by replace (r_m r + addr + Z.of_nat (S i)) with (r_m r + addr + Z.of_nat i + 1) by lia.
  - rewrite le_combine_snoc by done. rewrite Hacc, (Z.mul_comm (Z.of_nat i)), wrap_small; [done|].
    rewrite Z.shiftl_mul_pow2 by lia. unfold is_byte in Hw.
    assert (0 < 2 ^ (8 * Z.of_nat i) ≤ 2 ^ 56) by (split; [apply Z.pow_pos_nonneg|apply Z.pow_le_mono_r]; lia).
    nia.
Qed.

(** A load: the eight bytes at the address, least significant first. *)
Lemma behavioural_read_ok va aa sel addr ws :
  0 ≤ addr → addr + 8 ≤ r_size r → bytes_at (bmem s) aa (slv 64 addr) →
  length ws = 8%nat → bytes ws → bytes_at (bmem s) (r_m r + addr) ws → mapped (bmem s) va 64 →
  behavioural_read va aa sel id s =
  Ret tt (with_mem s (write_bytes va (slv 64 (le_combine ws)) (bmem s))).
Proof.
  intros Ha Hb Hat Hl Hw Hws Hva. destruct ok as [_ _ _ H4 [H5 H6]]. unfold behavioural_read.
  pose proof (from_slv_ok 64 aa addr (b_host s) ltac:(lia) ltac:(change (Z.of_nat 64) with 64; lia) Hat) as Hfrom.
  step_with (on_host_pure _ s _ Hfrom).
  pose proof (check_region_ok "behavioural_read" (bmem s)) as Hreg. rewrite with_mem_id in Hreg. step_with Hreg.
  pose proof (read_loop_ok 8 addr 0 (bmem s) ws []) as Hloop. rewrite with_mem_id in Hloop.
  rewrite (bind_Ret _ _ s (le_combine ws) s).
  - apply on_host_Ret. by apply (to_slv_ok 64).
  - apply Hloop; try done; try lia; [constructor|]. by rewrite Z.add_0_r.
Qed.

(** The byte lanes that [sel] selects. *)
Fixpoint lanes (sel i : Z) (old new : list Z) : list Z :=
  match old, new with
  | o :: old, n :: new => (if Z.testbit sel i then n else o) :: lanes sel (i + 1) old new
  | _, _ => []
  end.

Lemma write_loop_ok n addr sel v i m old :
  0 ≤ addr → 0 ≤ i → addr + i + Z.of_nat n ≤ r_size r + 1 → length old = n →
  bytes_at m (r_m r + addr + i) old →
  write_loop n r addr sel v i (with_mem s m) =
  Ret tt (with_mem s (write_bytes (r_m r + addr + i)
                        (lanes sel i old (le_split n (Z.shiftr v (8 * i)))) m)).
Proof.
  revert i m old. induction n as [|n IH]; intros i m old Ha Hi Hb Hl Hat; cbn [write_loop].
  { destruct old; [|done]. done. }
  destruct old as [|o old]; [done|]. destruct Hat as [Hat1 Hat2]. injection Hl as Hl.
  cbn [le_split lanes]. rewrite Z.shiftl_1_l, tst_pow2 by done.
  rewrite (Z.shiftr_shiftr v (8 * i) 8) by lia. replace (8 * i + 8) with (8 * (i + 1)) by lia.
  set (b := if Z.testbit sel i then u8 (Z.shiftr v (8 * i)) else o).
  rewrite (bind_Ret _ _ _ tt (with_mem s (<[r_m r + addr + i := b]> m))).
  - rewrite (IH (i + 1) _ old); try done; try lia.
    + cbn [write_bytes]. by replace (r_m r + addr + i + 1) with (r_m r + addr + (i + 1)) by lia.
    + change (<[r_m r + addr + i := b]> m) with (write_bytes (r_m r + addr + i) [b] m).
      apply bytes_at_write_disj; [cbn; lia|].
      by replace (r_m r + addr + (i + 1)) with (r_m r + addr + i + 1) by lia.
  - unfold b. destruct (Z.testbit sel i).
    + step_with (check_access_ok "behavioural_write" addr i (with_mem s m) Ha Hi ltac:(lia)).
      destruct ok as [_ _ _ H4 [H5 H6]].
      rewrite (wrap_small 64 (r_m r + addr + i)) by lia.
      rewrite (on_mem_Ret _ (with_mem s m) _ _ (store8_Ret m _ _ o Hat1)). cbn.
      rewrite (Z.land_ones _ 8), (Z.mul_comm i 8) by lia. fold (u8 (Z.shiftr v (8 * i))).
      by rewrite wrap_wrap.
    + by rewrite insert_id.
Qed.

(** A store: the selected bytes of the word change, the others keep. *)
Lemma behavioural_write_ok va aa sel addr v old :
  0 ≤ addr → addr + 8 ≤ r_size r → 0 ≤ v < 2 ^ 64 →
  bytes_at (bmem s) aa (slv 64 addr) → bytes_at (bmem s) va (slv 64 v) →
  length old = 8%nat → bytes_at (bmem s) (r_m r + addr) old →
  behavioural_write va aa sel id s =
  Ret tt (with_mem s (write_bytes (r_m r + addr) (lanes sel 0 old (le_split 8 v)) (bmem s))).
Proof.
  intros Ha Hb Hv Haa Hva Hl Hat. destruct ok as [_ _ _ H4 [H5 H6]]. unfold behavioural_write.
  step_with (on_host_pure _ s _ (from_slv_ok 64 va v (b_host s) ltac:(lia) Hv Hva)).
  pose proof (from_slv_ok 64 aa addr (b_host s) ltac:(lia) ltac:(change (Z.of_nat 64) with 64; lia) Haa) as Hfrom.
  step_with (on_host_pure _ s _ Hfrom).
  pose proof (check_region_ok "behavioural_write" (bmem s)) as Hreg. rewrite with_mem_id in Hreg. step_with Hreg.
  pose proof (write_loop_ok 8 addr sel v 0 (bmem s) old) as Hloop. rewrite with_mem_id in Hloop.
  rewrite Hloop; try done; try lia; rewrite Z.add_0_r; [|done].
  rewrite Z.mul_0_r, Z.shiftr_0_r. done.
Qed.

Lemma read_loop_add n k addr i v st :
  read_loop (n + k) r addr i v st =
  (w ← read_loop n r addr i v; read_loop k r addr (i + Z.of_nat n) w) st.
Proof.
  revert i v st. induction n as [|n IH]; intros i v st; cbn [Nat.add read_loop].
  { rewrite bind_mret. by rewrite Z.add_0_r. }
  unfold mbind, M_bind in *. destruct (check_access _ _ _ _ st) as [[] st1| | |]; try done.
  destruct (on_host _ st1); try done. rewrite IH.
  by replace (i + 1 + Z.of_nat n) with (i + Z.of_nat (S n)) by lia.
Qed.

(** The last address the guard accepts is one byte beyond the region. *)
Lemma behavioural_read_overrun va aa sel ws :
  7 ≤ r_size r → bytes_at (bmem s) aa (slv 64 (r_size r - 7)) →
  length ws = 7%nat → bytes ws → bytes_at (bmem s) (r_m r + (r_size r - 7)) ws →
  bmem s !! (r_m r + r_size r) = None →
  behavioural_read va aa sel id s = Stuck.
Proof.
  intros Hsz Haa Hl Hw Hws Hnone. destruct ok as [_ _ _ H4 [H5 H6]]. unfold behavioural_read.
  set (addr := r_size r - 7) in *.
  pose proof (from_slv_ok 64 aa addr (b_host s) ltac:(lia) ltac:(change (Z.of_nat 64) with 64; lia) Haa) as Hfrom.
  step_with (on_host_pure _ s _ Hfrom).
  pose proof (check_region_ok "behavioural_read" (bmem s)) as Hreg. rewrite with_mem_id in Hreg. step_with Hreg.
  apply bind_Stuck. change 8%nat with (7 + 1)%nat. rewrite read_loop_add.
  pose proof (read_loop_ok 7 addr 0 (bmem s) ws []) as Hloop. rewrite with_mem_id in Hloop.
  rewrite (bind_Ret _ _ s (le_combine ws) s).
  2:{ apply Hloop; try done; try lia; [constructor|]. by rewrite Z.add_0_r. }
  cbn [read_loop].
  step_with (check_access_ok "behavioural_read" addr (0 + Z.of_nat 7) s ltac:(lia) ltac:(lia) ltac:(lia)).
  apply bind_Stuck. unfold on_host, in_mem, zoom.
  rewrite (wrap_small 64) by lia. rewrite load8_Stuck; [done|].
  by replace (r_m r + addr + (0 + Z.of_nat 7)) with (r_m r + r_size r) by lia.
Qed.
End region.

(** ** A new region *)

(** The size of the mapping: the region or the file, whichever is larger. *)
Definition map_size (o : os) (size : Z) (contents : list Z) : Z :=
  Z.max (ALIGN_UP size (os_pagesize o)) (ALIGN_UP (Z.of_nat (length contents)) (os_pagesize o)).

Lemma behavioural_initialize_ok o f size fn contents a h s :
  length (b_regions s) = 128%nat → 0 ≤ b_region_nr s < 128 →
  from_string f (os_malloc o) (b_host s) = Ret fn h →
  os_file o fn (hmem h) = Ret (Some contents) (hmem h) →
  map_size o size contents ≠ 0 → os_mmap o (map_size o size contents) (hmem h) = Some a →
  let nr := b_region_nr s in
  let r := {| r_filename := fn; r_size := ALIGN_UP size (os_pagesize o); r_m := a |} in
  ∃ s', behavioural_initialize o f size s = Ret nr s' ∧ b_region_nr s' = nr + 1 ∧
    b_regions s' = <[Z.to_nat nr := r]> (b_regions s) ∧
    bytes_at (bmem s') a
      (contents ++ replicate (Z.to_nat (map_size o size contents) - length contents) 0).
Proof.
  intros Hlen Hnr Hfs Hfile Hn Hmap nr r. unfold behavioural_initialize.
  rewrite (bind_Ret _ _ s nr s) by done.
  rewrite (proj2 (Z.eqb_neq nr MAX_REGIONS)) by (unfold nr, MAX_REGIONS; lia).
  step_with (on_host_Ret _ s _ _ Hfs). fold nr.
  set (r0 := {| r_filename := fn; r_size := _; r_m := NULL |}).
  rewrite (bind_Ret _ _ _ tt (Bram h (<[Z.to_nat nr := r0]> (b_regions s)) nr)).
  2:{ unfold set_region. cbn. rewrite Hlen, (proj2 (Z.leb_le 0 nr)), (proj2 (Z.ltb_lt nr _)) by lia. done. }
  rewrite (bind_Ret _ _ _ (Some contents) (Bram h (<[Z.to_nat nr := r0]> (b_regions s)) nr)).
  2:{ apply on_host_pure, in_mem_pure, Hfile. }
  set (n := if _ <? _ then _ else _).
  assert (n = map_size o size contents) as -> by (unfold n, map_size; destruct (Z.ltb_spec
    (ALIGN_UP (Z.of_nat (length contents)) (os_pagesize o)) (ALIGN_UP size (os_pagesize o))); lia).
  set (bs := contents ++ _).
  rewrite (bind_Ret _ _ _ a (Bram (Host (write_bytes a bs (hmem h)) (hlog h))
    (<[Z.to_nat nr := r0]> (b_regions s)) nr)).
  2:{ apply on_host_Ret. unfold map_file. cbn. by rewrite (proj2 (Z.eqb_neq _ 0)), Hmap. }
  fold r. rewrite (bind_Ret _ _ _ tt (Bram (Host (write_bytes a bs (hmem h)) (hlog h))
    (<[Z.to_nat nr := r]> (b_regions s)) nr)).
  2:{ unfold set_region. cbn. rewrite length_insert, Hlen, (proj2 (Z.leb_le 0 nr)), (proj2 (Z.ltb_lt nr _)) by lia.
      by rewrite list_insert_insert_eq. }
  eexists. split; [done|]. cbn. split_and!; [by rewrite (wrap_small 64) by lia|done|].
  apply bytes_at_write.
Qed.

(** With no room left in the table the simulation ends. *)
Lemma behavioural_initialize_full o f size s :
  b_region_nr s = MAX_REGIONS →
  ∃ s', behavioural_initialize o f size s = Exit 1 s' ∧ bmem s' = bmem s ∧ b_regions s' = b_regions s.
Proof.
  intros H. unfold behavioural_initialize. rewrite (bind_Ret _ _ s (b_region_nr s) s) by done.
  rewrite H. by eexists.
Qed.

Lemma lanes_all old new : length old = 8%nat → length new = 8%nat → lanes 255 0 old new = new.
Proof.
  intros Ho Hn. do 8 (destruct old as [|? old]; [done|]). do 8 (destruct new as [|? new]; [done|]).
  destruct old, new; done.
Qed.

Lemma length_lanes sel i old new : length old = length new → length (lanes sel i old new) = length old.
Proof.
  revert i new. induction old as [|o old IH]; intros i [|n new]; cbn; try done.
  intros [= Hl]. by rewrite IH.
Qed.

Lemma lanes_bytes sel i old new : bytes old → bytes new → bytes (lanes sel i old new).
Proof.
  intros Ho. revert i new. induction Ho as [|o old Hob Ho IH]; intros i new Hn; [constructor|].
  destruct Hn as [|n new Hnb Hn]; [constructor|]. cbn. constructor; [|by apply IH].
  by destruct (Z.testbit sel i).
Qed.

(** Only the memory of the host changes in an access. *)
Lemma region_ok_with_mem s id r m : region_ok s id r → region_ok (with_mem s m) id r.
Proof. by intros [? ? ? ? ?]; constructor. Qed.
