(* ===== verification/DmiBits.v ===== *)
(** * The bit packing of the simulation's debug link

    [add_bits] and [read_bits] of [scripts/mw_debug/mw_debug.c], and the packets
    of [sim_command].  A buffer is an array of bytes, of which [le_combine] is
    the number its bits make up; a position is a byte index and a bit in it.  An
    access outside the array has no result. *)
From S2P Require Import Prelude CMem.

(** [while (c--)] of [add_bits]. *)
Fixpoint add_bits_loop (c : nat) (d ms md : Z) (buf : list Z) (p : nat) (b : Z) :
    option (list Z * nat * Z) :=
  match c with
  | O => Some (buf, p, b)
  | S c =>
      buf ← (if tst d ms then x ← buf !! p; Some (<[p := u8 (Z.lor x md)]> buf) else Some buf);
      let ms := u64 (Z.shiftl ms 1) in
      if b =? 7 then add_bits_loop c d ms 1 buf (S p) 0
      else add_bits_loop c d ms (u8 (Z.shiftl md 1)) buf p (b + 1)
  end.

Definition add_bits (buf : list Z) (p : nat) (b d : Z) (c : nat) : option (list Z * nat * Z) :=
  add_bits_loop c d 1 (u8 (Z.shiftl 1 b)) buf p b.

Fixpoint read_bits_loop (c : nat) (d md ms : Z) (buf : list Z) (p : nat) (b : Z) :
    option (Z * nat * Z) :=
  match c with
  | O => Some (d, p, b)
  | S c =>
      x ← buf !! p;
      let d := if tst x ms then Z.lor d md else d in
      let md := u64 (Z.shiftl md 1) in
      if b =? 7 then read_bits_loop c d md 1 buf (S p) 0
      else read_bits_loop c d md (u8 (Z.shiftl ms 1)) buf p (b + 1)
  end.

Definition read_bits (buf : list Z) (p : nat) (b : Z) (c : nat) : option (Z * nat * Z) :=
  read_bits_loop c 0 1 (u8 (Z.shiftl 1 b)) buf p b.

(** The request [sim_command] writes, up to the byte count [p - buf]. *)
Definition sim_packet (op addr d : Z) : option (list Z) :=
  let buf := replicate 16 0 in
  '(buf, p, b) ← add_bits buf 1 0 op 2;
  '(buf, p, b) ← add_bits buf p b d 64;
  '(buf, p, b) ← add_bits buf p b addr 8;
  let p := if negb (b =? 0) then S p else p in
  Some (take p (<[0%nat := 74]> buf)).

(** The status and the data of the reply in [buf]. *)
Definition sim_reply (buf : list Z) : option (Z * Z) :=
  '(r, p, b) ← read_bits buf 1 0 2;
  '(d, p, b) ← read_bits buf p b 64;
  Some (r, d).

(** ** Bits of a buffer *)

Abbreviation bits_of := le_combine.

Lemma pos_div_mod p b : 0 ≤ b < 8 →
  (8 * Z.of_nat p + b) `div` 8 = Z.of_nat p ∧ (8 * Z.of_nat p + b) `mod` 8 = b.
Proof.
  intros Hb. rewrite Z.mul_comm, (Z.add_comm _ b), Z.div_add, Z.mod_add by lia.
  by rewrite Z.div_small, Z.mod_small by lia.
Qed.

Lemma bits_of_lookup buf p b x :
  bytes buf → buf !! p = Some x → 0 ≤ b < 8 →
  Z.testbit (bits_of buf) (8 * Z.of_nat p + b) = Z.testbit x b.
Proof.
  intros Hb Hx Hr. rewrite testbit_le_combine by (done || lia).
  destruct (pos_div_mod p b Hr) as [-> ->]. by rewrite Nat2Z.id, Hx.
Qed.

Lemma set_bit_byte x b : is_byte x → 0 ≤ b < 8 → u8 (Z.lor x (2 ^ b)) = Z.lor x (2 ^ b).
Proof.
  intros Hx Hb. apply Z.bits_inj'. intros i Hi. rewrite testbit_wrap by lia.
  destruct (Z.ltb_spec i 8); [done|]. rewrite Z.lor_spec, Z.pow2_bits_false by lia.
  by rewrite (wrap_testbit_high 8 x) by (unfold is_byte in Hx; lia).
Qed.

Lemma is_byte_set x b : is_byte x → 0 ≤ b < 8 → is_byte (Z.lor x (2 ^ b)).
Proof. intros Hx Hb. rewrite <- set_bit_byte by done. apply u8_byte. Qed.

(** Setting a bit of a byte sets that bit of the number. *)
Lemma bits_of_set buf p b x :
  bytes buf → buf !! p = Some x → 0 ≤ b < 8 →
  bits_of (<[p := Z.lor x (2 ^ b)]> buf) = Z.lor (bits_of buf) (2 ^ (8 * Z.of_nat p + b)).
Proof.
  intros Hb Hx Hr. pose proof (Forall_lookup_1 _ _ _ _ Hb Hx) as Hxb.
  assert (bytes (<[p := Z.lor x (2 ^ b)]> buf)) as Hb'
    by (apply Forall_insert; [done|by apply is_byte_set]).
  apply Z.bits_inj'. intros i Hi. rewrite Z.lor_spec, !testbit_le_combine by done.
  pose proof (Z.div_mod i 8 ltac:(lia)) as Hdm. pose proof (Z.mod_pos_bound i 8 ltac:(lia)) as Hm.
  assert (0 ≤ i `div` 8) as Hd by (apply Z.div_pos; lia).
  rewrite Z.pow2_bits_eqb by lia.
  destruct (decide (Z.to_nat (i `div` 8) = p)) as [<-|Hne].
  - rewrite list_lookup_insert_eq by (by eapply lookup_lt_Some). rewrite Hx, Z.lor_spec, Z.pow2_bits_eqb by lia.
    f_equal. rewrite Z2Nat.id by done. apply Bool.eq_iff_eq_true. rewrite !Z.eqb_eq. lia.
  - rewrite list_lookup_insert_ne by done.
    rewrite (proj2 (Z.eqb_neq (8 * Z.of_nat p + b) i)); [by rewrite orb_false_r|].
    intros <-. apply Hne. destruct (pos_div_mod p b Hr) as [-> _]. by rewrite Nat2Z.id.
Qed.

(** The low bit first, then the others one place higher. *)
Lemma shift_step (c : nat) e pos :
  0 ≤ pos →
  Z.lor (if Z.testbit e 0 then 2 ^ pos else 0) (Z.shiftl (wrap (Z.of_nat c) (Z.shiftr e 1)) (pos + 1)) =
  Z.shiftl (wrap (Z.of_nat (S c)) e) pos.
Proof.
  intros Hp. apply Z.bits_inj'. intros i Hi. rewrite Z.lor_spec, !Z.shiftl_spec by done.
  assert (Z.testbit (if Z.testbit e 0 then 2 ^ pos else 0) i = Z.testbit e 0 && (pos =? i)) as ->.
  { destruct (Z.testbit e 0); [by rewrite Z.pow2_bits_eqb by done|]. by rewrite Z.bits_0. }
  destruct (decide (i < pos)).
  { rewrite !(Z.testbit_neg_r (wrap _ _)) by lia. rewrite (proj2 (Z.eqb_neq pos i)) by lia.
    by rewrite andb_false_r. }
  rewrite !testbit_wrap by lia. destruct (Z.eqb_spec pos i) as [->|Hne].
  - rewrite andb_true_r, Z.sub_diag, (proj2 (Z.ltb_lt 0 _)) by lia. cbn [andb].
    rewrite (Z.testbit_neg_r (Z.shiftr e 1)) by lia. by rewrite andb_false_r, orb_false_r.
  - rewrite andb_false_r, Z.shiftr_spec by lia. cbn [orb]. f_equal; [|f_equal; lia].
    apply Bool.eq_iff_eq_true. rewrite !Z.ltb_lt. lia.
Qed.

Lemma u64_mask j : 0 ≤ j < 64 → u64 (Z.shiftl (2 ^ j) 1) = wrap 64 (2 ^ (j + 1)).
Proof. intros. rewrite Z.shiftl_mul_pow2, <- Z.pow_add_r by lia. done. Qed.

Lemma u8_mask b : 0 ≤ b < 7 → u8 (Z.shiftl (2 ^ b) 1) = 2 ^ (b + 1).
Proof.
  intros Hb. rewrite Z.shiftl_mul_pow2, <- Z.pow_add_r by lia. apply wrap_small.
  split; [lia|]. apply Z.pow_lt_mono_r; lia.
Qed.

Lemma u64_pow2 j : 0 ≤ j < 64 → u64 (2 ^ j) = 2 ^ j.
Proof. intros. apply wrap_small. split; [lia|]. apply Z.pow_lt_mono_r; lia. Qed.

Lemma add_bits_loop_ok c d j buf p b :
  bytes buf → 0 ≤ b < 8 → 0 ≤ j → j + Z.of_nat c ≤ 64 →
  8 * Z.of_nat p + b + Z.of_nat c ≤ 8 * Z.of_nat (length buf) →
  ∃ buf' p' b', add_bits_loop c d (u64 (2 ^ j)) (2 ^ b) buf p b = Some (buf', p', b') ∧
    bytes buf' ∧ length buf' = length buf ∧ 0 ≤ b' < 8 ∧
    8 * Z.of_nat p' + b' = 8 * Z.of_nat p + b + Z.of_nat c ∧
    bits_of buf' = Z.lor (bits_of buf)
      (Z.shiftl (wrap (Z.of_nat c) (Z.shiftr d j)) (8 * Z.of_nat p + b)).
Proof.
  revert j buf p b. induction c as [|c IH]; intros j buf p b Hbuf Hb Hj Hjc Hlen; cbn [add_bits_loop].
  { exists buf, p, b. split_and!; try done; try lia. unfold wrap. change (2 ^ Z.of_nat 0) with 1.
    by rewrite Z.mod_1_r, Z.shiftl_0_l, Z.lor_0_r. }
  rewrite u64_pow2, tst_pow2 by lia.
  destruct (lookup_lt_is_Some_2 buf p) as [x Hx]; [lia|].
  pose proof (Forall_lookup_1 _ _ _ _ Hbuf Hx) as Hxb.
  set (pos := 8 * Z.of_nat p + b) in *.
  assert (∃ buf1, (if Z.testbit d j then x ← buf !! p; Some (<[p := u8 (Z.lor x (2 ^ b))]> buf)
     else Some buf) = Some buf1 ∧ bytes buf1 ∧ length buf1 = length buf ∧
     bits_of buf1 = Z.lor (bits_of buf) (if Z.testbit (Z.shiftr d j) 0 then 2 ^ pos else 0))
    as (buf1 & -> & Hb1 & Hl1 & Hbits).
  { rewrite Z.shiftr_spec, Z.add_0_l by lia. destruct (Z.testbit d j).
    - rewrite Hx. cbn. rewrite set_bit_byte by done. eexists. split; [done|]. split_and!.
      + apply Forall_insert; [done|by apply is_byte_set].
      + by rewrite length_insert.
      + by apply bits_of_set.
    - exists buf. by rewrite Z.lor_0_r. }
  cbn [mbind option_bind]. rewrite u64_mask by lia.
  assert (∃ p1 b1, (if b =? 7 then add_bits_loop c d (u64 (2 ^ (j + 1))) 1 buf1 (S p) 0
     else add_bits_loop c d (u64 (2 ^ (j + 1))) (u8 (Z.shiftl (2 ^ b) 1)) buf1 p (b + 1)) =
     add_bits_loop c d (u64 (2 ^ (j + 1))) (2 ^ b1) buf1 p1 b1 ∧ 0 ≤ b1 < 8 ∧
     8 * Z.of_nat p1 + b1 = pos + 1) as (p1 & b1 & -> & Hr1 & Hpos).
  { destruct (Z.eqb_spec b 7) as [->|Hne].
    - exists (S p), 0. split_and!; [done|lia|lia|lia].
    - exists p, (b + 1). rewrite u8_mask by lia. split_and!; [done|lia|lia|lia]. }
  destruct (IH (j + 1) buf1 p1 b1) as (buf' & p' & b' & -> & H1 & H2 & H3 & H4 & H5); try done; try lia.
  exists buf', p', b'. split_and!; [done|done|congruence|lia|lia|lia|].
  rewrite H5, Hbits, Hpos, <- Z.lor_assoc, <- (shift_step c (Z.shiftr d j) pos) by lia.
  by rewrite Z.shiftr_shiftr by lia.
Qed.

Lemma add_bits_ok buf p b d c :
  bytes buf → 0 ≤ b < 8 → (c ≤ 64)%nat →
  8 * Z.of_nat p + b + Z.of_nat c ≤ 8 * Z.of_nat (length buf) →
  ∃ buf' p' b', add_bits buf p b d c = Some (buf', p', b') ∧
    bytes buf' ∧ length buf' = length buf ∧ 0 ≤ b' < 8 ∧
    8 * Z.of_nat p' + b' = 8 * Z.of_nat p + b + Z.of_nat c ∧
    bits_of buf' = Z.lor (bits_of buf) (Z.shiftl (wrap (Z.of_nat c) d) (8 * Z.of_nat p + b)).
Proof.
  intros Hbuf Hb Hc Hlen. unfold add_bits. rewrite Z.shiftl_1_l, (wrap_small 8) by
    (split; [lia|]; apply Z.pow_lt_mono_r; lia).
  pose proof (add_bits_loop_ok c d 0 buf p b Hbuf Hb ltac:(lia) ltac:(lia) Hlen) as H.
  rewrite Z.shiftr_0_r in H. exact H.
Qed.

Lemma read_bits_loop_ok c d j buf p b :
  bytes buf → 0 ≤ b < 8 → 0 ≤ j → j + Z.of_nat c ≤ 64 →
  8 * Z.of_nat p + b + Z.of_nat c ≤ 8 * Z.of_nat (length buf) →
  ∃ p' b', read_bits_loop c d (u64 (2 ^ j)) (2 ^ b) buf p b =
    Some (Z.lor d (Z.shiftl (wrap (Z.of_nat c) (Z.shiftr (bits_of buf) (8 * Z.of_nat p + b))) j), p', b') ∧
    0 ≤ b' < 8 ∧ 8 * Z.of_nat p' + b' = 8 * Z.of_nat p + b + Z.of_nat c.
Proof.
  revert d j p b. induction c as [|c IH]; intros d j p b Hbuf Hb Hj Hjc Hlen; cbn [read_bits_loop].
  { exists p, b. split_and!; try lia. unfold wrap. change (2 ^ Z.of_nat 0) with 1.
    by rewrite Z.mod_1_r, Z.shiftl_0_l, Z.lor_0_r. }
  destruct (lookup_lt_is_Some_2 buf p) as [x Hx]; [lia|]. rewrite Hx. cbn [mbind option_bind].
  set (pos := 8 * Z.of_nat p + b) in *.
  rewrite u64_pow2, tst_pow2, u64_mask, <- (bits_of_lookup buf p b x) by (done || lia). fold pos.
  set (d1 := if Z.testbit (bits_of buf) pos then Z.lor d (2 ^ j) else d).
  assert (∃ p1 b1, (if b =? 7 then read_bits_loop c d1 (u64 (2 ^ (j + 1))) 1 buf (S p) 0
     else read_bits_loop c d1 (u64 (2 ^ (j + 1))) (u8 (Z.shiftl (2 ^ b) 1)) buf p (b + 1)) =
     read_bits_loop c d1 (u64 (2 ^ (j + 1))) (2 ^ b1) buf p1 b1 ∧ 0 ≤ b1 < 8 ∧
     8 * Z.of_nat p1 + b1 = pos + 1) as (p1 & b1 & -> & Hr1 & Hpos).
  { destruct (Z.eqb_spec b 7) as [->|Hne].
    - exists (S p), 0. split_and!; [done|lia|lia|lia].
    - exists p, (b + 1). rewrite u8_mask by lia. split_and!; [done|lia|lia|lia]. }
  destruct (IH d1 (j + 1) p1 b1) as (p' & b' & -> & H1 & H2); try done; try lia.
  exists p', b'. split_and!; [|lia|lia|lia]. do 3 f_equal.
  rewrite Hpos, <- (shift_step c (Z.shiftr (bits_of buf) pos) j), Z.shiftr_shiftr by lia.
  rewrite Z.lor_assoc. f_equal. unfold d1. rewrite Z.shiftr_spec, Z.add_0_l by lia.
  destruct (Z.testbit (bits_of buf) pos); [done|]. by rewrite Z.lor_0_r.
Qed.

Lemma read_bits_ok buf p b c :
  bytes buf → 0 ≤ b < 8 → (c ≤ 64)%nat →
  8 * Z.of_nat p + b + Z.of_nat c ≤ 8 * Z.of_nat (length buf) →
  ∃ p' b', read_bits buf p b c =
    Some (wrap (Z.of_nat c) (Z.shiftr (bits_of buf) (8 * Z.of_nat p + b)), p', b') ∧
    0 ≤ b' < 8 ∧ 8 * Z.of_nat p' + b' = 8 * Z.of_nat p + b + Z.of_nat c.
Proof.
  intros Hbuf Hb Hc Hlen. unfold read_bits. rewrite Z.shiftl_1_l, (wrap_small 8) by
    (split; [lia|]; apply Z.pow_lt_mono_r; lia).
  destruct (read_bits_loop_ok c 0 0 buf p b Hbuf Hb ltac:(lia) ltac:(lia) Hlen) as (p' & b' & H & H').
  exists p', b'. rewrite Z.shiftl_0_r, Z.lor_0_l in H. done.
Qed.

(** ** Packets *)

Lemma bits_of_drop n bs : bytes bs → bits_of (drop n bs) = Z.shiftr (bits_of bs) (8 * Z.of_nat n).
Proof.
  revert bs. induction n as [|n IH]; intros bs Hb; [by rewrite Z.shiftr_0_r|].
  destruct bs as [|b bs]; [by rewrite Z.shiftr_0_l|]. apply Forall_cons in Hb as [Hb Hbs]. cbn [drop].
  rewrite IH by done. replace (8 * Z.of_nat (S n)) with (8 + 8 * Z.of_nat n) by lia.
  rewrite <- Z.shiftr_shiftr by lia. f_equal.
  rewrite le_combine_cons, Z.shiftr_div_pow2 by (done || lia). change (2 ^ 8) with 256.
  unfold is_byte in Hb. rewrite (Z.mul_comm 256), Z.div_add, Z.div_small by lia. lia.
Qed.

Lemma bits_of_take n bs : bytes bs → bits_of (take n bs) = wrap (8 * Z.of_nat n) (bits_of bs).
Proof.
  revert bs. induction n as [|n IH]; intros bs Hb.
  { unfold wrap. change (2 ^ (8 * Z.of_nat 0)) with 1. by rewrite Z.mod_1_r. }
  destruct bs as [|b bs]; [by rewrite wrap_small by (cbn; lia)|].
  apply Forall_cons in Hb as [Hb Hbs]. cbn [take]. rewrite !le_combine_cons, IH by done.
  unfold wrap. replace (8 * Z.of_nat (S n)) with (8 + 8 * Z.of_nat n) by lia.
  rewrite Z.pow_add_r by lia. change (2 ^ 8) with 256. unfold is_byte in Hb.
  rewrite Z.rem_mul_r, (Z.mul_comm 256 (bits_of bs)) by lia.
  rewrite Z.mod_add, Z.div_add, (Z.div_small b), (Z.mod_small b) by lia. by rewrite Z.add_0_l.
Qed.

Lemma bits_of_zeros n : bits_of (replicate n 0) = 0.
Proof. induction n as [|n IH]; [done|]. cbn. by rewrite IH. Qed.

Lemma bytes_zeros n : bytes (replicate n 0).
Proof. by apply Forall_replicate. Qed.

(** The 74 bits of a request: operation, data, address, from the low end. *)
Definition request_bits (op addr d : Z) : Z :=
  Z.lor (Z.lor op (Z.shiftl d 2)) (Z.shiftl addr 66).

Lemma request_arith op addr d pos :
  pos = 8 → 0 ≤ op < 4 → 0 ≤ d < 2 ^ 64 → 0 ≤ addr < 256 →
  wrap (8 * Z.of_nat 10) (Z.shiftr (Z.lor (Z.lor (Z.shiftl op pos) (Z.shiftl d (pos + 2)))
    (Z.shiftl addr (pos + 2 + 64))) (8 * Z.of_nat 1)) = request_bits op addr d.
Proof.
  intros -> Hop Hd Ha. unfold request_bits. change (8 * Z.of_nat 10) with 80. change (8 * Z.of_nat 1) with 8.
  apply Z.bits_inj'. intros i Hi. rewrite testbit_wrap, Z.shiftr_spec, !Z.lor_spec, !Z.shiftl_spec by lia.
  destruct (Z.ltb_spec i 80); cbn [andb].
  - f_equal; [f_equal|]; f_equal; lia.
  - rewrite (wrap_testbit_high 2 op), (wrap_testbit_high 64 d), (wrap_testbit_high 8 addr) by lia. done.
Qed.

Lemma bind_eq {A B} (m : option A) (f : A → option B) a r :
  m = Some a → f a = r → (m ≫= f) = r.
Proof. by intros -> <-. Qed.

Lemma sim_packet_ok op addr d :
  0 ≤ op < 4 → 0 ≤ d < 2 ^ 64 → 0 ≤ addr < 256 →
  ∃ payload, sim_packet op addr d = Some (74 :: payload) ∧ length payload = 10%nat ∧
    bytes payload ∧ bits_of payload = request_bits op addr d.
Proof.
  intros Hop Hd Ha.
  destruct (add_bits_ok (replicate 16 0) 1 0 op 2) as (b1 & p1 & o1 & R1 & B1 & L1 & O1 & P1 & E1);
    [apply bytes_zeros|lia|lia|rewrite length_replicate; lia|]. rewrite length_replicate in L1.
  destruct (add_bits_ok b1 p1 o1 d 64) as (b2 & p2 & o2 & R2 & B2 & L2 & O2 & P2 & E2);
    [done|lia|lia|rewrite L1; lia|].
  destruct (add_bits_ok b2 p2 o2 addr 8) as (b3 & p3 & o3 & R3 & B3 & L3 & O3 & P3 & E3);
    [done|lia|lia|rewrite L2, L1; lia|].
  assert (p3 = 10%nat ∧ o3 = 2) as [-> ->] by lia.
  assert (sim_packet op addr d = Some (take 11 (<[0%nat := 74]> b3))) as ->.
  { unfold sim_packet. apply (bind_eq _ _ _ _ R1), (bind_eq _ _ _ _ R2), (bind_eq _ _ _ _ R3). done. }
  assert (length b3 = 16%nat) as L3' by congruence.
  destruct b3 as [|x b3]; [done|]. injection L3' as L3'. cbn [insert list_insert take].
  apply Forall_cons in B3 as [Bx B3].
  exists (take 10 b3). split; [done|]. split; [rewrite length_take; lia|].
  split; [by apply Forall_take|].
  rewrite bits_of_take by done. change b3 with (drop 1 (x :: b3)).
  rewrite bits_of_drop by (by constructor). rewrite E3, E2, E1, bits_of_zeros, P2, P1, Z.lor_0_l.
  change (Z.of_nat 2) with 2. change (Z.of_nat 64) with 64. change (Z.of_nat 8) with 8.
  rewrite (wrap_small 2 op), (wrap_small 64 d), (wrap_small 8 addr) by lia. by apply request_arith.
Qed.

(** Only the low 64 bits of the data are packed. *)
Lemma add_bits_loop_u64 c d ms md buf p b :
  0 ≤ ms < 2 ^ 64 → add_bits_loop c d ms md buf p b = add_bits_loop c (u64 d) ms md buf p b.
Proof.
  revert ms md buf p b. induction c as [|c IH]; intros ms md buf p b Hms; [done|]. cbn [add_bits_loop].
  assert (tst (u64 d) ms = tst d ms) as ->.
  { unfold tst. do 2 f_equal. apply Z.bits_inj'. intros i Hi. rewrite !Z.land_spec, testbit_wrap by lia.
    destruct (Z.ltb_spec i 64); [done|]. by rewrite (wrap_testbit_high 64 ms), !andb_false_r by lia. }
  destruct (if tst d ms then _ else _) as [buf'|]; [|done]. cbn.
  pose proof (wrap_range 64 (Z.shiftl ms 1) ltac:(lia)). destruct (b =? 7); by apply IH.
Qed.

Lemma sim_packet_u64 op addr d : sim_packet op addr d = sim_packet op addr (u64 d).
Proof.
  assert (∀ buf p b, add_bits buf p b d 64 = add_bits buf p b (u64 d) 64) as E
    by (intros buf p b; unfold add_bits; by rewrite (add_bits_loop_u64 64 d) by lia).
  unfold sim_packet. apply option_bind_ext_fun. intros [[buf p] b]. by rewrite E.
Qed.

Lemma sim_reply_ok buf :
  bytes buf → (10 ≤ length buf)%nat →
  sim_reply buf = Some (wrap 2 (bits_of (drop 1 buf)), wrap 64 (Z.shiftr (bits_of (drop 1 buf)) 2)).
Proof.
  intros Hb Hl.
  destruct (read_bits_ok buf 1 0 2) as (p1 & o1 & R1 & O1 & P1); [done|lia|lia|lia|].
  destruct (read_bits_ok buf p1 o1 64) as (p2 & o2 & R2 & O2 & P2); [done|lia|lia|lia|].
  unfold sim_reply. apply (bind_eq _ _ _ _ R1), (bind_eq _ _ _ _ R2).
  rewrite P1, !bits_of_drop by done. rewrite Z.shiftr_shiftr by lia. done.
Qed.
