(* ===== verification/SimJtag.v ===== *)
(** * The debug socket of the simulation

    [sim_jtag_socket_c.c]: the simulated JTAG port talks to a debugger over a
    TCP socket.  A packet is the number of bits and the bits, eight to a byte,
    low bit first.  The answers of the operating system to one call are a record
    [sock_os]; what is written to the socket is kept in the state. *)
From S2P Require Import Prelude CMem Vhpi DmiBits.

Definition MAX_PACKET : nat := 32.

Record jtag := Jtag {
  j_host : host;
  j_fd : Z;
  j_cfd : Z;
  j_sent : list (list Z);
}.

Definition jtag_init (h : host) : jtag := Jtag h (-1) (-1) [].

Record sock_os := {
  os_socket : Z;
  os_getfl : Z;
  os_setfl : Z;
  os_bind : Z;
  os_listen : Z;
  os_accept : Z;
  os_poll : Z;
  os_read : Z * list Z;   (** the result, and the bytes when it is positive *)
  os_write : Z;
}.

Definition j_on {A} (m : M host A) : M jtag A :=
  zoom j_host (λ h s, Jtag h (j_fd s) (j_cfd s) (j_sent s)) m.
Definition get_fd : M jtag Z := λ s, Ret (j_fd s) s.
Definition get_cfd : M jtag Z := λ s, Ret (j_cfd s) s.
Definition set_fd (v : Z) : M jtag unit := λ s, Ret tt (Jtag (j_host s) v (j_cfd s) (j_sent s)).
Definition set_cfd (v : Z) : M jtag unit := λ s, Ret tt (Jtag (j_host s) (j_fd s) v (j_sent s)).
Definition send (bs : list Z) : M jtag unit :=
  λ s, Ret tt (Jtag (j_host s) (j_fd s) (j_cfd s) (j_sent s ++ [bs])).

(** The label [fail] ends with [fd] at -2, so that it is not tried again. *)
Definition open_socket (o : sock_os) : M jtag unit :=
  fd ← get_fd;
  if (0 <=? fd) || (fd <? -1) then mret tt else
  set_fd (os_socket o);;
  if os_socket o <? 0 then j_on (say (Err "Failed to open debug socket !" []));; set_fd (-2) else
  let rc := if 0 <=? os_getfl o then os_setfl o else 0 in
  (if (os_getfl o <? 0) || (rc <? 0)
   then j_on (say (Err "Failed to configure debug socket !" [])) else mret tt);;
  if os_bind o <? 0 then j_on (say (Err "Failed to bind debug socket !" []));; set_fd (-2) else
  if os_listen o <? 0 then j_on (say (Err "Failed to listen to debug socket !" []));; set_fd (-2) else
  j_on (say (Out "Debug socket ready" [])).

Definition check_connection (o : sock_os) : M jtag unit :=
  set_cfd (os_accept o);;
  if os_accept o <? 0 then mret tt
  else j_on (say (Out "Debug client connected !" [])).

(** [for (i = 0; i < size; i++) out_msg[i] = ...], with [n] of them left. *)
Fixpoint unpack_loop (n : nat) (i : Z) (data : list Z) (out_msg : Z) : M mem unit :=
  match n with
  | O => mret tt
  | S n =>
      let byte := Z.shiftr i 3 in
      let bit := Z.shiftl 1 (Z.land i 7) in
      x ← of_option (data !! Z.to_nat (byte + 1));
      store8 (out_msg + i) (if tst x bit then vhpi1 else vhpi0);;
      unpack_loop n (i + 1) data out_msg
  end.

(** The size that is reported, and what is stored: everything up to the label
    [finish]. *)
Definition read_packet (o : sock_os) (out_msg : Z) : M jtag Z :=
  fd ← get_fd;
  (if fd =? -1 then open_socket o else mret tt);;
  fd ← get_fd;
  if fd <? 0 then mret 0 else
  cfd ← get_cfd;
  (if cfd <? 0 then check_connection o else mret tt);;
  cfd ← get_cfd;
  if cfd <? 0 then mret 0 else
  if os_poll o <=? 0 then mret 0 else
  let '(rc, data) := os_read o in
  (if rc <? 0 then j_on (say (Err "Debug read error, assuming client disconnected !" [])) else mret tt);;
  (if rc =? 0 then j_on (say (Out "Debug client disconnected !" [])) else mret tt);;
  if rc <=? 0 then set_cfd (-1);; mret 0 else
  size ← of_option (data !! 0%nat);
  if size =? 255 then mret size else
  size ← (if (rc - 1) * 8 <? size then
            j_on (say (Err "Debug short read: %d bytes for %d bits, truncating" [PZ (rc - 1); PZ size]));;
            mret (u8 ((rc - 1) * 8))
          else mret size);
  j_on (in_mem (unpack_loop (Z.to_nat size) 0 data out_msg));;
  mret size.

Definition sim_jtag_read_msg (o : sock_os) (out_msg out_size : Z) : M jtag unit :=
  size ← read_packet o out_msg;
  j_on (to_std_logic_vector size out_size 8).

(** [data] is an uninitialised array: [junk] is what it held. *)
Fixpoint pack_loop (n : nat) (i : Z) (data : list Z) (in_msg : Z) : M mem (list Z) :=
  match n with
  | O => mret data
  | S n =>
      let byte := Z.shiftr i 3 in
      let bit := Z.shiftl 1 (Z.land i 7) in
      c ← load8 (in_msg + i);
      x ← of_option (data !! Z.to_nat (byte + 1));
      let x := if c =? vhpi1 then u8 (Z.lor x bit) else u8 (Z.land x (Z.lnot bit)) in
      pack_loop n (i + 1) (<[Z.to_nat (byte + 1) := x]> data) in_msg
  end.

Definition sim_jtag_write_msg (o : sock_os) (junk : list Z) (in_msg in_size : Z) : M jtag unit :=
  size ← j_on (from_std_logic_vector in_size 8);
  let size := u8 size in
  x ← of_option (junk !! 0%nat);
  data ← j_on (in_mem (pack_loop (Z.to_nat size) 0 (<[0%nat := size]> junk) in_msg));
  let rc := (size + 7) `div` 8 in
  send (take (Z.to_nat rc) data);;
  (if os_write o <? 0 then j_on (say (Err "Debug write error, ignoring" [])) else mret tt).

(** ** Vectors of bits, low bit first *)

(** The elements of a message of [n] bits: element [i] is bit [i]. *)
Definition msg_bits (n : nat) (v : Z) : list Z :=
  (λ i, slv_bit (Z.testbit v (Z.of_nat i))) <$> seq 0 n.

Lemma length_msg_bits n v : length (msg_bits n v) = n.
Proof. unfold msg_bits. by rewrite length_fmap, length_seq. Qed.

(** Bit [i] of the bits after the size byte. *)
Lemma packet_bit data i x :
  bytes data → 0 ≤ i → data !! Z.to_nat (Z.shiftr i 3 + 1) = Some x →
  tst x (Z.shiftl 1 (Z.land i 7)) = Z.testbit (bits_of (drop 1 data)) i.
Proof.
  intros Hb Hi Hx. change 7 with (Z.ones 3). rewrite Z.shiftl_1_l, Z.land_ones by lia. change (2 ^ 3) with 8.
  pose proof (Z.mod_pos_bound i 8 ltac:(lia)). rewrite tst_pow2 by lia.
  rewrite testbit_le_combine by (done || by apply Forall_drop). rewrite lookup_drop.
  rewrite Z.shiftr_div_pow2 in Hx by lia. change (2 ^ 3) with 8 in Hx.
  assert (0 ≤ i `div` 8) by (apply Z.div_pos; lia).
  replace (1 + Z.to_nat (i `div` 8))%nat with (Z.to_nat (i `div` 8 + 1)) by lia. by rewrite Hx.
Qed.

Lemma unpack_loop_ok n i data out_msg m :
  bytes data → 0 ≤ i → i + Z.of_nat n ≤ 8 * (Z.of_nat (length data) - 1) →
  mapped m (out_msg + i) n →
  unpack_loop n i data out_msg m =
  Ret tt (write_bytes (out_msg + i)
    ((λ k, slv_bit (Z.testbit (bits_of (drop 1 data)) (i + Z.of_nat k))) <$> seq 0 n) m).
Proof.
  intros Hb. revert i m. induction n as [|n IH]; intros i m Hi Hlen Hm; cbn [unpack_loop]; [done|].
  destruct Hm as [[c Hc] Hm].
  assert (Z.shiftr i 3 = i `div` 8) as Es by (by rewrite Z.shiftr_div_pow2).
  assert (0 ≤ i `div` 8 ∧ i `div` 8 < Z.of_nat (length data) - 1) as [Hd0 Hd1]
    by (split; [apply Z.div_pos|apply Z.div_lt_upper_bound]; lia).
  destruct (lookup_lt_is_Some_2 data (Z.to_nat (Z.shiftr i 3 + 1))) as [x Hx]; [lia|].
  rewrite Hx. rewrite (bind_Ret _ _ m x m) by done.
  rewrite (packet_bit data i x Hb Hi Hx).
  step_with (store8_Ret m _ (if Z.testbit (bits_of (drop 1 data)) i then vhpi1 else vhpi0) c Hc).
  rewrite IH; [|lia|lia|].
  - rewrite <- cons_seq, fmap_cons. cbn [write_bytes]. rewrite Z.add_0_r. f_equal.
    rewrite <- fmap_S_seq, <- list_fmap_compose.
    replace (out_msg + (i + 1)) with (out_msg + i + 1) by lia. f_equal.
    + apply list_fmap_ext. intros k y _. cbn. do 2 f_equal. lia.
    + f_equal. by destruct (Z.testbit (bits_of (drop 1 data)) i).
  - replace (out_msg + (i + 1)) with (out_msg + i + 1) by lia.
    change (<[out_msg + i := ?v]> m) with (write_bytes (out_msg + i) [v] m). by apply mapped_write.
Qed.

(** ** Requests *)

Definition jmem (s : jtag) : mem := hmem (j_host s).
Definition j_with_mem (s : jtag) (m : mem) : jtag :=
  Jtag (Host m (hlog (j_host s))) (j_fd s) (j_cfd s) (j_sent s).

Lemma j_with_mem_id s : j_with_mem s (jmem s) = s.
Proof. by destruct s as [[m l] f c t]. Qed.

Lemma j_on_Ret {A} (p : M host A) s a h :
  p (j_host s) = Ret a h → j_on p s = Ret a (Jtag h (j_fd s) (j_cfd s) (j_sent s)).
Proof. intros H. unfold j_on. by rewrite (zoom_Ret _ _ _ _ _ _ H). Qed.

Lemma j_mem_Ret {A} (p : M host A) s m a m' :
  p (Host m (hlog (j_host s))) = Ret a (Host m' (hlog (j_host s))) →
  j_on p (j_with_mem s m) = Ret a (j_with_mem s m').
Proof. intros H. by rewrite (j_on_Ret _ (j_with_mem s m) _ _ H). Qed.

(** A whole packet is taken apart; the size is passed on. *)
Lemma read_msg_ok o s out_msg out_size n payload :
  0 ≤ j_fd s → 0 ≤ j_cfd s → 0 < os_poll o →
  os_read o = (Z.of_nat (S (length payload)), Z.of_nat n :: payload) →
  bytes payload → (n < 255)%nat → (n ≤ 8 * length payload)%nat →
  mapped (jmem s) out_msg n → mapped (jmem s) out_size 8 →
  sim_jtag_read_msg o out_msg out_size s =
  Ret tt (j_with_mem s (write_bytes out_size (slv 8 (Z.of_nat n))
                          (write_bytes out_msg (msg_bits n (bits_of payload)) (jmem s)))).
Proof.
  intros Hfd Hcfd Hpoll Hread Hb Hn Hlen Hm1 Hm2. unfold sim_jtag_read_msg.
  set (m1 := write_bytes out_msg _ _).
  rewrite (bind_Ret _ _ s (Z.of_nat n) (j_with_mem s m1)).
  { apply j_mem_Ret. apply (to_slv_ok 8 out_size (Z.of_nat n) (Host m1 _)); [lia|]. by apply mapped_write. }
  unfold read_packet. rewrite (bind_Ret _ _ s (j_fd s) s) by done.
  rewrite (proj2 (Z.eqb_neq (j_fd s) (-1))) by lia. rewrite bind_mret.
  rewrite (bind_Ret _ _ s (j_fd s) s), (proj2 (Z.ltb_ge (j_fd s) 0)) by done.
  rewrite (bind_Ret _ _ s (j_cfd s) s), (proj2 (Z.ltb_ge (j_cfd s) 0)), bind_mret by done.
  rewrite (bind_Ret _ _ s (j_cfd s) s), (proj2 (Z.ltb_ge (j_cfd s) 0)) by done.
  rewrite (proj2 (Z.leb_gt (os_poll o) 0)) by done. rewrite Hread.
  rewrite (proj2 (Z.ltb_ge _ 0)), (proj2 (Z.eqb_neq _ 0)), (proj2 (Z.leb_gt _ 0)) by lia.
  rewrite !bind_mret. cbn [lookup list_lookup]. rewrite (bind_Ret _ _ s (Z.of_nat n) s) by done.
  rewrite (proj2 (Z.eqb_neq (Z.of_nat n) 255)), (proj2 (Z.ltb_ge _ (Z.of_nat n))), bind_mret by lia.
  rewrite (bind_Ret _ _ s tt (j_with_mem s m1)); [done|].
  rewrite <- (j_with_mem_id s) at 1. apply j_mem_Ret.
  apply (in_mem_Ret _ (Host (jmem s) (hlog (j_host s)))). cbn [hmem]. rewrite Nat2Z.id.
  rewrite unpack_loop_ok; [|constructor; [unfold is_byte; lia|done]|lia|cbn [length]; lia|by rewrite Z.add_0_r].
  rewrite Z.add_0_r. done.
Qed.

(** ** Replies *)

(** The byte with bit [b] set to a value. *)
Definition put_bit (x b : Z) (v : bool) : Z :=
  if v then u8 (Z.lor x (2 ^ b)) else u8 (Z.land x (Z.lnot (2 ^ b))).

Lemma testbit_put_bit x b v k :
  0 ≤ b < 8 → 0 ≤ k < 8 → Z.testbit (put_bit x b v) k = if k =? b then v else Z.testbit x k.
Proof.
  intros Hb Hk. unfold put_bit. destruct v; rewrite testbit_wrap, (proj2 (Z.ltb_lt k 8)) by lia; cbn [andb].
  - rewrite Z.lor_spec, Z.pow2_bits_eqb, Z.eqb_sym by lia.
    destruct (k =? b); [by rewrite orb_true_r|by rewrite orb_false_r].
  - rewrite Z.land_spec, Z.lnot_spec, Z.pow2_bits_eqb, Z.eqb_sym by lia.
    destruct (k =? b); [by rewrite andb_false_r|by rewrite andb_true_r].
Qed.

Lemma bits_of_put buf i x v j :
  bytes buf → 0 ≤ i → 0 ≤ j → buf !! Z.to_nat (i `div` 8) = Some x →
  Z.testbit (bits_of (<[Z.to_nat (i `div` 8) := put_bit x (i `mod` 8) v]> buf)) j =
  if j =? i then v else Z.testbit (bits_of buf) j.
Proof.
  intros Hb Hi Hj Hx.
  assert (0 ≤ i `div` 8 ∧ 0 ≤ j `div` 8) as [Hi0 Hj0] by (split; apply Z.div_pos; lia).
  pose proof (Z.mod_pos_bound i 8 ltac:(lia)). pose proof (Z.mod_pos_bound j 8 ltac:(lia)).
  pose proof (Z.div_mod i 8 ltac:(lia)). pose proof (Z.div_mod j 8 ltac:(lia)).
  assert (bytes (<[Z.to_nat (i `div` 8) := put_bit x (i `mod` 8) v]> buf)) as Hb'.
  { apply Forall_insert; [done|]. unfold put_bit. destruct v; apply u8_byte. }
  rewrite !testbit_le_combine by done. destruct (decide (j `div` 8 = i `div` 8)) as [E|E].
  - rewrite E, list_lookup_insert_eq, Hx by (by eapply lookup_lt_Some).
    rewrite testbit_put_bit by done.
    replace (j `mod` 8 =? i `mod` 8) with (j =? i); [done|].
    apply Bool.eq_iff_eq_true. rewrite !Z.eqb_eq. lia.
  - rewrite list_lookup_insert_ne by lia. rewrite (proj2 (Z.eqb_neq j i)); [done|]. congruence.
Qed.

Lemma pack_step data i x v :
  bytes data → 0 ≤ i → data !! Z.to_nat (Z.shiftr i 3 + 1) = Some x →
  let data' := <[Z.to_nat (Z.shiftr i 3 + 1) :=
      if slv_bit v =? vhpi1 then u8 (Z.lor x (Z.shiftl 1 (Z.land i 7)))
      else u8 (Z.land x (Z.lnot (Z.shiftl 1 (Z.land i 7))))]> data in
  bytes data' ∧ length data' = length data ∧ data' !! 0%nat = data !! 0%nat ∧
  ∀ j, 0 ≤ j → Z.testbit (bits_of (drop 1 data')) j =
               if j =? i then v else Z.testbit (bits_of (drop 1 data)) j.
Proof.
  intros Hb Hi Hx data'.
  assert (0 ≤ i `div` 8) as Hd by (apply Z.div_pos; lia).
  assert (Z.to_nat (Z.shiftr i 3 + 1) = S (Z.to_nat (i `div` 8))) as Ei
    by (rewrite Z.shiftr_div_pow2 by lia; change (2 ^ 3) with 8; lia).
  assert (data' = <[S (Z.to_nat (i `div` 8)) := put_bit x (i `mod` 8) v]> data) as ->.
  { unfold data'. rewrite Ei. f_equal. change 7 with (Z.ones 3).
    rewrite Z.shiftl_1_l, Z.land_ones by lia. by destruct v. }
  rewrite Ei in Hx. destruct data as [|d data]; [done|]. apply Forall_cons in Hb as [Hd0 Hb].
  change (<[S ?k := ?y]> (d :: data)) with (d :: <[k := y]> data).
  change ((d :: data) !! S ?k) with (data !! k) in Hx. cbn [drop]. split_and!.
  - constructor; [done|]. apply Forall_insert; [done|]. unfold put_bit. destruct v; apply u8_byte.
  - cbn [length]. by rewrite length_insert.
  - done.
  - intros j Hj. by apply bits_of_put.
Qed.

Lemma pack_loop_ok n i data in_msg v m :
  bytes data → 0 ≤ i → i + Z.of_nat n ≤ 8 * (Z.of_nat (length data) - 1) →
  bytes_at m (in_msg + i) ((λ k, slv_bit (Z.testbit v (i + Z.of_nat k))) <$> seq 0 n) →
  ∃ data', pack_loop n i data in_msg m = Ret data' m ∧ bytes data' ∧ length data' = length data ∧
    data' !! 0%nat = data !! 0%nat ∧
    ∀ j, 0 ≤ j → Z.testbit (bits_of (drop 1 data')) j =
      if (i <=? j) && (j <? i + Z.of_nat n) then Z.testbit v j
      else Z.testbit (bits_of (drop 1 data)) j.
Proof.
  revert i data. induction n as [|n IH]; intros i data Hb Hi Hlen Hat; cbn [pack_loop].
  { exists data. split_and!; try done. intros j Hj. by replace ((i <=? j) && (j <? i + Z.of_nat 0)) with false by conds. }
  rewrite <- cons_seq, fmap_cons in Hat. destruct Hat as [Hat1 Hat2]. rewrite Z.add_0_r in Hat1.
  step_with (load8_Ret m _ _ Hat1).
  assert (0 ≤ i `div` 8 ∧ i `div` 8 < Z.of_nat (length data) - 1) as [Hd0 Hd1]
    by (split; [apply Z.div_pos|apply Z.div_lt_upper_bound]; lia).
  destruct (lookup_lt_is_Some_2 data (Z.to_nat (Z.shiftr i 3 + 1))) as [x Hx].
  { rewrite Z.shiftr_div_pow2 by lia. change (2 ^ 3) with 8. lia. }
  rewrite Hx, (bind_Ret _ _ m x m) by done.
  destruct (pack_step data i x (Z.testbit v i) Hb Hi Hx) as (Hb1 & Hl1 & H01 & Hbits).
  set (data1 := <[_ := _]> data) in *.
  destruct (IH (i + 1) data1) as (data' & Hr & Hb' & Hl' & H0' & Hbits'); [done|lia|lia| |].
  { rewrite <- fmap_S_seq, <- list_fmap_compose in Hat2.
    replace (in_msg + (i + 1)) with (in_msg + i + 1) by lia.
    erewrite list_fmap_ext; [exact Hat2|]. intros k y _. cbn. do 2 f_equal. lia. }
  exists data'. split_and!; [done|done|congruence|congruence|].
  intros j Hj. rewrite Hbits', Hbits by done. conds; try done. by subst.
Qed.

(** What is sent of a message of [n] bits: the size, then the bits, but one byte
    less than there are. *)
Lemma write_msg_ok o junk s in_msg in_size n v :
  length junk = MAX_PACKET → bytes junk → (0 < n ≤ 248)%nat →
  bytes_at (jmem s) in_msg (msg_bits n v) → bytes_at (jmem s) in_size (slv 8 (Z.of_nat n)) →
  0 ≤ os_write o →
  ∃ sent, sim_jtag_write_msg o junk in_msg in_size s =
      Ret tt (Jtag (j_host s) (j_fd s) (j_cfd s) (j_sent s ++ [Z.of_nat n :: sent])) ∧
    bytes sent ∧ Z.of_nat (length sent) = (Z.of_nat n + 7) `div` 8 - 1 ∧
    ∀ j, 0 ≤ j < 8 * Z.of_nat (length sent) → j < Z.of_nat n →
         Z.testbit (bits_of sent) j = Z.testbit v j.
Proof.
  intros Hl Hb Hn Hmsg Hsize How. unfold sim_jtag_write_msg.
  pose proof (from_slv_ok 8 in_size (Z.of_nat n) (j_host s) ltac:(lia) ltac:(cbn; lia) Hsize) as Hfrom.
  assert (j_on (from_std_logic_vector in_size 8) s = Ret (Z.of_nat n) s) as Hr1.
  { change 8 with (Z.of_nat 8). rewrite (j_on_Ret _ s _ _ Hfrom). by destruct s. }
  step_with Hr1. rewrite (wrap_small 8) by lia.
  destruct junk as [|x junk]; [done|]. cbn [lookup list_lookup insert list_insert].
  rewrite (bind_Ret _ _ s x s) by done. injection Hl as Hl. apply Forall_cons in Hb as [_ Hb].
  destruct (pack_loop_ok n 0 (Z.of_nat n :: junk) in_msg v (jmem s)) as (data & Hr & Hbd & Hld & H0 & Hbits).
  { constructor; [unfold is_byte; lia|done]. }
  { lia. }
  { cbn [length]. rewrite Hl. lia. }
  { by rewrite Z.add_0_r. }
  assert (j_on (in_mem (pack_loop n 0 (Z.of_nat n :: junk) in_msg)) s = Ret data s) as Hr2.
  { rewrite (j_on_Ret _ s _ _ (in_mem_Ret _ (j_host s) _ _ Hr)). by destruct s as [[] ? ? ?]. }
  rewrite Nat2Z.id. step_with Hr2. rewrite (proj2 (Z.ltb_ge (os_write o) 0)) by done.
  destruct data as [|d data]; [done|]. injection H0 as ->. cbn [drop] in Hbits.
  cbn [length] in Hld. rewrite Hl in Hld. apply Forall_cons in Hbd as [_ Hbd].
  set (q := (Z.of_nat n + 7) `div` 8).
  assert (1 ≤ q < 32) as Hq by (unfold q; split; [apply Z.div_le_lower_bound|apply Z.div_lt_upper_bound]; lia).
  replace (Z.to_nat q) with (S (Z.to_nat (q - 1))) by lia. cbn [take].
  exists (take (Z.to_nat (q - 1)) data). split; [done|]. split; [by apply Forall_take|].
  rewrite length_take. split; [lia|]. intros j Hj Hjn.
  rewrite bits_of_take, testbit_wrap, (proj2 (Z.ltb_lt j _)), Hbits by (done || lia). cbn [andb].
  by replace ((0 <=? j) && (j <? 0 + Z.of_nat n)) with true by conds.
Qed.
