(* ===== verification/SimConsole.v ===== *)
(** * The console of the VHDL simulation

    [sim_console_c.c]: reads, polls and writes of the terminal for the simulated
    UART.  The characters that have been typed are in the state, and the terminal's
    attributes. *)
From S2P Require Import Prelude CMem Vhpi Termios.

Record simcon := Simcon {
  sc_host : host;
  sc_stdin : list Z;
  sc_tty : tty;
}.

Definition sc_on {A} (m : M host A) : M simcon A :=
  zoom sc_host (λ h s, Simcon h (sc_stdin s) (sc_tty s)) m.

Definition raw_mode : M simcon unit :=
  modify (λ s, Simcon (sc_host s) (sc_stdin s) (enable_raw_mode (sc_tty s))).

(** [read (STDIN_FILENO, &val, 1)]: one character, or none at the end. *)
Definition read_stdin : M simcon (option Z) := λ s,
  match sc_stdin s with
  | [] => Ret None s
  | c :: q => Ret (Some c) (Simcon (sc_host s) q (sc_tty s))
  end.

(** [poll] of the standard input with a timeout of zero. *)
Definition poll_stdin : M simcon bool := λ s, Ret (negb (length (sc_stdin s) =? 0)%nat) s.

Definition sim_console_read (rt : Z) : M simcon unit :=
  raw_mode;;
  c ← read_stdin;
  match c with
  | None => sc_on (say (Err "%s: read of stdin returns %d" [PS (lit "sim_console_read"); PZ 0]));; exit_ 1
  | Some c => sc_on (to_std_logic_vector (u8 c) rt 64)
  end.

Definition sim_console_poll (rt : Z) : M simcon unit :=
  raw_mode;;
  ready ← poll_stdin;
  let val := if (ready : bool) then 1 else 0 in
  sc_on (to_std_logic_vector val rt 64).

Definition sim_console_write (rs : Z) : M simcon unit :=
  v ← sc_on (from_std_logic_vector rs 64);
  sc_on (say (Err "%c" [PZ (u8 v)])).

(** ** Behaviour *)

Definition sc_mem (s : simcon) : mem := hmem (sc_host s).

(** The next character becomes the vector; the terminal is set up once. *)
Lemma sim_console_read_ok rt c q s :
  sc_stdin s = c :: q → mapped (sc_mem s) rt 64 →
  sim_console_read rt s =
  Ret tt (Simcon (Host (write_bytes rt (slv 64 (u8 c)) (sc_mem s)) (hlog (sc_host s))) q
            (enable_raw_mode (sc_tty s))).
Proof.
  intros Hq Hm. destruct s as [h i t]. cbn in Hq, Hm |- *. subst i.
  unfold sim_console_read, raw_mode, modify, mbind, M_bind. cbn -[to_std_logic_vector slv enable_raw_mode].
  unfold sc_on, zoom. cbn -[to_std_logic_vector slv enable_raw_mode].
  change 64 with (Z.of_nat 64). by rewrite to_slv_ok.
Qed.

(** Polling tells whether a character is there, and takes none. *)
Lemma sim_console_poll_ok rt s :
  mapped (sc_mem s) rt 64 →
  sim_console_poll rt s =
  Ret tt (Simcon (Host (write_bytes rt (slv 64 (if (length (sc_stdin s) =? 0)%nat then 0 else 1)) (sc_mem s))
                    (hlog (sc_host s))) (sc_stdin s)
            (enable_raw_mode (sc_tty s))).
Proof.
  intros Hm. destruct s as [h i t].
  unfold sim_console_poll, raw_mode, modify, poll_stdin, mbind, M_bind.
  cbn -[to_std_logic_vector slv enable_raw_mode] in *.
  unfold sc_on, zoom. cbn -[to_std_logic_vector slv Nat.eqb enable_raw_mode].
  change 64 with (Z.of_nat 64). rewrite to_slv_ok; try done. by destruct (length i =? 0)%nat.
Qed.

(** The low byte of the vector is written. *)
Lemma sim_console_write_ok rs v s :
  0 ≤ v < 2 ^ 64 → bytes_at (sc_mem s) rs (slv 64 v) →
  sim_console_write rs s =
  Ret tt (Simcon (Host (sc_mem s) (hlog (sc_host s) ++ [Err "%c" [PZ (u8 v)]])) (sc_stdin s)
            (sc_tty s)).
Proof.
  intros Hv Hb. unfold sim_console_write, mbind, M_bind, sc_on, zoom.
  change 64 with (Z.of_nat 64). rewrite (from_slv_ok 64 rs v (sc_host s)) by (done || lia). done.
Qed.

(** ** A session *)

Inductive con_op := ConRead (rt : Z) | ConPoll (rt : Z) | ConWrite (rs : Z).

Definition con_vec (op : con_op) : Z := match op with ConRead a | ConPoll a | ConWrite a => a end.

(** The operation uses the terminal's input. *)
Definition con_input (op : con_op) : bool := if op is ConWrite _ then false else true.
Definition con_reads (op : con_op) : nat := if op is ConRead _ then 1 else 0.

Definition con_do (op : con_op) : M simcon unit :=
  match op with
  | ConRead rt => sim_console_read rt
  | ConPoll rt => sim_console_poll rt
  | ConWrite rs => sim_console_write rs
  end.

Fixpoint session (ops : list con_op) : M simcon unit :=
  match ops with
  | [] => mret tt
  | op :: ops => con_do op;; session ops
  end.

Definition reads (ops : list con_op) : nat := sum_list_with con_reads ops.

(** The vectors of the calls are mapped. *)
Definition con_vecs (ops : list con_op) (m : mem) : Prop := Forall (λ op, mapped m (con_vec op) 64) ops.

Lemma con_vecs_write ops a bs m : con_vecs ops m → con_vecs ops (write_bytes a bs m).
Proof. intros H. eapply Forall_impl; [exact H|]. intros op Hop. by apply mapped_write. Qed.

(** Whatever the bytes of a vector are, it is read. *)
Lemma from_slv_loop_any n p r s : mapped (hmem s) p n →
  ∃ v log, from_slv_loop n p r s = Ret v (Host (hmem s) log).
Proof.
  revert p r s. induction n as [|n IH]; intros p r s Hm.
  { exists r, (hlog s). by destruct s. }
  destruct Hm as [[b Hb] Hm]. cbn [from_slv_loop].
  rewrite (bind_Ret _ _ _ _ _ (in_mem_pure _ _ _ (load8_Ret _ _ _ Hb))).
  destruct (b =? vhpi0); [apply IH, Hm|]. destruct (b =? vhpi1); [apply IH, Hm|].
  destruct (IH (p + 1) (u64 (Z.lor (Z.shiftl r 1) 0))
    (Host (hmem s) (hlog s ++ [Err "%s: bad bit %d" [PS (lit "from_std_logic_vector"); PZ b]])) Hm) as (v & log & H).
  by exists v, log.
Qed.

(** One call: it returns, or it is a read at the end of the input and exits. *)
Lemma con_do_ok op ops s : con_vecs (op :: ops) (sc_mem s) →
  ∃ s', con_do op s =
      (if (con_reads op <=? length (sc_stdin s))%nat then Ret tt s' else Exit 1 s') ∧
    sc_tty s' = (if con_input op then enable_raw_mode (sc_tty s) else sc_tty s) ∧
    ((con_reads op ≤ length (sc_stdin s))%nat →
      sc_stdin s' = drop (con_reads op) (sc_stdin s) ∧ con_vecs ops (sc_mem s')).
Proof.
  intros [Hm Hv]%Forall_cons. destruct op as [rt|rt|rs]; cbn [con_do con_reads con_input con_vec] in *.
  - destruct (sc_stdin s) as [|c q] eqn:Eq.
    + eexists (Simcon (Host (sc_mem s) _) [] (enable_raw_mode (sc_tty s))). split; [|split; [done|cbn; lia]].
      unfold sim_console_read, raw_mode, read_stdin, modify, mbind, M_bind. cbn -[enable_raw_mode]. rewrite Eq. done.
    + rewrite (sim_console_read_ok rt c q s Eq Hm). eexists. split; [done|]. split; [done|].
      intros _. split; [done|]. by apply con_vecs_write.
  - rewrite (sim_console_poll_ok rt s Hm). eexists. split; [done|]. split; [done|].
    intros _. split; [done|]. by apply con_vecs_write.
  - destruct (from_slv_loop_any 64 rs 0 (sc_host s) Hm) as (v & log & H).
    eexists (Simcon (Host (sc_mem s) _) (sc_stdin s) (sc_tty s)). split; [|done].
    unfold sim_console_write. change (from_std_logic_vector rs 64) with (from_slv_loop 64 rs 0).
    unfold sc_on, zoom, mbind, M_bind. by rewrite H.
Qed.

Lemma session_ok a ops s : tty_ok a (sc_tty s) → con_vecs ops (sc_mem s) →
  ∃ s', session ops s = (if (reads ops <=? length (sc_stdin s))%nat then Ret tt s' else Exit 1 s') ∧
    tty_ok a (sc_tty s') ∧
    (raw (attrs (sc_tty s)) ∨ existsb con_input ops → raw (attrs (sc_tty s'))) ∧
    ((reads ops ≤ length (sc_stdin s))%nat → sc_stdin s' = drop (reads ops) (sc_stdin s)).
Proof.
  revert s. induction ops as [|op ops IH]; intros s Ht Hv.
  { exists s. split; [done|]. split; [done|]. by split; [intros [?|[]]|]. }
  destruct (con_do_ok op ops s Hv) as (s1 & H1 & Ht1 & Hq).
  assert (tty_ok a (sc_tty s1)) as Ht1' by (rewrite Ht1; destruct (con_input op); auto).
  assert (raw (attrs (sc_tty s)) ∨ con_input op → raw (attrs (sc_tty s1))) as Hraw.
  { rewrite Ht1. destruct (con_input op); [|naive_solver]. intros _. by eapply enable_raw. }
  cbn [session]. unfold reads. cbn [sum_list_with]. fold (reads ops).
  destruct (Nat.leb_spec (con_reads op) (length (sc_stdin s))).
  - destruct (Hq ltac:(done)) as [Hq1 Hq2]. destruct (IH s1 Ht1' Hq2) as (s2 & H2 & Ht2 & Hr2 & Hd2).
    exists s2. rewrite (bind_Ret _ _ _ _ _ H1), H2, Hq1, length_drop.
    rewrite Hq1, length_drop, drop_drop in Hd2. split_and!; [|done| |].
    + destruct (Nat.leb_spec (reads ops) (length (sc_stdin s) - con_reads op));
        destruct (Nat.leb_spec (con_reads op + reads ops) (length (sc_stdin s))); done || lia.
    + intros Hx. apply Hr2. cbn [existsb] in Hx. destruct (con_input op); cbn in Hx; naive_solver.
    + intros ?. apply Hd2. lia.
  - exists s1. rewrite (bind_Exit _ _ _ _ _ H1).
    rewrite (proj2 (Nat.leb_gt (con_reads op + reads ops) _)) by lia. split_and!; [done|done| |lia].
    destruct op; cbn in *; [|lia..]. naive_solver.
Qed.
