(* ===== verification/SimPpUart.v ===== *)
(** * The UART of the VHDL simulation

    [sim_pp_uart.vhdl]: the registers of the "potato" UART in front of the console
    calls of [sim_console_c.c].  An access of the program is one access to a register:
    the process acts when the strobe comes and only acknowledges until it falls.  The
    variable the calls fill lies in the simulator's memory.  The device is a [Uart],
    so the theorems on the console driver hold on it. *)
From S2P Require Import Prelude CMem Vhpi Termios SimConsole LibStr Soc Io Console Hello.

Record sim_pp := SimPp {
  sp_con : simcon;
  sp_divisor : Z;
  sp_irq_recv : bool;
  sp_irq_tx_ready : bool;
}.

(** The number a vector of the simulator stands for. *)
Fixpoint vec_value (n : nat) (p : Z) (m : mem) (r : Z) : Z :=
  match n with
  | O => r
  | S n => vec_value n (p + 1) m (2 * r + Z.b2z (bool_decide (m !! p = Some vhpi1)))
  end.

Lemma vec_value_slv n p m v r : bytes_at m p (slv n v) → vec_value n p m r = r * 2 ^ Z.of_nat n + v `mod` 2 ^ Z.of_nat n.
Proof.
  revert p r. induction n as [|n IH]; intros p r; cbn [slv bytes_at vec_value]; [intros _; rewrite Z.mod_1_r; lia|].
  intros [Hb Hs]. rewrite (IH _ _ Hs), Hb.
  assert (bool_decide (Some (slv_bit (Z.testbit v (Z.of_nat n))) = Some vhpi1) = Z.testbit v (Z.of_nat n)) as ->
    by (by destruct (Z.testbit v (Z.of_nat n))).
  rewrite Nat2Z.inj_succ, Z.pow_succ_r, (Z.mul_comm 2 (2 ^ _)), Z.rem_mul_r, Z.testbit_spec' by lia. lia.
Qed.

Section sim_pp.
Context (vec : Z) (sysreg : Z → Z).

(** Before a call the variable holds [bs]; a call that ends the simulator leaves the
    state it ended in. *)
Definition vhpi_call (bs : list Z) (p : M simcon unit) (s : simcon) : simcon :=
  let s := Simcon (Host (write_bytes vec bs (sc_mem s)) (hlog (sc_host s))) (sc_stdin s) (sc_tty s) in
  match p s with
  | Ret _ s => s
  | Exit _ s => s
  | _ => s
  end.

Definition sim_tmp (s : simcon) : Z := vec_value 64 vec (sc_mem s) 0.

(** A write to a register, and a read. *)
Definition sim_pp_write (adr dat : Z) (s : sim_pp) : sim_pp :=
  if adr =? 0x000 then
    SimPp (vhpi_call (slv 64 (u8 dat)) (sim_console_write vec) (sp_con s)) (sp_divisor s) (sp_irq_recv s) (sp_irq_tx_ready s)
  else if adr =? 0x018 then SimPp (sp_con s) (u8 dat) (sp_irq_recv s) (sp_irq_tx_ready s)
  else if adr =? 0x020 then SimPp (sp_con s) (sp_divisor s) (Z.testbit dat 0) (Z.testbit dat 1)
  else s.

Definition sim_pp_read (adr : Z) (s : sim_pp) : Z * sim_pp :=
  let with_con con := SimPp con (sp_divisor s) (sp_irq_recv s) (sp_irq_tx_ready s) in
  if adr =? 0x008 then
    let con := vhpi_call (replicate 64 0) (sim_console_read vec) (sp_con s) in
    (u8 (sim_tmp con), with_con con)
  else if adr =? 0x010 then
    let con := vhpi_call (replicate 64 0) (sim_console_poll vec) (sp_con s) in
    let data := Z.b2z (Z.testbit (sim_tmp con) 0) in
    (Z.lor (Z.shiftl data 2) (Z.lor 2 (1 - data)), with_con con)
  else if adr =? 0x018 then (sp_divisor s, s)
  else if adr =? 0x020 then (Z.lor (Z.b2z (sp_irq_recv s)) (Z.shiftl (Z.b2z (sp_irq_tx_ready s)) 1), s)
  else (0, s).

(** [irq <= irq_tx_ready_enable] *)
Definition sim_pp_irq (s : sim_pp) : bool := sp_irq_tx_ready s.

(** On the bus: the two halves of a doubleword get the same answer; a byte of a word
    is on its lane. *)
#[export] Instance sim_pp_bus : Bus sim_pp := {|
  bus_load n addr s :=
    if (UART_BASE <=? addr) && (addr <? UART_BASE + 0x1000) then
      let off := addr - UART_BASE in
      let '(v, s) := sim_pp_read (off - off `mod` 4) s in
      (if (n =? 8)%nat then v + v * 2 ^ 32 else Z.shiftr v (8 * (off `mod` 4)), s)
    else (sysreg addr, s);
  bus_store n addr v s :=
    if (UART_BASE <=? addr) && (addr <? UART_BASE + 0x1000) then
      let off := addr - UART_BASE in
      sim_pp_write (off - off `mod` 4) (if (n =? 8)%nat then v else Z.shiftl v (8 * (off `mod` 4))) s
    else s;
|}.

(** ** It is a UART *)

Definition sent_char (m : msg) : option Z :=
  match m with
  | Err "%c" [PZ c] => Some c
  | _ => None
  end.

(** What was written to the standard error output, and the input. *)
Definition sent (s : sim_pp) : list Z := omap sent_char (hlog (sc_host (sp_con s))).
Definition typed (s : sim_pp) : list Z := (λ c, u8 c) <$> sc_stdin (sp_con s).

Lemma vec_mapped bs m : length bs = 64%nat → mapped (write_bytes vec bs m) vec 64.
Proof.
  intros Hl. apply mapped_intro. intros i Hi.
  destruct (lookup_lt_is_Some_2 bs (Z.to_nat i)) as [b Hb]; [lia|]. exists b.
  rewrite <- (bytes_at_lookup _ _ _ _ _ (bytes_at_write vec bs m) Hb). f_equal. lia.
Qed.

Definition on_input (s : simcon) (bs q : list Z) : simcon :=
  Simcon (Host (write_bytes vec bs (write_bytes vec (replicate 64 0) (sc_mem s))) (hlog (sc_host s))) q (enable_raw_mode (sc_tty s)).

Lemma sim_tmp_slv s v q : 0 ≤ v < 2 ^ 64 → sim_tmp (on_input s (slv 64 v) q) = v.
Proof.
  intros Hv. unfold sim_tmp. rewrite (vec_value_slv 64 vec _ v) by apply bytes_at_write.
  rewrite Z.mul_0_l, Z.add_0_l. apply Z.mod_small. exact Hv.
Qed.

Lemma call_poll s : vhpi_call (replicate 64 0) (sim_console_poll vec) s =
  on_input s (slv 64 (if (length (sc_stdin s) =? 0)%nat then 0 else 1)) (sc_stdin s).
Proof. unfold vhpi_call. rewrite sim_console_poll_ok by (by apply vec_mapped). done. Qed.

Lemma call_read s c q : sc_stdin s = c :: q →
  vhpi_call (replicate 64 0) (sim_console_read vec) s = on_input s (slv 64 (u8 c)) q.
Proof. intros Hq. unfold vhpi_call. rewrite (sim_console_read_ok vec c q) by (done || by apply vec_mapped). done. Qed.

Lemma call_write s c : is_byte c →
  let s' := vhpi_call (slv 64 c) (sim_console_write vec) s in
  hlog (sc_host s') = hlog (sc_host s) ++ [Err "%c" [PZ c]] ∧ sc_stdin s' = sc_stdin s.
Proof.
  intros Hc. unfold vhpi_call. rewrite (sim_console_write_ok vec c); [|unfold is_byte in Hc; lia|apply bytes_at_write].
  cbn. by rewrite u8_id.
Qed.

#[export] Program Instance sim_pp_uart : Uart sim_pp potato := {|
  tx_busy _ := 0%nat;
  tx_log := sent;
  rx_wait _ := 0%nat;
  rx_queue := typed;
  tx_bound := 0;
  rx_bound := 0;
|}.
Next Obligation.
  intros d. change (bus_load _ _ d) with (let '(v, s) := sim_pp_read 0x10 d in (v + v * 2 ^ 32, s)).
  unfold sim_pp_read. cbn [Z.eqb Pos.eqb]. rewrite call_poll. unfold typed, sent.
  destruct (sc_stdin (sp_con d)) as [|c q] eqn:Eq; cbn [length Nat.eqb]; rewrite sim_tmp_slv by lia; split_and!; try done.
Qed.
Next Obligation.
  intros d c Hc _. change (bus_store _ _ c d) with (sim_pp_write 0 c d). unfold sim_pp_write. cbn [Z.eqb].
  destruct (call_write (sp_con d) c Hc) as [H1 H2]. unfold sent, typed. cbn [sp_con]. rewrite u8_id by done.
  rewrite H1, H2, omap_app. by split_and!.
Qed.
Next Obligation.
  intros d c q _ Hq. unfold typed in Hq. destruct (sc_stdin (sp_con d)) as [|c' q'] eqn:Eq; [done|]. injection Hq as <- <-.
  change (bus_load _ _ d) with (let '(v, s) := sim_pp_read 0x08 d in (v + v * 2 ^ 32, s)).
  unfold sim_pp_read. cbn [Z.eqb Pos.eqb]. rewrite (call_read _ c' q' Eq), sim_tmp_slv.
  - split_and!; try done. rewrite wrap_wrap. pose proof (u8_byte c') as [].
    replace (u8 c' * 2 ^ 32) with (u8 c' * 2 ^ 24 * 2 ^ 8) by lia. unfold wrap at 1. rewrite Z_mod_plus_full. by apply Z.mod_small.
  - pose proof (u8_byte c') as []. lia.
Qed.

(** ** The hello-world program on it *)

Lemma read_system addr st : (UART_BASE <=? addr) && (addr <? UART_BASE + 0x1000) = false →
  ∃ tr, readq addr st = Ret (wrap 64 (sysreg addr)) (Machine (ram st) (dev st) tr).
Proof. intros Ha. unfold readq, io_load. cbn [bus_load sim_pp_bus]. rewrite Ha. by eexists. Qed.

Lemma console_init_simulated st :
  (tst (wrap 64 (sysreg (SYSCON_BASE + SYS_REG_INFO))) SYS_REG_INFO_HAS_LARGE_SYSCON = true →
   tst (wrap 64 (sysreg (SYSCON_BASE + SYS_REG_UART0_INFO))) SYS_REG_UART_IS_16550 = false) →
  ∃ st', console_init st = Ret potato st' ∧ ram st' = ram st ∧ sp_con (dev st') = sp_con (dev st).
Proof.
  intros Hpot. unfold console_init.
  destruct (read_system (SYSCON_BASE + SYS_REG_CLKINFO) st eq_refl) as [tr1 E1]. step_with E1.
  set (st1 := Machine _ _ tr1). destruct (read_system (SYSCON_BASE + SYS_REG_INFO) st1 eq_refl) as [tr2 E2]. step_with E2.
  set (st2 := Machine _ _ tr2). set (info := tst _ SYS_REG_INFO_HAS_LARGE_SYSCON) in *.
  assert (∃ tr v w, (if info then uart_info ← readq (SYSCON_BASE + SYS_REG_UART0_INFO); mret (uart_info, Z.land uart_info 0xffffffff)
      else mret (0, 0)) st2 = Ret (v, w) (Machine (ram st) (dev st) tr) ∧ tst v SYS_REG_UART_IS_16550 = false) as (tr3 & v & w & E3 & Hv).
  { destruct info; [|by exists tr2, 0, 0].
    destruct (read_system (SYSCON_BASE + SYS_REG_UART0_INFO) st2 eq_refl) as [tr3 E3].
    eexists tr3, _, _. rewrite (bind_Ret _ _ _ _ _ E3). split; [done|]. by apply Hpot. }
  step_with E3. cbv beta iota zeta. rewrite Hv. by eexists.
Qed.

Lemma hello_simulated fuel k l cs q st :
  (0 < fuel)%nat → hello_loaded l (ram st) → (length mw_logo1 < k)%nat →
  (tst (wrap 64 (sysreg (SYSCON_BASE + SYS_REG_INFO))) SYS_REG_INFO_HAS_LARGE_SYSCON = true →
   tst (wrap 64 (sysreg (SYSCON_BASE + SYS_REG_UART0_INFO))) SYS_REG_UART_IS_16550 = false) →
  typed (dev st) = cs ++ q →
  ∃ st', (u ← console_init; hello_body fuel k l u (length cs)) st = Ret tt st' ∧ typed (dev st') = q ∧
    sent (dev st') = sent (dev st) ++ hello_text (u64 (sysreg (SYSCON_BASE + SYS_REG_GIT_INFO))) ++ echo_text cs.
Proof.
  intros Hf Hl Hk Hpot Hq. destruct (console_init_simulated st Hpot) as (st1 & E1 & M1 & C1). step_with E1.
  assert (typed (dev st1) = typed (dev st) ∧ sent (dev st1) = sent (dev st)) as [T1 S1] by (unfold typed, sent; by rewrite C1).
  destruct (@hello_body_ok sim_pp sim_pp_bus potato sim_pp_uart fuel Hf Hf k l (u64 (sysreg (SYSCON_BASE + SYS_REG_GIT_INFO))) cs q st1) as (st2 & E2 & _ & Q2 & L2); try done.
  - by rewrite M1.
  - rewrite <- T1 in Hq. exact Hq.
  - apply (Forall_app is_byte cs q). rewrite <- Hq. unfold typed. apply Forall_fmap, Forall_true. intros ?. apply u8_byte.
  - exists st2. split_and!; [done|done|]. rewrite <- S1. exact L2.
Qed.
End sim_pp.
