(* ===== verification/Dmi.v ===== *)
(** * The debugger's access to the debug module

    [scripts/mw_debug/mw_debug.c]: the backends that carry a command to the
    debug module, and [dmi_read] and [dmi_write], which every command of the
    tool uses.  [struct backend] is a record of functions.  The state of the tool
    is that of the link, what it has printed, and the files of the host.

    What the tool relies on of the other end is the class [DmiTarget]. *)
From S2P Require Import Prelude CMem Vhpi DmiBits.

(** ** The tool *)

Record tool (B : Type) := Tool {
  t_link : B;
  t_log : list msg;
  t_fs : gmap (list Z) (list Z);
  t_disk : nat;          (** words that can still be written to files *)
}.
Arguments Tool {B}.
Arguments t_link {B}.
Arguments t_log {B}.
Arguments t_fs {B}.
Arguments t_disk {B}.

Section tool.
Context {B : Type}.
Abbreviation MT := (M (tool B)).

Definition print (m : msg) : MT unit :=
  modify (λ s, Tool (t_link s) (t_log s ++ [m]) (t_fs s) (t_disk s)).
Definition on_link {A} (f : B → A * B) : MT A := λ s,
  let '(a, l) := f (t_link s) in Ret a (Tool l (t_log s) (t_fs s) (t_disk s)).

(** A command has an operation, an address and, unless the pointer is NULL, a
    data word, which it may change. *)
Record backend := Backend {
  b_init : option (list Z) → Z → MT Z;
  b_reset : MT Z;
  b_command : Z → Z → option Z → MT (Z * option Z);
}.

Definition check (r : Z) (failstr : String.string) : MT unit :=
  if 0 <=? r then mret tt else print (Err "Error %s" [PS (lit failstr)]);; exit_ 1.

(** ** The simulation backend *)

(** The socket: [write] returns a result, [read] at most so many bytes. *)
Record socket := Socket {
  sock_write : list Z → B → Z * B;
  sock_read : nat → B → list Z * B;
}.

Definition sim_reset : MT Z := mret 0.

(** [read] overwrites the start of the buffer that held the request. *)
Definition sim_command (k : socket) (op addr : Z) (data : option Z) : MT (Z * option Z) :=
  let d := default 0 data in
  pkt ← of_option (sim_packet op addr d);
  r ← on_link (sock_write k pkt);
  if r <? 0 then print (Err "failed to write sim command" []);; mret (-1, data) else
  got ← on_link (sock_read k 16);
  let buf := pkt ++ replicate (16 - length pkt) 0 in
  let buf := got ++ drop (length got) buf in
  '(r, d) ← of_option (sim_reply buf);
  mret (r, match data with Some _ => Some d | None => None end).

(** ** The JTAG backend *)

(** What the tool uses of the UrJTAG library: the data register of the active
    instruction, if there is one, and its bit ranges. *)
Record urjtag := Urjtag {
  urj_active_part : B → bool;
  urj_active_instruction : B → bool;
  urj_data_register : B → bool;
  urj_set_in : Z → Z → Z → B → Z * B;      (** value, msb, lsb *)
  urj_shift : B → Z * B;
  urj_get_out : Z → Z → B → Z * B;
  URJ_STATUS_OK : Z;
}.

Definition jtag_reset : MT Z := mret 0.

Definition look {A} (f : B → A) : MT A := λ s, Ret (f (t_link s)) s.

Definition jtag_command (j : urjtag) (op addr : Z) (data : option Z) : MT (Z * option Z) :=
  p ← look (urj_active_part j);
  let d := default 0 data in
  if negb p then mret (-1, data) else
  insn ← look (urj_active_instruction j);
  if negb insn then mret (-1, data) else
  dr ← look (urj_data_register j);
  if negb dr then mret (-1, data) else
  rc ← on_link (urj_set_in j op 1 0);
  if negb (rc =? URJ_STATUS_OK j) then mret (-1, data) else
  rc ← on_link (urj_set_in j d 65 2);
  if negb (rc =? URJ_STATUS_OK j) then mret (-1, data) else
  rc ← on_link (urj_set_in j addr 73 66);
  if negb (rc =? URJ_STATUS_OK j) then mret (-1, data) else
  rc ← on_link (urj_shift j);
  if negb (rc =? URJ_STATUS_OK j) then mret (-1, data) else
  rc ← on_link (urj_get_out j 1 0);
  match data with
  | Some _ => d ← on_link (urj_get_out j 65 2); mret (s32 rc, Some d)
  | None => mret (s32 rc, None)
  end.

(** ** Reads and writes *)

Context (b : backend).

(** [for (;;)] of both: the status is polled until it is 0. *)
Fixpoint dmi_poll (fuel : nat) (data : option Z) : MT (Z * option Z) :=
  match fuel with
  | O => out_of_fuel
  | S fuel =>
      '(rc, data) ← b_command b 0 0 data;
      if rc <? 0 then mret (rc, data) else
      if rc =? 0 then mret (0, data) else
      (if negb (rc =? 3) then print (Err "Unknown status code %d !" [PZ rc]) else mret tt);;
      dmi_poll fuel data
  end.

(** The result, and the data word afterwards. *)
Definition dmi_read (fuel : nat) (addr data : Z) : MT (Z * Z) :=
  '(rc, d) ← b_command b 1 (u8 addr) (Some data);
  let data := default data d in
  if rc <? 0 then mret (rc, data) else
  '(rc, d) ← dmi_poll fuel (Some data);
  mret (rc, default data d).

Definition dmi_write (fuel : nat) (addr data : Z) : MT Z :=
  '(rc, d) ← b_command b 2 (u8 addr) (Some data);
  if rc <? 0 then mret rc else
  '(rc, _) ← dmi_poll fuel None;
  mret rc.
End tool.
Arguments backend : clear implicits.
Arguments socket : clear implicits.
Arguments urjtag : clear implicits.

(** ** What the tool relies on *)

(** A debug module behind a backend: [tgt_read] and [tgt_write] are the effects
    of whole accesses on the link, [waiting l k r l'] says that after [k] more
    polls that find it busy the reply is [r] and the link is [l']. *)
Class DmiTarget {B : Type} (b : backend B) := {
  idle : B → Prop;
  tgt_read : Z → B → Z * B;
  tgt_write : Z → Z → B → B;
  waiting : B → nat → Z → B → Prop;
  busy_bound : nat;
  tgt_read_idle addr l : idle l → idle (snd (tgt_read addr l));
  tgt_read_range addr l : 0 ≤ addr < 256 → idle l → 0 ≤ fst (tgt_read addr l) < 2 ^ 64;
  tgt_write_idle addr v l : idle l → idle (tgt_write addr v l);
  start_read addr d s :
    0 ≤ addr < 256 → idle (t_link s) →
    ∃ rc d' l k, b_command b 1 addr (Some d) s = Ret (rc, Some d') (Tool l (t_log s) (t_fs s) (t_disk s)) ∧
      0 ≤ rc ∧ (k ≤ busy_bound)%nat ∧
      waiting l k (fst (tgt_read addr (t_link s))) (snd (tgt_read addr (t_link s)));
  start_write addr v s :
    0 ≤ addr < 256 → 0 ≤ v < 2 ^ 64 → idle (t_link s) →
    ∃ rc d' l k r, b_command b 2 addr (Some v) s = Ret (rc, d') (Tool l (t_log s) (t_fs s) (t_disk s)) ∧
      0 ≤ rc ∧ (k ≤ busy_bound)%nat ∧ waiting l k r (tgt_write addr v (t_link s));
  poll_busy s k r l' data :
    waiting (t_link s) (S k) r l' →
    ∃ l d, b_command b 0 0 data s = Ret (3, d) (Tool l (t_log s) (t_fs s) (t_disk s)) ∧
      (d = None ↔ data = None) ∧ waiting l k r l';
  poll_done s r l' data :
    waiting (t_link s) 0 r l' →
    b_command b 0 0 data s = Ret (0, (λ _, r) <$> data) (Tool l' (t_log s) (t_fs s) (t_disk s));
}.

Section dmi.
Context {B : Type} (b : backend B) `{!DmiTarget b}.

Definition with_link (s : tool B) (l : B) : tool B := Tool l (t_log s) (t_fs s) (t_disk s).

Lemma dmi_poll_ok fuel k r l' data s :
  waiting (t_link s) k r l' → (k < fuel)%nat →
  dmi_poll b fuel data s = Ret (0, (λ _, r) <$> data) (with_link s l').
Proof.
  revert k data s. induction fuel as [|fuel IH]; intros k data s Hw Hk; [lia|]. cbn [dmi_poll].
  destruct k as [|k].
  - step_with (poll_done s r l' data Hw). done.
  - destruct (poll_busy s k r l' data Hw) as (l & d & Hr & Hd & Hw').
    step_with Hr. cbn [Z.ltb Z.eqb Z.compare Pos.compare Pos.compare_cont Pos.eqb negb].
    rewrite bind_mret, (IH k d (Tool l _ _ _)) by (done || lia). unfold with_link. cbn. f_equal. f_equal.
    destruct d, data; naive_solver.
Qed.

Lemma dmi_read_ok fuel addr data s :
  (busy_bound < fuel)%nat → 0 ≤ addr < 256 → idle (t_link s) →
  dmi_read b fuel addr data s =
  Ret (0, fst (tgt_read addr (t_link s))) (with_link s (snd (tgt_read addr (t_link s)))).
Proof.
  intros Hf Ha Hi. unfold dmi_read. rewrite (wrap_small 8) by done.
  destruct (start_read addr data s Ha Hi) as (rc & d' & l & k & Hr & Hrc & Hk & Hw). step_with Hr.
  rewrite (proj2 (Z.ltb_ge rc 0)) by done.
  rewrite (bind_Ret _ _ _ _ _ (dmi_poll_ok fuel k _ _ _ (Tool l (t_log s) (t_fs s) (t_disk s)) Hw ltac:(lia))).
  done.
Qed.

Lemma dmi_write_ok fuel addr v s :
  (busy_bound < fuel)%nat → 0 ≤ addr < 256 → 0 ≤ v < 2 ^ 64 → idle (t_link s) →
  dmi_write b fuel addr v s = Ret 0 (with_link s (tgt_write addr v (t_link s))).
Proof.
  intros Hf Ha Hv Hi. unfold dmi_write. rewrite (wrap_small 8) by done.
  destruct (start_write addr v s Ha Hv Hi) as (rc & d' & l & k & r & Hr & Hrc & Hk & Hw). step_with Hr.
  rewrite (proj2 (Z.ltb_ge rc 0)) by done.
  rewrite (bind_Ret _ _ _ _ _ (dmi_poll_ok fuel k _ _ _ (Tool l (t_log s) (t_fs s) (t_disk s)) Hw ltac:(lia))).
  done.
Qed.
End dmi.

(** A failing backend ends an access at once with its error. *)
Lemma dmi_read_fails {B} (b : backend B) fuel addr data s rc d s' :
  b_command b 1 (u8 addr) (Some data) s = Ret (rc, d) s' → rc < 0 →
  dmi_read b fuel addr data s = Ret (rc, default data d) s'.
Proof. intros Hr Hrc. unfold dmi_read. step_with Hr. by rewrite (proj2 (Z.ltb_lt rc 0)). Qed.

Lemma dmi_write_fails {B} (b : backend B) fuel addr v s rc d s' :
  b_command b 2 (u8 addr) (Some v) s = Ret (rc, d) s' → rc < 0 →
  dmi_write b fuel addr v s = Ret rc s'.
Proof. intros Hr Hrc. unfold dmi_write. step_with Hr. by rewrite (proj2 (Z.ltb_lt rc 0)). Qed.
