(* ===== verification/MwDebug.v ===== *)
(** * The debugger's commands

    [scripts/mw_debug/mw_debug.c]: the commands on the core, the registers, the
    memory, the log and the triggers, and the command line.  [junk] is the value
    of the local variables the code does not initialise.  Options are as
    [getopt_long] returns them.  The host is little-endian. *)
From S2P Require Import Prelude CMem Ctype Vhpi DmiBits Dmi.

Definition DBG_WB_ADDR : Z := 0x00.
Definition DBG_WB_DATA : Z := 0x01.
Definition DBG_WB_CTRL : Z := 0x02.

(** The registers of a core; [core] is an [unsigned int]. *)
Definition DBG_CORE_CTRL (core : Z) : Z := u32 (0x10 + Z.shiftl core 4).
Definition DBG_CORE_STAT (core : Z) : Z := u32 (0x11 + Z.shiftl core 4).
Definition DBG_CORE_NIA (core : Z) : Z := u32 (0x12 + Z.shiftl core 4).
Definition DBG_CORE_MSR (core : Z) : Z := u32 (0x13 + Z.shiftl core 4).
Definition DBG_CORE_GSPR_INDEX (core : Z) : Z := u32 (0x14 + Z.shiftl core 4).
Definition DBG_CORE_GSPR_DATA (core : Z) : Z := u32 (0x15 + Z.shiftl core 4).
Definition DBG_LOG_ADDR (core : Z) : Z := u32 (0x16 + Z.shiftl core 4).
Definition DBG_LOG_DATA (core : Z) : Z := u32 (0x17 + Z.shiftl core 4).
Definition DBG_LOG_TRIGGER (core : Z) : Z := u32 (0x18 + Z.shiftl core 4).
Definition DBG_LOG_MTRIGGER (core : Z) : Z := u32 (0x19 + Z.shiftl core 4).

Definition DBG_CORE_CTRL_STOP : Z := Z.shiftl 1 0.
Definition DBG_CORE_CTRL_RESET : Z := Z.shiftl 1 1.
Definition DBG_CORE_CTRL_ICRESET : Z := Z.shiftl 1 2.
Definition DBG_CORE_CTRL_STEP : Z := Z.shiftl 1 3.
Definition DBG_CORE_CTRL_START : Z := Z.shiftl 1 4.
Definition DBG_CORE_STAT_STOPPING : Z := Z.shiftl 1 0.
Definition DBG_CORE_STAT_STOPPED : Z := Z.shiftl 1 1.
Definition DBG_CORE_STAT_TERM : Z := Z.shiftl 1 2.
Definition LOG_STOP : Z := 0x80000000.

Definition fast_spr_names : list String.string :=
  ["lr"; "ctr"; "srr0"; "srr1"; "hsrr0"; "hsrr1"; "sprg0"; "sprg1"; "sprg2"; "sprg3";
   "hsprg0"; "hsprg1"; "xer"; "tar"; "fscr"; "lpcr"; "heir"; "cfar"]%string.
Definition ldst_spr_names : list String.string := ["pidr"; "ptcr"; "dsisr"; "dar"]%string.

Section commands.
Context {B : Type} (b : backend B) (core : Z) (fuel : nat) (junk : Z) (debug : bool).
Abbreviation MT := (M (tool B)).
Abbreviation PL s := (PS (lit s)).

Definition dmi_rd (addr data : Z) (what : String.string) : MT Z :=
  '(rc, v) ← dmi_read b fuel addr data; check rc what;; mret v.
Definition dmi_wr (addr v : Z) (what : String.string) : MT unit :=
  rc ← dmi_write b fuel addr v; check rc what.

(** ** The core *)

Definition stat_strings (stat : Z) : String.string * String.string :=
  if tst stat DBG_CORE_STAT_STOPPED then
    ("stopped"%string,
     if negb (tst stat DBG_CORE_STAT_STOPPING) then " (restarting?)"%string
     else if tst stat DBG_CORE_STAT_TERM then " (terminated)"%string else ""%string)
  else if tst stat DBG_CORE_STAT_STOPPING then
    ("stopping"%string, if tst stat DBG_CORE_STAT_TERM then " (terminated)"%string else ""%string)
  else if tst stat DBG_CORE_STAT_TERM then ("odd state (TERM but no STOP)"%string, ""%string)
  else ("running"%string, ""%string).

Definition core_status : MT unit :=
  stat ← dmi_rd (DBG_CORE_STAT core) junk "reading core status";
  nia ← dmi_rd (DBG_CORE_NIA core) junk "reading core NIA";
  msr ← dmi_rd (DBG_CORE_MSR core) junk "reading core MSR";
  (if debug then print (Out "Core status = 0x%llx" [PZ stat]) else mret tt);;
  let '(statstr, statstr2) := stat_strings stat in
  print (Out "Core%u: %s%s" [PZ core; PL statstr; PL statstr2]);;
  print (Out " NIA: %016llx" [PZ nia]);;
  print (Out " MSR: %016llx" [PZ msr]).

Definition core_stop : MT unit := dmi_wr (DBG_CORE_CTRL core) DBG_CORE_CTRL_STOP "stopping core".
Definition core_start : MT unit := dmi_wr (DBG_CORE_CTRL core) DBG_CORE_CTRL_START "starting core".
Definition core_reset : MT unit := dmi_wr (DBG_CORE_CTRL core) DBG_CORE_CTRL_RESET "resetting core".

Definition core_step : MT unit :=
  stat ← dmi_rd (DBG_CORE_STAT core) junk "reading core status";
  if negb (tst stat DBG_CORE_STAT_STOPPED) then print (Out "Core not stopped !" []) else
  dmi_wr (DBG_CORE_CTRL core) DBG_CORE_CTRL_STEP "stepping core".

Definition icache_reset : MT unit :=
  dmi_wr (DBG_CORE_CTRL core) DBG_CORE_CTRL_ICRESET "resetting icache".

(** ** Registers *)

Definition gpr_name (reg : Z) : MT unit :=
  if reg <=? 31 then print (Out "r%ld" [PZ reg])
  else if u64 (reg - 32) <? Z.of_nat (length fast_spr_names) then
    n ← of_option (fast_spr_names !! Z.to_nat (reg - 32)); print (Out "%s" [PL n])
  else if reg <? 60 then print (Out "gspr%ld" [PZ reg])
  else if reg <? 64 then
    n ← of_option (ldst_spr_names !! Z.to_nat (reg - 60)); print (Out "%s" [PL n])
  else print (Out "FPR%ld" [PZ (u64 (reg - 64))]).

(** [count] has become the number of iterations [n] that are left. *)
Fixpoint gpr_loop (n : nat) (reg : Z) : MT unit :=
  match n with
  | O => mret tt
  | S n =>
      dmi_wr (DBG_CORE_GSPR_INDEX core) reg "setting GPR index";;
      data ← dmi_rd (DBG_CORE_GSPR_DATA core) 0xdeadbeef "reading GPR data";
      gpr_name reg;;
      print (Out ":	%016lx" [PZ data]);;
      gpr_loop n (u64 (reg + 1))
  end.

Definition gpr_count (reg count : Z) : Z :=
  if 96 <? u64 (reg + count) then u64 (96 - reg) else count.

Definition gpr_read (reg count : Z) : MT unit :=
  let reg := Z.land reg 0x7f in
  gpr_loop (Z.to_nat (gpr_count reg count)) reg.

(** ** Memory *)

Definition printable (c : Z) : Z := if (0x20 <=? c) && (c <? 0x7f) then c else 46.

(** [putchar] of each. *)
Fixpoint putchars (cs : list Z) : MT unit :=
  match cs with
  | [] => mret tt
  | c :: cs => print (Out "%c" [PZ c]);; putchars cs
  end.

(** [for (i = 0; i < count; i++)] with an [int] index. *)
Fixpoint mem_read_loop (n : nat) (i addr data : Z) : MT unit :=
  match n with
  | O => mret tt
  | S n =>
      '(rc, data) ← dmi_read b fuel DBG_WB_DATA data;
      if rc <? 0 then mret tt else
      print (Out "%016llx: %016llx  " [PZ addr; PZ data]);;
      putchars (printable <$> le_split 8 data);;
      putchars [10];;
      if i =? INT_MAX then stuck else mem_read_loop n (i + 1) (u64 (addr + 8)) data
  end.

Definition mem_read (addr count : Z) : MT unit :=
  rc ← dmi_write b fuel DBG_WB_CTRL 0x7ff;
  if rc <? 0 then mret tt else
  rc ← dmi_write b fuel DBG_WB_ADDR addr;
  if rc <? 0 then mret tt else
  mem_read_loop (Z.to_nat count) 0 addr junk.

Definition mem_write (addr data : Z) : MT unit :=
  dmi_wr DBG_WB_CTRL 0x7ff "writing WB_CTRL";;
  dmi_wr DBG_WB_ADDR addr "writing WB_ADDR";;
  dmi_wr DBG_WB_DATA data "writing WB_DATA".

Definition open_read (filename : list Z) : MT (option (list Z)) := λ s,
  Ret (t_fs s !! filename) s.

(** [count] is an [int]; the progress is shown every kilobyte. *)
Definition progress (count : Z) : MT unit :=
  if INT_MAX <? count then stuck else
  if count `mod` 1024 =? 0 then print (Out "%x..." [PZ count]) else mret tt.

(** The loop of [load] on what is left of the file. *)
Fixpoint load_loop (n : nat) (rest : list Z) (count : Z) : MT Z :=
  match n with
  | O => out_of_fuel
  | S n =>
      match rest with
      | [] => mret count
      | _ =>
          dmi_wr DBG_WB_DATA (le_combine (take 8 rest)) "writing WB_DATA";;
          progress (count + 8);;
          load_loop n (drop 8 rest) (count + 8)
      end
  end.

Definition load_file (filename : list Z) (addr : Z) : MT unit :=
  file ← open_read filename;
  match file with
  | None => print (Err "Failed to open '%s': %s" [PS filename]);; exit_ 1
  | Some contents =>
      dmi_wr DBG_WB_CTRL 0x7ff "writing WB_CTRL";;
      dmi_wr DBG_WB_ADDR addr "writing WB_ADDR";;
      count ← load_loop (S (length contents)) contents 0;
      print (Out "%x done." [PZ count])
  end.

(** [write] of a word at a position of a file: the result. *)
Definition write_word (filename : list Z) (pos : nat) (data : Z) : MT Z := λ s,
  match t_disk s with
  | O => Ret (-1) s
  | S k =>
      let f := default [] (t_fs s !! filename) in
      let f := take pos f ++ le_split 8 data ++ drop (pos + 8) f in
      Ret 8 (Tool (t_link s) (t_log s) (<[filename := f]> (t_fs s)) k)
  end.

Fixpoint save_loop (n : nat) (filename : list Z) (size count data : Z) : MT Z :=
  match n with
  | O => out_of_fuel
  | S n =>
      data ← dmi_rd DBG_WB_DATA data "reading WB_DATA";
      rc ← write_word filename (Z.to_nat count) data;
      if rc <=? 0 then print (Err "Failed to write: %s" []);; mret count else
      progress (count + 8);;
      if size <=? count + 8 then mret (count + 8) else save_loop n filename size (count + 8) data
  end.

(** [open] with [O_CREAT]: a file that is there is not truncated; one that is not
    is created, unless the disk is full. *)
Definition open_create (filename : list Z) : MT bool := λ s,
  match t_fs s !! filename, t_disk s with
  | Some _, _ => Ret true s
  | None, O => Ret false s
  | None, S _ => Ret true (Tool (t_link s) (t_log s) (<[filename := []]> (t_fs s)) (t_disk s))
  end.

Definition save_file (filename : list Z) (addr size : Z) : MT unit :=
  ok ← open_create filename;
  if negb ok then print (Err "Failed to open '%s': %s" [PS filename]);; exit_ 1 else
  dmi_wr DBG_WB_CTRL 0x7ff "writing WB_CTRL";;
  dmi_wr DBG_WB_ADDR addr "writing WB_ADDR";;
  count ← save_loop (S (Z.to_nat size)) filename size 0 junk;
  print (Out "%x done." [PZ count]).

(** ** The log *)

Definition log_start : MT unit := dmi_wr (DBG_LOG_ADDR core) 0 "writing LOG_ADDR".

(** [for (lsize = 1; lsize; lsize <<= 1) if ((waddr >> 1) < lsize) break;] *)
Fixpoint log_size_loop (n : nat) (waddr lsize : Z) : Z :=
  match n with
  | O => lsize
  | S n =>
      if lsize =? 0 then lsize else
      if Z.shiftr waddr 1 <? lsize then lsize
      else log_size_loop n waddr (u64 (Z.shiftl lsize 1))
  end.
Definition log_size (waddr : Z) : Z := log_size_loop 64 waddr 1.

Definition log_stop : MT unit :=
  dmi_wr (DBG_LOG_ADDR core) LOG_STOP "writing LOG_ADDR";;
  laddr ← dmi_rd (DBG_LOG_ADDR core) junk "reading LOG_ADDR";
  let waddr := Z.shiftr laddr 32 in
  let lsize := log_size waddr in
  let waddr := Z.land waddr (Z.lnot lsize) in
  print (Out "Log size = %lu entries, " [PZ lsize]);;
  print (Out "write ptr = %lx" [PZ waddr]).

(** [fopen (filename, "w")] truncates. *)
Definition fopen_w (filename : list Z) : MT bool := λ s,
  match t_fs s !! filename, t_disk s with
  | None, O => Ret false s
  | _, _ => Ret true (Tool (t_link s) (t_log s) (<[filename := []]> (t_fs s)) (t_disk s))
  end.

Fixpoint log_dump_loop (n : nat) (filename : list Z) (i ldata : Z) : MT unit :=
  match n with
  | O => mret tt
  | S n =>
      ldata ← dmi_rd (DBG_LOG_DATA core) ldata "reading LOG_DATA";
      rc ← write_word filename (Z.to_nat (8 * i)) ldata;
      if negb (rc =? 8) then print (Err "Write error on %s" [PS filename]);; exit_ 1 else
      (if i `mod` 128 =? 0 then print (Out "%lu..." [PZ (u64 (i * 8))]) else mret tt);;
      log_dump_loop n filename (i + 1) ldata
  end.

Definition log_dump (filename : list Z) : MT unit :=
  ok ← fopen_w filename;
  if negb ok then print (Err "Failed to create '%s': %s" [PS filename]);; exit_ 1 else
  orig_laddr ← dmi_rd (DBG_LOG_ADDR core) junk "reading LOG_ADDR";
  (if negb (tst orig_laddr LOG_STOP) then dmi_wr (DBG_LOG_ADDR core) LOG_STOP "writing LOG_ADDR"
   else mret tt);;
  let waddr := Z.shiftr orig_laddr 32 in
  let lsize := log_size waddr in
  let waddr := Z.land waddr (Z.lnot lsize) in
  print (Out "Log size = %lu entries" [PZ lsize]);;
  let laddr := Z.lor LOG_STOP (u64 (Z.shiftl waddr 2)) in
  dmi_wr (DBG_LOG_ADDR core) laddr "writing LOG_ADDR";;
  log_dump_loop (Z.to_nat (u64 (lsize * 4))) filename 0 junk;;
  print (Out "%lu done" [PZ (u64 (lsize * 32))]);;
  dmi_wr (DBG_LOG_ADDR core) orig_laddr "writing LOG_ADDR".

(** ** Triggers *)

Definition trig_show (reg : Z) (rd : String.string) (at_ off : String.string) : MT unit :=
  trig ← dmi_rd reg junk rd;
  (if tst trig 1 then print (Out at_ [PZ (Z.land trig (Z.lnot 3))]) else print (Out off []));;
  print (Out ", %striggered" [PL (if tst trig 2 then "" else "not ")%string]).

Definition ltrig_show : MT unit :=
  trig_show (DBG_LOG_TRIGGER core) "reading LOG_TRIGGER"
    "log stop trigger at %lx" "log stop trigger disabled".
Definition ltrig_off : MT unit := dmi_wr (DBG_LOG_TRIGGER core) 0 "writing LOG_TRIGGER".
Definition ltrig_set (addr : Z) : MT unit :=
  dmi_wr (DBG_LOG_TRIGGER core) (Z.lor (Z.land addr (Z.lnot 2)) 1) "writing LOG_TRIGGER".
Definition mtrig_show : MT unit :=
  trig_show (DBG_LOG_MTRIGGER core) "reading LOG_MTRIGGER"
    "log memory stop trigger at %lx" "log memory stop trigger disabled".
Definition mtrig_off : MT unit := dmi_wr (DBG_LOG_MTRIGGER core) 0 "writing LOG_MTRIGGER".
Definition mtrig_set (addr : Z) : MT unit :=
  dmi_wr (DBG_LOG_MTRIGGER core) (Z.lor (Z.land addr (Z.lnot 2)) 1) "writing LOG_MTRIGGER".
End commands.

(** ** Numbers on the command line *)

(** The host's [strtoul] on a whole string: blanks, a sign, a "0x" in base 16,
    digits; a value that does not fit gives [ULONG_MAX]. *)
Definition digit_value (c : Z) : option Z :=
  if (48 <=? c) && (c <=? 57) then Some (c - 48)
  else if (97 <=? c) && (c <=? 122) then Some (c - 87)
  else if (65 <=? c) && (c <=? 90) then Some (c - 55)
  else None.

Fixpoint number (base acc : Z) (s : list Z) : Z :=
  match s with
  | [] => acc
  | c :: s =>
      match digit_value c with
      | Some d => if d <? base then number base (acc * base + d) s else acc
      | None => acc
      end
  end.

Fixpoint skip_blanks (s : list Z) : list Z :=
  match s with
  | c :: s' => if negb (isspace c =? 0) then skip_blanks s' else s
  | [] => []
  end.

Definition has_0x (s : list Z) : bool :=
  match s with
  | 48 :: x :: d :: _ =>
      ((x =? 120) || (x =? 88)) &&
      match digit_value d with Some v => v <? 16 | None => false end
  | _ => false
  end.

Definition strtoul (s : list Z) (base : Z) : Z :=
  let s := skip_blanks s in
  let '(neg, s) := match s with
                   | 45 :: s => (true, s)
                   | 43 :: s => (false, s)
                   | _ => (false, s)
                   end in
  let s := if (base =? 16) && has_0x s then drop 2 s else s in
  let v := number base 0 s in
  if 2 ^ 64 - 1 <? v then 2 ^ 64 - 1 else if neg then u64 (- v) else v.

(** The value of [atoi] for the arguments the code is given: a number that fits
    an [int]. *)
Definition atoi (s : list Z) : Z := s32 (s64 (strtoul s 10)).

(** ** The command line *)

Inductive backend_kind := SimBackend | Bscane2Backend | Ecp5Backend.

(** An option of [getopt_long], with its argument: [optarg] is null for the long
    form [--frequency], which the table declares without an argument. *)
Inductive opt :=
  | OptHelp | OptBackend (arg : list Z) | OptTarget (arg : list Z) | OptDebug
  | OptFreq (arg : option (list Z)) | OptCore (arg : list Z) | OptOther.

Record options := Options {
  o_core : Z; o_backend : option backend_kind; o_target : option (list Z);
  o_freq : Z; o_debug : bool;
}.

Definition usage_text : list String.string :=
  [""; " CPU core:"; "  start"; "  stop"; "  step"; "  creset			core reset";
   "  icreset			icache reset"; ""; " Memory:"; "  mr <hex addr> [count]";
   "  mw <hex addr> <hex value>"; "  load <file> [addr]		If omitted address is 0";
   "  save <file> <addr> <size>"; ""; " Registers:"; "  gpr <reg> [count]"; "  status"; "";
   " Core logging:"; "  lstart			start logging"; "  lstop			stop logging";
   "  ldump <file>			dump log to file"; "  ltrig 			show logging stop trigger status";
   "  ltrig off 			clear logging stop trigger address";
   "  ltrig <addr>			set logging stop trigger address";
   "  mtrig 			show logging stop trigger status";
   "  mtrig off 			clear logging stop trigger address";
   "  mtrig <addr>			set logging stop trigger address"; ""; " JTAG:";
   "  dmiread <hex addr>"; "  dmiwrite <hex addr> <hex value>"; "  quit"]%string.

Section main.
Context {B : Type} (backends : backend_kind → backend B) (fuel : nat) (junk : Z) (argv0 : list Z).
Abbreviation MT := (M (tool B)).

Fixpoint print_errs (l : list String.string) : MT unit :=
  match l with
  | [] => mret tt
  | m :: l => print (Err m []);; print_errs l
  end.

Definition usage {A} : MT A :=
  print (Err "Usage: %s -b <jtag|ecp5|sim> [-c core#] <command> <args>" [PS argv0]);;
  print_errs usage_text;;
  exit_ 1.

Fixpoint parse_opts (opts : list opt) (o : options) : MT options :=
  match opts with
  | [] => mret o
  | OptCore arg :: opts =>
      let core := u32 (atoi arg) in
      if 15 <=? core then print (Err "Core number out of range (max 14)" []);; exit_ 1
      else parse_opts opts (Options core (o_backend o) (o_target o) (o_freq o) (o_debug o))
  | OptHelp :: _ => usage
  | OptBackend arg :: opts =>
      if bool_decide (arg = lit "sim") then
        parse_opts opts (Options (o_core o) (Some SimBackend) (o_target o) (o_freq o) (o_debug o))
      else if bool_decide (arg = lit "jtag") || bool_decide (arg = lit "bscane2") then
        parse_opts opts (Options (o_core o) (Some Bscane2Backend) (o_target o) (o_freq o) (o_debug o))
      else if bool_decide (arg = lit "ecp5") then
        parse_opts opts (Options (o_core o) (Some Ecp5Backend) (o_target o) (o_freq o) (o_debug o))
      else print (Err "Unknown backend %s" [PS arg]);; exit_ 1
  | OptTarget arg :: opts =>
      parse_opts opts (Options (o_core o) (o_backend o) (Some arg) (o_freq o) (o_debug o))
  | OptFreq None :: _ => stuck
  | OptFreq (Some arg) :: opts =>
      let freq := atoi arg in
      if freq =? 0 then print (Err "Bad frequency %s" [PS arg]);; exit_ 1
      else parse_opts opts (Options (o_core o) (o_backend o) (o_target o) freq (o_debug o))
  | OptDebug :: opts =>
      parse_opts opts (Options (o_core o) (o_backend o) (o_target o) (o_freq o) true)
  | OptOther :: opts => parse_opts opts o
  end.

Definition is_word (s : list Z) (name : String.string) : bool := bool_decide (s = lit name).

(** An optional number: the next argument, when it starts like one. *)
Definition opt_number (test : Z → Z) (base dflt : Z) (args : list (list Z)) : Z * list (list Z) :=
  match args with
  | a :: rest => if negb (test (default 0 (head a)) =? 0) then (strtoul a base, rest) else (dflt, args)
  | [] => (dflt, [])
  end.

(** The loop over the commands, which take up to three arguments each; [n]
    bounds their number. *)
Fixpoint run_commands (b : backend B) (core : Z) (n : nat) (args : list (list Z)) : MT unit :=
  match n, args with
  | _, [] => mret tt
  | O, _ => out_of_fuel
  | S n, cmd :: args =>
      let next := run_commands b core n in
      if is_word cmd "dmiread" then
        match args with
        | a :: args =>
            let addr := u8 (strtoul a 16) in
            '(_, data) ← dmi_read b fuel addr junk;
            print (Out "%02x: %016llx" [PZ addr; PZ data]);; next args
        | [] => usage
        end
      else if is_word cmd "dmiwrite" then
        match args with
        | a :: d :: args => dmi_write b fuel (u8 (strtoul a 16)) (strtoul d 16);; next args
        | _ => usage
        end
      else if is_word cmd "creset" then core_reset b core fuel;; next args
      else if is_word cmd "icreset" then icache_reset b core fuel;; next args
      else if is_word cmd "stop" then core_stop b core fuel;; next args
      else if is_word cmd "start" then core_start b core fuel;; next args
      else if is_word cmd "step" then core_step b core fuel junk;; next args
      else if is_word cmd "quit" then dmi_write b fuel 0xff 0;; next args
      else if is_word cmd "status" then next args
      else if is_word cmd "mr" then
        match args with
        | a :: args =>
            let '(count, args) := opt_number isxdigit 16 1 args in
            mem_read b fuel junk (strtoul a 16) count;; next args
        | [] => usage
        end
      else if is_word cmd "mw" then
        match args with
        | a :: d :: args => mem_write b fuel (strtoul a 16) (strtoul d 16);; next args
        | _ => usage
        end
      else if is_word cmd "load" then
        match args with
        | f :: args =>
            let '(addr, args) := opt_number isxdigit 16 0 args in
            load_file b fuel f addr;; next args
        | [] => usage
        end
      else if is_word cmd "save" then
        match args with
        | f :: a :: z :: args => save_file b fuel junk f (strtoul a 16) (strtoul z 16);; next args
        | _ => usage
        end
      else if is_word cmd "gpr" then
        match args with
        | a :: args =>
            let '(count, args) := opt_number isdigit 10 1 args in
            gpr_read b core fuel (strtoul a 10) count;; next args
        | [] => usage
        end
      else if is_word cmd "lstart" then log_start b core fuel;; next args
      else if is_word cmd "lstop" then log_stop b core fuel junk;; next args
      else if is_word cmd "ldump" then
        match args with
        | f :: args => log_dump b core fuel junk f;; next args
        | [] => usage
        end
      else if is_word cmd "ltrig" then
        match args with
        | [] => ltrig_show b core fuel junk;; next []
        | a :: args =>
            (if is_word a "off" then ltrig_off b core fuel else ltrig_set b core fuel (strtoul a 16));; next args
        end
      else if is_word cmd "mtrig" then
        match args with
        | [] => mtrig_show b core fuel junk;; next []
        | a :: args =>
            (if is_word a "off" then mtrig_off b core fuel else mtrig_set b core fuel (strtoul a 16));; next args
        end
      else print (Err "Unknown command %s" [PS cmd]);; usage
  end.

Definition debug_main (opts : list opt) (args : list (list Z)) : MT Z :=
  o ← parse_opts opts (Options 0 None None 0 false);
  let b := backends (default Bscane2Backend (o_backend o)) in
  rc ← b_init b (o_target o) (o_freq o);
  if rc <? 0 then exit_ 1 else
  run_commands b (o_core o) (length args) args;;
  core_status b (o_core o) fuel junk (o_debug o);;
  mret 0.
End main.
