(* ===== verification/MwDebugSpec.v ===== *)
(** * What the debugger's commands do

    Proved against the class [DmiTarget]: each command is a sequence of whole
    accesses to the debug module.  The class [WbTarget] adds what the registers of
    the Wishbone master mean ([wishbone_debug_master.vhdl]); with it, [load] and
    [save] move files to and from the memory of the SoC. *)
From S2P Require Import Prelude CMem Vhpi DmiBits Dmi MwDebug.

(** ** Register addresses *)

Lemma dbg_reg k core :
  0 ≤ core < 15 → 0x10 ≤ k < 0x20 →
  u32 (k + Z.shiftl core 4) = k + 16 * core ∧ 0 ≤ k + 16 * core < 256.
Proof.
  intros Hc Hk. rewrite Z.shiftl_mul_pow2 by lia. change (2 ^ 4) with 16.
  rewrite (wrap_small 32) by lia. lia.
Qed.

(** ** The words of a file *)

(** The words of a file, the last one padded with zeros. *)
Fixpoint words_of (n : nat) (file : list Z) : list Z :=
  match n with
  | O => []
  | S n => match file with [] => [] | _ => le_combine (take 8 file) :: words_of n (drop 8 file) end
  end.

Lemma le_combine_u64 bs : bytes bs → (length bs ≤ 8)%nat → 0 ≤ le_combine bs < 2 ^ 64.
Proof.
  intros Hb Hl. pose proof (le_combine_range bs Hb) as [H1 H2]. split; [done|].
  eapply Z.lt_le_trans; [exact H2|]. apply Z.pow_le_mono_r; lia.
Qed.

(** A file of [k] bytes takes [k / 8] words, rounded up. *)
Lemma length_words_of n file :
  (length file < n)%nat → Z.of_nat (length (words_of n file)) = (Z.of_nat (length file) + 7) `div` 8.
Proof.
  revert file. induction n as [|n IH]; intros file Hn; [lia|].
  destruct file as [|x file]; [done|]. cbn [words_of length].
  rewrite Nat2Z.inj_succ, IH by (rewrite length_drop; cbn in *; lia).
  rewrite length_drop. cbn [length] in *. unfold Z.succ.
  destruct (decide (8 ≤ length file + 1)%nat) as [H8|H8].
  - replace (Z.of_nat (S (length file)) + 7) with (Z.of_nat (S (length file) - 8) + 7 + 1 * 8) by lia.
    by rewrite Z.div_add.
  - replace (S (length file) - 8)%nat with 0%nat by lia. change ((Z.of_nat 0 + 7) `div` 8) with 0.
    apply (Z.div_unique _ _ _ (Z.of_nat (S (length file)) - 1)); lia.
Qed.

Lemma words_of_range n file : bytes file → Forall (λ w, 0 ≤ w < 2 ^ 64) (words_of n file).
Proof.
  revert file. induction n as [|n IH]; intros file Hb; [constructor|].
  destruct file as [|x file]; [constructor|]. cbn [words_of]. constructor.
  - apply le_combine_u64; [by apply Forall_take|rewrite length_take; lia].
  - by apply IH, Forall_drop.
Qed.

Definition word_bytes (ws : list Z) : list Z := flat_map (le_split 8) ws.

Lemma length_word_bytes ws : length (word_bytes ws) = (8 * length ws)%nat.
Proof.
  induction ws as [|w ws IH]; [done|].
  change (word_bytes (w :: ws)) with (le_split 8 w ++ word_bytes ws).
  rewrite length_app, length_le_split. cbn [length]. lia.
Qed.

(** A short word is read back with zeros behind it. *)
Lemma le_split_short bs k :
  bytes bs → le_split (length bs + k) (le_combine bs) = bs ++ replicate k 0.
Proof.
  intros Hb. induction Hb as [|x bs Hb Hbs IH]; cbn [length Nat.add app].
  { induction k as [|k IHk]; [done|]. cbn [le_split replicate]. f_equal. exact IHk. }
  cbn [le_split]. rewrite le_combine_cons by done. unfold is_byte in Hb. f_equal.
  - unfold wrap. change (2 ^ 8) with 256. rewrite (Z.mul_comm 256), Z.mod_add, Z.mod_small by lia. done.
  - rewrite Z.shiftr_div_pow2 by lia. change (2 ^ 8) with 256.
    rewrite (Z.mul_comm 256), Z.div_add, Z.div_small, Z.add_0_l by lia. apply IH.
Qed.

(** The words of a file make up the file, filled with zeros. *)
Lemma word_bytes_words_of n file :
  bytes file → (length file < n)%nat →
  ∃ k, (k < 8)%nat ∧ word_bytes (words_of n file) = file ++ replicate k 0.
Proof.
  revert file. induction n as [|n IH]; intros file Hb Hn; [lia|].
  destruct file as [|x file]; [by exists 0%nat; split; [lia|]|]. cbn [words_of].
  remember (x :: file) as f eqn:Ef. assert (0 < length f)%nat as Hpos by (subst; cbn; lia). clear Ef x file.
  change (word_bytes (?w :: ?ws)) with (le_split 8 w ++ word_bytes ws).
  destruct (decide (8 ≤ length f)%nat) as [H8|H8].
  - destruct (IH (drop 8 f)) as (k & Hk & E); [by apply Forall_drop|rewrite length_drop; lia|].
    exists k. split; [done|]. rewrite E, le_split_combine_n, app_assoc, take_drop; [done|by apply Forall_take|].
    rewrite length_take. lia.
  - exists (8 - length f)%nat. split; [lia|]. rewrite drop_ge, take_ge by lia.
    assert (words_of n [] = []) as -> by (by destruct n). change (word_bytes []) with ([] : list Z).
    rewrite app_nil_r. pose proof (le_split_short f (8 - length f) Hb) as E.
    by replace (length f + (8 - length f))%nat with 8%nat in E by lia.
Qed.

Section commands.
Context {B : Type} (b : backend B) `{!DmiTarget b} (core : Z) (fuel : nat) (junk : Z).
Hypothesis fuel_ok : (busy_bound < fuel)%nat.
Hypothesis core_ok : 0 ≤ core < 15.

Definition says (s : tool B) (ms : list msg) : tool B :=
  Tool (t_link s) (t_log s ++ ms) (t_fs s) (t_disk s).

Lemma dmi_rd_ok addr data what s :
  0 ≤ addr < 256 → idle (t_link s) →
  dmi_rd b fuel addr data what s =
  Ret (fst (tgt_read addr (t_link s))) (with_link s (snd (tgt_read addr (t_link s)))).
Proof.
  intros Ha Hi. unfold dmi_rd. by rewrite (bind_Ret _ _ _ _ _ (dmi_read_ok b fuel addr data s fuel_ok Ha Hi)).
Qed.

Lemma dmi_wr_ok addr v what s :
  0 ≤ addr < 256 → 0 ≤ v < 2 ^ 64 → idle (t_link s) →
  dmi_wr b fuel addr v what s = Ret tt (with_link s (tgt_write addr v (t_link s))).
Proof.
  intros Ha Hv Hi. unfold dmi_wr. by rewrite (bind_Ret _ _ _ _ _ (dmi_write_ok b fuel addr v s fuel_ok Ha Hv Hi)).
Qed.

(** ** The core *)

Lemma core_ctrl_ok v what s :
  0 ≤ v < 2 ^ 64 → idle (t_link s) →
  dmi_wr b fuel (DBG_CORE_CTRL core) v what s =
  Ret tt (with_link s (tgt_write (0x10 + 16 * core) v (t_link s))).
Proof.
  intros Hv Hi. unfold DBG_CORE_CTRL. destruct (dbg_reg 0x10 core core_ok ltac:(lia)) as [-> H].
  by apply dmi_wr_ok.
Qed.

Lemma core_step_ok s :
  idle (t_link s) →
  let stat := fst (tgt_read (0x11 + 16 * core) (t_link s)) in
  let l := snd (tgt_read (0x11 + 16 * core) (t_link s)) in
  core_step b core fuel junk s =
  Ret tt (if Z.testbit stat 1 then with_link s (tgt_write (0x10 + 16 * core) 8 l)
          else says (with_link s l) [Out "Core not stopped !" []]).
Proof.
  intros Hi stat l. unfold core_step, DBG_CORE_STAT.
  destruct (dbg_reg 0x11 core core_ok ltac:(lia)) as [-> H].
  rewrite (bind_Ret _ _ _ _ _ (dmi_rd_ok _ junk "reading core status" s H Hi)). fold stat l.
  change DBG_CORE_STAT_STOPPED with (2 ^ 1). rewrite tst_pow2 by lia.
  destruct (Z.testbit stat 1); cbn [negb]; [|done].
  rewrite core_ctrl_ok; [done|by vm_compute|]. apply tgt_read_idle. done.
Qed.

(** ** Loading *)

Definition write_words (ws : list Z) (l : B) : B := foldl (λ l w, tgt_write DBG_WB_DATA w l) l ws.

(** The progress messages of a loop from [count] on. *)
Fixpoint progress_log (n : nat) (count : Z) : list msg :=
  match n with
  | O => []
  | S n => (if (count + 8) `mod` 1024 =? 0 then [Out "%x..." [PZ (count + 8)]] else []) ++
           progress_log n (count + 8)
  end.

Lemma progress_ok count s :
  count ≤ INT_MAX →
  progress count s = Ret tt (says s (if count `mod` 1024 =? 0 then [Out "%x..." [PZ count]] else [])).
Proof.
  intros Hc. unfold progress. rewrite (proj2 (Z.ltb_ge INT_MAX count)) by done.
  destruct (count `mod` 1024 =? 0); [done|]. unfold says. rewrite app_nil_r. by destruct s.
Qed.

Lemma load_loop_ok n file count s :
  bytes file → (length file < n)%nat → idle (t_link s) → 0 ≤ count →
  count + 8 * Z.of_nat (length (words_of n file)) ≤ INT_MAX →
  let ws := words_of n file in
  load_loop b fuel n file count s =
  Ret (count + 8 * Z.of_nat (length ws))
      (says (with_link s (write_words ws (t_link s))) (progress_log (length ws) count)).
Proof.
  revert file count s. induction n as [|n IH]; intros file count s Hb Hn Hi Hc Hmax; [lia|].
  destruct file as [|x file]; cbn [load_loop words_of] in *.
  { cbn. rewrite Z.add_0_r. unfold says, with_link. cbn. rewrite app_nil_r. by destruct s. }
  remember (x :: file) as f eqn:Ef. assert (0 < length f)%nat as Hpos by (subst; cbn; lia). clear x file Ef.
  cbn [length write_words foldl progress_log] in *. set (w := le_combine (take 8 f)).
  assert (0 ≤ w < 2 ^ 64) as Hw by (apply le_combine_u64; [by apply Forall_take|rewrite length_take; lia]).
  rewrite (bind_Ret _ _ _ _ _ (dmi_wr_ok DBG_WB_DATA w _ s ltac:(unfold DBG_WB_DATA; lia) Hw Hi)).
  assert (length (drop 8 f) = length f - 8)%nat as Hd by apply length_drop.
  rewrite (bind_Ret _ _ _ _ _ (progress_ok (count + 8) _ ltac:(lia))).
  rewrite IH; [|by apply Forall_drop|lia|by apply tgt_write_idle|lia|lia].
  f_equal; [lia|]. unfold says, with_link. cbn. by rewrite <- app_assoc.
Qed.

(** A file is written to the target word by word, from the address on. *)
Lemma load_file_ok name contents addr s :
  t_fs s !! name = Some contents → bytes contents → 0 ≤ addr < 2 ^ 64 → idle (t_link s) →
  let ws := words_of (S (length contents)) contents in
  8 * Z.of_nat (length ws) ≤ INT_MAX →
  ∃ log, load_file b fuel name addr s =
    Ret tt (says (with_link s (write_words ws (tgt_write DBG_WB_ADDR addr
                    (tgt_write DBG_WB_CTRL 0x7ff (t_link s))))) log).
Proof.
  intros Hf Hb Ha Hi ws Hmax. unfold load_file.
  rewrite (bind_Ret _ _ s (Some contents) s) by (unfold open_read; by rewrite Hf).
  rewrite (bind_Ret _ _ _ _ _ (dmi_wr_ok DBG_WB_CTRL 0x7ff _ s ltac:(unfold DBG_WB_CTRL; lia) ltac:(lia) Hi)).
  set (s1 := with_link s _). assert (idle (t_link s1)) as Hi1 by (by apply tgt_write_idle).
  rewrite (bind_Ret _ _ _ _ _ (dmi_wr_ok DBG_WB_ADDR addr _ s1 ltac:(unfold DBG_WB_ADDR; lia) Ha Hi1)).
  set (s2 := with_link s1 _). assert (idle (t_link s2)) as Hi2 by (by apply tgt_write_idle).
  rewrite (bind_Ret _ _ _ _ _ (load_loop_ok (S (length contents)) contents 0 s2 Hb ltac:(lia) Hi2
    ltac:(lia) ltac:(fold ws; lia))).
  fold ws. eexists. unfold print, modify, says, with_link. cbn. by rewrite <- app_assoc.
Qed.

(** ** Saving *)

(** [n] words read one after the other. *)
Fixpoint read_words (n : nat) (l : B) : list Z * B :=
  match n with
  | O => ([], l)
  | S n => let '(w, l) := tgt_read DBG_WB_DATA l in
           let '(ws, l) := read_words n l in (w :: ws, l)
  end.

(** At least one word is saved, and enough for [size] bytes. *)
Definition save_words (size : Z) : nat := Nat.max 1 (Z.to_nat ((size + 7) `div` 8)).

Lemma read_words_length n l : length (fst (read_words n l)) = n.
Proof.
  revert l. induction n as [|n IH]; intros l; [done|]. cbn [read_words].
  destruct (tgt_read DBG_WB_DATA l) as [w l1]. specialize (IH l1). destruct (read_words n l1). cbn in *. lia.
Qed.

Definition with_file (s : tool B) (name f : list Z) (k : nat) : tool B :=
  Tool (t_link s) (t_log s) (<[name := f]> (t_fs s)) k.

(** [done] bytes of the file [old] have been replaced by [new]. *)
Lemma save_loop_ok n name size count data s new old :
  (0 < n)%nat → (n ≤ t_disk s)%nat → idle (t_link s) →
  count = Z.of_nat (length new) → t_fs s !! name = Some (new ++ drop (length new) old) →
  (∀ k, (k < n)%nat → (size ≤ count + 8 * Z.of_nat (S k)) ↔ (k = n - 1)%nat) →
  count + 8 * Z.of_nat n ≤ INT_MAX →
  let ws := fst (read_words n (t_link s)) in
  let l := snd (read_words n (t_link s)) in
  ∀ fuel', (n ≤ fuel')%nat →
  save_loop b fuel fuel' name size count data s =
  Ret (count + 8 * Z.of_nat n)
    (says (with_link (with_file s name (new ++ word_bytes ws ++ drop (length new + 8 * n) old)
             (t_disk s - n)) l) (progress_log n count)).
Proof.
  revert count data s new. induction n as [|n IH]; intros count data s new Hn Hdisk Hi Hc Hfile Hsize Hmax ws l fuel' Hf';
    [lia|]. destruct fuel' as [|fuel']; [lia|]. cbn [save_loop].
  rewrite (bind_Ret _ _ _ _ _ (dmi_rd_ok DBG_WB_DATA data _ s ltac:(unfold DBG_WB_DATA; lia) Hi)).
  unfold ws, l. cbn [read_words]. destruct (tgt_read DBG_WB_DATA (t_link s)) as [w l1] eqn:Er.
  pose proof (tgt_read_idle DBG_WB_DATA (t_link s) Hi) as Hi1. rewrite Er in Hi1. cbn [fst snd] in *.
  set (f1 := new ++ le_split 8 w ++ drop (length new + 8) old).
  destruct (t_disk s) as [|k] eqn:Ek; [lia|].
  rewrite (bind_Ret _ _ _ 8 (with_link (with_file s name f1 k) l1)).
  2:{ unfold write_word, with_link, with_file. cbn. rewrite Ek, Hfile. cbn. subst count. rewrite Nat2Z.id.
      rewrite take_app_length, drop_app_ge by lia. rewrite drop_drop.
      replace (length new + (length new + 8 - length new))%nat with (length new + 8)%nat by lia. done. }
  cbn [Z.leb Z.compare]. rewrite (bind_Ret _ _ _ _ _ (progress_ok (count + 8) _ ltac:(lia))).
  pose proof (Hsize 0%nat ltac:(lia)) as Hs0. destruct n as [|n].
  - rewrite (proj2 (Z.leb_le size (count + 8))) by lia. cbn [read_words fst snd word_bytes flat_map progress_log].
    rewrite !app_nil_r. unfold f1. replace (S k - 1)%nat with k by lia. done.
  - rewrite (proj2 (Z.leb_gt size (count + 8))) by lia.
    set (s1 := says _ _).
    assert (length (new ++ le_split 8 w) = length new + 8)%nat as Hnl by (by rewrite length_app, length_le_split).
    rewrite (IH (count + 8) w s1 (new ++ le_split 8 w)); try lia.
    + unfold s1, says, with_link, with_file. cbn [t_link t_log t_fs t_disk].
      destruct (read_words (S n) l1) as [ws' l'] eqn:Erw. cbn [fst snd word_bytes flat_map].
      rewrite insert_insert_eq, Hnl. f_equal; [lia|]. f_equal.
      * cbn [progress_log]. by rewrite <- app_assoc.
      * f_equal. rewrite <- !app_assoc. do 2 f_equal. unfold word_bytes. do 2 f_equal. lia.
    + cbn. lia.
    + done.
    + cbn [t_fs s1 says with_link with_file]. rewrite lookup_insert_eq, Hnl. unfold f1. by rewrite <- app_assoc.
    + intros k' Hk'. specialize (Hsize (S k') ltac:(lia)).
      replace (count + 8 + 8 * Z.of_nat (S k')) with (count + 8 * Z.of_nat (S (S k'))) by lia.
      rewrite Hsize. lia.
Qed.

Lemma save_file_ok name addr size s :
  0 ≤ addr < 2 ^ 64 → 0 ≤ size → idle (t_link s) →
  let n := save_words size in
  (n ≤ t_disk s)%nat → 8 * Z.of_nat n ≤ INT_MAX →
  let old := default [] (t_fs s !! name) in
  let rd := read_words n (tgt_write DBG_WB_ADDR addr (tgt_write DBG_WB_CTRL 0x7ff (t_link s))) in
  ∃ log, save_file b fuel junk name addr size s =
    Ret tt (says (with_link (with_file s name (word_bytes (fst rd) ++ drop (8 * n) old) (t_disk s - n))
                    (snd rd)) log).
Proof.
  intros Ha Hz Hi n Hdisk Hmax old rd. unfold save_file.
  assert (∃ s0, open_create name s = Ret true s0 ∧ t_link s0 = t_link s ∧ t_log s0 = t_log s ∧
    t_disk s0 = t_disk s ∧ t_fs s0 !! name = Some old ∧ ∀ f, <[name := f]> (t_fs s0) = <[name := f]> (t_fs s))
    as (s0 & Hr0 & L0 & G0 & D0 & F0 & I0).
  { unfold open_create, old. destruct (t_disk s) as [|k] eqn:Ed; [unfold n, save_words in Hdisk; lia|].
    destruct (t_fs s !! name) as [f|] eqn:E; cbn; eexists; (split; [done|]); cbn.
    - by rewrite E.
    - rewrite lookup_insert_eq. split_and!; try done. intros f. by rewrite insert_insert_eq. }
  rewrite (bind_Ret _ _ _ _ _ Hr0). cbn [negb]. rewrite <- L0 in Hi.
  rewrite (bind_Ret _ _ _ _ _ (dmi_wr_ok DBG_WB_CTRL 0x7ff _ s0 ltac:(unfold DBG_WB_CTRL; lia) ltac:(lia) Hi)).
  set (s1 := with_link s0 _). assert (idle (t_link s1)) as Hi1 by (by apply tgt_write_idle).
  rewrite (bind_Ret _ _ _ _ _ (dmi_wr_ok DBG_WB_ADDR addr _ s1 ltac:(unfold DBG_WB_ADDR; lia) Ha Hi1)).
  set (s2 := with_link s1 _). assert (idle (t_link s2)) as Hi2 by (by apply tgt_write_idle).
  pose proof (Z.div_mod (size + 7) 8 ltac:(lia)) as Hdm. pose proof (Z.mod_pos_bound (size + 7) 8 ltac:(lia)).
  rewrite (bind_Ret _ _ _ _ _ (save_loop_ok n name size 0 junk s2 [] old ltac:(unfold n, save_words; lia)
    ltac:(cbn; lia) Hi2 ltac:(done) F0 ltac:(unfold n, save_words; cbn; lia) ltac:(lia)
    (S (Z.to_nat size)) ltac:(unfold n, save_words; lia))).
  cbn [length Nat.add app]. unfold rd. rewrite <- L0. eexists.
  unfold print, modify, says, with_link, with_file. cbn. rewrite I0, G0, D0. by rewrite <- app_assoc.
Qed.
End commands.

(** ** The log *)

Lemma log_size_loop_ok n waddr w j :
  Z.shiftr waddr 1 = w → 0 ≤ w → 0 ≤ j → j + Z.of_nat n ≤ 64 → (0 < j → 2 ^ (j - 1) ≤ w) → w < 2 ^ (j + Z.of_nat n - 1) →
  (0 < n)%nat →
  ∃ k, 0 ≤ k < 64 ∧ log_size_loop n waddr (2 ^ j) = 2 ^ k ∧ w < 2 ^ k ∧ (0 < k → 2 ^ (k - 1) ≤ w).
Proof.
  intros Ew. revert j. induction n as [|n IH]; intros j Hw Hj Hn Hlo Hhi Hpos; [lia|]. cbn [log_size_loop].
  assert (0 < 2 ^ j) by (apply Z.pow_pos_nonneg; lia).
  rewrite (proj2 (Z.eqb_neq (2 ^ j) 0)) by lia.
  rewrite Ew. destruct (Z.ltb_spec w (2 ^ j)) as [Hlt|Hge].
  { exists j. split_and!; try done; lia. }
  destruct n as [|n]; [exfalso; replace (j + Z.of_nat 1 - 1) with j in Hhi by lia; lia|].
  rewrite Z.shiftl_mul_pow2, <- Z.pow_add_r, (wrap_small 64) by
    first [lia | split; [lia|apply Z.pow_lt_mono_r; lia]].
  apply IH; try lia.
  - intros _. by replace (j + 1 - 1) with j by lia.
  - by replace (j + 1 + Z.of_nat (S n) - 1) with (j + Z.of_nat (S (S n)) - 1) by lia.
Qed.

(** ** Registers *)

(** The count is cut so that no register above 95 is read, as long as the first
    is not one. *)
Lemma gpr_count_ok reg count :
  0 ≤ reg ≤ 96 → 0 ≤ count < 2 ^ 63 →
  gpr_count reg count = Z.min count (96 - reg).
Proof.
  intros Hr Hc. unfold gpr_count. rewrite (wrap_small 64 (reg + count)), (wrap_small 64 (96 - reg)) by lia.
  destruct (Z.ltb_spec 96 (reg + count)); lia.
Qed.

(** From register 97 on the count wraps round. *)
Lemma gpr_count_wraps reg count :
  96 < reg ≤ 127 → 0 ≤ count < 2 ^ 63 → gpr_count reg count = 2 ^ 64 - (reg - 96).
Proof.
  intros Hr Hc. unfold gpr_count. rewrite (wrap_small 64 (reg + count)) by lia.
  rewrite (proj2 (Z.ltb_lt 96 (reg + count))) by lia. unfold wrap.
  rewrite <- (Z.mod_add (96 - reg) 1) by lia. rewrite Z.mod_small by lia. lia.
Qed.

(** ** The memory of the SoC *)

(** The bus address the Wishbone master drives for the value of its address
    register: the number of a doubleword, in 29 bits. *)
Definition wb_adr (a : Z) : Z := wrap 29 (Z.shiftr a 3).

Lemma wb_adr_u64 a : wb_adr (u64 a) = wb_adr a.
Proof.
  unfold wb_adr, wrap. apply Z.bits_inj'. intros i Hi.
  destruct (Z.ltb_spec i 29).
  - rewrite !Z.mod_pow2_bits_low, !Z.shiftr_spec, Z.mod_pow2_bits_low by lia. done.
  - by rewrite !Z.mod_pow2_bits_high by lia.
Qed.

Lemma wb_adr_add a i : wb_adr (a + 8 * i) = (a `div` 8 + i) `mod` 2 ^ 29.
Proof.
  unfold wb_adr, wrap. rewrite Z.shiftr_div_pow2 by lia. change (2 ^ 3) with 8.
  by rewrite (Z.mul_comm 8 i), Z.div_add by lia.
Qed.

Lemma wb_adr_next a a' : wb_adr a = wb_adr a' → wb_adr (a + 8) = wb_adr (a' + 8).
Proof.
  intros E. pose proof (wb_adr_add a 1) as E1. pose proof (wb_adr_add a' 1) as E2.
  pose proof (wb_adr_add a 0) as E3. pose proof (wb_adr_add a' 0) as E4.
  rewrite !Z.mul_0_r, !Z.add_0_r in E3, E4. rewrite !Z.mul_1_r in E1, E2.
  rewrite E1, E2, <- (Zplus_mod_idemp_l (a `div` 8)), <- (Zplus_mod_idemp_l (a' `div` 8)). congruence.
Qed.

(** Words less than 4 GB apart have addresses of their own. *)
Lemma wb_adr_ne a i j : 0 ≤ i < j → j < 2 ^ 29 → wb_adr (a + 8 * i) ≠ wb_adr (a + 8 * j).
Proof.
  rewrite !wb_adr_add. intros Hij Hj E.
  pose proof (Z.div_mod (a `div` 8 + i) (2 ^ 29) ltac:(lia)).
  pose proof (Z.div_mod (a `div` 8 + j) (2 ^ 29) ltac:(lia)). lia.
Qed.

(** The Wishbone master of [wishbone_debug_master.vhdl]: the doublewords of the SoC's
    memory, by bus address, and the address register, which a data access with the
    control value [0x7ff] advances.  Behind the bus addresses [wb_ram] there is
    memory, behind the others devices or nothing. *)
Class WbTarget {B : Type} (b : backend B) `{!DmiTarget b} := {
  wb_ram : Z → Prop;
  wb_word : B → Z → Z;
  wb_addr : B → Z;
  wb_auto : B → Prop;
  wb_ctrl_write l : idle l → let l' := tgt_write DBG_WB_CTRL 0x7ff l in
    wb_auto l' ∧ ∀ x, wb_word l' x = wb_word l x;
  wb_addr_write l a : idle l → 0 ≤ a < 2 ^ 64 → let l' := tgt_write DBG_WB_ADDR a l in
    (wb_auto l → wb_auto l') ∧ wb_addr l' = a ∧ ∀ x, wb_word l' x = wb_word l x;
  wb_data_write l v : idle l → wb_auto l → 0 ≤ v < 2 ^ 64 → wb_ram (wb_adr (wb_addr l)) →
    let l' := tgt_write DBG_WB_DATA v l in
    wb_auto l' ∧ wb_addr l' = u64 (wb_addr l + 8) ∧
    ∀ x, wb_ram x → wb_word l' x = if x =? wb_adr (wb_addr l) then v else wb_word l x;
  wb_data_read l : idle l → wb_auto l → wb_ram (wb_adr (wb_addr l)) →
    let '(v, l') := tgt_read DBG_WB_DATA l in
    v = wb_word l (wb_adr (wb_addr l)) ∧ wb_auto l' ∧ wb_addr l' = u64 (wb_addr l + 8) ∧
    ∀ x, wb_ram x → wb_word l' x = wb_word l x;
}.

Section wb.
Context {B : Type} (b : backend B) `{!DmiTarget b, !WbTarget b}.

(** There is memory for [n] words from the address [a] on. *)
Definition wb_room (a : Z) (n : nat) : Prop :=
  ∀ i, (i < n)%nat → wb_ram (wb_adr (a + 8 * Z.of_nat i)).

(** The words [ws] are at [a] and the following addresses. *)
Definition wb_holds (l : B) (a : Z) (ws : list Z) : Prop :=
  ∀ i w, ws !! i = Some w → wb_word l (wb_adr (a + 8 * Z.of_nat i)) = w.

(** The two writes every transfer starts with. *)
Definition wb_setup (addr : Z) (l : B) : B :=
  tgt_write DBG_WB_ADDR addr (tgt_write DBG_WB_CTRL 0x7ff l).

Lemma wb_setup_ok addr l :
  idle l → 0 ≤ addr < 2 ^ 64 →
  idle (wb_setup addr l) ∧ wb_auto (wb_setup addr l) ∧ wb_addr (wb_setup addr l) = addr ∧
  ∀ x, wb_word (wb_setup addr l) x = wb_word l x.
Proof.
  intros Hl Ha. destruct (wb_ctrl_write l Hl) as [A1 W1].
  pose proof (tgt_write_idle DBG_WB_CTRL 0x7ff l Hl) as Hl1.
  destruct (wb_addr_write _ addr Hl1 Ha) as (A2 & D2 & W2).
  split; [by apply tgt_write_idle|]. split; [by apply A2|]. split; [done|].
  intros x. unfold wb_setup. by rewrite W2, W1.
Qed.

Lemma wb_room_S a n : wb_room a (S n) → wb_ram (wb_adr a) ∧ wb_room (a + 8) n.
Proof.
  intros H. split; [rewrite <- (Z.add_0_r a); by apply (H 0%nat ltac:(lia))|].
  intros i Hi. replace (a + 8 + 8 * Z.of_nat i) with (a + 8 * Z.of_nat (S i)) by lia. apply H. lia.
Qed.

Lemma write_words_ok ws l a :
  idle l → wb_auto l → wb_adr (wb_addr l) = wb_adr a → Z.of_nat (length ws) ≤ 2 ^ 29 →
  wb_room a (length ws) → Forall (λ w, 0 ≤ w < 2 ^ 64) ws →
  idle (write_words b ws l) ∧ wb_holds (write_words b ws l) a ws ∧
  ∀ x, wb_ram x → (∀ i, (i < length ws)%nat → x ≠ wb_adr (a + 8 * Z.of_nat i)) →
    wb_word (write_words b ws l) x = wb_word l x.
Proof.
  revert l a. induction ws as [|w ws IH]; intros l a Hi Hau Had Hlen Hroom Hws; cbn [write_words foldl].
  { split_and!; [done| |done]. intros i w Hw. done. }
  apply Forall_cons in Hws as [Hw Hws]. cbn [length] in Hlen, Hroom. apply wb_room_S in Hroom as [Hr0 Hroom].
  destruct (wb_data_write l w Hi Hau Hw ltac:(by rewrite Had)) as (Hau' & Had' & Hw').
  pose proof (tgt_write_idle DBG_WB_DATA w l Hi) as Hi'. set (l' := tgt_write DBG_WB_DATA w l) in *.
  fold (write_words b ws l'). rewrite Had in Hw'.
  destruct (IH l' (a + 8)) as (Hi2 & Hh2 & Hf2); [done|done| |lia|done|done|].
  { rewrite Had', wb_adr_u64. by apply wb_adr_next. }
  split_and!; [done| |].
  - intros [|i] v Hv; cbn in Hv.
    + injection Hv as ->. rewrite Z.mul_0_r, Z.add_0_r, Hf2; [by rewrite Hw', Z.eqb_refl|done|].
      intros i Hi3 E. apply (wb_adr_ne a 0 (Z.of_nat (S i))); [lia..|].
      rewrite Z.mul_0_r, Z.add_0_r, E. f_equal. lia.
    + rewrite <- (Hh2 i v Hv). do 2 f_equal. lia.
  - intros x Hx Hne. rewrite Hf2, Hw', (proj2 (Z.eqb_neq x (wb_adr a))); [done| |done|done|].
    + specialize (Hne 0%nat ltac:(cbn; lia)). by rewrite Z.mul_0_r, Z.add_0_r in Hne.
    + intros i Hi3 E. apply (Hne (S i)); [cbn; lia|]. rewrite E. f_equal. lia.
Qed.

Lemma read_words_ok n l a ws :
  idle l → wb_auto l → wb_adr (wb_addr l) = wb_adr a → wb_room a n →
  length ws = n → wb_holds l a ws → fst (read_words b n l) = ws.
Proof.
  revert l a ws. induction n as [|n IH]; intros l a ws Hi Hau Had Hroom Hws Hh.
  { by destruct ws. }
  destruct ws as [|w ws]; [done|]. cbn [read_words]. apply wb_room_S in Hroom as [Hr0 Hroom].
  pose proof (wb_data_read l Hi Hau ltac:(by rewrite Had)) as Hr. pose proof (tgt_read_idle DBG_WB_DATA l Hi) as Hi'.
  destruct (tgt_read DBG_WB_DATA l) as [v l1]. cbn [snd] in Hi'. destruct Hr as (-> & Hau' & Had' & Hw').
  pose proof (Hh 0%nat w eq_refl) as Hw0. rewrite Z.mul_0_r, Z.add_0_r in Hw0. rewrite Had, Hw0.
  specialize (IH l1 (a + 8) ws Hi' Hau').
  destruct (read_words b n l1) as [ws' l']. cbn [fst] in *. rewrite IH; [done| |done|cbn in Hws; lia|].
  - rewrite Had', wb_adr_u64. by apply wb_adr_next.
  - intros i x Hx. rewrite Hw'.
    + rewrite <- (Hh (S i) x Hx). do 2 f_equal. lia.
    + apply Hroom. cbn in Hws. apply lookup_lt_Some in Hx. lia.
Qed.
End wb.

(** ** A debug module of the class *)

(** Every access takes two polls; registers 0 to 2 are the Wishbone master's.  The
    others are of core 0 and kept in a map, with the register file from 0x1000 on, a
    trace buffer of two entries from 0x2000 on, and its write pointer at 0x3000. *)
Record dbg := Dbg {
  d_words : gmap Z Z;
  d_addr : Z;
  d_ctrl : Z;
  d_regs : gmap Z Z;
  d_pending : option (nat * Z);
}.

Definition dbg_step (l : dbg) : Z := if Z.testbit (d_ctrl l) 8 then 2 ^ Z.shiftr (d_ctrl l) 9 else 0.

Definition dreg (l : dbg) (r : Z) : Z := u64 (default 0 (d_regs l !! r)).
Definition dword (l : dbg) (a : Z) : Z := u64 (default 0 (d_words l !! a)).
Definition dset (l : dbg) (r v : Z) : dbg := Dbg (d_words l) (d_addr l) (d_ctrl l) (<[r := v]> (d_regs l)) None.
Definition dbg_clear (l : dbg) : dbg := Dbg (d_words l) (d_addr l) (d_ctrl l) (d_regs l) None.

Definition dbg_read (addr : Z) (l : dbg) : Z * dbg :=
  if addr =? DBG_WB_DATA then
    (dword l (wb_adr (d_addr l)),
     Dbg (d_words l) (u64 (d_addr l + dbg_step l)) (d_ctrl l) (d_regs l) None)
  else if addr =? 0x15 then (dreg l (0x1000 + wrap 8 (dreg l 0x14)), dbg_clear l)
  else if addr =? 0x16 then ((2 ^ 1 + wrap 1 (dreg l 0x3000)) * 2 ^ 32 + u32 (dreg l 0x16), dbg_clear l)
  else if addr =? 0x17 then
    let a := u32 (dreg l 0x16) in
    (dreg l (0x2000 + a `mod` 8), dset l 0x16 (a - a `mod` 8 + (a + 1) `mod` 8))
  else (dreg l addr, dbg_clear l).

Definition dbg_write (addr v : Z) (l : dbg) : dbg :=
  if addr =? DBG_WB_DATA then
    Dbg (<[wb_adr (d_addr l) := v]> (d_words l)) (u64 (d_addr l + dbg_step l)) (d_ctrl l) (d_regs l) None
  else if addr =? DBG_WB_ADDR then Dbg (d_words l) v (d_ctrl l) (d_regs l) None
  else if addr =? DBG_WB_CTRL then Dbg (d_words l) (d_addr l) (wrap 11 v) (d_regs l) None
  else dset l addr v.

Definition dbg_pend (k : nat) (v : Z) (l : dbg) : dbg :=
  Dbg (d_words l) (d_addr l) (d_ctrl l) (d_regs l) (Some (k, v)).

Definition dbg_command (op addr : Z) (data : option Z) : M (tool dbg) (Z * option Z) := λ s,
  let l := t_link s in
  if op =? 1 then
    let '(v, l') := dbg_read addr l in Ret (0, data) (with_link s (dbg_pend 2 v l'))
  else if op =? 2 then Ret (0, data) (with_link s (dbg_pend 2 0 (dbg_write addr (default 0 data) l)))
  else match d_pending l with
       | Some (S k, v) => Ret (3, data) (with_link s (dbg_pend k v l))
       | Some (O, v) => Ret (0, (λ _, v) <$> data) (with_link s (dbg_clear l))
       | None => Ret (0, (λ _, 0) <$> data) s
       end.

Definition dbg_backend : backend dbg := Backend (λ _ _, mret 0) (mret 0) dbg_command.

#[export] Program Instance dbg_target : DmiTarget dbg_backend := {|
  idle l := d_pending l = None;
  tgt_read := dbg_read;
  tgt_write := dbg_write;
  waiting l k r l' := d_pending l = Some (k, r) ∧ l' = dbg_clear l;
  busy_bound := 2;
|}.
Next Obligation. intros addr l Hi. unfold dbg_read. repeat case_match; done. Qed.
Next Obligation.
  intros addr l _ Hi. unfold dbg_read, dword, dreg.
  pose proof (wrap_range 1 (u64 (default 0 (d_regs l !! 0x3000))) ltac:(lia)).
  pose proof (wrap_range 32 (u64 (default 0 (d_regs l !! 0x16))) ltac:(lia)).
  repeat case_match; cbn [fst]; try (apply (wrap_range 64); lia). lia.
Qed.
Next Obligation. intros addr v l Hi. unfold dbg_write. repeat case_match; done. Qed.
Next Obligation.
  intros addr d s Ha Hi. cbn. unfold dbg_command. cbn [Z.eqb Pos.eqb].
  destruct (dbg_read addr (t_link s)) as [v l'] eqn:E. eexists 0, d, _, 2%nat. split_and!; try done.
  unfold dbg_read in E. repeat case_match; by simplify_eq.
Qed.
Next Obligation.
  intros addr v s Ha Hv Hi. cbn. unfold dbg_command. cbn [Z.eqb Pos.eqb].
  eexists 0, (Some v), _, 2%nat, 0. split_and!; try done.
  unfold dbg_write. cbn [default]. repeat case_match; done.
Qed.
Next Obligation.
  intros s k r l' data [Hp ->]. cbn. unfold dbg_command. cbn [Z.eqb]. rewrite Hp. eexists _, data.
  split_and!; done.
Qed.
Next Obligation. intros s r l' data [Hp ->]. cbn. unfold dbg_command. cbn [Z.eqb]. by rewrite Hp. Qed.

#[export] Program Instance dbg_wb : WbTarget dbg_backend := {|
  wb_ram _ := True;
  wb_word := dword;
  wb_addr := d_addr;
  wb_auto l := d_ctrl l = 0x7ff;
|}.
Next Obligation. intros l Hi. done. Qed.
Next Obligation. intros l a Hi Ha. done. Qed.
Next Obligation.
  intros l v Hi Hau Hv _. cbn -[wrap wb_adr]. unfold dbg_write, dbg_step. cbn -[wrap wb_adr]. rewrite Hau.
  split_and!; [done|done|]. intros x _. unfold dword. cbn -[wrap wb_adr].
  destruct (Z.eqb_spec x (wb_adr (d_addr l))) as [->|Hne].
  - rewrite lookup_insert_eq. cbn -[wrap]. by apply wrap_small.
  - by rewrite lookup_insert_ne.
Qed.
Next Obligation.
  intros l Hi Hau _. cbn -[wrap wb_adr]. unfold dbg_read, dbg_step. cbn -[wrap wb_adr]. by rewrite Hau.
Qed.
