(* ===== verification/MwDebugRegs.v ===== *)
(** * Registers and the trace buffer behind the debugger

    What [gpr_read] and [log_dump] of [mw_debug.c] show of a core, against the
    registers [core_debug.vhdl] documents: the class [GprTarget] for the register
    file behind an index register, and [LogTarget] for the ring buffer of the trace. *)
From S2P Require Import Prelude CMem Vhpi DmiBits Dmi MwDebug MwDebugSpec.

(** ** The register file *)

Class GprTarget {B : Type} (b : backend B) `{!DmiTarget b} (core : Z) := {
  gspr : B → Z → Z;
  gspr_index : B → Z;
  gspr_index_write l reg :
    idle l → 0 ≤ reg < 256 → let l' := tgt_write (0x14 + 16 * core) reg l in
    gspr_index l' = reg ∧ ∀ r, gspr l' r = gspr l r;
  gspr_data_read l :
    idle l → let '(v, l') := tgt_read (0x15 + 16 * core) l in
    v = gspr l (gspr_index l) ∧ ∀ r, gspr l' r = gspr l r;
}.

(** The name that is shown for a register. *)
Definition gpr_label (reg : Z) : msg :=
  if decide (reg < 32) then Out "r%ld" [PZ reg]
  else if decide (reg < 50) then Out "%s" [PS (lit (nth (Z.to_nat (reg - 32)) fast_spr_names ""%string))]
  else if decide (reg < 60) then Out "gspr%ld" [PZ reg]
  else if decide (reg < 64) then Out "%s" [PS (lit (nth (Z.to_nat (reg - 60)) ldst_spr_names ""%string))]
  else Out "FPR%ld" [PZ (reg - 64)].

Section gpr.
Context {B : Type} (b : backend B) `{!DmiTarget b} (core : Z) `{!GprTarget b core} (fuel : nat).
Hypothesis fuel_ok : (busy_bound < fuel)%nat.
Hypothesis core_ok : 0 ≤ core < 15.

Definition gpr_lines (f : Z → Z) (regs : list Z) : list msg :=
  flat_map (λ r, [gpr_label r; Out ":	%016lx" [PZ (f r)]]) regs.

Lemma of_option_nth {S A} (l : list A) (i : nat) d (s : S) :
  (i < length l)%nat → of_option (l !! i) s = Ret (nth i l d) s.
Proof.
  intros Hi. destruct (lookup_lt_is_Some_2 l i Hi) as [x Hx]. unfold of_option. rewrite Hx.
  by rewrite (nth_lookup_Some _ _ _ _ Hx).
Qed.

Lemma gpr_name_ok reg (s : tool B) : 0 ≤ reg < 96 → gpr_name reg s = Ret tt (says s [gpr_label reg]).
Proof.
  intros Hr. unfold gpr_name, gpr_label.
  change (Z.of_nat (length fast_spr_names)) with 18.
  destruct (Z.leb_spec reg 31) as [H1|H1]; [by rewrite decide_True by lia|]. rewrite decide_False by lia.
  rewrite (wrap_small 64 (reg - 32)) by lia.
  destruct (Z.ltb_spec (reg - 32) 18) as [H2|H2].
  { rewrite decide_True by lia. rewrite (bind_Ret _ _ _ _ _ (of_option_nth fast_spr_names (Z.to_nat (reg - 32)) ""%string s ltac:(cbn; lia))). done. }
  rewrite decide_False by lia. destruct (Z.ltb_spec reg 60) as [H3|H3]; [by rewrite decide_True by lia|].
  rewrite decide_False by lia. destruct (Z.ltb_spec reg 64) as [H4|H4].
  { rewrite decide_True by lia. rewrite (bind_Ret _ _ _ _ _ (of_option_nth ldst_spr_names (Z.to_nat (reg - 60)) ""%string s ltac:(cbn; lia))). done. }
  rewrite decide_False by lia. by rewrite (wrap_small 64 (reg - 64)) by lia.
Qed.

Lemma gpr_loop_ok n reg (f : Z → Z) s :
  idle (t_link s) → (∀ r, gspr (t_link s) r = f r) → 0 ≤ reg → reg + Z.of_nat n ≤ 96 →
  ∃ l, gpr_loop b core fuel n reg s =
      Ret tt (says (with_link s l) (gpr_lines f (seqZ reg (Z.of_nat n)))) ∧
    idle l ∧ ∀ r, gspr l r = f r.
Proof.
  revert reg s. induction n as [|n IH]; intros reg s Hi Hf Hr Hn; cbn [gpr_loop].
  { exists (t_link s). change (seqZ reg (Z.of_nat 0)) with (@nil Z). unfold says, with_link. cbn.
    rewrite app_nil_r. by destruct s. }
  unfold DBG_CORE_GSPR_INDEX, DBG_CORE_GSPR_DATA.
  destruct (dbg_reg 0x14 core core_ok ltac:(lia)) as [-> H14].
  destruct (dbg_reg 0x15 core core_ok ltac:(lia)) as [-> H15].
  step_with (dmi_wr_ok b fuel fuel_ok _ reg "setting GPR index" s H14 ltac:(lia) Hi).
  set (l1 := tgt_write _ reg _). pose proof (tgt_write_idle (0x14 + 16 * core) reg _ Hi) as Hi1. fold l1 in Hi1.
  destruct (gspr_index_write (t_link s) reg Hi ltac:(lia)) as [Hx Hg]. fold l1 in Hx, Hg.
  step_with (dmi_rd_ok b fuel fuel_ok _ 0xdeadbeef "reading GPR data" (with_link s l1) H15 Hi1).
  cbn [t_link with_link]. pose proof (gspr_data_read l1 Hi1) as Hd. pose proof (tgt_read_idle (0x15 + 16 * core) l1 Hi1) as Hi2.
  destruct (tgt_read _ l1) as [v l2]. cbn [fst snd] in *. destruct Hd as [-> Hg2].
  step_with (gpr_name_ok reg (with_link (with_link s l1) l2) ltac:(lia)).
  rewrite (bind_Ret _ _ _ tt (says (with_link s l2) [gpr_label reg; Out ":	%016lx" [PZ (f reg)]])).
  2:{ unfold print, modify, says, with_link. cbn. rewrite <- app_assoc. cbn. by rewrite Hx, Hg, Hf. }
  rewrite (wrap_small 64) by lia.
  destruct (IH (reg + 1) (says (with_link s l2) [gpr_label reg; Out ":	%016lx" [PZ (f reg)]])) as (l3 & -> & H3);
    [done|intros r; by rewrite Hg2, Hg, Hf|lia|lia|].
  exists l3. split; [|done]. rewrite (seqZ_cons reg) by lia.
  replace (Z.pred (Z.of_nat (S n))) with (Z.of_nat n) by lia. unfold says, with_link. cbn. by rewrite <- app_assoc.
Qed.

(** The registers from the given one on, up to number 95. *)
Lemma gpr_read_ok reg count s :
  idle (t_link s) → 0 ≤ count < 2 ^ 63 → Z.land reg 0x7f ≤ 96 →
  let r0 := Z.land reg 0x7f in
  ∃ l, gpr_read b core fuel reg count s =
      Ret tt (says (with_link s l) (gpr_lines (gspr (t_link s)) (seqZ r0 (Z.min count (96 - r0))))) ∧
    idle l ∧ ∀ r, gspr l r = gspr (t_link s) r.
Proof.
  intros Hi Hc Hr r0. unfold gpr_read. fold r0.
  assert (0 ≤ r0) by (unfold r0; change 0x7f with (Z.ones 7); rewrite Z.land_ones by lia; apply Z.mod_pos_bound; lia).
  rewrite gpr_count_ok by lia.
  destruct (gpr_loop_ok (Z.to_nat (Z.min count (96 - r0))) r0 (gspr (t_link s)) s Hi) as (l & -> & H1);
    [done|lia|lia|]. exists l. by rewrite Z2Nat.id by lia.
Qed.
End gpr.

(** ** The trace buffer *)

(** A ring of [2 ^ log_bits] entries of four words; [log_wr] is where the next entry
    goes.  The address register counts words; while its bit 31 is set nothing is
    traced.  It reads with the write pointer, marked with a one above it, in the
    upper half. *)
Class LogTarget {B : Type} (b : backend B) `{!DmiTarget b} (core : Z) := {
  log_bits : Z;
  log_wr : B → Z;
  log_at : B → Z;
  log_word : B → Z → Z;
  log_stopped (l : B) : bool := Z.testbit (log_at l) 31;
  log_same (l l' : B) : Prop := log_wr l' = log_wr l ∧ ∀ i, log_word l' i = log_word l i;
  log_bits_ok : 0 ≤ log_bits ≤ 28;
  log_ranges l : 0 ≤ log_wr l < 2 ^ log_bits ∧ 0 ≤ log_at l < 2 ^ 32;
  log_addr_read l :
    idle l → log_stopped l = true → let '(v, l') := tgt_read (0x16 + 16 * core) l in
    v = (2 ^ log_bits + log_wr l) * 2 ^ 32 + log_at l ∧ log_at l' = log_at l ∧ log_same l l';
  log_addr_write l v :
    idle l → log_stopped l = true → 0 ≤ v < 2 ^ 64 → Z.testbit v 31 = true →
    let l' := tgt_write (0x16 + 16 * core) v l in log_at l' = u32 v ∧ log_same l l';
  log_data_read l :
    idle l → log_stopped l = true → let '(v, l') := tgt_read (0x17 + 16 * core) l in
    v = log_word l (log_at l `mod` 2 ^ (log_bits + 2)) ∧ log_same l l' ∧
    log_at l' = log_at l - log_at l `mod` 2 ^ (log_bits + 2) + (log_at l + 1) `mod` 2 ^ (log_bits + 2);
}.

(** The next word of a ring: the part above the ring stays. *)
Lemma ring_next N a p :
  0 < N → 0 ≤ a → a `mod` N = p `mod` N →
  let a' := a - a `mod` N + (a + 1) `mod` N in a' `mod` N = (p + 1) `mod` N ∧ a' `div` N = a `div` N.
Proof.
  intros HN Ha E a'.
  pose proof (Z.div_mod a N ltac:(lia)) as Hd. pose proof (Z.mod_pos_bound (a + 1) N HN) as Hm.
  assert (a' = (a + 1) `mod` N + (a `div` N) * N) as -> by (unfold a'; lia). split.
  - rewrite Z.mod_add, Zmod_mod by lia. rewrite <- (Zplus_mod_idemp_l a), E, Zplus_mod_idemp_l. done.
  - rewrite Z.div_add, Z.div_small by lia. lia.
Qed.

Section log.
Context {B : Type} (b : backend B) `{!DmiTarget b} (core : Z) `{!LogTarget b core} (fuel : nat) (junk : Z).
Hypothesis fuel_ok : (busy_bound < fuel)%nat.
Hypothesis core_ok : 0 ≤ core < 15.
Abbreviation K := (log_bits + 2).

Lemma log_same_trans (l1 l2 l3 : B) : log_same l1 l2 → log_same l2 l3 → log_same l1 l3.
Proof. intros [H1 H2] [H3 H4]. split; [congruence|]. intros i. by rewrite H4. Qed.

Lemma testbit_high a i : 0 ≤ K ≤ i → Z.testbit a i = Z.testbit (a `div` 2 ^ K) (i - K).
Proof. intros H. rewrite <- Z.shiftr_div_pow2, Z.shiftr_spec by lia. f_equal. lia. Qed.

(** What is read from position [p] on. *)
Definition ring_words (f : Z → Z) (p : Z) (n : nat) : list Z :=
  (λ i, f ((p + Z.of_nat i) `mod` 2 ^ K)) <$> seq 0 n.

Lemma ring_words_S f p n : ring_words f p (S n) = f (p `mod` 2 ^ K) :: ring_words f (p + 1) n.
Proof.
  unfold ring_words. rewrite <- cons_seq, fmap_cons, Z.add_0_r. f_equal.
  rewrite <- fmap_S_seq, <- list_fmap_compose. apply list_fmap_ext. intros i x _. cbn. do 2 f_equal. lia.
Qed.

(** The progress messages. *)
Fixpoint dump_log (n : nat) (i : Z) : list msg :=
  match n with
  | O => []
  | S n => (if i `mod` 128 =? 0 then [Out "%lu..." [PZ (u64 (i * 8))]] else []) ++ dump_log n (i + 1)
  end.

Lemma log_dump_loop_ok n name i data p file s :
  idle (t_link s) → log_stopped (t_link s) = true → log_at (t_link s) `mod` 2 ^ K = p `mod` 2 ^ K →
  (n ≤ t_disk s)%nat → 0 ≤ i → t_fs s !! name = Some file → Z.of_nat (length file) = 8 * i →
  let ws := ring_words (log_word (t_link s)) p n in
  ∃ l k, log_dump_loop b core fuel n name i data s =
      Ret tt (says (with_link (with_file s name (file ++ word_bytes ws) k) l) (dump_log n i)) ∧
    idle l ∧ log_stopped l = true ∧ log_same (t_link s) l.
Proof.
  revert i data p file s. induction n as [|n IH]; intros i data p file s Hi Hst Hp Hdisk Hi0 Hfile Hlen;
    cbn [log_dump_loop].
  { exists (t_link s), (t_disk s). split; [|by split; [|split; [|split]]]. unfold says, with_link, with_file. cbn.
    rewrite !app_nil_r, insert_id by done. by destruct s. }
  unfold DBG_LOG_DATA. destruct (dbg_reg 0x17 core core_ok ltac:(lia)) as [E17 H17]. rewrite E17.
  step_with (dmi_rd_ok b fuel fuel_ok _ data "reading LOG_DATA" s H17 Hi).
  pose proof (log_data_read (t_link s) Hi Hst) as Hr. pose proof (tgt_read_idle (0x17 + 16 * core) _ Hi) as Hi1.
  destruct (tgt_read _ (t_link s)) as [w l1]. cbn [fst snd] in *. destruct Hr as (-> & Hsame & Hat).
  rewrite Hp. set (w := log_word (t_link s) (p `mod` 2 ^ K)).
  destruct (t_disk s) as [|k] eqn:Ek; [lia|].
  rewrite (bind_Ret _ _ _ 8 (with_link (with_file s name (file ++ le_split 8 w) k) l1)).
  2:{ unfold write_word, with_link, with_file. cbn [t_disk t_fs t_link t_log]. rewrite Ek, Hfile.
      change (default [] (Some file)) with file.
      rewrite take_ge, drop_ge, app_nil_r by lia. done. }
  cbn [Z.eqb Pos.eqb negb].
  rewrite (bind_Ret _ _ _ tt (says (with_link (with_file s name (file ++ le_split 8 w) k) l1)
    (if i `mod` 128 =? 0 then [Out "%lu..." [PZ (u64 (i * 8))]] else []))).
  2:{ destruct (_ =? 0); [done|]. unfold says. rewrite app_nil_r. by destruct (with_link _ _). }
  pose proof log_bits_ok as Hbits. assert (0 < 2 ^ K) as HK by (apply Z.pow_pos_nonneg; lia).
  set (s1 := says _ _). destruct (log_ranges (t_link s)) as [_ Ha].
  destruct (ring_next (2 ^ K) (log_at (t_link s)) p HK (proj1 Ha) Hp) as [Hp1 Hdiv]. rewrite <- Hat in Hp1, Hdiv.
  assert (log_stopped l1 = true) as Hst1.
  { unfold log_stopped in *. rewrite testbit_high in * by lia. by rewrite Hdiv. }
  destruct (IH (i + 1) w (p + 1) (file ++ le_split 8 w) s1) as (l2 & k2 & Hrun & Hi2 & Hst2 & Hsame2).
  - done.
  - done.
  - done.
  - cbn. lia.
  - lia.
  - unfold s1, says, with_link, with_file. cbn. by rewrite lookup_insert_eq.
  - rewrite length_app, length_le_split. lia.
  - exists l2, k2. rewrite Hrun. split; [|by split; [|split; [|eapply log_same_trans]]].
    rewrite ring_words_S. unfold s1, says, with_link, with_file. cbn [t_link t_log t_fs t_disk word_bytes flat_map dump_log].
    rewrite insert_insert_eq, <- !app_assoc. do 4 f_equal.
    unfold word_bytes, ring_words. do 2 f_equal. apply list_fmap_ext. intros j x _. apply Hsame.
Qed.

(** The size of the ring and the write pointer, out of what the register says. *)
Lemma log_size_ring L wr : 0 ≤ L ≤ 28 → 0 ≤ wr < 2 ^ L → log_size (2 ^ L + wr) = 2 ^ L.
Proof.
  intros HL Hwr. assert (2 ^ L ≤ 2 ^ 28) by (apply Z.pow_le_mono_r; lia).
  assert (0 < 2 ^ L) by (apply Z.pow_pos_nonneg; lia).
  assert (Z.shiftr (2 ^ L + wr) 1 < 2 ^ L ∧ 0 ≤ Z.shiftr (2 ^ L + wr) 1 ∧
          (0 < L → 2 ^ (L - 1) ≤ Z.shiftr (2 ^ L + wr) 1)) as (H1 & H2 & H3).
  { rewrite Z.shiftr_div_pow2 by lia. change (2 ^ 1) with 2. split; [apply Z.div_lt_upper_bound; lia|].
    split; [apply Z.div_pos; lia|]. intros HL1. apply Z.div_le_lower_bound; [lia|].
    assert (2 ^ L = 2 * 2 ^ (L - 1)) by (rewrite <- Z.pow_succ_r by lia; f_equal; lia). lia. }
  destruct (log_size_loop_ok 64 (2 ^ L + wr) _ 0 eq_refl H2) as (k & Hk & Hs & Hlt & Hlo); try lia.
  change (2 ^ 0) with 1 in Hs. unfold log_size. rewrite Hs. f_equal.
  destruct (decide (k < L)) as [Hkl|]; [|destruct (decide (L < k)) as [Hlk|]; [|lia]]; exfalso.
  - specialize (H3 ltac:(lia)). assert (2 ^ k ≤ 2 ^ (L - 1)) by (apply Z.pow_le_mono_r; lia). lia.
  - specialize (Hlo ltac:(lia)). assert (2 ^ L ≤ 2 ^ (k - 1)) by (apply Z.pow_le_mono_r; lia). lia.
Qed.

Lemma log_ptr_ring L wr : 0 ≤ L → 0 ≤ wr < 2 ^ L → Z.land (2 ^ L + wr) (Z.lnot (2 ^ L)) = wr.
Proof.
  intros HL Hwr. rewrite Z.add_comm. replace (wr + 2 ^ L) with (wr + 1 * 2 ^ L) by lia.
  rewrite <- (lor_shiftl_add L wr 1) by lia. rewrite Z.shiftl_1_l, <- Z.ldiff_land.
  apply Z.bits_inj'. intros i Hi. rewrite Z.ldiff_spec, Z.lor_spec, Z.pow2_bits_eqb by lia.
  destruct (Z.eqb_spec L i) as [->|Hne]; cbn [negb].
  - rewrite andb_false_r. symmetry. by apply (wrap_testbit_high i).
  - by rewrite orb_false_r, andb_true_r.
Qed.

(** Everything [log_dump] computes from the address register. *)
Lemma log_addr_fields L wr at_ :
  0 ≤ L ≤ 28 → 0 ≤ wr < 2 ^ L → 0 ≤ at_ < 2 ^ 32 →
  let v := (2 ^ L + wr) * 2 ^ 32 + at_ in
  let laddr := Z.lor LOG_STOP (u64 (Z.shiftl wr 2)) in
  Z.shiftr v 32 = 2 ^ L + wr ∧ 0 ≤ v < 2 ^ 64 ∧ u32 v = at_ ∧ Z.testbit v 31 = Z.testbit at_ 31 ∧
  tst v LOG_STOP = Z.testbit at_ 31 ∧
  laddr = 2 ^ 31 + 4 * wr ∧ 0 ≤ laddr < 2 ^ 32 ∧ Z.testbit laddr 31 = true ∧
  laddr `mod` 2 ^ (L + 2) = (4 * wr) `mod` 2 ^ (L + 2).
Proof.
  intros HL Hwr Hat v laddr. assert (2 ^ L ≤ 2 ^ 28) by (apply Z.pow_le_mono_r; lia).
  assert (u32 v = at_) as Hu.
  { unfold v, wrap. rewrite Z.add_comm, Z.mod_add, Z.mod_small by lia. done. }
  assert (Z.testbit v 31 = Z.testbit at_ 31) as Hb by (rewrite <- Hu, testbit_wrap by lia; done).
  assert (laddr = 2 ^ 31 + 4 * wr) as Hla.
  { unfold laddr. rewrite Z.shiftl_mul_pow2 by lia. change (2 ^ 2) with 4. rewrite (wrap_small 64) by lia.
    change LOG_STOP with (Z.shiftl 1 31). rewrite Z.lor_comm, lor_shiftl_add by lia. lia. }
  split_and!; [| lia | lia |done|done| |done|lia|lia| |].
  - unfold v. rewrite Z.shiftr_div_pow2 by lia. rewrite Z.div_add_l, Z.div_small by lia. lia.
  - change LOG_STOP with (2 ^ 31). rewrite tst_pow2 by lia. done.
  - unfold laddr. change LOG_STOP with (2 ^ 31). rewrite Z.lor_spec, Z.pow2_bits_true by lia. done.
  - rewrite Hla. replace (2 ^ 31) with (2 ^ (29 - L) * 2 ^ (L + 2)) by (rewrite <- Z.pow_add_r by lia; f_equal; lia).
    rewrite Z.add_comm, Z.mod_add; [done|]. apply Z.pow_nonzero; lia.
Qed.

Lemma log_dump_ok name s :
  idle (t_link s) → log_stopped (t_link s) = true → 2 ^ K ≤ Z.of_nat (t_disk s) →
  let ws := ring_words (log_word (t_link s)) (4 * log_wr (t_link s)) (Z.to_nat (2 ^ K)) in
  ∃ s', log_dump b core fuel junk name s = Ret tt s' ∧ t_fs s' !! name = Some (word_bytes ws) ∧
    idle (t_link s') ∧ log_at (t_link s') = log_at (t_link s) ∧ log_same (t_link s) (t_link s').
Proof.
  intros Hi Hst Hdisk ws. pose proof log_bits_ok as Hbits.
  assert (0 < 2 ^ K) as HK by (apply Z.pow_pos_nonneg; lia). unfold log_dump.
  rewrite (bind_Ret _ _ _ true (with_file s name [] (t_disk s))).
  2:{ unfold fopen_w, with_file. destruct (t_fs s !! name), (t_disk s); done || lia. }
  cbn [negb]. set (s0 := with_file _ _ _ _).
  unfold DBG_LOG_ADDR. destruct (dbg_reg 0x16 core core_ok ltac:(lia)) as [E16 H16]. rewrite E16.
  step_with (dmi_rd_ok b fuel fuel_ok _ junk "reading LOG_ADDR" s0 H16 Hi). change (t_link s0) with (t_link s).
  pose proof (log_addr_read (t_link s) Hi Hst) as Hr. pose proof (tgt_read_idle (0x16 + 16 * core) _ Hi) as Hi1.
  destruct (tgt_read _ (t_link s)) as [v l1]. cbn [fst snd] in *. destruct Hr as (-> & Hat1 & Hsame1).
  destruct (log_ranges (t_link s)) as [Hwr Hat].
  destruct (log_addr_fields log_bits (log_wr (t_link s)) (log_at (t_link s)) Hbits Hwr Hat)
    as (F1 & F2 & F3 & F4 & F5 & F6 & F7 & F8 & F9).
  set (v := (2 ^ log_bits + _) * _ + _) in *. rewrite F1, F5. unfold log_stopped in Hst. rewrite Hst. cbn [negb].
  rewrite bind_mret, log_size_ring, log_ptr_ring by lia. set (laddr := Z.lor _ _) in *.
  set (m1 := Out "Log size = %lu entries" _).
  rewrite (bind_Ret (print m1) _ _ tt (says (with_link s0 l1) [m1])) by done.
  assert (log_stopped l1 = true) as Hst1 by (unfold log_stopped; by rewrite Hat1).
  assert (0 ≤ laddr < 2 ^ 64) as F7' by lia.
  step_with (dmi_wr_ok b fuel fuel_ok _ laddr "writing LOG_ADDR" (says (with_link s0 l1) [m1]) H16 F7' Hi1).
  change (t_link (says (with_link s0 l1) [m1])) with l1.
  destruct (log_addr_write l1 laddr Hi1 Hst1 F7' F8) as [Hat2 Hsame2].
  pose proof (tgt_write_idle (0x16 + 16 * core) laddr l1 Hi1) as Hi2. set (l2 := tgt_write _ laddr l1) in *.
  rewrite (wrap_small 32 laddr) in Hat2 by lia.
  assert (log_stopped l2 = true) as Hst2 by (unfold log_stopped; by rewrite Hat2).
  set (s2 := with_link _ l2).
  assert (2 ^ K = 2 ^ log_bits * 4) as EK by (by rewrite Z.pow_add_r by lia).
  assert (2 ^ K ≤ 2 ^ 30) by (apply Z.pow_le_mono_r; lia).
  rewrite (wrap_small 64 (2 ^ log_bits * 4)), <- EK by lia.
  destruct (log_dump_loop_ok (Z.to_nat (2 ^ K)) name 0 junk (4 * log_wr (t_link s)) [] s2)
    as (l3 & k & Hrun & Hi3 & Hst3 & Hsame3).
  { done. } { done. } { change (t_link s2) with l2. by rewrite Hat2. } { cbn. lia. } { lia. }
  { unfold s2, s0, says, with_link, with_file. cbn. by rewrite lookup_insert_eq. } { done. }
  rewrite (bind_Ret _ _ _ _ _ Hrun). set (s3 := says _ (dump_log _ _)).
  set (m2 := Out "%lu done" _). rewrite (bind_Ret (print m2) _ _ tt (says s3 [m2])) by done.
  rewrite (dmi_wr_ok b fuel fuel_ok _ v "writing LOG_ADDR" (says s3 [m2]) H16 F2 Hi3).
  change (t_link (says s3 [m2])) with l3.
  destruct (log_addr_write l3 v Hi3 Hst3 F2 ltac:(by rewrite F4)) as [Hat4 Hsame4].
  eexists. split; [done|]. cbn [t_fs t_link with_link says with_file s3]. rewrite lookup_insert_eq.
  assert (log_same (t_link s) l2) as Hs02 by (by eapply log_same_trans).
  split; [|split; [by apply tgt_write_idle|split; [by rewrite Hat4|]]].
  - f_equal. cbn [app]. unfold ws, ring_words, word_bytes. f_equal. apply list_fmap_ext. intros i x _. apply Hs02.
  - eapply log_same_trans; [exact Hs02|]. by eapply log_same_trans.
Qed.
End log.

(** ** The example module *)

Lemma dreg_dset l r v r' : dreg (dset l r v) r' = if r' =? r then u64 v else dreg l r'.
Proof.
  unfold dreg, dset. cbn -[wrap]. destruct (Z.eqb_spec r' r) as [->|Hne]; [by rewrite lookup_insert_eq|by rewrite lookup_insert_ne].
Qed.

#[export] Program Instance dbg_gpr : GprTarget dbg_backend 0 := {|
  gspr l r := dreg l (0x1000 + wrap 8 r);
  gspr_index l := wrap 8 (dreg l 0x14);
|}.
Next Obligation.
  intros l reg Hi Hr. change (tgt_write (0x14 + 16 * 0) reg l) with (dset l 0x14 reg). cbv zeta. split.
  - rewrite dreg_dset. cbn [Z.eqb Pos.eqb]. rewrite wrap_wrap_le by lia. by apply wrap_small.
  - intros r. rewrite dreg_dset. pose proof (wrap_range 8 r ltac:(lia)). by rewrite (proj2 (Z.eqb_neq _ _)) by lia.
Qed.
Next Obligation.
  intros l Hi. change (tgt_read (0x15 + 16 * 0) l) with (dreg l (0x1000 + wrap 8 (dreg l 0x14)), dbg_clear l).
  cbv beta iota. by rewrite wrap_wrap.
Qed.

#[export] Program Instance dbg_logt : LogTarget dbg_backend 0 := {|
  log_bits := 1;
  log_wr l := wrap 1 (dreg l 0x3000);
  log_at l := u32 (dreg l 0x16);
  log_word l i := dreg l (0x2000 + wrap 3 i);
|}.
Next Obligation. lia. Qed.
Next Obligation. intros l. split; apply wrap_range; lia. Qed.
Next Obligation.
  intros l Hi Hs.
  change (tgt_read (0x16 + 16 * 0) l) with
    ((2 ^ 1 + wrap 1 (dreg l 0x3000)) * 2 ^ 32 + u32 (dreg l 0x16), dbg_clear l). done.
Qed.
Next Obligation.
  intros l v Hi Hs Hv Hb. change (tgt_write (0x16 + 16 * 0) v l) with (dset l 0x16 v). cbv beta zeta.
  rewrite dreg_dset. split; [by apply wrap_wrap_le|]. split; [by rewrite dreg_dset|]. intros i. rewrite dreg_dset.
  pose proof (wrap_range 3 i ltac:(lia)). by rewrite (proj2 (Z.eqb_neq _ _)) by lia.
Qed.
Next Obligation.
  intros l Hi Hs. cbv beta. set (a := u32 (dreg l 0x16)).
  change (tgt_read (0x17 + 16 * 0) l) with
    (dreg l (0x2000 + a `mod` 8), dset l 0x16 (a - a `mod` 8 + (a + 1) `mod` 8)).
  pose proof (wrap_range 32 (dreg l 0x16) ltac:(lia)) as Ha. fold a in Ha. cbv beta iota.
  change (2 ^ (1 + 2)) with 8. change (wrap 3 ?x) with (x `mod` 8). rewrite Zmod_mod. split; [done|].
  rewrite !dreg_dset. split.
  - split; [done|]. intros i. rewrite dreg_dset. pose proof (Z.mod_pos_bound i 8 ltac:(lia)).
    change (wrap 3 i) with (i `mod` 8). by rewrite (proj2 (Z.eqb_neq _ _)) by lia.
  - cbn [Z.eqb Pos.eqb]. rewrite wrap_wrap_le by lia. apply wrap_small.
    pose proof (Z.div_mod a 8 ltac:(lia)). pose proof (Z.mod_pos_bound (a + 1) 8 ltac:(lia)).
    pose proof (Z.mod_pos_bound a 8 ltac:(lia)). change (2 ^ 32) with (8 * 2 ^ 29) in *. lia.
Qed.
