(* ===== verification/MwDebugTotal.v ===== *)
(** * Every command line ends

    Against a debug module of the class [DmiTarget], whose polls end, no command of
    [mw_debug.c] loops forever, whatever its arguments are: [ends k m P] says that [m]
    returns, with the link ready for the next access, or exits with status 1.  It
    reaches undefined behaviour of C only for one of the reasons [U]; overflowing the
    [int] that counts the bytes of a file is not among them, since files and the disk
    have at most [D] bytes. *)
From S2P Require Import Prelude CMem Ctype Vhpi DmiBits Dmi MwDebug MwDebugSpec.

Section total.
Context {B : Type} (b : backend B) `{!DmiTarget b} (U : Prop) (D : Z) (fuel : nat) (junk : Z).
Hypothesis fuel_ok : (busy_bound < fuel)%nat.
Hypothesis D_ok : 0 ≤ D ∧ D + 8 ≤ INT_MAX.
Abbreviation MT := (M (tool B)).

Definition file_ok (f : list Z) : Prop := bytes f ∧ Z.of_nat (length f) ≤ D.

(** [k] bytes of a file have been written, and the rest of the disk is free. *)
Record tool_at (k : Z) (s : tool B) : Prop := {
  ta_idle : idle (t_link s);
  ta_files : map_Forall (λ _ f, file_ok f) (t_fs s);
  ta_disk : k + 8 * Z.of_nat (t_disk s) ≤ D;
}.
Abbreviation tool_ok := (tool_at 0).

Definition ends {A} (k : Z) (m : MT A) (P : A → Prop) : Prop :=
  ∀ s, tool_at k s → match m s with
                     | Ret a s' => tool_at k s' ∧ P a
                     | Exit c _ => c = 1
                     | Stuck => U
                     | OutOfFuel => False
                     end.
Abbreviation always := (λ _, True).

Lemma tool_at_link k s l : idle l → tool_at k s → tool_at k (with_link s l).
Proof. by intros Hl [_ Hf Hd]. Qed.

(** What has been written fits on the disk. *)
Lemma ends_fits {A} k (m : MT A) P : (k ≤ D → ends k m P) → ends k m P.
Proof. intros H s Hs. apply H; [|done]. pose proof (ta_disk _ _ Hs). lia. Qed.

Lemma ends_ret {A} k (a : A) (P : A → Prop) : P a → ends k (mret a) P.
Proof. intros HP s Hs. done. Qed.

Lemma ends_bind {A C} k (m : MT A) (f : A → MT C) P Q :
  ends k m P → (∀ a, P a → ends k (f a) Q) → ends k (m ≫= f) Q.
Proof.
  intros Hm Hf s Hs. specialize (Hm s Hs). unfold mbind, M_bind. destruct (m s) as [a s'| | |]; try done.
  destruct Hm as [Hs' Ha]. by apply (Hf a Ha).
Qed.

Lemma ends_then {A C} k (m : MT A) (f : A → MT C) Q :
  ends k m always → (∀ a, ends k (f a) Q) → ends k (m ≫= f) Q.
Proof. intros Hm Hf. eapply ends_bind; [exact Hm|]. auto. Qed.

Lemma ends_stuck {A} k (P : A → Prop) : U → ends k stuck P.
Proof. by intros HU s. Qed.

Lemma ends_exit {A} k (P : A → Prop) : ends k (exit_ 1) P.
Proof. by intros s. Qed.

Lemma ends_print k m : ends k (print m) always.
Proof. by intros s [Hi Hf Hd]. Qed.

Lemma ends_if {A} k (c : bool) (m1 m2 : MT A) P : ends k m1 P → ends k m2 P → ends k (if c then m1 else m2) P.
Proof. by destruct c. Qed.

Lemma ends_of_option {A} k (o : option A) : is_Some o → ends k (of_option o) always.
Proof. intros [a ->] s Hs. done. Qed.

Lemma ends_read k addr data : 0 ≤ addr < 256 → ends k (dmi_read b fuel addr data) (λ r, 0 ≤ snd r < 2 ^ 64).
Proof.
  intros Ha s Hs. pose proof (ta_idle _ _ Hs) as Hi. rewrite (dmi_read_ok b fuel addr data s fuel_ok Ha Hi).
  split; [by apply tool_at_link; [apply tgt_read_idle|]|]. by apply tgt_read_range.
Qed.

Lemma ends_write k addr v : 0 ≤ addr < 256 → 0 ≤ v < 2 ^ 64 → ends k (dmi_write b fuel addr v) always.
Proof.
  intros Ha Hv s Hs. pose proof (ta_idle _ _ Hs) as Hi. rewrite (dmi_write_ok b fuel addr v s fuel_ok Ha Hv Hi).
  split; [by apply tool_at_link; [apply tgt_write_idle|]|done].
Qed.

Lemma ends_rd k addr data what : 0 ≤ addr < 256 → ends k (dmi_rd b fuel addr data what) (λ v, 0 ≤ v < 2 ^ 64).
Proof.
  intros Ha s Hs. pose proof (ta_idle _ _ Hs) as Hi. rewrite (dmi_rd_ok b fuel fuel_ok addr data what s Ha Hi).
  split; [by apply tool_at_link; [apply tgt_read_idle|]|]. by apply tgt_read_range.
Qed.

Lemma ends_wr k addr v what : 0 ≤ addr < 256 → 0 ≤ v < 2 ^ 64 → ends k (dmi_wr b fuel addr v what) always.
Proof.
  intros Ha Hv s Hs. pose proof (ta_idle _ _ Hs) as Hi. rewrite (dmi_wr_ok b fuel fuel_ok addr v what s Ha Hv Hi).
  split; [by apply tool_at_link; [apply tgt_write_idle|]|done].
Qed.

(** ** Memory and files *)

Lemma ends_putchars k cs : ends k (putchars cs : MT unit) always.
Proof.
  induction cs as [|c cs IH]; [by apply ends_ret|]. cbn [putchars].
  apply ends_then; [apply ends_print|auto].
Qed.

Lemma ends_mem_read_loop n i addr data :
  (INT_MAX < i + Z.of_nat n → U) → ends 0 (mem_read_loop b fuel n i addr data) always.
Proof.
  revert i addr data. induction n as [|n IH]; intros i addr data HU; [by apply ends_ret|]. cbn [mem_read_loop].
  eapply ends_bind; [apply ends_read; unfold DBG_WB_DATA; lia|]. intros [rc v] _.
  apply ends_if; [by apply ends_ret|]. apply ends_then; [apply ends_print|intros _].
  apply ends_then; [apply ends_putchars|intros _]. apply ends_then; [apply ends_putchars|intros _].
  destruct (Z.eqb_spec i INT_MAX); [apply ends_stuck, HU; lia|apply IH; intros H; apply HU; lia].
Qed.

Lemma ends_mem_read addr count :
  0 ≤ addr < 2 ^ 64 → (INT_MAX < count → U) → ends 0 (mem_read b fuel junk addr count) always.
Proof.
  intros Ha HU. unfold mem_read. apply ends_then; [apply ends_write; unfold DBG_WB_CTRL; lia|intros rc].
  apply ends_if; [by apply ends_ret|]. apply ends_then; [apply ends_write; unfold DBG_WB_ADDR; lia|intros rc'].
  apply ends_if; [by apply ends_ret|]. apply ends_mem_read_loop. intros H. apply HU. unfold INT_MAX in *. lia.
Qed.

Lemma ends_mem_write addr v :
  0 ≤ addr < 2 ^ 64 → 0 ≤ v < 2 ^ 64 → ends 0 (mem_write b fuel addr v) always.
Proof.
  intros Ha Hv. unfold mem_write. apply ends_then; [apply ends_wr; unfold DBG_WB_CTRL; lia|intros _].
  apply ends_then; [apply ends_wr; unfold DBG_WB_ADDR; lia|intros _]. apply ends_wr; unfold DBG_WB_DATA; lia.
Qed.

Lemma ends_progress k count : count ≤ INT_MAX → ends k (progress count : MT unit) always.
Proof.
  intros Hc. unfold progress. rewrite (proj2 (Z.ltb_ge INT_MAX count)) by done.
  apply ends_if; [apply ends_print|by apply ends_ret].
Qed.

Lemma ends_load_loop n rest count :
  bytes rest → (length rest < n)%nat → rest = [] ∨ count + Z.of_nat (length rest) ≤ D →
  ends 0 (load_loop b fuel n rest count) always.
Proof.
  revert rest count. induction n as [|n IH]; intros rest count Hb Hn HD; [lia|]. cbn [load_loop].
  destruct rest as [|x rest]; [by apply ends_ret|]. destruct HD as [|HD]; [done|].
  apply ends_then; [apply ends_wr; [unfold DBG_WB_DATA; lia|]|intros _].
  { apply le_combine_u64; [by apply Forall_take|rewrite length_take; lia]. }
  apply ends_then; [apply ends_progress; cbn [length] in HD; lia|intros _].
  apply IH; [by apply Forall_drop|rewrite length_drop; cbn [length] in *; lia|].
  destruct (decide (length (x :: rest) ≤ 8)%nat); [left; by rewrite drop_ge|right].
  rewrite length_drop. lia.
Qed.

(** A word written at the position [k] takes eight bytes of the disk. *)
Lemma ends_write_word {A} k name w (f : Z → MT A) Q :
  0 ≤ k → ends k (f (-1)) Q → ends (k + 8) (f 8) Q → ends k (write_word name (Z.to_nat k) w ≫= f) Q.
Proof.
  intros Hk H1 H8 s Hs. unfold mbind, M_bind, write_word. destruct (t_disk s) as [|d] eqn:Ed; [by apply H1|].
  pose proof Hs as [Hi Hf Hd]. rewrite Ed in Hd.
  match goal with |- match f 8 ?st with _ => _ end => assert (tool_at (k + 8) st) as Hs8 end.
  { constructor; cbn [t_link t_fs t_disk]; [done| |lia]. apply map_Forall_insert_2; [|done].
    assert (file_ok (default [] (t_fs s !! name))) as [Hb Hl].
    { destruct (t_fs s !! name) as [g|] eqn:E; [by apply (Hf name)|]. split; [constructor|cbn; lia]. }
    split.
    - apply Forall_app. split; [by apply Forall_take|]. apply Forall_app. split; [apply le_split_bytes|by apply Forall_drop].
    - rewrite !length_app, length_take, length_le_split, length_drop. lia. }
  specialize (H8 _ Hs8). destruct (f 8 _) as [a s'| | |]; try done. destruct H8 as [[I1 I2 I3] HQ].
  split; [|done]. constructor; [done|done|lia].
Qed.

Lemma ends_load name addr : 0 ≤ addr < 2 ^ 64 → ends 0 (load_file b fuel name addr) always.
Proof.
  intros Ha s Hs. unfold load_file, open_read. unfold mbind at 1, M_bind at 1.
  destruct (t_fs s !! name) as [f|] eqn:E; [|done].
  assert (file_ok f) as [Hb Hl] by (by apply (ta_files _ _ Hs name)).
  clear E. revert s Hs.
  apply ends_then; [apply ends_wr; unfold DBG_WB_CTRL; lia|intros _].
  apply ends_then; [apply ends_wr; unfold DBG_WB_ADDR; lia|intros _].
  apply ends_then; [apply ends_load_loop; [done|lia|by right]|intros count]. apply ends_print.
Qed.

Lemma ends_save_loop n name size count data :
  0 ≤ count → (Z.to_nat (size - count) < n)%nat →
  ends count (save_loop b fuel n name size count data) always.
Proof.
  revert count data. induction n as [|n IH]; intros count data H0 Hn; [lia|]. cbn [save_loop].
  eapply ends_bind; [apply ends_rd; unfold DBG_WB_DATA; lia|]. intros v _.
  apply ends_write_word; [done| |].
  { cbn [Z.leb Z.compare]. apply ends_then; [apply ends_print|intros _; by apply ends_ret]. }
  cbn [Z.leb Z.compare]. apply ends_fits. intros Hd.
  apply ends_then; [apply ends_progress; lia|intros _].
  destruct (Z.leb_spec size (count + 8)); [by apply ends_ret|]. apply IH; lia.
Qed.

Lemma file_ok_nil : file_ok [].
Proof. split; [constructor|cbn; lia]. Qed.

Lemma ends_save name addr size :
  0 ≤ addr < 2 ^ 64 → ends 0 (save_file b fuel junk name addr size) always.
Proof.
  intros Ha. unfold save_file. apply ends_then; [|intros ok].
  { intros s Hs. pose proof Hs as [Hi Hf Hd]. unfold open_create.
    destruct (t_fs s !! name), (t_disk s) eqn:Ed; split; try done. constructor; cbn [t_link t_fs t_disk]; [done| |lia].
    by apply map_Forall_insert_2; [apply file_ok_nil|]. }
  apply ends_if; [apply ends_then; [apply ends_print|intros _; apply ends_exit]|].
  apply ends_then; [apply ends_wr; unfold DBG_WB_CTRL; lia|intros _].
  apply ends_then; [apply ends_wr; unfold DBG_WB_ADDR; lia|intros _].
  apply ends_then; [apply ends_save_loop; lia|intros count]. apply ends_print.
Qed.

(** ** The core, its registers, the log and the triggers *)

Context (core : Z).
Hypothesis core_ok : 0 ≤ core < 15.

Ltac reg k := rewrite ?(proj1 (dbg_reg k core core_ok ltac:(lia))); pose proof (proj2 (dbg_reg k core core_ok ltac:(lia))).

Lemma ends_reg k v what :
  0x10 ≤ k < 0x20 → 0 ≤ v < 2 ^ 64 → ends 0 (dmi_wr b fuel (u32 (k + Z.shiftl core 4)) v what) always.
Proof. intros Hk Hv. rewrite (proj1 (dbg_reg k core core_ok Hk)). apply ends_wr; [by apply dbg_reg|done]. Qed.

Lemma ends_ctrl v what : 0 ≤ v < 2 ^ 64 → ends 0 (dmi_wr b fuel (DBG_CORE_CTRL core) v what) always.
Proof. by apply ends_reg. Qed.

Lemma ends_status : ends 0 (core_status b core fuel junk true) always ∧ ends 0 (core_status b core fuel junk false) always.
Proof.
  unfold core_status, DBG_CORE_STAT, DBG_CORE_NIA, DBG_CORE_MSR. reg 0x11. reg 0x12. reg 0x13.
  split; (eapply ends_bind; [by apply ends_rd|intros stat _]); (eapply ends_bind; [by apply ends_rd|intros nia _]);
    (eapply ends_bind; [by apply ends_rd|intros msr _]);
    (apply ends_then; [first [apply ends_print|by apply ends_ret]|intros _]);
    destruct (stat_strings stat) as [s1 s2]; repeat (apply ends_then; [apply ends_print|intros _]); apply ends_print.
Qed.

Lemma ends_step : ends 0 (core_step b core fuel junk) always.
Proof.
  unfold core_step, DBG_CORE_STAT. reg 0x11. eapply ends_bind; [by apply ends_rd|intros stat _].
  apply ends_if; [apply ends_print|]. apply ends_ctrl. by vm_compute.
Qed.

Lemma ends_gpr_name reg : 0 ≤ reg < 2 ^ 64 → ends 0 (gpr_name reg : MT unit) always.
Proof.
  intros Hr. unfold gpr_name.
  destruct (Z.leb_spec reg 31); [apply ends_print|]. rewrite (wrap_small 64 (reg - 32)) by lia.
  destruct (Z.ltb_spec (reg - 32) (Z.of_nat (length fast_spr_names))).
  { apply ends_then; [apply ends_of_option, lookup_lt_is_Some_2; lia|intros n; apply ends_print]. }
  destruct (Z.ltb_spec reg 60); [apply ends_print|]. destruct (Z.ltb_spec reg 64); [|apply ends_print].
  apply ends_then; [apply ends_of_option, lookup_lt_is_Some_2; cbn; lia|intros n; apply ends_print].
Qed.

Lemma ends_gpr_loop n r : 0 ≤ r < 2 ^ 64 → ends 0 (gpr_loop b core fuel n r) always.
Proof.
  revert r. induction n as [|n IH]; intros r Hr; [by apply ends_ret|]. cbn [gpr_loop].
  unfold DBG_CORE_GSPR_INDEX, DBG_CORE_GSPR_DATA. reg 0x14. reg 0x15.
  apply ends_then; [by apply ends_wr|intros _]. eapply ends_bind; [by apply ends_rd|intros data _].
  apply ends_then; [by apply ends_gpr_name|intros _]. apply ends_then; [apply ends_print|intros _].
  apply IH. by apply (wrap_range 64).
Qed.

Lemma ends_gpr r count : 0 ≤ r < 2 ^ 64 → ends 0 (gpr_read b core fuel r count) always.
Proof. intros Hr. unfold gpr_read. apply ends_gpr_loop. by apply land_range. Qed.

Lemma ends_log_dump_loop n name i data :
  0 ≤ i → ends (8 * i) (log_dump_loop b core fuel n name i data) always.
Proof.
  revert i data. induction n as [|n IH]; intros i data Hi; [by apply ends_ret|]. cbn [log_dump_loop].
  unfold DBG_LOG_DATA. reg 0x17. eapply ends_bind; [by apply ends_rd|intros w _].
  apply ends_write_word; [lia| |]; cbn [negb Z.eqb Pos.eqb].
  - apply ends_then; [apply ends_print|intros _; apply ends_exit].
  - apply ends_then; [apply ends_if; [apply ends_print|by apply ends_ret]|intros _].
    replace (8 * i + 8) with (8 * (i + 1)) by lia. apply IH. lia.
Qed.

Lemma ends_log_dump name : ends 0 (log_dump b core fuel junk name) always.
Proof.
  unfold log_dump, DBG_LOG_ADDR. reg 0x16. apply ends_then; [|intros ok].
  { intros s Hs. pose proof Hs as [Hi Hf Hd]. unfold fopen_w.
    assert (map_Forall (λ _ f, file_ok f) (<[name := []]> (t_fs s)))
      by (apply map_Forall_insert_2; [apply file_ok_nil|done]). by destruct (t_fs s !! name), (t_disk s). }
  apply ends_if; [apply ends_then; [apply ends_print|intros _; apply ends_exit]|].
  eapply ends_bind; [by apply ends_rd|intros laddr Hl].
  apply ends_then; [apply ends_if; [by apply ends_wr|by apply ends_ret]|intros _].
  apply ends_then; [apply ends_print|intros _].
  apply ends_then; [apply ends_wr; [done|]|intros _].
  { apply lor_range; [done|by apply (wrap_range 64)]. }
  apply ends_then; [by apply (ends_log_dump_loop _ _ 0)|intros _]. apply ends_then; [apply ends_print|intros _]. by apply ends_wr.
Qed.

Lemma ends_log_stop : ends 0 (log_stop b core fuel junk) always.
Proof.
  unfold log_stop, DBG_LOG_ADDR. reg 0x16. apply ends_then; [by apply ends_wr|intros _].
  eapply ends_bind; [by apply ends_rd|intros laddr _]. apply ends_then; [apply ends_print|intros _]. apply ends_print.
Qed.

Lemma ends_trig_show k rd at_ off :
  0x10 ≤ k < 0x20 → ends 0 (trig_show b fuel junk (u32 (k + Z.shiftl core 4)) rd at_ off) always.
Proof.
  intros Hk. rewrite (proj1 (dbg_reg k core core_ok Hk)). unfold trig_show.
  eapply ends_bind; [by apply ends_rd, dbg_reg|intros trig _].
  apply ends_then; [apply ends_if; apply ends_print|intros _]. apply ends_print.
Qed.

Lemma ends_trig k addr (off : bool) what what' :
  0x10 ≤ k < 0x20 → 0 ≤ addr < 2 ^ 64 →
  ends 0 (if off then dmi_wr b fuel (u32 (k + Z.shiftl core 4)) 0 what
        else dmi_wr b fuel (u32 (k + Z.shiftl core 4)) (Z.lor (Z.land addr (Z.lnot 2)) 1) what') always.
Proof.
  intros Hk Ha. apply ends_if; apply ends_reg; [done|lia|done|]. apply lor_range; [by apply land_range|lia].
Qed.
End total.

(** ** The command line *)

Lemma digit_value_range c d : digit_value c = Some d → 0 ≤ d.
Proof. unfold digit_value. intros H. repeat case_match; simplify_eq; lia. Qed.

Lemma number_nonneg base acc s : 0 ≤ base → 0 ≤ acc → 0 ≤ number base acc s.
Proof.
  intros Hb. revert acc. induction s as [|c s IH]; intros acc Ha; [done|]. cbn [number].
  destruct (digit_value c) as [d|] eqn:E; [|done]. apply digit_value_range in E.
  destruct (d <? base); [apply IH; nia|done].
Qed.

Lemma strtoul_range s base : 0 ≤ base → 0 ≤ strtoul s base < 2 ^ 64.
Proof.
  intros Hb. unfold strtoul. destruct (match skip_blanks s with 45 :: s => _ | 43 :: s => _ | _ => _ end) as [neg s'].
  set (v := number base 0 _). assert (0 ≤ v) by (by apply number_nonneg).
  destruct (Z.ltb_spec (2 ^ 64 - 1) v); [lia|]. destruct neg; [by apply (wrap_range 64)|lia].
Qed.

Lemma opt_number_ok test base dflt args :
  0 ≤ base → 0 ≤ dflt < 2 ^ 64 →
  0 ≤ fst (opt_number test base dflt args) < 2 ^ 64 ∧ (length (snd (opt_number test base dflt args)) ≤ length args)%nat.
Proof.
  intros Hb Hd. unfold opt_number. destruct args as [|a args]; [done|].
  destruct (negb _); cbn [fst snd]; [|done]. split; [by apply strtoul_range|cbn; lia].
Qed.

Section main.
Context {B : Type} (backends : backend_kind → backend B) (fuel : nat) (junk : Z) (argv0 : list Z).
Abbreviation MT := (M (tool B)).

(** The count of an "mr" is beyond what its [int] index can reach. *)
Definition mr_overflows (args : list (list Z)) : Prop :=
  ∃ pre a c post, args = pre ++ lit "mr" :: a :: c :: post ∧ INT_MAX < strtoul c 16.

Section commands.
Context (b : backend B) `{!DmiTarget b} (core : Z) (U : Prop) (D : Z) (args0 : list (list Z)).
Hypothesis fuel_ok : (busy_bound < fuel)%nat.
Hypothesis D_ok : 0 ≤ D ∧ D + 8 ≤ INT_MAX.
Hypothesis core_ok : 0 ≤ core < 15.
Hypothesis mr_ok : mr_overflows args0 → U.
Abbreviation always := (λ _, True).
Abbreviation ends := (ends b U D 0).

Lemma ends_usage {A} (P : A → Prop) : ends (usage argv0) P.
Proof.
  unfold usage. apply ends_then; [apply ends_print|intros _].
  apply ends_then; [|intros _; apply ends_exit].
  induction usage_text as [|m l IH]; cbn [print_errs]; [by apply ends_ret|].
  apply ends_then; [apply ends_print|intros _; apply IH].
Qed.

Lemma opt_number_suffix test base dflt args : snd (opt_number test base dflt args) `suffix_of` args.
Proof.
  unfold opt_number. destruct args as [|a args]; [done|]. destruct (negb _); cbn [snd]; solve_suffix.
Qed.

Lemma ends_run_commands n args :
  args `suffix_of` args0 → (length args ≤ n)%nat →
  ends (run_commands fuel junk argv0 b core n args) always.
Proof.
  revert args. induction n as [|n IH]; intros [|cmd args] Hsuf Hn; cbn [run_commands]; try by apply ends_ret.
  { cbn in Hn. lia. }
  cbn [length] in Hn.
  assert (∀ rest, rest `suffix_of` args → ends (run_commands fuel junk argv0 b core n rest) always) as Hnext.
  { intros rest Hr. pose proof (suffix_length _ _ Hr). apply IH; [|lia].
    etrans; [exact Hr|]. etrans; [|exact Hsuf]. solve_suffix. }
  assert (∀ (m : MT unit) rest, ends m always → rest `suffix_of` args →
    ends (m;; run_commands fuel junk argv0 b core n rest) always) as Hthen.
  { intros m rest Hm Hr. apply ends_then; [done|intros _; by apply Hnext]. }
  assert (∀ s, 0 ≤ strtoul s 16 < 2 ^ 64) as Hx by (intros s; apply strtoul_range; lia).
  assert (∀ s, 0 ≤ u8 (strtoul s 16) < 256) as Hx8 by (intros s; apply (wrap_range 8); lia).
  (** dmiread, dmiwrite *)
  apply ends_if; [destruct args as [|a args]; [apply ends_usage|]|].
  { eapply ends_bind; [by apply ends_read|intros [rc data] _]. apply Hthen; [apply ends_print|solve_suffix]. }
  apply ends_if; [destruct args as [|a [|d args]]; [apply ends_usage..|]|].
  { apply ends_then; [by apply ends_write|intros _]. apply Hnext. solve_suffix. }
  (** creset, icreset, stop, start, step, quit, status *)
  do 4 (apply ends_if; [apply Hthen; [by apply ends_ctrl|done]|]).
  apply ends_if; [apply Hthen; [by apply ends_step|done]|].
  apply ends_if; [apply ends_then; [by apply ends_write; [|lia|]|intros _; by apply Hnext]|].
  apply ends_if; [by apply Hnext|].
  (** mr, mw, load, save *)
  destruct (is_word cmd "mr") eqn:Emr; [destruct args as [|a args]; [apply ends_usage|]|].
  { pose proof (opt_number_suffix isxdigit 16 1 args) as Hl.
    assert (INT_MAX < fst (opt_number isxdigit 16 1 args) → U) as HU.
    { unfold opt_number. destruct args as [|c args]; [by vm_compute|].
      destruct (negb _); cbn [fst]; [|by vm_compute]. intros Hc. apply mr_ok.
      apply bool_decide_eq_true in Emr. subst cmd. destruct Hsuf as [pre ->]. by exists pre, a, c, args. }
    destruct (opt_number isxdigit 16 1 args) as [c rest]. apply Hthen; [by apply ends_mem_read|]. cbn [snd] in Hl.
    etrans; [exact Hl|]. solve_suffix. }
  apply ends_if; [destruct args as [|a [|d args]]; [apply ends_usage..|]|].
  { apply Hthen; [by apply ends_mem_write|solve_suffix]. }
  apply ends_if; [destruct args as [|a args]; [apply ends_usage|]|].
  { destruct (opt_number_ok isxdigit 16 0 args ltac:(lia) ltac:(lia)) as [Ha _].
    pose proof (opt_number_suffix isxdigit 16 0 args) as Hl.
    destruct (opt_number isxdigit 16 0 args) as [c rest]. apply Hthen; [by apply ends_load|]. cbn [snd] in Hl.
    etrans; [exact Hl|]. solve_suffix. }
  apply ends_if; [destruct args as [|f [|a [|z args]]]; [apply ends_usage..|]|].
  { apply Hthen; [by apply ends_save|solve_suffix]. }
  (** gpr, lstart, lstop, ldump *)
  apply ends_if; [destruct args as [|a args]; [apply ends_usage|]|].
  { pose proof (opt_number_suffix isdigit 10 1 args) as Hl.
    destruct (opt_number isdigit 10 1 args) as [c rest]. cbn [snd] in Hl.
    apply Hthen; [apply ends_gpr; [done|done|apply strtoul_range; lia]|]. etrans; [exact Hl|]. solve_suffix. }
  apply ends_if; [apply Hthen; [by apply ends_reg|done]|].
  apply ends_if; [apply Hthen; [by apply ends_log_stop|done]|].
  apply ends_if; [destruct args as [|f args]; [apply ends_usage|]|].
  { apply Hthen; [by apply ends_log_dump|solve_suffix]. }
  (** ltrig, mtrig *)
  do 2 (apply ends_if; [destruct args as [|a args];
    [apply Hthen; [by apply ends_trig_show|done]|apply Hthen; [by apply ends_trig|solve_suffix]]|]).
  apply ends_then; [apply ends_print|intros _; apply ends_usage].
Qed.
End commands.

(** The core that is selected is one the register map has room for. *)
Lemma parse_opts_ok opts o (s : tool B) :
  0 ≤ o_core o < 15 →
  match parse_opts argv0 opts o s with
  | Ret o' s' => 0 ≤ o_core o' < 15 ∧ t_link s' = t_link s ∧ t_fs s' = t_fs s ∧ t_disk s' = t_disk s
  | Exit c _ => c = 1
  | Stuck => OptFreq None ∈ opts
  | OutOfFuel => False
  end.
Proof.
  revert o. induction opts as [|op opts IH]; intros o Ho; [done|].
  assert (∀ s' : tool B, match usage (A := options) argv0 s' with Exit c _ => c = 1 | _ => False end) as Hu.
  { intros s'. unfold usage, mbind, M_bind. cbn [print modify].
    assert (∀ l s'', ∃ s3, print_errs (B := B) l s'' = Ret tt s3) as Hp.
    { induction l as [|m l IHl]; intros s''; [by eexists|]. apply IHl. }
    match goal with |- context [print_errs ?l ?st] => by destruct (Hp l st) as [s3 ->] end. }
  assert (∀ o', 0 ≤ o_core o' < 15 → match parse_opts argv0 opts o' s with
    | Ret o' s' => 0 ≤ o_core o' < 15 ∧ t_link s' = t_link s ∧ t_fs s' = t_fs s ∧ t_disk s' = t_disk s
    | Exit c _ => c = 1 | Stuck => OptFreq None ∈ op :: opts | OutOfFuel => False end) as IH'.
  { intros o' Ho'. specialize (IH o' Ho'). destruct (parse_opts argv0 opts o' s); try done. by right. }
  destruct op as [|arg|arg| |[arg|]|arg|]; cbn [parse_opts]; try by apply IH'.
  - specialize (Hu s). by destruct (usage argv0 s).
  - do 3 (match goal with |- context [if ?c then _ else _] => destruct c end; [by apply IH'|]). done.
  - destruct (atoi arg =? 0); [done|by apply IH'].
  - cbn. left.
  - destruct (Z.leb_spec 15 (u32 (atoi arg))); [done|]. apply IH'. cbn.
    pose proof (wrap_range 32 (atoi arg) ltac:(lia)). lia.
Qed.

(** What a command line can do that C leaves undefined. *)
Definition undefined_line (opts : list opt) (args : list (list Z)) : Prop :=
  OptFreq None ∈ opts ∨ mr_overflows args.

Lemma debug_main_total `{T : !∀ k, DmiTarget (backends k)} D opts args s :
  0 ≤ D → D + 8 ≤ INT_MAX →
  (∀ k, (busy_bound (b := backends k) < fuel)%nat) →
  (∀ k target freq, ends (backends k) (undefined_line opts args) D 0 (b_init (backends k) target freq) (λ _, True)) →
  (∀ k, tool_at (backends k) D 0 s) →
  match debug_main backends fuel junk argv0 opts args s with
  | Ret r _ => r = 0
  | Exit c _ => c = 1
  | Stuck => undefined_line opts args
  | OutOfFuel => False
  end.
Proof.
  intros HD0 HD Hfuel Hinit Hok. unfold debug_main.
  pose proof (parse_opts_ok opts (Options 0 None None 0 false) s ltac:(cbn; lia)) as Hp.
  unfold mbind at 1, M_bind at 1. destruct (parse_opts _ _ _ s) as [o s1| | |]; [|by left|done..].
  destruct Hp as (Hcore & Hl & Hf & Hd). set (kind := default Bscane2Backend (o_backend o)). set (b := backends kind).
  assert (tool_at b D 0 s1) as Hs1 by (destruct (Hok kind); constructor; rewrite ?Hl, ?Hf, ?Hd; done).
  assert (ends b (undefined_line opts args) D 0 (rc ← b_init b (o_target o) (o_freq o);
    if rc <? 0 then exit_ 1 else
    run_commands fuel junk argv0 b (o_core o) (length args) args;;
    core_status b (o_core o) fuel junk (o_debug o);; mret 0) (λ r, r = 0)) as He.
  { apply ends_then; [apply (Hinit kind)|intros rc]. apply ends_if; [apply ends_exit|].
    apply ends_then; [|intros _].
    - apply (ends_run_commands _ _ _ _ args); [apply (Hfuel kind)|done|done|by right|done|done].
    - apply ends_then; [destruct (o_debug o); apply ends_status; [apply (Hfuel kind)|done|apply (Hfuel kind)|done]|intros _].
      by apply ends_ret. }
  specialize (He s1 Hs1).
  match goal with |- match ?m with _ => _ end => destruct m; naive_solver end.
Qed.
End main.
