(* ===== verification/DmiInit.v ===== *)
(** * Opening the connection of the debugger

    [sim_init], [common_jtag_init], [bscane2_init] and [ecp5_init] of
    [scripts/mw_debug/mw_debug.c].  Strings are their bytes without the terminator;
    copying one ([strdup], [strndup]) does not fail.  The calls of the operating
    system and of the UrJTAG library are parameters: a call changes the link and has
    a result, which for a function that returns a pointer is 0 for NULL. *)
From S2P Require Import Prelude CMem Vhpi DmiBits Dmi MwDebug.

(** [strchr]: where a character is first found. *)
Fixpoint index_of (c : Z) (s : list Z) : option nat :=
  match s with
  | [] => None
  | x :: s => if x =? c then Some O else S <$> index_of c s
  end.

(** [strndup (s, p - s)]: without a match [p] is null, and the difference is a
    length beyond any string. *)
Definition strndup_to (s : list Z) (p : option nat) : list Z :=
  match p with Some i => take i s | None => s end.

Section init.
Context {B : Type} (debug : bool).
Abbreviation MT := (M (tool B)).

(** ** The simulation *)

Record net := Net {
  net_socket : B → Z * B;
  net_gethostbyname : list Z → B → option (list Z) * B;
  net_connect : list Z → Z → B → Z * B;
  net_close : B → unit * B;
  net_strerror : B → list Z;
}.

Definition sim_init (k : net) (target : option (list Z)) (freq : Z) : MT Z :=
  let target := default (lit "localhost:13245") target in
  let p := index_of 58 target in
  let host := strndup_to target p in
  let port_str := match p with Some i => drop (S i) target | None => lit "13245" end in
  let port := s32 (strtoul port_str 10) in
  (if debug then print (Out "Opening sim backend host '%s' port %d" [PS host; PZ port]) else mret tt);;
  sim_fd ← on_link (net_socket k);
  if sim_fd <? 0 then
    e ← look (net_strerror k); print (Err "Error opening socket: %s" [PS e]);; mret (-1)
  else
  hp ← on_link (net_gethostbyname k host);
  match hp with
  | None => print (Err "Unknown host '%s'" [PS host]);; mret (-1)
  | Some h_addr =>
      rc ← on_link (net_connect k h_addr (u16 port));
      if rc <? 0 then
        on_link (net_close k);;
        e ← look (net_strerror k);
        print (Err "Connection to '%s' failed: %s" [PS host; PS e]);; mret (-1)
      else mret 0
  end.

(** ** JTAG *)

(** The calls of the library. *)
Inductive urj_op :=
  | UrjChainAlloc | UrjUsbProbe | UrjChainConnect (cable : list Z) (params : list (list Z))
  | UrjSetFrequency (freq : Z) | UrjManualAdd (len : Z) | UrjPartsSetInstruction (name : String.string)
  | UrjRegisterDefine (name : String.string) (len : Z)
  | UrjInstructionDefine (name code reg : String.string)
  | UrjSetInstruction (name : String.string) | UrjShiftInstructions | UrjShiftDataRegisters (capture : Z).

Record urj_lib := UrjLib {
  urj_call : urj_op → B → Z * B;
  urj_probed : B → list Z;           (** [cparams[1]] after the probe *)
  urj_parts : B → bool;              (** there are parts in the chain *)
  urj_part : B → bool;               (** [urj_tap_chain_active_part] is not NULL *)
  urj_out_value : B → Z;
  urj_error : B → list Z;
  urj_ok : Z;                        (** [URJ_STATUS_OK] *)
}.
Context (u : urj_lib).

Definition call (op : urj_op) : MT Z := on_link (urj_call u op).

Definition max_params : Z := 20.

(** The loop over [param_str]: a blank ends a parameter and starts the next one.
    [params] are offsets into the buffer; [None] is too many of them. *)
Fixpoint params_loop (s : list Z) (pos : nat) (i : Z) (buf : list Z) (params : list nat) :
    option (list Z * list nat) :=
  match s with
  | [] => Some (buf, params)
  | c :: s =>
      if c =? 32 then
        if max_params <=? i then None
        else params_loop s (S pos) (i + 1) (<[pos := 0]> buf) (params ++ [S pos])
      else params_loop s (S pos) i buf params
  end.

(** The string that starts at an offset of a buffer. *)
Fixpoint str_of (s : list Z) : list Z :=
  match s with [] => [] | c :: s => if c =? 0 then [] else c :: str_of s end.

(** The cable and its parameters. *)
Definition cable_params (target : list Z) : option (list Z * list (list Z)) :=
  let sep := index_of 32 target in
  let cable := strndup_to target sep in
  match sep with
  | Some i =>
      let param_str := drop i target in
      match params_loop param_str 0 0 param_str [] with
      | Some (buf, offs) => Some (cable, (λ o, str_of (drop o buf)) <$> offs)
      | None => None
      end
  | None => Some (cable, [])
  end.

Definition common_jtag_init (target : option (list Z)) (freq : Z) : MT Z :=
  match cable_params (default (lit "probe") target) with
  | None => print (Err "Too many jtag cable params" []);; mret (-1)
  | Some (cable, params) =>
      (if debug then print (Out "Opening jtag backend cable '%s'" [PS cable]) else mret tt);;
      jc ← call UrjChainAlloc;
      if jc =? 0 then print (Err "Failed to alloc JTAG" []);; mret (-1) else
      probe ← (if bool_decide (cable = lit "probe") then
                 rc ← call UrjUsbProbe;
                 if negb (rc =? urj_ok u) then
                   e ← look (urj_error u); print (Err "JTAG cable probe failed: %s" [PS e]);; mret None
                 else c ← look (urj_probed u); mret (Some c)
               else mret (Some cable));
      match probe with
      | None => mret (-1)
      | Some cable =>
          rc ← call (UrjChainConnect cable params);
          if negb (rc =? urj_ok u) then
            e ← look (urj_error u); print (Err "JTAG cable detect failed: %s" [PS e]);; mret (-1)
          else
          (if negb (freq =? 0) then call (UrjSetFrequency freq);; mret tt else mret tt);;
          mret 0
      end
  end.

(** A message, and the result -1; the ECP5 code adds the library's description to
    some of them. *)
Definition fail (m : String.string) : MT Z := print (Err m []);; mret (-1).
Definition fail_desc (m : String.string) : MT Z := e ← look (urj_error u); print (Err m [PS e]);; mret (-1).

Definition bscane2_init (target : option (list Z)) (freq : Z) : MT Z :=
  rc ← common_jtag_init target freq;
  if rc <? 0 then mret rc else
  rc ← call (UrjManualAdd 6);
  if rc <? 0 then fail "JTAG failed to add part !" else
  parts ← look (urj_parts u);
  if negb parts then fail "JTAG Something's wrong after adding part !" else
  call (UrjPartsSetInstruction "BYPASS");;
  p ← look (urj_part u);
  if negb p then fail "Failed to get active JTAG part" else
  rc ← call (UrjRegisterDefine "IDCODE_REG" 32);
  if negb (rc =? urj_ok u) then fail "JTAG failed to add IDCODE_REG register !" else
  r ← call (UrjInstructionDefine "IDCODE" "001001" "IDCODE_REG");
  if r =? 0 then fail "JTAG failed to add IDCODE instruction !" else
  rc ← call (UrjRegisterDefine "USER2_REG" 74);
  if negb (rc =? urj_ok u) then fail "JTAG failed to add USER2_REG register !" else
  r ← call (UrjInstructionDefine "USER2" "000011" "USER2_REG");
  if r =? 0 then fail "JTAG failed to add USER2 instruction !" else
  call (UrjSetInstruction "IDCODE");;
  call UrjShiftInstructions;;
  call (UrjShiftDataRegisters 1);;
  id ← look (urj_out_value u);
  print (Out "Found device ID: 0x%08x" [PZ (u32 id)]);;
  call (UrjSetInstruction "USER2");;
  call UrjShiftInstructions;;
  mret 0.

Definition ecp5_init (target : option (list Z)) (freq : Z) : MT Z :=
  rc ← common_jtag_init target freq;
  if rc <? 0 then mret rc else
  rc ← call (UrjManualAdd 8);
  if rc <? 0 then fail_desc "JTAG failed to add part! : %s" else
  parts ← look (urj_parts u);
  if negb parts then fail_desc "JTAG Something's wrong after adding part! : %s" else
  call (UrjPartsSetInstruction "BYPASS");;
  p ← look (urj_part u);
  if negb p then fail "Failed to get active JTAG part" else
  rc ← call (UrjRegisterDefine "IDCODE_REG" 32);
  if negb (rc =? urj_ok u) then fail_desc "JTAG failed to add IDCODE_REG register! : %s" else
  r ← call (UrjInstructionDefine "IDCODE" "11100000" "IDCODE_REG");
  if r =? 0 then fail_desc "JTAG failed to add IDCODE instruction! : %s" else
  rc ← call (UrjRegisterDefine "USER2_REG" 74);
  if negb (rc =? urj_ok u) then fail "JTAG failed to add USER2_REG register !" else
  r ← call (UrjInstructionDefine "USER2" "00110010" "USER2_REG");
  if r =? 0 then fail "JTAG failed to add USER2 instruction !" else
  call (UrjSetInstruction "IDCODE");;
  call UrjShiftInstructions;;
  call (UrjShiftDataRegisters 1);;
  id ← look (urj_out_value u);
  print (Out "Found device ID: 0x%08x" [PZ (u32 id)]);;
  call (UrjSetInstruction "USER2");;
  call UrjShiftInstructions;;
  mret 0.
(** ** The backends *)

Definition sim_backend (k : net) (sk : socket B) : backend B := {|
  b_init := sim_init k;
  b_reset := sim_reset;
  b_command := sim_command sk;
|}.

Definition bscane2_backend (j : urjtag B) : backend B := {|
  b_init := bscane2_init;
  b_reset := jtag_reset;
  b_command := jtag_command j;
|}.

Definition ecp5_backend (j : urjtag B) : backend B := {|
  b_init := ecp5_init;
  b_reset := jtag_reset;
  b_command := jtag_command j;
|}.
End init.
Arguments net : clear implicits.
Arguments urj_lib : clear implicits.
Arguments UrjLib {B}.
