(* ===== verification/DmiInitSpec.v ===== *)
(** * What opening the connection does

    The arguments of a target string as the fields between its blanks; the calls of
    the UrJTAG library as a script, which the code follows whatever the library
    answers ([follows]); and the address the debugger connects to. *)
From S2P Require Import Prelude CMem Ctype Vhpi DmiBits Dmi MwDebug MwDebugTotal DmiInit.

(** ** The fields of a string *)

(** The fields between the separators: always at least one, perhaps empty. *)
Fixpoint fields (c : Z) (s : list Z) : list Z * list (list Z) :=
  match s with
  | [] => ([], [])
  | x :: s => let '(w, ws) := fields c s in if x =? c then ([], w :: ws) else (x :: w, ws)
  end.

Lemma join_fields c s : let '(w, ws) := fields c s in s = w ++ mjoin ((λ w, c :: w) <$> ws).
Proof.
  induction s as [|x s IH]; [done|]. cbn [fields]. destruct (fields c s) as [w ws].
  destruct (Z.eqb_spec x c) as [->|]; cbn; by rewrite IH.
Qed.

Lemma fields_none c s : index_of c s = None → fields c s = (s, []).
Proof.
  induction s as [|x s IH]; [done|]. cbn. destruct (x =? c); [done|]. intros ?%fmap_None. by rewrite IH.
Qed.

Lemma fields_some c s i : index_of c s = Some i →
  fst (fields c s) = take i s ∧ fields c (drop i s) = ([], snd (fields c s)) ∧
  drop i s = c :: drop (S i) s.
Proof.
  revert i. induction s as [|x s IH]; intros i; [done|]. cbn. destruct (Z.eqb_spec x c) as [->|].
  - intros [= <-]. cbn. destruct (fields c s). by rewrite Z.eqb_refl.
  - intros (j & Hj & ->)%fmap_Some. destruct (IH _ Hj) as (H1 & H2 & H3). destruct (fields c s). cbn in *.
    by rewrite H1.
Qed.

(** ** The parameters of the cable *)

Definition zeroed (s : list Z) : list Z := (λ c, if c =? 32 then 0 else c) <$> s.
Fixpoint offsets (pos : nat) (s : list Z) : list nat :=
  match s with
  | [] => []
  | c :: s => if c =? 32 then S pos :: offsets (S pos) s else offsets (S pos) s
  end.

Lemma params_loop_ok s pre i ps : i ≤ max_params →
  params_loop s (length pre) i (pre ++ s) ps =
    if i + Z.of_nat (length (snd (fields 32 s))) <=? max_params
    then Some (pre ++ zeroed s, ps ++ offsets (length pre) s) else None.
Proof.
  unfold max_params. revert pre i ps. induction s as [|c s IH]; intros pre i ps Hi; cbn [params_loop].
  { cbn. rewrite !app_nil_r. by rewrite (proj2 (Z.leb_le _ _)) by lia. }
  cbn [fields offsets]. unfold zeroed. rewrite fmap_cons. fold (zeroed s).
  specialize (IH (pre ++ [if c =? 32 then 0 else c])).
  rewrite length_app, Nat.add_1_r in IH. setoid_rewrite <-(assoc_L (++)) in IH. cbn [app] in IH.
  destruct (fields 32 s) as [w ws]. cbn [snd] in IH. destruct (c =? 32) eqn:E; [|by apply IH].
  unfold max_params. cbn [snd length]. destruct (Z.leb_spec 20 i).
  { by rewrite (proj2 (Z.leb_gt _ _)) by lia. }
  rewrite insert_app_r_alt, Nat.sub_diag by lia. cbn [list_insert insert].
  rewrite IH, <-(assoc_L (++)) by lia. cbn [app].
  by replace (i + Z.of_nat (S (length ws))) with (i + 1 + Z.of_nat (length ws)) by lia.
Qed.

Lemma params_strs s pre : 0 ∉ s →
  str_of (zeroed s) = fst (fields 32 s) ∧
  (λ o, str_of (drop o (pre ++ zeroed s))) <$> offsets (length pre) s = snd (fields 32 s).
Proof.
  revert pre. induction s as [|c s IH]; intros pre; [done|]. intros [Hc Hs]%not_elem_of_cons.
  cbn [fields offsets]. unfold zeroed. rewrite fmap_cons. fold (zeroed s).
  specialize (IH (pre ++ [if c =? 32 then 0 else c]) Hs) as [IH1 IH2].
  rewrite length_app, Nat.add_1_r in IH2. setoid_rewrite <-(assoc_L (++)) in IH2. cbn [app] in IH2.
  destruct (fields 32 s) as [w ws]. cbn [fst snd] in *. destruct (c =? 32) eqn:E; cbn [str_of fst snd].
  - split; [done|]. rewrite fmap_cons. f_equal; [|exact IH2].
    replace (S (length pre)) with (length pre + 1)%nat by lia. rewrite <-drop_drop, drop_app_length. exact IH1.
  - rewrite (proj2 (Z.eqb_neq c 0)) by done. by rewrite IH1.
Qed.

(** ** The calls of the library *)

(** The library with its calls recorded. *)
Definition recorded {B} (u : urj_lib B) : urj_lib (list urj_op * B) :=
  UrjLib (λ op '(ops, l), let '(r, l) := urj_call u op l in (r, (ops ++ [op], l)))
         (λ l, urj_probed u (snd l)) (λ l, urj_parts u (snd l)) (λ l, urj_part u (snd l))
         (λ l, urj_out_value u (snd l)) (λ l, urj_error u (snd l)) (urj_ok u).

(** The last line printed is an error message. *)
Definition complained (log : list msg) : Prop := ∃ m args, last log = Some (Err m args).

Section follows.
Context {B : Type} (u : urj_lib B).
Abbreviation MT := (M (tool (list urj_op * B))).

(** [follows m R]: whatever the library answers, [m] returns and has made the calls
    of a list in [R], all of them with the result 0, or a first part of them, a
    message and the result -1. *)
Definition follows (m : MT Z) (R : list urj_op → Prop) : Prop := ∀ s, ∃ rc s' ops full,
  m s = Ret rc s' ∧ fst (t_link s') = fst (t_link s) ++ ops ∧ R full ∧ ops `prefix_of` full ∧
  (rc = 0 ∧ ops = full ∨ rc = -1 ∧ complained (t_log s')).

Lemma follows_mono m (R R' : list urj_op → Prop) :
  (∀ ops, R ops → R' ops) → follows m R → follows m R'.
Proof. intros HR Hm s. destruct (Hm s) as (rc & s' & ops & full & ? & ? & ? & ? & ?). eauto 10. Qed.

Lemma follows_call op f (R : list urj_op → Prop) :
  (∀ r, follows (f r) (λ ops, R (op :: ops))) → follows (call (recorded u) op ≫= f) R.
Proof.
  intros Hf s. destruct s as [[ops l] log fs n]. unfold call, on_link, mbind, M_bind, recorded. cbn [urj_call t_link].
  destruct (urj_call u op l) as [r l'].
  destruct (Hf r (Tool (ops ++ [op], l') log fs n)) as (rc & s' & ops' & full & H1 & H2 & H3 & H4 & H5).
  exists rc, s', (op :: ops'), (op :: full). split; [exact H1|]. cbn in *. rewrite H2, <-(assoc_L (++)).
  split_and!; [done..|by apply prefix_cons|naive_solver].
Qed.

Lemma follows_look {A} (g : list urj_op * B → A) f R : (∀ x, follows (f x) R) → follows (look g ≫= f) R.
Proof. intros Hf s. apply Hf. Qed.

Lemma follows_print m (f : unit → MT Z) R : follows (f tt) R → follows (print m ≫= f) R.
Proof. intros Hf s. exact (Hf (Tool (t_link s) (t_log s ++ [m]) (t_fs s) (t_disk s))). Qed.

Lemma follows_assoc {A C} (m : MT A) (f : A → MT C) (g : C → MT Z) R :
  follows (m ≫= λ a, f a ≫= g) R → follows ((m ≫= f) ≫= g) R.
Proof. intros Hf s. rewrite bind_assoc. apply Hf. Qed.

Lemma follows_ret_ok R : R [] → follows (mret 0) R.
Proof. intros HR s. exists 0, s, [], []. rewrite app_nil_r. eauto 10. Qed.

Lemma follows_fail m args ops R : R ops → follows (print (Err m args);; mret (-1)) R.
Proof.
  intros HR s. eexists (-1), _, [], ops. rewrite app_nil_r. split_and!; [done..|apply prefix_nil|].
  right. split; [done|]. exists m, args. cbn. by rewrite last_snoc.
Qed.

Lemma follows_if (c : bool) m1 m2 R : follows m1 R → follows m2 R → follows (if c then m1 else m2) R.
Proof. by destruct c. Qed.

(** One part after another, where an error of the first is handed on. *)
Lemma follows_seq m f (R1 R2 : list urj_op → Prop) ops2 :
  follows m R1 → follows (f 0) R2 → f (-1) = mret (-1) → R2 ops2 →
  follows (m ≫= f) (λ ops, ∃ o1 o2, R1 o1 ∧ R2 o2 ∧ ops = o1 ++ o2).
Proof.
  intros Hm Hf Herr HR2 s. destruct (Hm s) as (rc & s1 & o1 & f1 & E1 & Ht1 & HR1 & Hp1 & Hrc).
  destruct Hrc as [[-> ->]|[-> Hc]].
  - destruct (Hf s1) as (rc & s2 & o2 & f2 & E2 & Ht2 & Hf2 & Hp2 & Hrc).
    exists rc, s2, (f1 ++ o2), (f1 ++ f2). rewrite (bind_Ret _ _ _ _ _ E1), E2, Ht2, Ht1, (assoc_L (++)).
    split_and!; [done..|eauto 10|by apply prefix_app|]. naive_solver.
  - exists (-1), s1, o1, (f1 ++ ops2). rewrite (bind_Ret _ _ _ _ _ E1), Herr.
    split_and!; [done..|eauto 10|by apply prefix_app_r|naive_solver].
Qed.
End follows.

(** One step of a function that follows a script. *)
Ltac follow :=
  match goal with
  | |- follows (if ?c then _ else _) _ => destruct c eqn:?
  | |- follows ((if ?c then _ else _) ≫= _) _ => destruct c eqn:?
  | |- follows ((_ ≫= _) ≫= _) _ => apply follows_assoc
  | |- follows (call _ _ ≫= _) _ => apply follows_call; intros ?
  | |- follows (look _ ≫= _) _ => apply follows_look; intros ?
  | |- follows (print (Out _ _) ≫= _) _ => apply follows_print
  | |- follows (print (Err _ _) ≫= _) _ => eapply follows_fail
  | |- follows (fail _) _ => eapply follows_fail
  | |- follows (fail_desc _ _) _ => apply follows_look; intros ?; eapply follows_fail
  | |- follows (mret 0) _ => apply follows_ret_ok
  | |- follows (mret ?a ≫= ?f) ?R => change (follows (f a) R); cbv beta iota
  end.

(** ** The scripts *)

(** The fields of a target string: the cable and its parameters. *)
Definition cable_of (target : option (list Z)) : list Z * list (list Z) :=
  fields 32 (default (lit "probe") target).

(** The calls that connect to a cable. *)
Definition connect_script (probe : bool) (cable : list Z) (params : list (list Z)) (freq : Z) : list urj_op :=
  [UrjChainAlloc] ++ (if probe then [UrjUsbProbe] else []) ++ [UrjChainConnect cable params] ++
  (if freq =? 0 then [] else [UrjSetFrequency freq]).

(** The calls that set up the part: its instruction length and the codes of the two
    instructions. *)
Definition part_script (ir : Z) (idcode user2 : String.string) : list urj_op :=
  [UrjManualAdd ir; UrjPartsSetInstruction "BYPASS";
   UrjRegisterDefine "IDCODE_REG" 32; UrjInstructionDefine "IDCODE" idcode "IDCODE_REG";
   UrjRegisterDefine "USER2_REG" 74; UrjInstructionDefine "USER2" user2 "USER2_REG";
   UrjSetInstruction "IDCODE"; UrjShiftInstructions; UrjShiftDataRegisters 1;
   UrjSetInstruction "USER2"; UrjShiftInstructions].

(** The cable connected to is the one named, or the one the probe found. *)
Definition connects (target : option (list Z)) (freq : Z) (ops : list urj_op) : Prop :=
  let '(cable, params) := cable_of target in
  ∃ c, (cable ≠ lit "probe" → c = cable) ∧
    ops = connect_script (bool_decide (cable = lit "probe")) c params freq.

Lemma cable_params_ok target : 0 ∉ target →
  cable_params target =
    if Z.of_nat (length (snd (fields 32 target))) <=? max_params then Some (fields 32 target) else None.
Proof.
  intros Hz. unfold cable_params. destruct (index_of 32 target) as [i|] eqn:Ei;
    [|by rewrite (fields_none _ _ Ei)].
  destruct (fields_some _ _ _ Ei) as (H1 & H2 & H3).
  assert (0 ∉ drop i target) as Hd by (rewrite <-(take_drop i target) in Hz; set_solver).
  pose proof (params_loop_ok (drop i target) [] 0 [] ltac:(done)) as Hl.
  pose proof (proj2 (params_strs (drop i target) [] Hd)) as Hs.
  cbn [length app] in Hl, Hs. rewrite H2 in Hl, Hs. cbn [snd] in Hl, Hs. rewrite Z.add_0_l in Hl.
  cbn zeta. rewrite Hl. destruct (fields 32 target) as [w ws]. cbn [fst snd] in *. subst w.
  destruct (_ <=? _); [|done]. cbn. by rewrite Hs.
Qed.

Section scripts.
Context {B : Type} (u : urj_lib B) (debug : bool).
Abbreviation ru := (recorded u).

Lemma common_jtag_init_follows target freq : 0 ∉ default [] target →
  Z.of_nat (length (snd (cable_of target))) ≤ max_params →
  follows (common_jtag_init debug ru target freq) (connects target freq).
Proof.
  intros Hz Hn. unfold common_jtag_init, connects, cable_of in *.
  rewrite cable_params_ok by (destruct target; [done|decided]).
  rewrite (proj2 (Z.leb_le _ _)) by done. destruct (fields 32 _) as [cable params]. clear Hz Hn.
  repeat follow.
  all: eexists; split;
    [|unfold connect_script; try match goal with H : negb (?f =? 0) = _ |- _ => destruct (f =? 0) end; done].
  all: intros Hc; try done; destruct Hc; by eapply bool_decide_eq_true.
Qed.

(** Too many parameters: no call at all. *)
Lemma common_jtag_init_too_many target freq s : 0 ∉ default [] target →
  max_params < Z.of_nat (length (snd (cable_of target))) →
  common_jtag_init debug ru target freq s =
    Ret (-1) (Tool (t_link s) (t_log s ++ [Err "Too many jtag cable params" []]) (t_fs s) (t_disk s)).
Proof.
  intros Hz Hn. unfold common_jtag_init, cable_of in *.
  rewrite cable_params_ok by (destruct target; [done|decided]). by rewrite (proj2 (Z.leb_gt _ _)).
Qed.

(** The whole script of a kind of part. *)
Definition sets_up (target : option (list Z)) (freq ir : Z) (idcode user2 : String.string) (ops : list urj_op) : Prop :=
  ∃ o1 o2, connects target freq o1 ∧ o2 = part_script ir idcode user2 ∧ ops = o1 ++ o2.

Lemma bscane2_init_follows target freq : 0 ∉ default [] target →
  Z.of_nat (length (snd (cable_of target))) ≤ max_params →
  follows (bscane2_init debug ru target freq) (sets_up target freq 6 "001001" "000011").
Proof.
  intros Hz Hn. eapply follows_seq; [by apply common_jtag_init_follows| |done..].
  cbn. by repeat follow.
Qed.

Lemma ecp5_init_follows target freq : 0 ∉ default [] target →
  Z.of_nat (length (snd (cable_of target))) ≤ max_params →
  follows (ecp5_init debug ru target freq) (sets_up target freq 8 "11100000" "00110010").
Proof.
  intros Hz Hn. eapply follows_seq; [by apply common_jtag_init_follows| |done..].
  cbn. by repeat follow.
Qed.
End scripts.

(** ** The simulation's socket *)

(** The value of decimal digits. *)
Definition dec_value (acc : Z) (ds : list Z) : Z := foldl (λ v d, v * 10 + (d - 48)) acc ds.
Definition is_dec (c : Z) : bool := (48 <=? c) && (c <=? 57).

Lemma number_dec acc ds : Forall (λ c, is_dec c = true) ds → number 10 acc ds = dec_value acc ds.
Proof.
  intros Hds. revert acc. induction Hds as [|c ds Hc Hds IH]; intros acc; [done|]. unfold is_dec in Hc.
  cbn [number dec_value foldl]. unfold digit_value. rewrite Hc.
  rewrite (proj2 (Z.ltb_lt (c - 48) 10)) by lia. apply IH.
Qed.

Lemma strtoul_dec ds : Forall (λ c, is_dec c = true) ds → dec_value 0 ds < 2 ^ 64 → strtoul ds 10 = dec_value 0 ds.
Proof.
  intros Hds Hv. unfold strtoul. assert (skip_blanks ds = ds) as ->.
  { destruct Hds as [|c ds Hc _]; [done|]. cbn [skip_blanks]. unfold is_dec in Hc. unfold isspace. by conds. }
  destruct Hds as [|c ds Hc Hds]; [done|]. unfold is_dec in Hc.
  assert (c ≠ 45 ∧ c ≠ 43) as [H1 H2] by lia.
  assert (match c :: ds with 45 :: s => (true, s) | 43 :: s => (false, s) | _ => (false, c :: ds) end =
          (false, c :: ds)) as ->.
  { destruct c as [|c|c]; [done| |done]. by do 6 (destruct c as [c|c|]; try done). }
  cbn beta iota. rewrite (andb_false_l (has_0x _)). rewrite number_dec by by constructor.
  by rewrite (proj2 (Z.ltb_ge _ _)) by lia.
Qed.

(** The calls that open the connection, as a function of the link. *)
Definition sim_connect {B} (k : net B) (host : list Z) (port : Z) (l : B) : Z * B :=
  let '(fd, l) := net_socket k l in
  if fd <? 0 then (-1, l) else
  let '(hp, l) := net_gethostbyname k host l in
  match hp with
  | None => (-1, l)
  | Some addr =>
      let '(rc, l) := net_connect k addr port l in
      if rc <? 0 then (-1, snd (net_close k l)) else (0, l)
  end.

(** The port the simulation listens on. *)
Definition TCP_PORT : Z := 13245.

(** A target, and the host and port it names. *)
Inductive names : option (list Z) → list Z → Z → Prop :=
  | names_default : names None (lit "localhost") TCP_PORT
  | names_host host : 58 ∉ host → names (Some host) host TCP_PORT
  | names_both host ds : 58 ∉ host → Forall (λ c, is_dec c = true) ds → 0 ≤ dec_value 0 ds < 2 ^ 16 →
      names (Some (host ++ 58 :: ds)) host (dec_value 0 ds).

Lemma index_of_none c s : c ∉ s → index_of c s = None.
Proof.
  induction s as [|x s IH]; [done|]. intros [Hc Hs]%not_elem_of_cons. cbn.
  rewrite (proj2 (Z.eqb_neq x c)) by done. by rewrite IH.
Qed.

Lemma index_of_app c s t : c ∉ s → index_of c (s ++ c :: t) = Some (length s).
Proof.
  induction s as [|x s IH]; cbn; [by rewrite Z.eqb_refl|]. intros [Hc Hs]%not_elem_of_cons.
  rewrite (proj2 (Z.eqb_neq x c)) by done. by rewrite IH.
Qed.

Lemma names_parsed target host port : names target host port →
  let t := default (lit "localhost:13245") target in
  let p := index_of 58 t in
  strndup_to t p = host ∧
  s32 (strtoul (match p with Some i => drop (S i) t | None => lit "13245" end) 10) = port ∧ 0 ≤ port < 2 ^ 16.
Proof.
  destruct 1 as [|host Hh|host ds Hh Hds Hv]; cbn zeta; [done|..].
  - change (default _ (Some ?t)) with t. by rewrite index_of_none.
  - change (default _ (Some ?t)) with t. rewrite index_of_app by done. cbn [strndup_to]. rewrite take_app_length. split_and!; [done| |lia..].
    replace (S (length host)) with (length host + 1)%nat by lia. rewrite <-drop_drop, drop_app_length.
    cbn [drop]. rewrite drop_0, strtoul_dec; [|done|lia]. apply swrap_small; lia.
Qed.

Lemma sim_init_ok {B} (k : net B) debug target host port freq (s : tool B) :
  names target host port →
  ∃ log, sim_init debug k target freq s =
    Ret (fst (sim_connect k host port (t_link s)))
        (Tool (snd (sim_connect k host port (t_link s))) (t_log s ++ log) (t_fs s) (t_disk s)) ∧
    (fst (sim_connect k host port (t_link s)) ≠ 0 → complained log).
Proof.
  intros (Hh & Hp & Hr)%names_parsed. unfold sim_init. cbn zeta in *. rewrite Hh, Hp. clear Hh Hp target.
  assert (u16 port = port) as -> by (by apply Z.mod_small).
  unfold sim_connect. destruct s as [l log fs n].
  unfold mbind, M_bind, on_link, print, modify, look, mret, M_ret.
  destruct debug; cbn [t_link t_log t_fs t_disk].
  all: destruct (net_socket k l) as [fd l1]; cbn [t_link t_log t_fs t_disk]; destruct (fd <? 0).
  all: try (destruct (net_gethostbyname k host l1) as [[addr|] l2] eqn:Eh; cbn [t_link t_log t_fs t_disk];
            rewrite ?Eh; cbn [t_link t_log t_fs t_disk]).
  all: try (destruct (net_connect k addr port l2) as [rc l3] eqn:Ec; cbn [t_link t_log t_fs t_disk];
            rewrite ?Ec; cbn [t_link t_log t_fs t_disk]; destruct (rc <? 0);
            [destruct (net_close k l3) eqn:El; cbn [t_link t_log t_fs t_disk]; rewrite ?El|]).
  all: cbn [t_link t_log t_fs t_disk fst snd]; rewrite <-?(assoc_L (++)).
  all: try by (eexists; split; [reflexivity|]; intros _; unfold complained; cbn; eauto).
  all: first [exists []; by rewrite app_nil_r|by eexists].
Qed.
