(* ===== verification/DmiLink.v ===== *)
(** * Debug accesses over a transport module

    The debugger does not see the debug module itself: the simulation and JTAG both
    carry 74 bits to a transport module and 74 bits back.  The class [Dtm] is what a
    transport module does with them, the class [Carrier] what a backend does that
    reaches one; every carrier makes whole accesses. *)
From S2P Require Import Prelude CMem Vhpi DmiBits Dmi MwDebug MwDebugSpec.

(** ** The transport module *)

(** An exchange shifts a request in and the reply to the one before it out: the
    operation or status in bits 1 to 0, the data in 65 to 2, the address in 73 to
    66.  While an access is under way the status is 3; [dtm_waiting h k r h'] says
    that it is so for [k] more exchanges, and the reply is then [r]. *)
Class Dtm (H : Type) := {
  dtm : Z → H → Z * H;
  dtm_idle : H → Prop;
  dtm_read : Z → H → Z * H;
  dtm_write : Z → Z → H → H;
  dtm_waiting : H → nat → Z → H → Prop;
  dtm_bound : nat;
  dtm_read_idle addr h : dtm_idle h → dtm_idle (snd (dtm_read addr h));
  dtm_write_idle addr v h : dtm_idle h → dtm_idle (dtm_write addr v h);
  dtm_start_read addr d h :
    0 ≤ addr < 256 → 0 ≤ d < 2 ^ 64 → dtm_idle h →
    ∃ k, (k ≤ dtm_bound)%nat ∧
      dtm_waiting (snd (dtm (request_bits 1 addr d) h)) k (fst (dtm_read addr h)) (snd (dtm_read addr h));
  dtm_start_write addr v h :
    0 ≤ addr < 256 → 0 ≤ v < 2 ^ 64 → dtm_idle h →
    ∃ k r, (k ≤ dtm_bound)%nat ∧
      dtm_waiting (snd (dtm (request_bits 2 addr v) h)) k r (dtm_write addr v h);
  dtm_poll_busy d h k r h' :
    0 ≤ d < 2 ^ 64 → dtm_waiting h (S k) r h' →
    let '(rep, h1) := dtm (request_bits 0 0 d) h in rep `mod` 4 = 3 ∧ dtm_waiting h1 k r h';
  dtm_poll_done d h r h' :
    0 ≤ d < 2 ^ 64 → dtm_waiting h 0 r h' →
    let '(rep, h1) := dtm (request_bits 0 0 d) h in
    rep `mod` 4 = 0 ∧ Z.shiftr rep 2 `mod` 2 ^ 64 = r ∧ h1 = h';
}.

Lemma request_bits_range op addr d :
  0 ≤ op < 4 → 0 ≤ d < 2 ^ 64 → 0 ≤ addr < 256 → 0 ≤ request_bits op addr d < 2 ^ 74.
Proof.
  intros Hop Hd Ha. unfold request_bits. rewrite (lor_shiftl_add 2 op d) by lia.
  rewrite lor_shiftl_add by lia. lia.
Qed.

(** ** Carriers *)

(** A command of the backend is one exchange with the transport module behind the
    link. *)
Class Carrier {B H : Type} `{!Dtm H} (b : backend B) := {
  hw_of : B → H;
  carried : B → Prop;
  exchange op addr data s :
    carried (t_link s) → 0 ≤ op < 4 → 0 ≤ addr < 256 →
    let '(rep, h) := dtm (request_bits op addr (u64 (default 0 data))) (hw_of (t_link s)) in
    ∃ l, b_command b op addr data s =
        Ret (rep `mod` 4, (λ _, Z.shiftr rep 2 `mod` 2 ^ 64) <$> data) (with_link s l) ∧
      carried l ∧ hw_of l = h;
}.

Section carrier.
Context {B H : Type} `{!Dtm H} (b : backend B) `{!Carrier b}.

(** ** Whole accesses *)

Lemma carrier_poll_ok fuel k r h' data s :
  carried (t_link s) → dtm_waiting (hw_of (t_link s)) k r h' → (k < fuel)%nat →
  ∃ l, dmi_poll b fuel data s = Ret (0, (λ _, r) <$> data) (with_link s l) ∧ carried l ∧ hw_of l = h'.
Proof.
  revert k data s. induction fuel as [|fuel IH]; intros k data s Hrd Hw Hk; [lia|]. cbn [dmi_poll].
  pose proof (exchange 0 0 data s Hrd ltac:(lia) ltac:(lia)) as He.
  pose proof (wrap_range 64 (default 0 data) ltac:(lia)) as Hd.
  destruct k as [|k].
  - pose proof (dtm_poll_done _ _ _ _ Hd Hw) as Hl.
    destruct (dtm _ (hw_of (t_link s))) as [rep h1]. destruct Hl as (E1 & E2 & ->).
    rewrite E1, E2 in He.
    destruct He as (l & Hr & Hrd' & Hh). step_with Hr. by exists l.
  - pose proof (dtm_poll_busy _ _ _ _ _ Hd Hw) as Hl.
    destruct (dtm _ (hw_of (t_link s))) as [rep h1]. destruct Hl as (E1 & Hw').
    rewrite E1 in He.
    destruct He as (l & Hr & Hrd' & Hh). step_with Hr. cbn [Z.ltb Z.eqb Z.compare Pos.compare Pos.compare_cont Pos.eqb negb].
    rewrite bind_mret. rewrite <- Hh in Hw'.
    destruct (IH k ((λ _, Z.shiftr rep 2 `mod` 2 ^ 64) <$> data) (with_link s l) Hrd' Hw' ltac:(lia)) as (l2 & -> & H2).
    exists l2. split; [|done]. by destruct data.
Qed.

Lemma carrier_read_ok fuel addr data s :
  carried (t_link s) → dtm_idle (hw_of (t_link s)) → (dtm_bound < fuel)%nat → 0 ≤ addr < 256 →
  let '(r, h') := dtm_read addr (hw_of (t_link s)) in
  ∃ l, dmi_read b fuel addr data s = Ret (0, r) (with_link s l) ∧ carried l ∧ hw_of l = h' ∧ dtm_idle h'.
Proof.
  intros Hrd Hi Hf Ha. pose proof (dtm_read_idle addr _ Hi) as Hi'.
  pose proof (exchange 1 addr (Some data) s Hrd ltac:(lia) Ha) as He.
  destruct (dtm_start_read addr (u64 data) _ Ha (wrap_range 64 data ltac:(lia)) Hi) as (k & Hk & Hw).
  destruct (dtm_read addr _) as [r h']. cbn [fst snd] in *. cbn [default] in He.
  change (default 0 (Some data)) with data in He.
  destruct (dtm _ _) as [rep h1]. cbn [snd] in Hw. destruct He as (l & Hr & Hrd' & Hh).
  unfold dmi_read. rewrite (wrap_small 8) by done. step_with Hr.
  pose proof (Z.mod_pos_bound rep 4 ltac:(lia)). rewrite (proj2 (Z.ltb_ge _ 0)) by lia.
  rewrite <- Hh in Hw.
  destruct (carrier_poll_ok fuel k r h' (Some (default data ((λ _, Z.shiftr rep 2 `mod` 2 ^ 64) <$> Some data)))
    (with_link s l) Hrd' Hw ltac:(lia)) as (l2 & Hr2 & Hrd2 & Hh2).
  rewrite (bind_Ret _ _ _ _ _ Hr2). by exists l2.
Qed.

Lemma carrier_write_ok fuel addr v s :
  carried (t_link s) → dtm_idle (hw_of (t_link s)) → (dtm_bound < fuel)%nat → 0 ≤ addr < 256 → 0 ≤ v < 2 ^ 64 →
  let h' := dtm_write addr v (hw_of (t_link s)) in
  ∃ l, dmi_write b fuel addr v s = Ret 0 (with_link s l) ∧ carried l ∧ hw_of l = h' ∧ dtm_idle h'.
Proof.
  intros Hrd Hi Hf Ha Hv h'. pose proof (dtm_write_idle addr v _ Hi) as Hi'.
  pose proof (exchange 2 addr (Some v) s Hrd ltac:(lia) Ha) as He.
  destruct (dtm_start_write addr v _ Ha Hv Hi) as (k & r & Hk & Hw).
  change (default 0 (Some v)) with v in He. rewrite (wrap_small 64 v) in He by done.
  destruct (dtm _ _) as [rep h1]. cbn [snd] in Hw. destruct He as (l & Hr & Hrd' & Hh).
  unfold dmi_write. rewrite (wrap_small 8) by done. step_with Hr.
  pose proof (Z.mod_pos_bound rep 4 ltac:(lia)). rewrite (proj2 (Z.ltb_ge _ 0)) by lia. rewrite <- Hh in Hw.
  destruct (carrier_poll_ok fuel k r h' None (with_link s l) Hrd' Hw ltac:(lia)) as (l2 & Hr2 & Hrd2 & Hh2).
  rewrite (bind_Ret _ _ _ _ _ Hr2). by exists l2.
Qed.
(** Both, as one contract. *)
Lemma carrier_access fuel addr v s :
  carried (t_link s) → dtm_idle (hw_of (t_link s)) → (dtm_bound < fuel)%nat →
  0 ≤ addr < 256 → 0 ≤ v < 2 ^ 64 →
  (∃ l, dmi_read b fuel addr v s = Ret (0, fst (dtm_read addr (hw_of (t_link s)))) (with_link s l) ∧
    carried l ∧ hw_of l = snd (dtm_read addr (hw_of (t_link s))) ∧ dtm_idle (hw_of l)) ∧
  (∃ l, dmi_write b fuel addr v s = Ret 0 (with_link s l) ∧
    carried l ∧ hw_of l = dtm_write addr v (hw_of (t_link s)) ∧ dtm_idle (hw_of l)).
Proof.
  intros Hrd Hi Hf Ha Hv. split.
  - pose proof (carrier_read_ok fuel addr v s Hrd Hi Hf Ha) as Hx.
    destruct (dtm_read addr _) as [r h']. destruct Hx as (l & H1 & H2 & H3 & H4). exists l. by rewrite H3.
  - destruct (carrier_write_ok fuel addr v s Hrd Hi Hf Ha Hv) as (l & H1 & H2 & H3 & H4).
    exists l. by rewrite H3.
Qed.
End carrier.

(** ** A transport module of the class

    In front of the debug module of [MwDebugSpec]; every access takes two more
    exchanges. *)
Lemma request_fields op addr d :
  0 ≤ op < 4 → 0 ≤ d < 2 ^ 64 → 0 ≤ addr < 256 →
  let v := request_bits op addr d in v `mod` 4 = op ∧ u64 (Z.shiftr v 2) = d ∧ Z.shiftr v 66 = addr.
Proof.
  intros Hop Hd Ha v. assert (v = op + 4 * (d + addr * 2 ^ 64)) as ->.
  { unfold v, request_bits. rewrite (lor_shiftl_add 2 op d), lor_shiftl_add by lia. lia. }
  split; [|split].
  - rewrite Z.mul_comm, Z.mod_add, Z.mod_small by lia. done.
  - rewrite Z.shiftr_div_pow2 by lia. change (2 ^ 2) with 4.
    rewrite Z.mul_comm, Z.div_add, Z.div_small, Z.add_0_l by lia. unfold wrap. by rewrite Z.mod_add, Z.mod_small by lia.
  - rewrite Z.shiftr_div_pow2 by lia. symmetry. apply (Z.div_unique _ _ _ (op + 4 * d)); lia.
Qed.

Definition dbg_dtm_exchange (v : Z) (h : dbg) : Z * dbg :=
  let op := v `mod` 4 in
  let d := u64 (Z.shiftr v 2) in
  let addr := Z.shiftr v 66 in
  if op =? 1 then let '(r, h') := dbg_read addr h in (0, dbg_pend 2 (u64 r) h')
  else if op =? 2 then (0, dbg_pend 2 0 (dbg_write addr d h))
  else match d_pending h with
       | Some (S k, r) => (3, dbg_pend k r h)
       | Some (O, r) => (4 * u64 r, dbg_clear h)
       | None => (0, h)
       end.

#[export] Program Instance dbg_dtm : Dtm dbg := {|
  dtm := dbg_dtm_exchange;
  dtm_idle h := d_pending h = None;
  dtm_read addr h := let '(r, h') := dbg_read addr h in (u64 r, h');
  dtm_write := dbg_write;
  dtm_waiting h k r h' := d_pending h = Some (k, r) ∧ 0 ≤ r < 2 ^ 64 ∧ h' = dbg_clear h;
  dtm_bound := 2;
|}.
Next Obligation. intros addr h Hi. unfold dbg_read. repeat case_match; by simplify_eq. Qed.
Next Obligation. intros addr v h Hi. unfold dbg_write. repeat case_match; done. Qed.
Next Obligation.
  intros addr d h Ha Hd Hi. exists 2%nat. split; [done|]. unfold dbg_dtm_exchange.
  destruct (request_fields 1 addr d ltac:(lia) Hd Ha) as (-> & _ & ->). cbn [Z.eqb Pos.eqb].
  destruct (dbg_read addr h) as [r h'] eqn:E. cbn [fst snd]. split; [done|]. split; [by apply (wrap_range 64)|].
  unfold dbg_read in E. repeat case_match; by simplify_eq.
Qed.
Next Obligation.
  intros addr v h Ha Hv Hi. exists 2%nat, 0. split; [done|]. unfold dbg_dtm_exchange.
  destruct (request_fields 2 addr v ltac:(lia) Hv Ha) as (-> & -> & ->). cbn [Z.eqb Pos.eqb snd].
  split; [done|]. split; [lia|]. unfold dbg_write. repeat case_match; done.
Qed.
Next Obligation.
  intros d h k r h' Hd (Hp & Hr & ->). unfold dbg_dtm_exchange.
  destruct (request_fields 0 0 d ltac:(lia) Hd ltac:(lia)) as (-> & _ & _). cbn [Z.eqb]. by rewrite Hp.
Qed.
Next Obligation.
  intros d h r h' Hd (Hp & Hr & ->). unfold dbg_dtm_exchange.
  destruct (request_fields 0 0 d ltac:(lia) Hd ltac:(lia)) as (-> & _ & _). cbn [Z.eqb]. rewrite Hp.
  rewrite (wrap_small 64) by done. split; [rewrite Z.mul_comm; by apply Z.mod_mul|]. split; [|done].
  rewrite Z.shiftr_div_pow2 by lia. change (2 ^ 2) with 4. rewrite Z.mul_comm, Z.div_mul by lia. by apply Z.mod_small.
Qed.
