(* ===== verification/SimLink.v ===== *)
(** * The debugger connected to the simulation

    The whole path of a debug access in simulation: [sim_command] of [mw_debug.c]
    packs a request, the socket carries it, [sim_jtag_read_msg] of
    [sim_jtag_socket_c.c] unpacks it for the process of [sim_jtag.vhdl], which
    clocks it through the debug transport module, and the reply goes back through
    [sim_jtag_write_msg].  The link is a carrier to every module of the class
    [Dtm]. *)
From S2P Require Import Prelude CMem LibMem Vhpi DmiBits SimJtag Dmi MwDebug MwDebugSpec DmiInit DmiLink.

(** ** The link *)

(** The simulation, the transport module, and the packets on their way to it. *)
Record link (H : Type) := Link { lk_sim : jtag; lk_hw : H; lk_wire : list (list Z) }.
Arguments Link {H}.
Arguments lk_sim {H}.
Arguments lk_hw {H}.
Arguments lk_wire {H}.

(** The variables of the VHDL process, and the array of [sim_jtag_write_msg]. *)
Record jtag_vars := { cmd_at : Z; rsp_at : Z; msize_at : Z; junk_data : list Z }.

(** The number a vector of bits stands for, its first element the low bit. *)
Definition msg_value (bs : list Z) : Z := foldr (λ b v, Z.b2z (b =? vhpi1) + 2 * v) 0 bs.

Section link.
Context {H : Type} `{!Dtm H} (debug : bool) (k : net (link H)) (o : sock_os) (j : jtag_vars).
Abbreviation link := (link H).

Definition on_sim {A} (m : M jtag A) : M link A := zoom lk_sim (λ s l, Link s (lk_hw l) (lk_wire l)) m.

(** [clock_command]: the bits of a message against those of the register. *)
Definition clock_command (cmd : list Z) : M link (list Z) := λ l,
  let '(rep, h) := dtm (msg_value cmd) (lk_hw l) in
  Ret (msg_bits (length cmd) rep) (Link (lk_sim l) h (lk_wire l)).

(** The loop of the process, once, when [packet] has arrived. *)
Definition jtag_process (packet : list Z) : M link unit :=
  let o := {| os_socket := os_socket o; os_getfl := os_getfl o; os_setfl := os_setfl o; os_bind := os_bind o;
              os_listen := os_listen o; os_accept := os_accept o; os_poll := 1;
              os_read := (Z.of_nat (length packet), packet); os_write := os_write o |} in
  on_sim (sim_jtag_read_msg o (cmd_at j) (msize_at j));;
  size ← on_sim (j_on (from_std_logic_vector (msize_at j) 8));
  if negb (size =? 0) && (size <? 248) then
    l ← get;
    cmd ← of_option (read_bytes (jmem (lk_sim l)) (cmd_at j) (Z.to_nat size));
    rsp ← clock_command cmd;
    on_sim (λ s, Ret tt (j_with_mem s (write_bytes (rsp_at j) rsp (jmem s))));;
    on_sim (sim_jtag_write_msg o (junk_data j) (rsp_at j) (msize_at j))
  else mret tt.

(** The socket: the simulation takes a packet off it and answers before the
    debugger's [read] returns.  The answer is the last packet it has sent. *)
Definition link_socket : socket link := {|
  sock_write pkt l := (Z.of_nat (length pkt), Link (lk_sim l) (lk_hw l) (lk_wire l ++ [pkt]));
  sock_read n l :=
    match lk_wire l with
    | [] => ([], l)
    | pkt :: wire =>
        match jtag_process pkt (Link (lk_sim l) (lk_hw l) wire) with
        | Ret _ l' => (take n (default [] (last (j_sent (lk_sim l')))), l')
        | _ => ([], l)
        end
    end;
|}.

Abbreviation linked := (sim_backend debug k link_socket).

(** ** One exchange *)

(** A client is connected, the variables are there and apart, nothing is on its
    way. *)
Record ready (l : link) : Prop := {
  rd_fd : 0 ≤ j_fd (lk_sim l);
  rd_cfd : 0 ≤ j_cfd (lk_sim l);
  rd_cmd : mapped (jmem (lk_sim l)) (cmd_at j) 248;
  rd_rsp : mapped (jmem (lk_sim l)) (rsp_at j) 248;
  rd_msize : mapped (jmem (lk_sim l)) (msize_at j) 8;
  rd_wire : lk_wire l = [];
}.
Hypothesis os_ok : 0 ≤ os_write o.
Hypothesis junk_ok : length (junk_data j) = MAX_PACKET ∧ bytes (junk_data j).
Hypothesis cmd_apart : cmd_at j + 248 ≤ msize_at j ∨ msize_at j + 8 ≤ cmd_at j.
Hypothesis rsp_apart : rsp_at j + 248 ≤ msize_at j ∨ msize_at j + 8 ≤ rsp_at j.

Lemma msg_value_bits n v : msg_value (msg_bits n v) = wrap (Z.of_nat n) v.
Proof.
  revert v. induction n as [|n IH]; intros v.
  { unfold wrap. change (2 ^ Z.of_nat 0) with 1. by rewrite Z.mod_1_r. }
  unfold msg_bits. cbn [seq]. rewrite fmap_cons. cbn [msg_value foldr]. fold msg_value.
  rewrite <- fmap_S_seq, <- list_fmap_compose.
  assert ((λ i, slv_bit (Z.testbit v (Z.of_nat i))) ∘ S <$> seq 0 n = msg_bits n (Z.shiftr v 1)) as ->.
  { apply list_fmap_ext. intros i x _. cbn. rewrite Z.shiftr_spec by lia. do 2 f_equal. lia. }
  change (foldr _ 0 (msg_bits n (Z.shiftr v 1))) with (msg_value (msg_bits n (Z.shiftr v 1))). rewrite IH.
  change (Z.of_nat 0) with 0.
  replace (slv_bit (Z.testbit v 0) =? vhpi1) with (Z.testbit v 0) by (by destruct (Z.testbit v 0)).
  unfold wrap. rewrite Nat2Z.inj_succ. unfold Z.succ. rewrite Z.add_comm, (Z.add_comm (Z.of_nat n) 1).
  rewrite Z.pow_add_r, Z.rem_mul_r, Z.shiftr_div_pow2 by lia. change (2 ^ 1) with 2.
  rewrite <- Z.bit0_mod. lia.
Qed.

Lemma on_sim_Ret {A} (m : M jtag A) (l : link) a s' :
  m (lk_sim l) = Ret a s' → on_sim m l = Ret a (Link s' (lk_hw l) (lk_wire l)).
Proof. intros E. unfold on_sim. by rewrite (zoom_Ret _ _ _ _ _ _ E). Qed.

Lemma ready_mem (l : link) m s' h :
  ready l → (∀ a n, mapped (jmem (lk_sim l)) a n → mapped m a n) → jmem s' = m →
  j_fd s' = j_fd (lk_sim l) → j_cfd s' = j_cfd (lk_sim l) → ready (Link s' h []).
Proof.
  intros [R1 R2 R3 R4 R5 R6] Hm E1 E2 E3. constructor; cbn [lk_sim lk_wire]; rewrite ?E1, ?E2, ?E3; auto.
Qed.

Lemma jtag_process_ok op addr d l payload :
  ready l → 0 ≤ op < 4 → 0 ≤ d < 2 ^ 64 → 0 ≤ addr < 256 →
  length payload = 10%nat → bytes payload → bits_of payload = request_bits op addr d →
  let '(rep, h) := dtm (request_bits op addr d) (lk_hw l) in
  ∃ l' sent, jtag_process (74 :: payload) l = Ret tt l' ∧ ready l' ∧ lk_hw l' = h ∧
    last (j_sent (lk_sim l')) = Some (74 :: sent) ∧ bytes sent ∧ length sent = 9%nat ∧
    ∀ i, 0 ≤ i < 72 → Z.testbit (bits_of sent) i = Z.testbit rep i.
Proof.
  intros Hrd Hop Hd Ha Hl Hb Hbits. pose proof Hrd as [R1 R2 R3 R4 R5 R6]. unfold jtag_process.
  set (o' := {| os_socket := _ |}). set (v := request_bits op addr d) in *.
  set (m1 := write_bytes (msize_at j) (slv 8 74) (write_bytes (cmd_at j) (msg_bits 74 v) (jmem (lk_sim l)))).
  assert (sim_jtag_read_msg o' (cmd_at j) (msize_at j) (lk_sim l) = Ret tt (j_with_mem (lk_sim l) m1)) as Hread.
  { unfold m1. rewrite <- Hbits. apply (read_msg_ok o' _ _ _ 74); try done; try lia.
    by apply (mapped_le _ _ 248); [|lia]. }
  rewrite (bind_Ret _ _ _ _ _ (on_sim_Ret _ l _ _ Hread)). set (s1 := j_with_mem _ m1).
  set (l1 := Link s1 (lk_hw l) (lk_wire l)).
  assert (bytes_at m1 (msize_at j) (slv 8 74)) as Hsz by apply bytes_at_write.
  assert (j_on (from_std_logic_vector (msize_at j) 8) s1 = Ret 74 s1) as Hsize.
  { change 8 with (Z.of_nat 8) at 1. rewrite (j_on_Ret _ s1 _ _ (from_slv_ok 8 (msize_at j) 74 (j_host s1) ltac:(lia) ltac:(cbn; lia) Hsz)).
    by destruct (lk_sim l). }
  rewrite (bind_Ret _ _ l1 _ _ (on_sim_Ret _ l1 _ _ Hsize)). cbn [Z.eqb Z.ltb Z.compare Pos.compare Pos.compare_cont negb andb].
  rewrite (bind_Ret get _ l1 l1 l1) by done.
  assert (bytes_at m1 (cmd_at j) (msg_bits 74 v)) as Hcmd.
  { apply bytes_at_write_disj; [rewrite length_msg_bits, length_slv; lia|]. apply bytes_at_write. }
  apply bytes_at_read in Hcmd. rewrite length_msg_bits in Hcmd.
  rewrite (bind_Ret _ _ l1 (msg_bits 74 v) l1) by (by change (of_option (read_bytes m1 (cmd_at j) 74) l1 = Ret (msg_bits 74 v) l1); rewrite Hcmd).
  pose proof (request_bits_range op addr d Hop Hd Ha) as Hv. fold v in Hv.
  unfold clock_command. unfold mbind at 1, M_bind at 1. cbn [lk_hw l1].
  rewrite msg_value_bits, (wrap_small (Z.of_nat 74) v), length_msg_bits by done.
  destruct (dtm v (lk_hw l)) as [rep h].
  set (m2 := write_bytes (rsp_at j) (msg_bits 74 rep) m1). set (s2 := j_with_mem s1 m2).
  rewrite (bind_Ret _ _ _ tt (Link s2 h (lk_wire l))) by done.
  destruct (write_msg_ok o' (junk_data j) s2 (rsp_at j) (msize_at j) 74 rep) as (sent & Hr & Hbs & Hls & Hsent).
  1,2: apply junk_ok. { lia. } { apply bytes_at_write. }
  { apply bytes_at_write_disj; [rewrite length_msg_bits, length_slv; lia|exact Hsz]. } { exact os_ok. }
  rewrite (on_sim_Ret _ (Link s2 h (lk_wire l)) _ _ Hr).
  change ((Z.of_nat 74 + 7) `div` 8 - 1) with 9 in Hls.
  eexists _, sent. split; [done|]. split.
  - cbn [lk_hw lk_wire]. rewrite R6. apply (ready_mem l m2); try done.
    intros a n Hm. unfold m2, m1. by do 3 apply mapped_write.
  - split; [done|]. cbn [lk_sim j_sent]. rewrite last_snoc. split; [done|]. split; [done|]. split; [lia|].
    intros i Hi. apply Hsent; lia.
Qed.

(** The bits the debugger looks at are those that were sent. *)
Lemma reply_bits sent rest rep :
  bytes sent → bytes rest → length sent = 9%nat →
  (∀ i, 0 ≤ i < 72 → Z.testbit (bits_of sent) i = Z.testbit rep i) →
  sim_reply (74 :: sent ++ rest) = Some (rep `mod` 4, Z.shiftr rep 2 `mod` 2 ^ 64).
Proof.
  intros Hb1 Hb2 Hl Hbits.
  rewrite sim_reply_ok; [|constructor; [done|by apply Forall_app]|cbn [length]; rewrite length_app; lia].
  cbn [drop].
  assert (∀ i, 0 ≤ i < 72 → Z.testbit (bits_of (sent ++ rest)) i = Z.testbit rep i) as Hs.
  { intros i Hi. rewrite <- Hbits by done. replace sent with (take 9 (sent ++ rest)) at 2.
    - rewrite bits_of_take, testbit_wrap by (by apply Forall_app || lia).
      by rewrite (proj2 (Z.ltb_lt i _)) by lia.
    - rewrite take_app_le by lia. apply take_ge. lia. }
  do 2 f_equal; apply Z.bits_inj'; intros i Hi.
  - change (rep `mod` 4) with (wrap 2 rep). rewrite !testbit_wrap by lia.
    destruct (Z.ltb_spec i 2); [|done]. cbn [andb]. apply Hs. lia.
  - change (Z.shiftr rep 2 `mod` 2 ^ 64) with (u64 (Z.shiftr rep 2)). rewrite !testbit_wrap by lia.
    destruct (Z.ltb_spec i 64); [|done]. cbn [andb]. rewrite !Z.shiftr_spec by lia. apply Hs. lia.
Qed.

Lemma exchange_ok op addr data s :
  ready (t_link s) → 0 ≤ op < 4 → 0 ≤ addr < 256 →
  let '(rep, h) := dtm (request_bits op addr (u64 (default 0 data))) (lk_hw (t_link s)) in
  ∃ l, b_command linked op addr data s =
      Ret (rep `mod` 4, (λ _, Z.shiftr rep 2 `mod` 2 ^ 64) <$> data) (with_link s l) ∧
    ready l ∧ lk_hw l = h.
Proof.
  intros Hrd Hop Ha. set (d := u64 (default 0 data)).
  pose proof (wrap_range 64 (default 0 data) ltac:(lia)) as Hd. fold d in Hd.
  destruct (sim_packet_ok op addr d Hop Hd Ha) as (payload & Hp & Hl & Hb & Hbits).
  assert (ready (Link (lk_sim (t_link s)) (lk_hw (t_link s)) [])) as Hrd1
    by (destruct Hrd as [R1 R2 R3 R4 R5 R6]; by constructor).
  pose proof (jtag_process_ok op addr d (Link (lk_sim (t_link s)) (lk_hw (t_link s)) []) payload Hrd1 Hop Hd Ha Hl Hb Hbits)
    as Hproc. cbn [lk_hw] in Hproc.
  destruct (dtm (request_bits op addr d) (lk_hw (t_link s))) as [rep h].
  destruct Hproc as (l' & sent & Hr & Hrd' & Hh & Hlast & Hbs & Hls & Hsent).
  exists l'. split; [|done]. cbn [b_command sim_backend linked]. unfold sim_command.
  rewrite sim_packet_u64. fold d. rewrite Hp, (bind_Ret _ _ s (74 :: payload) s) by done.
  rewrite (bind_Ret _ _ s (Z.of_nat (length (74 :: payload)))
    (with_link s (Link (lk_sim (t_link s)) (lk_hw (t_link s)) [74 :: payload])))
    by (unfold on_link; cbn [sock_write link_socket]; by rewrite (rd_wire _ Hrd)).
  rewrite (proj2 (Z.ltb_ge _ 0)) by lia.
  rewrite (bind_Ret _ _ _ (74 :: sent) (with_link s l')).
  2:{ unfold on_link. cbn [sock_read link_socket t_link with_link lk_wire lk_sim lk_hw]. rewrite Hr, Hlast.
      change (default [] (Some ?x)) with x. by rewrite take_ge by (cbn [length]; lia). }
  set (rest := drop _ _).
  assert (bytes rest) as Hbr.
  { apply Forall_drop, Forall_app. split; [by constructor|]. apply Forall_replicate. done. }
  change ((74 :: sent) ++ rest) with (74 :: sent ++ rest).
  rewrite (reply_bits sent rest rep) by done. by destruct data.
Qed.

#[export] Instance sim_carrier : Carrier linked := {|
  hw_of := lk_hw; carried := ready; exchange := exchange_ok;
|}.
End link.
