(* ===== verification/JtagLink.v ===== *)
(** * The debugger connected over JTAG

    [jtag_command] of [mw_debug.c] puts a request into the USER2 register of the FPGA
    through the UrJTAG library, shifts it, and takes the reply out of what came back.
    What it relies on of the library is the class [UrjRegister]; a library of the
    class, with a transport module behind it, is a carrier. *)
From S2P Require Import Prelude CMem Vhpi DmiBits Dmi MwDebug MwDebugSpec DmiInit DmiLink.

(** The library keeps a 74-bit register to shift in and one that was shifted out: a
    bit range of the first can be set and one of the second read, and a shift
    exchanges them with the transport module. *)
Class UrjRegister {B H : Type} `{!Dtm H} (j : urjtag B) := {
  urj_hw : B → H;
  urj_in : B → Z;
  urj_out : B → Z;
  urj_live : B → Prop;
  live_register l : urj_live l →
    urj_active_part j l = true ∧ urj_active_instruction j l = true ∧ urj_data_register j l = true;
  set_in_ok v msb lsb l : urj_live l → 0 ≤ lsb ≤ msb → msb < 74 →
    let '(rc, l') := urj_set_in j v msb lsb l in
    rc = URJ_STATUS_OK j ∧ urj_live l' ∧ urj_hw l' = urj_hw l ∧
    ∀ i, 0 ≤ i < 74 → Z.testbit (urj_in l') i =
      if (lsb <=? i) && (i <=? msb) then Z.testbit v (i - lsb) else Z.testbit (urj_in l) i;
  shift_ok l : urj_live l →
    let '(rc, l') := urj_shift j l in
    let '(rep, h) := dtm (wrap 74 (urj_in l)) (urj_hw l) in
    rc = URJ_STATUS_OK j ∧ urj_live l' ∧ urj_hw l' = h ∧ urj_out l' = rep;
  get_out_ok msb lsb l : urj_live l → 0 ≤ lsb ≤ msb → msb < 74 →
    urj_get_out j msb lsb l = (wrap (msb - lsb + 1) (Z.shiftr (urj_out l) lsb), l);
}.

Section jtag.
Context {B H : Type} `{!Dtm H} (j : urjtag B) `{!UrjRegister j}.

Lemma testbit_request op addr d i :
  0 ≤ op < 4 → 0 ≤ d < 2 ^ 64 → 0 ≤ addr < 256 → 0 ≤ i →
  Z.testbit (request_bits op addr d) i =
    if i <? 2 then Z.testbit op i else if i <? 66 then Z.testbit d (i - 2) else Z.testbit addr (i - 66).
Proof.
  intros Hop Hd Ha Hi. unfold request_bits. rewrite !Z.lor_spec, !Z.shiftl_spec by done.
  destruct (Z.ltb_spec i 2), (Z.ltb_spec i 66); try lia.
  - rewrite (Z.testbit_neg_r d), (Z.testbit_neg_r addr) by lia. by rewrite !orb_false_r.
  - rewrite (wrap_testbit_high 2 op), (Z.testbit_neg_r addr) by lia. by rewrite orb_false_r.
  - by rewrite (wrap_testbit_high 2 op), (wrap_testbit_high 64 d) by lia.
Qed.

(** The three fields fill the register. *)
Lemma set_request op addr d l : urj_live l → 0 ≤ op < 4 → 0 ≤ addr < 256 →
  ∃ l1 l2 l3, urj_set_in j op 1 0 l = (URJ_STATUS_OK j, l1) ∧ urj_set_in j d 65 2 l1 = (URJ_STATUS_OK j, l2) ∧
    urj_set_in j addr 73 66 l2 = (URJ_STATUS_OK j, l3) ∧
    urj_live l1 ∧ urj_live l2 ∧ urj_live l3 ∧ urj_hw l3 = urj_hw l ∧
    wrap 74 (urj_in l3) = request_bits op addr (u64 d).
Proof.
  intros Hl Hop Ha.
  pose proof (set_in_ok op 1 0 l Hl ltac:(lia) ltac:(lia)) as H1.
  destruct (urj_set_in j op 1 0 l) as [rc1 l1] eqn:E1. destruct H1 as (-> & L1 & W1 & B1).
  pose proof (set_in_ok d 65 2 l1 L1 ltac:(lia) ltac:(lia)) as H2.
  destruct (urj_set_in j d 65 2 l1) as [rc2 l2] eqn:E2. destruct H2 as (-> & L2 & W2 & B2).
  pose proof (set_in_ok addr 73 66 l2 L2 ltac:(lia) ltac:(lia)) as H3.
  destruct (urj_set_in j addr 73 66 l2) as [rc3 l3] eqn:E3. destruct H3 as (-> & L3 & W3 & B3).
  exists l1, l2, l3. split_and!; try done; [congruence|].
  pose proof (wrap_range 64 d ltac:(lia)) as Hd. apply Z.bits_inj'. intros i Hi.
  rewrite testbit_wrap, testbit_request by (done || lia). destruct (Z.ltb_spec i 74); cbn [andb].
  - rewrite B3, B2, B1, testbit_wrap by lia. rewrite Z.sub_0_r. repeat (cond_step; cbn [andb]; try lia); done.
  - rewrite !(proj2 (Z.ltb_ge i _)) by lia. symmetry. apply (wrap_testbit_high 8); lia.
Qed.
Lemma jtag_exchange op addr data s :
  urj_live (t_link s) → 0 ≤ op < 4 → 0 ≤ addr < 256 →
  let '(rep, h) := dtm (request_bits op addr (u64 (default 0 data))) (urj_hw (t_link s)) in
  ∃ l, jtag_command j op addr data s =
      Ret (rep `mod` 4, (λ _, Z.shiftr rep 2 `mod` 2 ^ 64) <$> data) (with_link s l) ∧
    urj_live l ∧ urj_hw l = h.
Proof.
  intros Hl Hop Ha. destruct (live_register _ Hl) as (E1 & E2 & E3).
  destruct (set_request op addr (default 0 data) _ Hl Hop Ha) as (l1 & l2 & l3 & S1 & S2 & S3 & L1 & L2 & L3 & W & Hin).
  pose proof (shift_ok l3 L3) as Hs. rewrite Hin, W in Hs.
  destruct (urj_shift j l3) as [rc l4] eqn:S4. destruct (dtm _ _) as [rep h]. destruct Hs as (-> & L4 & W4 & O4).
  exists l4. split; [|done]. unfold jtag_command.
  unfold look, on_link, mbind, M_bind, mret, M_ret. rewrite E1. cbn [negb]. rewrite E2. cbn [negb].
  rewrite E3. cbn [negb]. rewrite S1. cbn [t_link]. rewrite Z.eqb_refl. cbn [negb t_link].
  rewrite S2. cbn [t_link]. rewrite Z.eqb_refl. cbn [negb t_link].
  rewrite S3. cbn [t_link]. rewrite Z.eqb_refl. cbn [negb t_link].
  rewrite S4. cbn [t_link]. rewrite Z.eqb_refl. cbn [negb t_link t_log t_fs t_disk].
  rewrite (get_out_ok 1 0 l4 L4) by lia. rewrite O4, Z.shiftr_0_r. cbn [t_link t_log t_fs t_disk].
  pose proof (wrap_range 2 rep ltac:(lia)) as Hr.
  change (wrap (1 - 0 + 1) rep) with (wrap 2 rep). rewrite swrap_small by lia.
  destruct data as [d|]; [|done]. cbn [t_link]. rewrite (get_out_ok 65 2 l4 L4), O4 by lia. done.
Qed.

#[export] Instance bscane2_carrier debug u : Carrier (bscane2_backend debug u j) :=
  Build_Carrier _ _ _ (bscane2_backend debug u j) urj_hw urj_live jtag_exchange.
#[export] Instance ecp5_carrier debug u : Carrier (ecp5_backend debug u j) :=
  Build_Carrier _ _ _ (ecp5_backend debug u j) urj_hw urj_live jtag_exchange.
End jtag.

(** ** A library of the class

    Its state is the two registers, and a transport module. *)
Record urj_demo := UrjDemo { ud_in : Z; ud_out : Z; ud_hw : dbg }.

Definition set_range (v msb lsb old : Z) : Z :=
  Z.lor (Z.ldiff old (Z.shiftl (Z.ones (msb - lsb + 1)) lsb)) (Z.shiftl (wrap (msb - lsb + 1) v) lsb).

Definition urj_demo_lib : urjtag urj_demo := {|
  urj_active_part _ := true;
  urj_active_instruction _ := true;
  urj_data_register _ := true;
  urj_set_in v msb lsb l := (0, UrjDemo (set_range v msb lsb (ud_in l)) (ud_out l) (ud_hw l));
  urj_shift l := let '(rep, h) := dtm (wrap 74 (ud_in l)) (ud_hw l) in (0, UrjDemo (ud_in l) rep h);
  urj_get_out msb lsb l := (wrap (msb - lsb + 1) (Z.shiftr (ud_out l) lsb), l);
  URJ_STATUS_OK := 0;
|}.

Lemma testbit_set_range v msb lsb old i : 0 ≤ lsb ≤ msb → 0 ≤ i →
  Z.testbit (set_range v msb lsb old) i =
    if (lsb <=? i) && (i <=? msb) then Z.testbit v (i - lsb) else Z.testbit old i.
Proof.
  intros Hr Hi. unfold set_range. rewrite Z.lor_spec, Z.ldiff_spec, !Z.shiftl_spec by done.
  rewrite testbit_wrap by lia. destruct (Z.leb_spec lsb i).
  - rewrite Z.testbit_ones_nonneg by lia.
    replace (i - lsb <? msb - lsb + 1) with (i <=? msb) by conds.
    destruct (i <=? msb); cbn [andb negb]; [by rewrite andb_false_r|]. by rewrite andb_true_r, orb_false_r.
  - rewrite !(Z.testbit_neg_r _ (i - lsb)) by lia. cbn [andb negb]. by rewrite andb_false_r, andb_true_r, orb_false_r.
Qed.

#[export] Program Instance urj_demo_register : UrjRegister urj_demo_lib := {|
  urj_hw := ud_hw; urj_in := ud_in; urj_out := ud_out; urj_live _ := True;
|}.
Next Obligation. done. Qed.
Next Obligation. intros v msb lsb l _ Hr Hm. cbn. split_and!; try done. intros i Hi. apply testbit_set_range; lia. Qed.
Next Obligation. intros l _. cbn. by destruct (dbg_dtm_exchange _ _). Qed.
Next Obligation. done. Qed.
