(* ===== verification/DmiRefine.v ===== *)
(** * The debugger over a carrier

    What [mw_debug] does over the simulation socket or over JTAG is what it does with
    the transport module in its hands: for every carrier, a command on the backend
    and the same command on [dtm_backend], which exchanges requests with the module
    directly, have the same result, print the same, leave the same files and the
    same hardware.  What is proved of the commands against [DmiTarget] therefore
    holds over every carrier. *)
From S2P Require Import Prelude CMem Vhpi DmiBits Dmi MwDebug MwDebugSpec DmiLink.

(** ** The transport module as a backend *)

Section dtm_backend.
Context {H : Type} `{!Dtm H}.

Definition dtm_command (op addr : Z) (data : option Z) : M (tool H) (Z * option Z) := λ t,
  let '(rep, h) := dtm (request_bits op addr (u64 (default 0 data))) (t_link t) in
  Ret (rep `mod` 4, (λ _, Z.shiftr rep 2 `mod` 2 ^ 64) <$> data) (with_link t h).

Definition dtm_backend : backend H := Backend (λ _ _, mret 0) (mret 0) dtm_command.

(** The reply of an access is a word. *)
Lemma dtm_waiting_range k : ∀ h r h', dtm_waiting h k r h' → 0 ≤ r < 2 ^ 64.
Proof.
  induction k as [|k IH]; intros h r h' Hw.
  - pose proof (dtm_poll_done 0 _ _ _ ltac:(lia) Hw) as Hp. destruct (dtm _ h) as [rep h1].
    destruct Hp as (_ & <- & _). by apply Z.mod_pos_bound.
  - pose proof (dtm_poll_busy 0 _ _ _ _ ltac:(lia) Hw) as Hp. destruct (dtm _ h) as [rep h1].
    destruct Hp as [_ Hp]. by apply (IH h1 r h').
Qed.

#[export] Program Instance dtm_target : DmiTarget dtm_backend := {|
  idle := dtm_idle; tgt_read := dtm_read; tgt_write := dtm_write; waiting := dtm_waiting; busy_bound := dtm_bound;
|}.
Next Obligation. apply dtm_read_idle. Qed.
Next Obligation.
  intros addr h Ha Hi. destruct (dtm_start_read addr 0 h Ha ltac:(lia) Hi) as (k & _ & Hw). by eapply dtm_waiting_range.
Qed.
Next Obligation. apply dtm_write_idle. Qed.
Next Obligation.
  intros addr d t Ha Hi. cbn. unfold dtm_command. change (default 0 (Some d)) with d.
  destruct (dtm_start_read addr (u64 d) _ Ha (wrap_range 64 d ltac:(lia)) Hi) as (k & Hk & Hw).
  destruct (dtm _ _) as [rep h]. eexists _, _, h, k. split; [reflexivity|].
  split; [by apply Z.mod_pos_bound|done].
Qed.
Next Obligation.
  intros addr v t Ha Hv Hi. cbn. unfold dtm_command. change (default 0 (Some v)) with v.
  rewrite (wrap_small 64) by done.
  destruct (dtm_start_write addr v _ Ha Hv Hi) as (k & r & Hk & Hw). destruct (dtm _ _) as [rep h].
  eexists _, _, h, k, r. split; [reflexivity|]. split; [by apply Z.mod_pos_bound|done].
Qed.
Next Obligation.
  intros t k r h' data Hw. cbn. unfold dtm_command.
  pose proof (dtm_poll_busy _ _ _ _ _ (wrap_range 64 (default 0 data) ltac:(lia)) Hw) as Hp.
  destruct (dtm _ _) as [rep h]. destruct Hp as [-> Hp]. eexists h, _. split; [reflexivity|]. by destruct data.
Qed.
Next Obligation.
  intros t r h' data Hw. cbn. unfold dtm_command.
  pose proof (dtm_poll_done _ _ _ _ (wrap_range 64 (default 0 data) ltac:(lia)) Hw) as Hp.
  destruct (dtm _ _) as [rep h]. destruct Hp as (-> & -> & ->). done.
Qed.
End dtm_backend.
Arguments dtm_backend H {_}.

(** ** Runs that agree *)

Section refines.
Context {B H : Type} `{!Dtm H} (b : backend B) `{!Carrier b}.

Record agree (s : tool B) (t : tool H) : Prop := {
  ag_live : carried (t_link s);
  ag_hw : hw_of (t_link s) = t_link t;
  ag_log : t_log s = t_log t;
  ag_fs : t_fs s = t_fs t;
  ag_disk : t_disk s = t_disk t;
}.

Definition refines {A} (p : M (tool B) A) (q : M (tool H) A) : Prop := ∀ s t, agree s t →
  match p s, q t with
  | Ret a s', Ret a' t' => a = a' ∧ agree s' t'
  | Exit c s', Exit c' t' => c = c' ∧ agree s' t'
  | Stuck, Stuck | OutOfFuel, OutOfFuel => True
  | _, _ => False
  end.

Lemma refines_ret {A} (a : A) : refines (mret a) (mret a).
Proof. by intros s t Hst. Qed.
Lemma refines_stuck {A} : refines (A := A) stuck stuck.
Proof. by intros s t Hst. Qed.
Lemma refines_fuel {A} : refines (A := A) out_of_fuel out_of_fuel.
Proof. by intros s t Hst. Qed.
Lemma refines_exit {A} c : refines (A := A) (exit_ c) (exit_ c).
Proof. by intros s t Hst. Qed.
Lemma refines_option {A} (o : option A) : refines (of_option o) (of_option o).
Proof. intros s t Hst. by destruct o. Qed.
Lemma refines_print m : refines (print m) (print m).
Proof. intros s t [L Hw G F D]. cbn. split; [done|]. constructor; cbn; congruence || done. Qed.
Lemma refines_bind {A C} (p : M (tool B) A) q (f : A → M (tool B) C) g :
  refines p q → (∀ a, refines (f a) (g a)) → refines (p ≫= f) (q ≫= g).
Proof.
  intros Hp Hf s t Hst. unfold mbind, M_bind. specialize (Hp s t Hst).
  destruct (p s), (q t); try done. destruct Hp as [<- Hst']. by apply Hf.
Qed.

(** A command of the carrier is an exchange with its module. *)
Lemma refines_command op addr data : 0 ≤ op < 4 → 0 ≤ addr < 256 →
  refines (b_command b op addr data) (dtm_command op addr data).
Proof.
  intros Hop Ha s t [L Hw G F D]. pose proof (exchange op addr data s L Hop Ha) as He. unfold dtm_command.
  rewrite <-Hw. destruct (dtm _ (hw_of (t_link s))) as [rep h]. destruct He as (l & -> & Hl & Hh).
  split; [done|]. by constructor.
Qed.

(** The files of the host. *)
Lemma refines_open_read f : refines (open_read f) (open_read f).
Proof. intros s t Hst. unfold open_read. by rewrite (ag_fs _ _ Hst). Qed.
Lemma refines_open_create f : refines (open_create f) (open_create f).
Proof.
  intros s t [L Hw G F D]. unfold open_create. rewrite F, D.
  destruct (t_fs t !! f), (t_disk t) eqn:E; cbn; (split; [done|]); constructor; cbn; congruence || done.
Qed.
Lemma refines_fopen_w f : refines (fopen_w f) (fopen_w f).
Proof.
  intros s t [L Hw G F D]. unfold fopen_w. rewrite F, D.
  destruct (t_fs t !! f), (t_disk t) eqn:E; cbn; (split; [done|]); constructor; cbn; congruence || done.
Qed.
Lemma refines_write_word f pos w : refines (write_word f pos w) (write_word f pos w).
Proof.
  intros s t [L Hw G F D]. unfold write_word. rewrite F, D.
  destruct (t_disk t) eqn:E; cbn; (split; [done|]); constructor; cbn; congruence || done.
Qed.
End refines.

Create HintDb refines.
#[export] Hint Resolve refines_ret refines_stuck refines_fuel refines_exit refines_option refines_print
  refines_open_read refines_open_create refines_fopen_w refines_write_word : refines.

Ltac refines_step :=
  first
    [ assumption
    | solve [eauto with refines]
    | match goal with
      | |- refines _ (_ ≫= _) (_ ≫= _) => apply refines_bind; [|intros ?]
      | |- refines _ (if ?b then _ else _) _ => destruct b
      | |- refines _ (match ?x with _ => _ end) _ => destruct x
      end
    | progress intros ? ].
Ltac refines := cbn zeta; repeat refines_step.

(** ** The commands *)

Section commands.
Context {B H : Type} `{!Dtm H} (b : backend B) `{!Carrier b} (core : Z) (fuel : nat) (junk : Z).
Abbreviation d := (dtm_backend H).

Lemma refines_poll n : ∀ data, refines b (dmi_poll b n data) (dmi_poll d n data).
Proof.
  induction n as [|n IH]; intros data; cbn [dmi_poll]; [refines|].
  apply refines_bind; [apply refines_command; lia|]. intros [rc data']. refines.
Qed.
Hint Resolve refines_poll : refines.

Lemma refines_read addr data : refines b (dmi_read b fuel addr data) (dmi_read d fuel addr data).
Proof.
  unfold dmi_read. apply refines_bind; [apply refines_command; [lia|apply (wrap_range 8); lia]|]. refines.
Qed.
Lemma refines_write addr v : refines b (dmi_write b fuel addr v) (dmi_write d fuel addr v).
Proof.
  unfold dmi_write. apply refines_bind; [apply refines_command; [lia|apply (wrap_range 8); lia]|]. refines.
Qed.
Lemma refines_check r what : refines b (check r what) (check r what).
Proof. unfold check. refines. Qed.
Hint Resolve refines_read refines_write refines_check : refines.
Lemma refines_rd addr data what : refines b (dmi_rd b fuel addr data what) (dmi_rd d fuel addr data what).
Proof. unfold dmi_rd. refines. Qed.
Lemma refines_wr addr v what : refines b (dmi_wr b fuel addr v what) (dmi_wr d fuel addr v what).
Proof. unfold dmi_wr. refines. Qed.
Hint Resolve refines_rd refines_wr : refines.

Lemma refines_status debug : refines b (core_status b core fuel junk debug) (core_status d core fuel junk debug).
Proof. unfold core_status. refines. Qed.
Lemma refines_core_step : refines b (core_step b core fuel junk) (core_step d core fuel junk).
Proof. unfold core_step. refines. Qed.

Lemma refines_gpr_name reg : refines b (gpr_name reg) (gpr_name reg).
Proof. unfold gpr_name. refines. Qed.
Hint Resolve refines_gpr_name : refines.
Lemma refines_gpr_loop n : ∀ reg, refines b (gpr_loop b core fuel n reg) (gpr_loop d core fuel n reg).
Proof. induction n; intros; cbn [gpr_loop]; refines. Qed.

Lemma refines_putchars cs : refines b (putchars cs) (putchars cs).
Proof. induction cs; cbn [putchars]; refines. Qed.
Hint Resolve refines_putchars : refines.
Lemma refines_mem_read_loop n : ∀ i addr data,
  refines b (mem_read_loop b fuel n i addr data) (mem_read_loop d fuel n i addr data).
Proof. induction n; intros; cbn [mem_read_loop]; refines. Qed.
Hint Resolve refines_mem_read_loop : refines.
Lemma refines_mem_read addr count : refines b (mem_read b fuel junk addr count) (mem_read d fuel junk addr count).
Proof. unfold mem_read. refines. Qed.
Lemma refines_mem_write addr v : refines b (mem_write b fuel addr v) (mem_write d fuel addr v).
Proof. unfold mem_write. refines. Qed.

Lemma refines_progress count : refines b (progress count) (progress count).
Proof. unfold progress. refines. Qed.
Hint Resolve refines_progress : refines.
Lemma refines_load_loop n : ∀ rest count, refines b (load_loop b fuel n rest count) (load_loop d fuel n rest count).
Proof. induction n; intros; cbn [load_loop]; refines. Qed.
Hint Resolve refines_load_loop : refines.
Lemma refines_load name addr : refines b (load_file b fuel name addr) (load_file d fuel name addr).
Proof. unfold load_file. refines. Qed.
Lemma refines_save_loop n : ∀ name size count data,
  refines b (save_loop b fuel n name size count data) (save_loop d fuel n name size count data).
Proof. induction n; intros; cbn [save_loop]; refines. Qed.
Hint Resolve refines_save_loop : refines.
Lemma refines_save name addr size : refines b (save_file b fuel junk name addr size) (save_file d fuel junk name addr size).
Proof. unfold save_file. refines. Qed.

Lemma refines_log_stop : refines b (log_stop b core fuel junk) (log_stop d core fuel junk).
Proof. unfold log_stop. refines. Qed.
Lemma refines_log_dump_loop n : ∀ name i ldata,
  refines b (log_dump_loop b core fuel n name i ldata) (log_dump_loop d core fuel n name i ldata).
Proof. induction n; intros; cbn [log_dump_loop]; refines. Qed.
Hint Resolve refines_log_dump_loop : refines.
Lemma refines_log_dump name : refines b (log_dump b core fuel junk name) (log_dump d core fuel junk name).
Proof. unfold log_dump. refines. Qed.
Lemma refines_trig_show reg rd at_ off : refines b (trig_show b fuel junk reg rd at_ off) (trig_show d fuel junk reg rd at_ off).
Proof. unfold trig_show. refines. Qed.
End commands.
#[export] Hint Resolve refines_read refines_write refines_wr refines_status refines_core_step refines_gpr_loop refines_mem_read
  refines_mem_write refines_load refines_save refines_log_stop refines_log_dump refines_trig_show : refines.

(** ** Whole sessions *)

Section session.
Context {B H : Type} `{!Dtm H} (b : backend B) `{!Carrier b} (fuel : nat) (junk : Z) (argv0 : list Z).
Abbreviation d := (dtm_backend H).

(** What [main] does after the backend is open. *)
Definition session {B} (b : backend B) (core : Z) (debug : bool) (args : list (list Z)) : M (tool B) Z :=
  run_commands fuel junk argv0 b core (length args) args;;
  core_status b core fuel junk debug;;
  mret 0.

Lemma refines_print_errs l : refines b (print_errs l) (print_errs l).
Proof. induction l; cbn [print_errs]; refines. Qed.
Hint Resolve refines_print_errs : refines.
Lemma refines_usage {A} : refines b (A := A) (usage argv0) (usage argv0).
Proof. unfold usage. refines. Qed.
Hint Resolve refines_usage : refines.

Lemma refines_run_commands core n : ∀ args,
  refines b (run_commands fuel junk argv0 b core n args) (run_commands fuel junk argv0 d core n args).
Proof.
  induction n as [|n IH]; intros [|cmd args]; cbn [run_commands]; refines.
Qed.
Hint Resolve refines_run_commands : refines.

Lemma refines_session core debug args : refines b (session b core debug args) (session d core debug args).
Proof. unfold session. refines. Qed.
End session.

(** ** The Wishbone master behind the module of [DmiLink] *)

#[export] Program Instance dbg_dtm_wb : WbTarget (dtm_backend dbg) := {|
  wb_ram _ := True;
  wb_word := dword;
  wb_addr := d_addr;
  wb_auto l := d_ctrl l = 0x7ff;
|}.
Next Obligation. intros l Hi. apply (@wb_ctrl_write _ dbg_backend dbg_target dbg_wb l Hi). Qed.
Next Obligation. intros l a Hi Ha. apply (@wb_addr_write _ dbg_backend dbg_target dbg_wb l a Hi Ha). Qed.
Next Obligation. intros l v Hi Hau Hv Hx. apply (@wb_data_write _ dbg_backend dbg_target dbg_wb l v Hi Hau Hv Hx). Qed.
Next Obligation.
  intros l Hi Hau Hx. pose proof (@wb_data_read _ dbg_backend dbg_target dbg_wb l Hi Hau Hx) as Hr. cbn [tgt_read dtm_target dtm_read dbg_dtm].
  cbn [tgt_read dbg_target] in Hr. destruct (dbg_read DBG_WB_DATA l) as [v l'] eqn:E. destruct Hr as (-> & Hr).
  split; [|exact Hr]. cbn [wb_word wb_addr dbg_wb]. apply (wrap_small 64). by apply (wrap_range 64).
Qed.
