(* ===== verification/Mmu.v ===== *)
(** * The memory management unit

    The radix-tree walk of [mmu.vhdl], as a function of the memory: the states
    [PART_TBL_READ] to [RADIX_READ_WAIT] of its state machine, with the same
    masks and shifts.  Of its caches, the TLB of 4 kB pages is modelled, with its
    invalidations; the page walk cache, the first-level TLBs and the cached bases
    of the tables, which hold what the walk has found, are not.  Programs that build page tables are verified
    against this walk. *)
From S2P Require Import Prelude CMem.

(** Bits [hi] down to [lo] of a vector. *)
Definition bits (v hi lo : Z) : Z := Z.land (Z.shiftr v lo) (Z.ones (hi - lo + 1)).

(** ** Words in the other byte order *)

Definition bswap64 (v : Z) : Z := le_combine (rev (le_split 8 v)).

(** [ldbrx] and [stdbrx]: 64-bit accesses with the bytes reversed, which on a
    little-endian machine are big-endian. *)
Definition ldbrx (a : Z) : M mem Z := v ← load 8 a; mret (bswap64 v).
Definition stdbrx (a v : Z) : M mem unit := store 8 a (bswap64 v).

(** The big-endian word at an address, which the walk reads. *)
Definition be_word (m : mem) (a : Z) : option Z := (λ bs, le_combine (rev bs)) <$> read_bytes m a 8.

(** ** Permissions *)

Record access := Access { iside : bool; is_store : bool; priv : bool }.

Definition check_perm_c (pte : Z) (k : access) (cbit : bool) : bool :=
  if priv k || negb (Z.testbit pte 3) then
    if negb (iside k) then
      if negb (is_store k) then Z.testbit pte 1 || Z.testbit pte 2
      else Z.testbit pte 1 && cbit
    else Z.testbit pte 0 && negb (Z.testbit pte 5)
  else false.

(** ** The walk *)

(** The entry found with the address bits below it, or an error. *)
Inductive walk_result :=
  | WalkOk (pde shift : Z)
  | WalkInvalid | WalkBadTree | WalkSegErr | WalkPermErr | WalkRcErr.

Definition addrsh (addr shift : Z) : Z := bits (Z.shiftr (bits addr 61 12) shift) 15 0.
Definition addrmask (mask_size : Z) : Z := Z.lor 0x1f (Z.land (Z.ones mask_size) 0xffff).
Definition finalmask (shift : Z) : Z := Z.land (Z.ones shift) (Z.ones 44).

Definition pgtable_addr (pgbase ash mask : Z) : Z :=
  Z.lor (Z.shiftl (bits pgbase 55 19) 19)
        (Z.shiftl (Z.lor (Z.ldiff (bits pgbase 18 3) mask) (Z.land ash mask)) 3).

(** A leaf: permissions first, then the reference and change bits. *)
Definition check_leaf (k : access) (data shift : Z) : walk_result :=
  let perm_ok := check_perm_c data k true in
  let rc_ok := Z.testbit data 8 && (Z.testbit data 7 || negb (is_store k)) in
  if perm_ok && rc_ok then WalkOk data shift
  else if negb perm_ok then WalkPermErr else WalkRcErr.

(** [RADIX_LOOKUP] and [RADIX_READ_WAIT]: a level of the tree per iteration. *)
Fixpoint radix_lookup (fuel : nat) (m : mem) (k : access) (addr shift mask_size pgbase : Z) : option walk_result :=
  match fuel with
  | O => None
  | S fuel =>
      match be_word m (pgtable_addr pgbase (addrsh addr shift) (addrmask mask_size)) with
      | None => Some WalkBadTree
      | Some data =>
          if Z.testbit data 63 then
            if Z.testbit data 62 then Some (check_leaf k data shift)
            else
              let mbits := bits data 4 0 in
              if (mbits <? 5) || (16 <? mbits) || (shift <? mbits) then Some WalkBadTree
              else radix_lookup fuel m k addr (shift - mbits) mbits (Z.shiftl (bits data 55 8) 8)
          else Some WalkInvalid
      end
  end.

(** [SEGMENT_CHECK]. *)
Definition segment_check (m : mem) (k : access) (addr pgtbl : Z) : option walk_result :=
  let rts := Z.lor (Z.shiftl (bits pgtbl 62 61) 3) (bits pgtbl 7 5) in
  let mbits := bits pgtbl 4 0 in
  let nonzero := negb (Z.ldiff (bits addr 61 31) (bits (finalmask rts) 30 0) =? 0) in
  if mbits =? 0 then Some WalkInvalid
  else if negb (Bool.eqb (Z.testbit addr 63) (Z.testbit addr 62)) || nonzero then Some WalkSegErr
  else if (mbits <? 5) || (16 <? mbits) || (rts + (31 - 12) <? mbits) then Some WalkBadTree
  else
    let shift := rts + (31 - 12) - mbits in
    radix_lookup (S (Z.to_nat shift)) m k addr shift mbits (Z.shiftl (bits pgtbl 55 8) 8).

Definition effpid (addr pid : Z) : Z := if Z.testbit addr 63 then 0 else bits pid 11 0.

Definition prtable_addr (prtbl pid : Z) : Z :=
  let fm := bits (finalmask (bits prtbl 4 0)) 3 0 in
  Z.lor (Z.shiftl (bits prtbl 55 16) 16)
    (Z.lor (Z.shiftl (Z.lor (Z.ldiff (bits prtbl 15 12) fm) (Z.land (bits pid 11 8) fm)) 12)
           (Z.shiftl (bits pid 7 0) 4)).

Definition walk (m : mem) (ptcr pid : Z) (k : access) (addr : Z) : option walk_result :=
  match be_word m (Z.lor (Z.shiftl (bits ptcr 55 12) 12) 0x8) with
  | None => Some WalkBadTree
  | Some prtbl =>
      match be_word m (prtable_addr prtbl (effpid addr pid)) with
      | None => Some WalkBadTree
      | Some pgtbl => segment_check m k addr pgtbl
      end
  end.

(** ** The TLB *)

(** The registers of the unit, and the entries of 4 kB pages by process and page. *)
Record mmu := Mmu { ptcr : Z; pid : Z; tlb : gmap (Z * Z) Z }.

(** The key of an address; addresses outside the 52-bit space are not cached. *)
Definition tlb_key (u : mmu) (addr : Z) : option (Z * Z) :=
  if negb (bits addr 61 52 =? 0) || negb (Bool.eqb (Z.testbit addr 63) (Z.testbit addr 62)) then None
  else Some (effpid addr (pid u), bits addr 51 12).

Definition tlb_lookup (u : mmu) (addr : Z) : option Z := k ← tlb_key u addr; tlb u !! k.

(** [tlbie] with RIC 0: everything, the entries of a process, or one page of one. *)
Definition tlbie (rb rs : Z) (u : mmu) : mmu :=
  let p := bits rs 43 32 in
  Mmu (ptcr u) (pid u)
    (if Z.testbit rb 11 then ∅
     else if Z.testbit rb 10 then filter (λ kv, fst (fst kv) ≠ p) (tlb u)
     else delete (p, bits rb 51 12) (tlb u)).

Definition walk_and_keep (m : mem) (k : access) (addr : Z) (u : mmu) : option walk_result * mmu :=
  let r := walk m (ptcr u) (pid u) k addr in
  (r, match r, tlb_key u addr with
      | Some (WalkOk pde 0), Some key => Mmu (ptcr u) (pid u) (<[key := pde]> (tlb u))
      | _, _ => u
      end).

(** A translation: from the TLB when it has an entry that permits the access, and
    otherwise by a walk, whose result is kept when it is a 4 kB page. *)
Definition translate (m : mem) (k : access) (addr : Z) (u : mmu) : option walk_result * mmu :=
  match tlb_lookup u addr with
  | Some pde =>
      if check_perm_c pde k (Z.testbit pde 7) then (Some (WalkOk pde 0), u) else walk_and_keep m k addr u
  | None => walk_and_keep m k addr u
  end.

(** The physical address of an entry. *)
Definition phys_addr (pde shift addr : Z) : Z :=
  let fm := finalmask shift in
  Z.lor (Z.shiftl (Z.lor (Z.ldiff (bits pde 55 12) fm) (Z.land (bits addr 55 12) fm)) 12) (bits addr 11 0).
