(* ===== verification/MmuTest.v ===== *)
(** * The page tables of the MMU test

    [tests/mmu/mmu.c]: a program that builds a radix tree in memory, maps and unmaps
    pages in it, and checks what accesses through the unit find.  Its memory starts
    at 64 kB; the pages of the lowest level are taken from [free_ptr] on.

    The instructions it uses that C has not ([stdbrx], [ldbrx], [dcbz], [tlbie],
    [mtspr]) act on the unit of [Mmu]; [test_read] and [test_write] of [head.S] are a
    load and a store with translation on, in the privileged state. *)
From S2P Require Import Prelude CMem Mmu.

(** The registers that describe a fault of an access or of a fetch. *)
Record sprs := Sprs { dar : Z; dsisr : Z; srr0 : Z; srr1 : Z }.

(** The memory, the unit, the variables of the program and the registers. *)
Record mstate := MState {
  ms_mem : mem;
  ms_mmu : mmu;
  free_ptr : Z;
  eas_mapped : list Z;     (** the first [neas_mapped] elements *)
  ms_spr : sprs;
}.
Abbreviation MM := (M mstate).

Definition on_mem {A} (p : M mem A) : MM A :=
  zoom ms_mem (λ m s, MState m (ms_mmu s) (free_ptr s) (eas_mapped s) (ms_spr s)) p.
Definition set_mmu (f : mmu → mmu) : MM unit :=
  modify (λ s, MState (ms_mem s) (f (ms_mmu s)) (free_ptr s) (eas_mapped s) (ms_spr s)).
Definition set_free (v : Z) : MM unit :=
  modify (λ s, MState (ms_mem s) (ms_mmu s) v (eas_mapped s) (ms_spr s)).
Definition set_eas (l : list Z) : MM unit :=
  modify (λ s, MState (ms_mem s) (ms_mmu s) (free_ptr s) l (ms_spr s)).
Definition set_spr (f : sprs → sprs) : MM unit :=
  modify (λ s, MState (ms_mem s) (ms_mmu s) (free_ptr s) (eas_mapped s) (f (ms_spr s))).

(** ** Instructions *)

Definition do_tlbie (rb rs : Z) : MM unit := set_mmu (tlbie rb rs).
Definition mtspr_ptcr (v : Z) : MM unit := set_mmu (λ u, Mmu v (pid u) (tlb u)).
Definition mtspr_pid (v : Z) : MM unit := set_mmu (λ u, Mmu (ptcr u) v (tlb u)).
Definition store_pte (p pte : Z) : MM unit := on_mem (stdbrx p pte).

(** [dcbz] clears the cache line an address is in. *)
Definition CACHE_LINE_SIZE : Z := 64.
Definition dcbz (p : Z) : M mem unit := λ m,
  let a := Z.ldiff p (CACHE_LINE_SIZE - 1) in
  match read_bytes m a 64 with
  | Some _ => Ret tt (write_bytes a (replicate 64 0) m)
  | None => Stuck
  end.

(** ** zero_memory *)

Fixpoint dcbz_loop (nl : nat) (p : Z) : M mem unit :=
  match nl with
  | O => mret tt
  | S nl => dcbz p;; dcbz_loop nl (p + CACHE_LINE_SIZE)
  end.

Fixpoint zero_bytes (nb : nat) (p : Z) : M mem unit :=
  match nb with
  | O => mret tt
  | S nb => store8 p 0;; zero_bytes nb (p + 1)
  end.

Fixpoint zero_memory (fuel : nat) (ptr nbytes : Z) : M mem unit :=
  if nbytes =? 0 then mret tt else
  match fuel with
  | O => out_of_fuel
  | S fuel =>
      let nb := Z.land (u64 (- ptr)) (CACHE_LINE_SIZE - 1) in
      if (nb =? 0) && (CACHE_LINE_SIZE <=? nbytes) then
        let nl := nbytes `div` CACHE_LINE_SIZE in
        dcbz_loop (Z.to_nat nl) ptr;;
        let nb := nl * CACHE_LINE_SIZE in
        zero_memory fuel (ptr + nb) (nbytes - nb)
      else
        let nb := if nbytes <? nb then nbytes else nb in
        zero_bytes (Z.to_nat nb) ptr;;
        zero_memory fuel (ptr + nb) (nbytes - nb)
  end.

(** ** The tree *)

Definition PERM_EX : Z := 0x001.
Definition PERM_WR : Z := 0x002.
Definition PERM_RD : Z := 0x004.
Definition PERM_PRIV : Z := 0x008.
Definition ATTR_NC : Z := 0x020.
Definition CHG : Z := 0x080.
Definition REF : Z := 0x100.
Definition DFLT_PERM : Z := Z.lor (Z.lor (Z.lor PERM_WR PERM_RD) REF) CHG.

Definition pgdir : Z := 0x10000.
Definition pmdir : Z := 0x11000.
Definition proc_tbl : Z := 0x12000.
Definition part_tbl : Z := 0x13000.
Definition free_ptr_init : Z := 0x14000.
Definition table_bytes : Z := 512 * 8.

(** Three rounds of [zero_memory] are enough for a table. *)
Definition zero_table (p : Z) : MM unit := on_mem (zero_memory 3 p table_bytes).

Definition init_mmu : MM unit :=
  store_pte (part_tbl + 8 * 1) proc_tbl;;
  zero_table proc_tbl;;
  mtspr_ptcr part_tbl;;
  mtspr_pid 1;;
  zero_table pgdir;;
  store_pte (pgdir + 8 * 0) (Z.lor (Z.lor 0x8000000000000000 pmdir) 9);;
  zero_table pmdir;;
  store_pte (proc_tbl + 8 * (2 * 1)) (Z.lor pgdir 0xa000000000000009);;
  do_tlbie 0xc00 0.

Definition read_pmd (i : Z) : MM Z :=
  ret ← on_mem (ldbrx (pmdir + u64 (i * 8)));
  mret (Z.land ret 0x00ffffffffffff00).

Definition leaf_pte (pa perm_attr : Z) : Z :=
  Z.lor (Z.lor 0xc000000000000000 (Z.land pa 0x00fffffffffff000)) perm_attr.

(** [eas_mapped[neas_mapped++] = ea]; the array has four elements. *)
Definition note_ea (ea : Z) : MM unit :=
  s ← get;
  if (length (eas_mapped s) <? 4)%nat then set_eas (eas_mapped s ++ [ea]) else stuck.

Definition map (ea pa perm_attr : Z) : MM unit :=
  let epn := Z.shiftr ea 12 in
  let i := Z.land (Z.shiftr epn 9) 0x1ff in
  let j := Z.land epn 0x1ff in
  w ← on_mem (load 8 (pmdir + 8 * i));
  (if w =? 0 then
     s ← get;
     zero_table (free_ptr s);;
     store_pte (pmdir + 8 * i) (Z.lor (Z.lor 0x8000000000000000 (free_ptr s)) 9);;
     set_free (u64 (free_ptr s + table_bytes))
   else mret tt);;
  ptep ← read_pmd i;
  store_pte (ptep + 8 * j) (leaf_pte pa perm_attr);;
  note_ea ea.

Definition unmap (ea : Z) : MM unit :=
  let epn := Z.shiftr ea 12 in
  let i := Z.land (Z.shiftr epn 9) 0x1ff in
  let j := Z.land epn 0x1ff in
  w ← on_mem (load 8 (pmdir + 8 * i));
  if w =? 0 then mret tt else
  ptep ← read_pmd i;
  on_mem (store 8 (ptep + 8 * j) 0);;
  do_tlbie (Z.ldiff ea 0xfff) (Z.shiftl 1 32).

Fixpoint unmap_loop (eas : list Z) : MM unit :=
  match eas with
  | [] => mret tt
  | ea :: eas => unmap ea;; unmap_loop eas
  end.

Definition unmap_all : MM unit :=
  s ← get;
  unmap_loop (eas_mapped s);;
  set_eas [].

(** The variables before [main]. *)
Definition mmu_start (m : mem) : mstate := MState m (Mmu 0 0 ∅) free_ptr_init [] (Sprs 0 0 0 0).
