(* ===== verification/MmuSpec.v ===== *)
(** * The address space the MMU test builds

    A page table is a map from page numbers to entries; [tree_ok] says that memory
    holds one.  The walk of [Mmu] finds in it what the map says, [init_mmu] makes the
    empty one, [map] and [unmap] insert and delete, and the TLB never holds what the
    map does not. *)
From S2P Require Import Prelude CMem MemTypes Mmu MmuTest.

(** ** Big-endian words *)

Definition be_bytes (v : Z) : list Z := rev (le_split 8 v).

Lemma length_be_bytes v : length (be_bytes v) = 8%nat.
Proof. unfold be_bytes. by rewrite length_rev, length_le_split. Qed.

Lemma be_bytes_bytes v : bytes (be_bytes v).
Proof. apply Forall_rev, le_split_bytes. Qed.

Lemma be_word_at m a bs : bytes_at m a bs → length bs = 8%nat → be_word m a = Some (le_combine (rev bs)).
Proof. intros H Hl. unfold be_word. apply bytes_at_read in H. rewrite Hl in H. by rewrite H. Qed.

Lemma be_word_same m a v : be_word (write_bytes a (be_bytes v) m) a = Some (u64 v).
Proof.
  rewrite (be_word_at _ _ (be_bytes v)); [|apply bytes_at_write|apply length_be_bytes].
  unfold be_bytes. rewrite rev_involutive. f_equal. apply (le_combine_split 8).
Qed.

Lemma read_bytes_out a bs m a' n :
  a' + Z.of_nat n ≤ a ∨ a + Z.of_nat (length bs) ≤ a' →
  read_bytes (write_bytes a bs m) a' n = read_bytes m a' n.
Proof.
  revert a'. induction n as [|n IH]; intros a' Hd; [done|]. cbn [read_bytes].
  rewrite lookup_write_bytes_out, IH by lia. done.
Qed.

Lemma be_word_out a bs m a' :
  a' + 8 ≤ a ∨ a + Z.of_nat (length bs) ≤ a' → be_word (write_bytes a bs m) a' = be_word m a'.
Proof. intros Hd. unfold be_word. by rewrite read_bytes_out by lia. Qed.

Lemma be_word_zeros a n m a' :
  a ≤ a' → a' + 8 ≤ a + Z.of_nat n → be_word (write_bytes a (replicate n 0) m) a' = Some 0.
Proof.
  intros H1 H2. rewrite (be_word_at _ _ (replicate 8 0)); [done| |done].
  apply bytes_at_intro. intros i b Hi. apply lookup_replicate in Hi as [-> Hi].
  rewrite lookup_write_bytes, decide_True by (rewrite length_replicate; lia).
  apply lookup_replicate_2. lia.
Qed.

Lemma be_word_mapped m a : mapped m a 8 → is_Some (be_word m a).
Proof. intros (bs & Hl & Hb)%mapped_bytes. rewrite (be_word_at _ _ bs) by done. eauto. Qed.

Lemma stdbrx_ok m a v : mapped m a 8 → stdbrx a v m = Ret tt (write_bytes a (be_bytes v) m).
Proof.
  intros Hm. unfold stdbrx. rewrite store_Ret by done. unfold bswap64.
  rewrite (le_split_combine_n 8); [done|apply be_bytes_bytes|apply length_be_bytes].
Qed.

Lemma ldbrx_ok m a v : mem_bytes m → be_word m a = Some v → ldbrx a m = Ret v m.
Proof.
  intros Hm. unfold be_word, ldbrx, load, mbind, M_bind.
  destruct (read_bytes m a 8) as [bs|] eqn:Hr; cbn [fmap option_fmap option_map]; [|done]. intros [= <-].
  pose proof (mem_bytes_read _ _ _ _ Hm Hr). pose proof (read_bytes_length _ _ _ _ Hr).
  unfold bswap64. by rewrite (le_split_combine_n 8).
Qed.

Lemma le_combine_zero bs : bytes bs → le_combine bs = 0 ↔ Forall (λ b, b = 0) bs.
Proof.
  induction 1 as [|b bs Hb Hbs IH]; [done|]. rewrite le_combine_cons, Forall_cons by done. rewrite <-IH.
  pose proof (le_combine_range bs Hbs). unfold is_byte in Hb. lia.
Qed.

(** A word is zero in either byte order. *)
Lemma load_be_zero m a v : mem_bytes m → be_word m a = Some v →
  ∃ w, load 8 a m = Ret w m ∧ (w =? 0) = (v =? 0).
Proof.
  intros Hm. unfold be_word, load. destruct (read_bytes m a 8) as [bs|] eqn:Hr; [|done].
  intros [= <-]. exists (le_combine bs). split; [done|]. pose proof (mem_bytes_read _ _ _ _ Hm Hr) as Hb.
  apply eq_bool_prop_intro. rewrite !Is_true_true, !Z.eqb_eq, (le_combine_zero bs), (le_combine_zero (rev bs)).
  - split; intros H; [by apply Forall_rev|]. rewrite <-(rev_involutive bs). by apply Forall_rev.
  - by apply Forall_rev.
  - done.
Qed.

(** ** Clearing *)

Lemma dcbz_loop_ok nl p m : (64 | p) → mapped m p (64 * nl) →
  dcbz_loop nl p m = Ret tt (write_bytes p (replicate (64 * nl) 0) m).
Proof.
  revert p m. induction nl as [|nl IH]; intros p m Hp Hm; [done|]. cbn [dcbz_loop].
  replace (64 * S nl)%nat with (64 + 64 * nl)%nat in * by lia. apply mapped_app in Hm as [Hm1 Hm2].
  assert (Z.ldiff p (CACHE_LINE_SIZE - 1) = p) as Hl.
  { destruct Hp as [q ->]. unfold CACHE_LINE_SIZE. change (64 - 1) with (Z.ones 6).
    rewrite Z.ldiff_ones_r, Z.shiftr_div_pow2, Z.shiftl_mul_pow2 by lia. by rewrite Z.div_mul. }
  destruct (mapped_bytes _ _ _ Hm1) as (bs & Hlen & Hb). apply bytes_at_read in Hb. rewrite Hlen in Hb.
  rewrite (bind_Ret _ _ m tt (write_bytes p (replicate 64 0) m)).
  2:{ unfold dcbz. by rewrite Hl, Hb. }
  rewrite IH; [|by apply Z.divide_add_r|by apply mapped_write].
  by rewrite replicate_add, write_bytes_app.
Qed.

Lemma zero_bytes_ok nb p m : mapped m p nb →
  zero_bytes nb p m = Ret tt (write_bytes p (replicate nb 0) m).
Proof.
  revert p m. induction nb as [|nb IH]; intros p m Hm; [done|]. destruct Hm as [[b Hb] Hm]. cbn [zero_bytes].
  step_with (store8_Ret m p 0 b Hb). change (<[p := u8 0]> m) with (write_bytes p [0] m).
  by rewrite IH by (by apply mapped_write).
Qed.

(** The bytes up to the next cache line. *)
Lemma to_line ptr : 0 ≤ ptr < 2 ^ 64 → Z.land (u64 (- ptr)) (CACHE_LINE_SIZE - 1) = (- ptr) `mod` 64.
Proof.
  intros Hp. unfold CACHE_LINE_SIZE. change (64 - 1) with (Z.ones 6). rewrite Z.land_ones by lia.
  change (2 ^ 6) with 64. unfold wrap. apply Z.mod_mod_divide. by exists (2 ^ 58).
Qed.

(** From the start of a line, whole lines. *)
Lemma zero_lines_ok fuel ptr n m :
  (64 | ptr) → (64 | n) → 0 ≤ ptr → 0 ≤ n → ptr + n < 2 ^ 64 → mapped m ptr (Z.to_nat n) →
  zero_memory (S fuel) ptr n m = Ret tt (write_bytes ptr (replicate (Z.to_nat n) 0) m).
Proof.
  intros Hp [k ->] Hp0 Hn Hlt Hm. cbn [zero_memory]. destruct (Z.eqb_spec (k * 64) 0) as [->|Hne]; [done|].
  rewrite to_line by lia. assert ((- ptr) `mod` 64 = 0) as -> by (apply Z.mod_divide; [lia|]; by apply Z.divide_opp_r).
  unfold CACHE_LINE_SIZE. rewrite Z.eqb_refl, (proj2 (Z.leb_le 64 _)) by lia. cbn [andb].
  rewrite Z.div_mul by lia. replace (Z.to_nat (k * 64)) with (64 * Z.to_nat k)%nat in * by lia.
  rewrite (bind_Ret _ _ _ _ _ (dcbz_loop_ok _ _ _ Hp Hm)).
  rewrite Z.sub_diag. by destruct fuel.
Qed.

(** [zero_memory] clears its bytes when they end at a cache line. *)
Lemma zero_memory_ok fuel ptr n m :
  (64 | ptr + n) → 0 ≤ ptr → 0 ≤ n → ptr + n < 2 ^ 64 → mapped m ptr (Z.to_nat n) →
  zero_memory (S (S fuel)) ptr n m = Ret tt (write_bytes ptr (replicate (Z.to_nat n) 0) m).
Proof.
  intros He Hp Hn Hlt Hm. destruct (Znumtheory.Zdivide_dec 64 ptr) as [Ha|Ha].
  { apply zero_lines_ok; try done. by apply (Z.divide_add_cancel_r _ ptr). }
  remember (S fuel) as f eqn:Ef. cbn [zero_memory]. destruct (Z.eqb_spec n 0) as [->|Hne]; [done|].
  rewrite to_line by lia. set (nb := (- ptr) `mod` 64). assert (0 < nb < 64 ∧ (64 | ptr + nb)) as [Hnb Hd].
  { assert (nb ≠ 0) by (unfold nb; intros E; apply Ha, (proj1 (Z.divide_opp_r 64 ptr)), Z.mod_divide; [lia|exact E]).
    split; [pose proof (Z.mod_pos_bound (- ptr) 64 ltac:(lia)); lia|].
    apply Z.mod_divide; [lia|]. unfold nb. rewrite Zplus_mod_idemp_r. by replace (ptr + - ptr) with 0 by lia. }
  rewrite (proj2 (Z.eqb_neq nb 0)) by lia. cbn [andb].
  assert (nb ≤ n) as Hle.
  { destruct He as [x Hx], Hd as [y Hy]. lia. }
  rewrite (proj2 (Z.ltb_ge n nb)) by lia.
  replace (Z.to_nat n) with (Z.to_nat nb + Z.to_nat (n - nb))%nat in * by lia.
  apply mapped_app in Hm as [Hm1 Hm2].
  rewrite (bind_Ret _ _ _ _ _ (zero_bytes_ok _ _ _ Hm1)). rewrite Z2Nat.id in Hm2 by lia.
  subst f. rewrite zero_lines_ok; [|done| |lia..|by apply mapped_write].
  - by rewrite replicate_add, write_bytes_app, length_replicate, Z2Nat.id by lia.
  - apply (Z.divide_add_cancel_r _ (ptr + nb)); [done|]. by replace (ptr + nb + (n - nb)) with (ptr + n) by lia.
Qed.

(** Otherwise it never ends: at the last line it makes no progress. *)
Lemma zero_memory_stalls fuel ptr n m :
  (64 | ptr) → 0 ≤ ptr < 2 ^ 64 → 0 < n < 64 → zero_memory fuel ptr n m = OutOfFuel.
Proof.
  intros Hp H0 Hn. revert m. induction fuel as [|fuel IH]; intros m; cbn [zero_memory];
    rewrite (proj2 (Z.eqb_neq n 0)) by lia; [done|].
  rewrite to_line by done. assert ((- ptr) `mod` 64 = 0) as -> by (apply Z.mod_divide; [lia|]; by apply Z.divide_opp_r).
  unfold CACHE_LINE_SIZE. rewrite (proj2 (Z.leb_gt 64 n)), andb_false_r, (proj2 (Z.ltb_ge n 0)) by lia.
  rewrite (bind_Ret _ _ m tt m) by done. rewrite Z.add_0_r, Z.sub_0_r. apply IH.
Qed.

(** Bytes that end before the next line are cleared one by one. *)
Lemma zero_memory_inside fuel ptr n m :
  0 ≤ ptr < 2 ^ 64 → 0 ≤ n ≤ (- ptr) `mod` 64 → mapped m ptr (Z.to_nat n) →
  zero_memory (S fuel) ptr n m = Ret tt (write_bytes ptr (replicate (Z.to_nat n) 0) m).
Proof.
  intros Hp Hn Hm. cbn [zero_memory]. destruct (Z.eqb_spec n 0) as [->|Hne]; [done|].
  rewrite to_line by done. rewrite (proj2 (Z.eqb_neq ((- ptr) `mod` 64) 0)) by lia. cbn [andb].
  replace (if n <? (- ptr) `mod` 64 then n else (- ptr) `mod` 64) with n by (destruct (Z.ltb_spec n ((- ptr) `mod` 64)); lia).
  rewrite (bind_Ret _ _ _ _ _ (zero_bytes_ok _ _ _ Hm)), Z.sub_diag. by destruct fuel.
Qed.

Lemma zero_lines_stall fuel ptr n m :
  (64 | ptr) → ~ (64 | n) → 0 ≤ ptr → 0 < n → ptr + n < 2 ^ 64 → mapped m ptr (Z.to_nat n) →
  zero_memory fuel ptr n m = OutOfFuel.
Proof.
  intros Hp Hn H0 Hn0 Hlt Hm. destruct (Z.lt_ge_cases n 64); [by apply zero_memory_stalls; [done|lia..]|].
  destruct fuel as [|fuel]; cbn [zero_memory]; rewrite (proj2 (Z.eqb_neq n 0)) by lia; [done|].
  rewrite to_line by lia. assert ((- ptr) `mod` 64 = 0) as -> by (apply Z.mod_divide; [lia|]; by apply Z.divide_opp_r).
  unfold CACHE_LINE_SIZE. rewrite Z.eqb_refl, (proj2 (Z.leb_le 64 _)) by lia. cbn [andb].
  assert (n `mod` 64 ≠ 0) by (intros E; apply Hn, Z.mod_divide; [lia|done]).
  pose proof (Z.div_mod n 64 ltac:(lia)). pose proof (Z.mod_pos_bound n 64 ltac:(lia)).
  set (q := n `div` 64) in *. replace (Z.to_nat n) with (64 * Z.to_nat q + Z.to_nat (n - 64 * q))%nat in Hm by lia.
  apply mapped_app in Hm as [Hm _]. rewrite (bind_Ret _ _ _ _ _ (dcbz_loop_ok _ _ _ Hp Hm)).
  apply zero_memory_stalls; [|lia..]. apply Z.divide_add_r; [done|by exists q].
Qed.

(** It never ends when the bytes reach into a line they do not fill. *)
Lemma zero_memory_diverges fuel ptr n m :
  ~ (64 | ptr + n) → 0 ≤ ptr → (- ptr) `mod` 64 < n → ptr + n < 2 ^ 64 → mapped m ptr (Z.to_nat n) →
  zero_memory fuel ptr n m = OutOfFuel.
Proof.
  intros He Hp Hn Hlt Hm. pose proof (Z.mod_pos_bound (- ptr) 64 ltac:(lia)) as Hb.
  assert ((64 | ptr + (- ptr) `mod` 64)) as Hd.
  { apply Z.mod_divide; [lia|]. rewrite Zplus_mod_idemp_r. by replace (ptr + - ptr) with 0 by lia. }
  set (nb := (- ptr) `mod` 64) in *. assert (~ (64 | n - nb)) as Hr.
  { intros H. apply He. replace (ptr + n) with ((ptr + nb) + (n - nb)) by lia. by apply Z.divide_add_r. }
  destruct (Z.eq_dec nb 0) as [E|Hne].
  { rewrite E, Z.add_0_r in Hd. rewrite E, Z.sub_0_r in Hr. apply zero_lines_stall; done || lia. }
  destruct fuel as [|fuel]; cbn [zero_memory]; rewrite (proj2 (Z.eqb_neq n 0)) by lia; [done|].
  rewrite to_line by lia. fold nb. rewrite (proj2 (Z.eqb_neq nb 0)), (proj2 (Z.ltb_ge n nb)) by lia. cbn [andb].
  replace (Z.to_nat n) with (Z.to_nat nb + Z.to_nat (n - nb))%nat in Hm by lia. apply mapped_app in Hm as [Hm1 Hm2].
  rewrite (bind_Ret _ _ _ _ _ (zero_bytes_ok _ _ _ Hm1)). rewrite Z2Nat.id in Hm2 by lia.
  apply zero_lines_stall; [done|done|lia..|by apply mapped_write].
Qed.

(** ** Fields of entries and addresses *)

Lemma testbit_bits v hi lo i : 0 ≤ lo ≤ hi → 0 ≤ i →
  Z.testbit (bits v hi lo) i = (i <=? hi - lo) && Z.testbit v (i + lo).
Proof.
  intros Hl Hi. unfold bits. rewrite Z.land_spec, Z.shiftr_spec, Z.testbit_ones_nonneg by lia.
  rewrite andb_comm. f_equal. destruct (Z.ltb_spec i (hi - lo + 1)), (Z.leb_spec i (hi - lo)); lia || done.
Qed.

Lemma bits_mod v hi lo : 0 ≤ lo ≤ hi → bits v hi lo = (v `div` 2 ^ lo) `mod` 2 ^ (hi - lo + 1).
Proof. intros H. unfold bits. by rewrite Z.land_ones, Z.shiftr_div_pow2 by lia. Qed.

Lemma testbit_aligned p k i : (2 ^ k | p) → 0 ≤ i < k → Z.testbit p i = false.
Proof. intros [q ->] Hi. by rewrite Z.mul_pow2_bits_low by lia. Qed.

(** A table at a page boundary: the index selects the word. *)
Lemma pgtable_addr_ok base ash :
  (4096 | base) → 0 ≤ base < 2 ^ 56 → 0 ≤ ash →
  pgtable_addr base ash (addrmask 9) = base + 8 * (ash `mod` 512).
Proof.
  intros Hb Hr Ha. change (addrmask 9) with (Z.ones 9).
  assert (base + 8 * (ash `mod` 512) = Z.lor (Z.shiftl (ash `mod` 512) 3) base) as ->.
  { destruct Hb as [q ->]. pose proof (Z.mod_pos_bound ash 512 ltac:(lia)).
    replace (q * 4096) with (Z.shiftl q 12) by (by rewrite Z.shiftl_mul_pow2).
    rewrite lor_shiftl_add by (rewrite ?Z.shiftl_mul_pow2; lia). rewrite !Z.shiftl_mul_pow2 by lia. lia. }
  unfold pgtable_addr. apply Z.bits_inj'. intros i Hi.
  change (ash `mod` 512) with (ash `mod` 2 ^ 9). rewrite <-Z.land_ones by lia.
  rewrite !Z.lor_spec, !Z.shiftl_spec by lia.
  destruct (Z.ltb_spec i 3).
  { rewrite !(Z.testbit_neg_r _ (i - 3)), !(Z.testbit_neg_r _ (i - 19)) by lia.
    by rewrite (testbit_aligned base 12) by (done || lia). }
  rewrite Z.lor_spec, Z.ldiff_spec, !Z.land_spec, Z.testbit_ones_nonneg, (testbit_bits base 18) by lia.
  replace (i - 3 + 3) with i by lia. destruct (Z.ltb_spec (i - 3) 9); cbn [negb].
  { rewrite !(Z.testbit_neg_r _ (i - 19)) by lia. rewrite (testbit_aligned base 12) by (done || lia).
    by rewrite !andb_false_r, !orb_false_r, andb_true_r. }
  rewrite !andb_false_r, andb_true_r, orb_false_r, orb_false_l. destruct (Z.leb_spec (i - 3) (18 - 3)).
  { by rewrite (Z.testbit_neg_r _ (i - 19)) by lia. }
  rewrite andb_false_l, orb_false_r, testbit_bits by lia. replace (i - 19 + 19) with i by lia.
  destruct (Z.leb_spec (i - 19) (55 - 19)); [done|]. by rewrite (wrap_testbit_high 56 base) by lia.
Qed.

Lemma addrsh_mod addr shift : 0 ≤ addr < 2 ^ 62 → 0 ≤ shift →
  0 ≤ addrsh addr shift ∧ addrsh addr shift `mod` 512 = (addr `div` 2 ^ (12 + shift)) `mod` 512.
Proof.
  intros Ha Hs. unfold addrsh. rewrite (bits_mod _ 15 0), (bits_mod addr 61 12) by lia.
  change (2 ^ 0) with 1. rewrite Z.div_1_r. split; [by apply Z.mod_pos_bound|].
  rewrite Z.mod_mod_divide by (by exists 128). rewrite Z.shiftr_div_pow2 by done.
  rewrite (Z.mod_small (addr `div` 2 ^ 12)).
  - rewrite Z.div_div, <-Z.pow_add_r by lia. done.
  - split; [apply Z.div_pos; lia|]. apply Z.div_lt_upper_bound; lia.
Qed.

(** An entry that points to a table with 512 entries. *)
Definition table_entry (p : Z) : Z := Z.lor (Z.lor 0x8000000000000000 p) 9.

Lemma table_entry_add p : (4096 | p) → 0 ≤ p < 2 ^ 56 → table_entry p = 2 ^ 63 + p + 9.
Proof.
  intros [q ->] Hp. unfold table_entry.
  assert (Z.lor 0x8000000000000000 (q * 4096) = Z.shiftl (q + 2 ^ 51) 12) as ->.
  { rewrite Z.lor_comm. change 0x8000000000000000 with (Z.shiftl 1 63). rewrite lor_shiftl_add by lia.
    rewrite Z.shiftl_mul_pow2 by lia. lia. }
  rewrite Z.lor_comm, lor_shiftl_add by lia. lia.
Qed.

Lemma table_entry_fields p : (4096 | p) → 0 ≤ p < 2 ^ 56 →
  let e := table_entry p in
  0 ≤ e < 2 ^ 64 ∧ e ≠ 0 ∧ Z.testbit e 63 = true ∧ Z.testbit e 62 = false ∧ bits e 4 0 = 9 ∧
  Z.shiftl (bits e 55 8) 8 = p ∧ Z.land e 0x00ffffffffffff00 = p.
Proof.
  intros Ha Hp e. assert (e = 2 ^ 63 + p + 9) as He by (by apply table_entry_add).
  assert (Z.land e 0x00ffffffffffff00 = Z.shiftl (bits e 55 8) 8) as Hland.
  { change 0x00ffffffffffff00 with (Z.shiftl (Z.ones 48) 8). apply Z.bits_inj'. intros i Hi.
    rewrite Z.land_spec, !Z.shiftl_spec by done. destruct (Z.ltb_spec i 8).
    - by rewrite !(Z.testbit_neg_r _ (i - 8)), andb_false_r by lia.
    - rewrite Z.testbit_ones_nonneg, testbit_bits by lia. replace (i - 8 + 8) with i by lia.
      rewrite andb_comm. f_equal. destruct (Z.ltb_spec (i - 8) 48), (Z.leb_spec (i - 8) (55 - 8)); lia || done. }
  assert (Z.shiftl (bits e 55 8) 8 = p) as Hb.
  { rewrite bits_mod, Z.shiftl_mul_pow2 by lia. destruct Ha as [q ->].
    replace (e `div` 2 ^ 8) with (q * 16 + 2 ^ 55) by (rewrite He; apply Z.div_unique with 9; lia).
    rewrite Z.add_mod by lia. change (2 ^ 55 `mod` 2 ^ (55 - 8 + 1)) with 0.
    rewrite Z.add_0_r, Z.mod_mod, Z.mod_small by lia. lia. }
  rewrite Hland, Hb. clear Hland Hb. split; [lia|]. split; [lia|]. split_and!; [| | |done|done].
  - apply Z.testbit_true; [lia|]. by rewrite <-(Z.div_unique e (2 ^ 63) 1 (p + 9)) by lia.
  - apply Z.testbit_false; [lia|]. by rewrite <-(Z.div_unique e (2 ^ 62) 2 (p + 9)) by lia.
  - rewrite bits_mod by lia. change (2 ^ 0) with 1. rewrite Z.div_1_r. destruct Ha as [q ->].
    symmetry. apply (Z.mod_unique _ _ (2 ^ 58 + q * 128)); [|change (2 ^ (4 - 0 + 1)) with 32]; lia.
Qed.

(** ** A page table in memory *)

Definition root_entry : Z := Z.lor pgdir 0xa000000000000009.

(** The tree with the tables [pg] (by the index of the second level) holds the
    address space [pt] (by page number): the partition, process and top-level
    tables, a word for each of the 512 entries of the second level, and 512 entries
    in each of its tables, zero where nothing is mapped. *)
Record tree_ok (m : mem) (pg pt : gmap Z Z) : Prop := {
  tr_part : be_word m (part_tbl + 8) = Some proc_tbl;
  tr_proc : be_word m (proc_tbl + 16) = Some root_entry;
  tr_pgd0 : be_word m pgdir = Some (table_entry pmdir);
  tr_pgd i : 1 ≤ i < 512 → be_word m (pgdir + 8 * i) = Some 0;
  tr_pmd i : 0 ≤ i < 512 → be_word m (pmdir + 8 * i) = Some (from_option table_entry 0 (pg !! i));
  tr_page i p j : pg !! i = Some p → 0 ≤ j < 512 → be_word m (p + 8 * j) = Some (default 0 (pt !! (512 * i + j)));
  tr_none i j : pg !! i = None → 0 ≤ i < 512 → 0 ≤ j < 512 → pt !! (512 * i + j) = None;
  tr_addr i p : pg !! i = Some p → (4096 | p) ∧ 0 ≤ p < 2 ^ 56;
  tr_leaf e v : pt !! e = Some v → 0 ≤ v < 2 ^ 64 ∧ Z.testbit v 63 = true ∧ Z.testbit v 62 = true;
}.

(** What an access finds: the leaf of its page, if it is permitted. *)
Definition space_lookup (pt : gmap Z Z) (k : access) (ea : Z) : walk_result :=
  if ea <? 2 ^ 30 then
    match pt !! (ea `div` 4096) with
    | Some v => check_leaf k v 0
    | None => WalkInvalid
    end
  else WalkInvalid.

Lemma lookup_level fuel m k addr shift base d :
  0 ≤ addr < 2 ^ 62 → 0 ≤ shift → (4096 | base) → 0 ≤ base < 2 ^ 56 →
  be_word m (base + 8 * ((addr `div` 2 ^ (12 + shift)) `mod` 512)) = Some d →
  radix_lookup (S fuel) m k addr shift 9 base =
    if Z.testbit d 63 then
      if Z.testbit d 62 then Some (check_leaf k d shift)
      else
        let mbits := bits d 4 0 in
        if (mbits <? 5) || (16 <? mbits) || (shift <? mbits) then Some WalkBadTree
        else radix_lookup fuel m k addr (shift - mbits) mbits (Z.shiftl (bits d 55 8) 8)
    else Some WalkInvalid.
Proof.
  intros Ha Hs Hb Hr Hd. cbn [radix_lookup]. destruct (addrsh_mod addr shift Ha Hs) as [H1 H2].
  by rewrite pgtable_addr_ok, H2, Hd by done.
Qed.

Lemma lookup_table fuel m k addr shift base p :
  0 ≤ addr < 2 ^ 62 → 9 ≤ shift → (4096 | base) → 0 ≤ base < 2 ^ 56 →
  be_word m (base + 8 * ((addr `div` 2 ^ (12 + shift)) `mod` 512)) = Some (table_entry p) →
  (4096 | p) → 0 ≤ p < 2 ^ 56 →
  radix_lookup (S fuel) m k addr shift 9 base = radix_lookup fuel m k addr (shift - 9) 9 p.
Proof.
  intros Ha Hs Hb Hr Hd Hp Hpr. assert (0 ≤ shift) as H0 by lia.
  rewrite (lookup_level _ _ _ _ _ _ _ Ha H0 Hb Hr Hd).
  destruct (table_entry_fields p Hp Hpr) as (_ & _ & -> & -> & E & -> & _). cbn zeta. rewrite E.
  by rewrite (proj2 (Z.ltb_ge shift 9)) by lia.
Qed.

Lemma pgdir_table : (4096 | pgdir).
Proof. by exists 16. Qed.
Lemma pmdir_table : (4096 | pmdir).
Proof. by exists 17. Qed.

Lemma walk_tree m pg pt k ea : tree_ok m pg pt → 0 ≤ ea < 2 ^ 39 →
  walk m part_tbl 1 k ea = Some (space_lookup pt k ea).
Proof.
  intros T Hea. unfold walk. change (Z.lor (Z.shiftl (bits part_tbl 55 12) 12) 8) with (part_tbl + 8).
  rewrite (tr_part _ _ _ T).
  assert (∀ i, 39 ≤ i → Z.testbit ea i = false) as Hhi.
  { intros i Hi. by apply (wrap_testbit_high 39); lia. }
  unfold effpid. rewrite (Hhi 63) by lia. change (prtable_addr proc_tbl (bits 1 11 0)) with (proc_tbl + 16).
  rewrite (tr_proc _ _ _ T). unfold segment_check.
  change (bits root_entry 4 0) with 9.
  change (Z.lor (Z.shiftl (bits root_entry 62 61) 3) (bits root_entry 7 5)) with 8.
  change (bits (finalmask 8) 30 0) with (Z.ones 8). rewrite (Hhi 63), (Hhi 62) by lia.
  assert (Z.ldiff (bits ea 61 31) (Z.ones 8) = 0) as ->.
  { apply Z.bits_inj'. intros i Hi. rewrite Z.ldiff_spec, testbit_bits, Z.testbit_ones_nonneg, Z.bits_0 by lia.
    destruct (Z.ltb_spec i 8); [by rewrite andb_false_r|]. by rewrite Hhi, andb_false_r by lia. }
  change (Z.shiftl (bits root_entry 55 8) 8) with pgdir. cbn [Z.eqb Bool.eqb negb orb].
  change (8 + (31 - 12) <? 9) with false. change (8 + (31 - 12) - 9) with 18.
  change (S (Z.to_nat 18)) with 19%nat. cbn [Z.ltb Z.compare Pos.compare Pos.compare_cont orb].
  assert (be_word m (pgdir + 8 * ((ea `div` 2 ^ (12 + 18)) `mod` 512)) =
          Some (if ea <? 2 ^ 30 then table_entry pmdir else 0)) as H1.
  { assert (0 ≤ ea `div` 2 ^ 30 < 512) as Hi
      by (split; [apply Z.div_pos|apply Z.div_lt_upper_bound]; lia).
    change (12 + 18) with 30. rewrite Z.mod_small by done. destruct (Z.ltb_spec ea (2 ^ 30)).
    - rewrite Z.div_small by lia. apply (tr_pgd0 _ _ _ T).
    - apply (tr_pgd _ _ _ T). split; [apply Z.div_le_lower_bound|]; lia. }
  assert (0 ≤ ea < 2 ^ 62) as Ha by lia. assert (0 ≤ pgdir < 2 ^ 56 ∧ 0 ≤ pmdir < 2 ^ 56) as [Hr1 Hr2] by done.
  unfold space_lookup. revert H1. destruct (Z.ltb_spec ea (2 ^ 30)) as [Hlt|Hge]; intros H1.
  2:{ by rewrite (lookup_level 18 m k ea 18 pgdir 0 Ha ltac:(lia) pgdir_table Hr1 H1). }
  rewrite (lookup_table 18 m k ea 18 pgdir pmdir Ha ltac:(lia) pgdir_table Hr1 H1 pmdir_table Hr2).
  set (i := ea `div` 2 ^ 21). set (j := (ea `div` 2 ^ 12) `mod` 512).
  assert (0 ≤ i < 512) as Hi by (split; [apply Z.div_pos|apply Z.div_lt_upper_bound]; lia).
  assert (0 ≤ j < 512) as Hj by (by apply Z.mod_pos_bound).
  assert (ea `div` 4096 = 512 * i + j) as ->.
  { unfold i, j. change (2 ^ 21) with (2 ^ 12 * 512). rewrite <-Z.div_div by lia. apply Z.div_mod. lia. }
  pose proof (tr_pmd _ _ _ T i Hi) as H2. rewrite <-(Z.mod_small i 512) in H2 at 1 by done.
  change (18 - 9) with 9. destruct (pg !! i) as [p|] eqn:Ep; cbn [from_option] in H2.
  - destruct (tr_addr _ _ _ T i p Ep) as [Hp Hpr].
    rewrite (lookup_table 17 m k ea 9 pmdir p Ha ltac:(lia) pmdir_table Hr2 H2 Hp Hpr).
    rewrite (lookup_level 16 m k ea (9 - 9) p _ Ha ltac:(lia) Hp Hpr (tr_page _ _ _ T i p j Ep Hj)).
    destruct (pt !! (512 * i + j)) as [v|] eqn:Ev; [|done].
    destruct (tr_leaf _ _ _ T _ _ Ev) as (_ & E1 & E2). change (default 0 (Some v)) with v. by rewrite E1, E2.
  - rewrite (lookup_level 17 m k ea 9 pmdir 0 Ha ltac:(lia) pmdir_table Hr2 H2).
    by rewrite (tr_none _ _ _ T i j Ep Hi Hj).
Qed.

(** ** Changing the tree *)

Ltac layout := unfold part_tbl, proc_tbl, pgdir, pmdir, free_ptr_init, table_bytes in *; lia.

(** Where the tables of the lowest level are: apart from each other and from the
    upper levels, below the free memory. *)
Record pages_ok (pg : gmap Z Z) (free : Z) : Prop := {
  pa_table i p : pg !! i = Some p → (4096 | p) ∧ 0 ≤ i < 512 ∧ free_ptr_init ≤ p ∧ p + table_bytes ≤ free;
  pa_inj i i' p : pg !! i = Some p → pg !! i' = Some p → i = i';
  pa_free : (4096 | free) ∧ free_ptr_init ≤ free;
}.

Lemma pages_apart pg free i p i' p' :
  pages_ok pg free → pg !! i = Some p → pg !! i' = Some p' → i ≠ i' → p + 4096 ≤ p' ∨ p' + 4096 ≤ p.
Proof.
  intros P Hp Hp' Hne. destruct (pa_table _ _ P _ _ Hp) as ([a ->] & _), (pa_table _ _ P _ _ Hp') as ([b ->] & _).
  assert (a ≠ b) by (intros ->; apply Hne; by eapply (pa_inj _ _ P)). lia.
Qed.

(** An entry of the lowest level is set, or cleared when [v] is nothing. *)
Lemma tree_set_leaf m pg pt free i p j v :
  tree_ok m pg pt → pages_ok pg free → pg !! i = Some p → 0 ≤ j < 512 →
  (∀ x, v = Some x → 0 ≤ x < 2 ^ 64 ∧ Z.testbit x 63 = true ∧ Z.testbit x 62 = true) →
  tree_ok (write_bytes (p + 8 * j) (be_bytes (default 0 v)) m) pg (partial_alter (λ _, v) (512 * i + j) pt).
Proof.
  intros T P Hp Hj Hv. destruct (pa_table _ _ P _ _ Hp) as (_ & Hi & Hlo & _).
  assert (∀ a, a + 8 ≤ free_ptr_init → be_word (write_bytes (p + 8 * j) (be_bytes (default 0 v)) m) a = be_word m a)
    as Hout by (intros a Ha; apply be_word_out; layout).
  constructor.
  - rewrite Hout by layout. apply T.
  - rewrite Hout by layout. apply T.
  - rewrite Hout by layout. apply T.
  - intros a Ha. rewrite Hout by layout. by apply T.
  - intros a Ha. rewrite Hout by layout. by apply T.
  - intros a q b Hq Hb. destruct (decide (a = i)) as [->|Hne].
    + simplify_eq. destruct (decide (b = j)) as [->|Hnb].
      * rewrite be_word_same, lookup_partial_alter_eq. f_equal.
        destruct v as [x|]; [|done]. apply wrap_small. by apply Hv.
      * rewrite be_word_out, lookup_partial_alter_ne by (rewrite ?length_be_bytes; lia). by apply T.
    + rewrite lookup_partial_alter_ne by lia.
      destruct (pages_apart _ _ _ _ _ _ P Hp Hq ltac:(done));
        (rewrite be_word_out by (rewrite length_be_bytes; lia)); by apply T.
  - intros a b Ha Hr Hb. rewrite lookup_partial_alter_ne; [by apply (tr_none _ _ _ T)|]. intros E.
    assert (a = i) by lia. congruence.
  - apply T.
  - intros e x. destruct (decide (e = 512 * i + j)) as [->|Hne].
    + rewrite lookup_partial_alter_eq. apply Hv.
    + rewrite lookup_partial_alter_ne by done. apply T.
Qed.

(** The bytes of a table. *)
Definition table_size : nat := Z.to_nat table_bytes.

Lemma table_size_Z : Z.of_nat table_size = 4096.
Proof. done. Qed.

#[global] Opaque table_size.

(** A new table of the lowest level, taken from the free memory. *)
Lemma tree_add_table m pg pt free i :
  tree_ok m pg pt → pages_ok pg free → pg !! i = None → 0 ≤ i < 512 → free < 2 ^ 56 →
  let m' := write_bytes (pmdir + 8 * i) (be_bytes (table_entry free)) (write_bytes free (replicate table_size 0) m) in
  tree_ok m' (<[i := free]> pg) pt ∧ pages_ok (<[i := free]> pg) (free + table_bytes).
Proof.
  intros T P Hn Hi Hlim m'. destruct (pa_free _ _ P) as [Ha Hlo]. pose proof table_size_Z as Hsz.
  assert (∀ a, a + 8 ≤ free_ptr_init → a + 8 ≤ pmdir + 8 * i ∨ pmdir + 8 * i + 8 ≤ a → be_word m' a = be_word m a) as Hout.
  { intros a H1 H2. unfold m'. rewrite be_word_out by (rewrite length_be_bytes; lia).
    apply be_word_out. rewrite length_replicate. layout. }
  split; [constructor|constructor].
  - rewrite Hout by layout. apply T.
  - rewrite Hout by layout. apply T.
  - rewrite Hout by layout. apply T.
  - intros a Hr. rewrite Hout by layout. by apply T.
  - intros a Hr. destruct (decide (a = i)) as [->|Hne].
    + unfold m'. rewrite be_word_same, lookup_insert_eq. cbn [from_option]. f_equal. apply wrap_small.
      apply (table_entry_fields free Ha). layout.
    + rewrite Hout, lookup_insert_ne by (done || layout). by apply T.
  - intros a q b. destruct (decide (a = i)) as [->|Hne].
    + rewrite lookup_insert_eq. intros [= <-] Hb. unfold m'.
      rewrite be_word_out by (rewrite length_be_bytes; layout). rewrite be_word_zeros by lia.
      by rewrite (tr_none _ _ _ T i b Hn Hi Hb).
    + rewrite lookup_insert_ne by done. intros Hq Hb. destruct (pa_table _ _ P _ _ Hq) as (_ & _ & H1 & H2).
      unfold m'. rewrite !be_word_out by (rewrite ?length_be_bytes, ?length_replicate; layout). by apply T.
  - intros a b. destruct (decide (a = i)) as [->|Hne]; [by rewrite lookup_insert_eq|].
    rewrite lookup_insert_ne by done. apply T.
  - intros a q. destruct (decide (a = i)) as [->|Hne].
    + rewrite lookup_insert_eq. intros [= <-]. split; [done|]. layout.
    + rewrite lookup_insert_ne by done. apply T.
  - apply T.
  - intros a q. destruct (decide (a = i)) as [->|Hne].
    + rewrite lookup_insert_eq. intros [= <-]. split; [done|]. layout.
    + rewrite lookup_insert_ne by done. intros Hq. destruct (pa_table _ _ P _ _ Hq) as (? & ? & ? & ?).
      split; [done|]. layout.
  - intros a b q. destruct (decide (a = i)) as [->|Hne], (decide (b = i)) as [->|Hnb]; try done.
    + rewrite lookup_insert_eq, lookup_insert_ne by done. intros [= <-] Hq.
      destruct (pa_table _ _ P _ _ Hq) as (_ & _ & _ & ?). layout.
    + rewrite lookup_insert_eq, lookup_insert_ne by done. intros Hq [= <-].
      destruct (pa_table _ _ P _ _ Hq) as (_ & _ & _ & ?). layout.
    + rewrite !lookup_insert_ne by done. apply P.
  - split; [|layout]. apply Z.divide_add_r; [done|]. by exists 1.
Qed.
