(* ===== verification/MmuMap.v ===== *)
(** * Mapping and unmapping

    What [init_mmu], [map], [unmap] and [unmap_all] of [tests/mmu/mmu.c] do to the
    address space, and what translations through the TLB find in it. *)
From S2P Require Import Prelude CMem MemTypes Mmu MmuTest MmuSpec.

(** ** The state of the program *)

(** The tree holds the address space [pt]; the memory from [pgdir] to [lim] is the
    program's; the unit is set to the tree, and the TLB holds only entries of [pt]
    with the reference bit. *)
Record space_at (lim : Z) (pg pt : gmap Z Z) (s : mstate) : Prop := {
  sp_tree : tree_ok (ms_mem s) pg pt;
  sp_pages : pages_ok pg (free_ptr s);
  sp_bytes : mem_bytes (ms_mem s);
  sp_mapped : mapped (ms_mem s) pgdir (Z.to_nat (lim - pgdir));
  sp_lim : free_ptr s ≤ lim ≤ 2 ^ 56;
  sp_regs : ptcr (ms_mmu s) = part_tbl ∧ pid (ms_mmu s) = 1;
  sp_tlb q e v : tlb (ms_mmu s) !! (q, e) = Some v → q = 1 ∧ pt !! e = Some v ∧ Z.testbit v 8 = true;
  sp_keys e v : pt !! e = Some v → 0 ≤ e < 2 ^ 18;
}.

Definition with_mem (s : mstate) (m : mem) : mstate :=
  MState m (ms_mmu s) (free_ptr s) (eas_mapped s) (ms_spr s).
Definition with_mmu (s : mstate) (u : mmu) : mstate :=
  MState (ms_mem s) u (free_ptr s) (eas_mapped s) (ms_spr s).

Lemma mstate_mem_Ret {A} (p : M mem A) s a m : p (ms_mem s) = Ret a m → on_mem p s = Ret a (with_mem s m).
Proof. intros H. unfold on_mem. by rewrite (zoom_Ret _ _ _ _ _ _ H). Qed.

Lemma mstate_with_id s : with_mem s (ms_mem s) = s.
Proof. by destruct s. Qed.

Lemma sub_mapped lim m a n : mapped m pgdir (Z.to_nat (lim - pgdir)) → pgdir ≤ a → a + Z.of_nat n ≤ lim → mapped m a n.
Proof.
  intros Hm H1 H2. apply mapped_intro. intros i Hi.
  replace (a + i) with (pgdir + (a - pgdir + i)) by lia. eapply mapped_lookup; [done|lia].
Qed.

Lemma store_pte_ok s p v : mapped (ms_mem s) p 8 →
  store_pte p v s = Ret tt (with_mem s (write_bytes p (be_bytes v) (ms_mem s))).
Proof. intros Hm. apply mstate_mem_Ret. by apply stdbrx_ok. Qed.

Lemma zero_table_ok s p : (4096 | p) → 0 ≤ p < 2 ^ 56 → mapped (ms_mem s) p table_size →
  zero_table p s = Ret tt (with_mem s (write_bytes p (replicate table_size 0) (ms_mem s))).
Proof.
  intros Ha Hp Hm. apply mstate_mem_Ret. apply (zero_memory_ok 1 p table_bytes); [|layout..|done].
  apply Z.divide_add_r; [|by exists 64]. destruct Ha as [q ->]. exists (q * 64). lia.
Qed.

(** The indices of an address below 1 GB. *)
Lemma page_index ea : 0 ≤ ea < 2 ^ 30 →
  let epn := Z.shiftr ea 12 in
  let i := Z.land (Z.shiftr epn 9) 0x1ff in
  let j := Z.land epn 0x1ff in
  epn = ea `div` 4096 ∧ 0 ≤ epn < 2 ^ 18 ∧ 0 ≤ i < 512 ∧ 0 ≤ j < 512 ∧ epn = 512 * i + j.
Proof.
  intros Hea epn i j. assert (epn = ea `div` 4096) as He by (by unfold epn; rewrite Z.shiftr_div_pow2).
  assert (0 ≤ epn < 2 ^ 18) as Hr.
  { rewrite He. split; [apply Z.div_pos|apply Z.div_lt_upper_bound]; lia. }
  assert (j = epn `mod` 512) as Hj by (unfold j; change 0x1ff with (Z.ones 9); by rewrite Z.land_ones).
  assert (i = epn `div` 512) as Hi.
  { unfold i. change 0x1ff with (Z.ones 9). rewrite Z.land_ones, Z.shiftr_div_pow2 by lia. change (2 ^ 9) with 512.
    apply Z.mod_small. split; [apply Z.div_pos|apply Z.div_lt_upper_bound]; lia. }
  split; [done|]. split; [done|].
  split; [rewrite Hi; split; [apply Z.div_pos|apply Z.div_lt_upper_bound]; lia|].
  split; [rewrite Hj; by apply Z.mod_pos_bound|]. rewrite Hi, Hj. apply Z.div_mod. lia.
Qed.

(** ** Leaves *)

Lemma range_of_bits w x : 0 ≤ w → (∀ i, w ≤ i → Z.testbit x i = false) → 0 ≤ x < 2 ^ w.
Proof.
  intros Hw H. assert (x = wrap w x) as ->; [|by apply wrap_range]. apply Z.bits_inj'. intros i Hi.
  rewrite testbit_wrap by done. destruct (Z.ltb_spec i w); [done|]. by rewrite H.
Qed.

Lemma leaf_pte_ok pa perm : 0 ≤ perm < 4096 →
  0 ≤ leaf_pte pa perm < 2 ^ 64 ∧ Z.testbit (leaf_pte pa perm) 63 = true ∧ Z.testbit (leaf_pte pa perm) 62 = true.
Proof.
  intros Hp. unfold leaf_pte. rewrite !Z.lor_spec. split; [|by rewrite !orb_true_l].
  apply range_of_bits; [lia|]. intros i Hi. rewrite !Z.lor_spec, Z.land_spec.
  rewrite (wrap_testbit_high 64 0xc000000000000000), (wrap_testbit_high 64 0x00fffffffffff000), (wrap_testbit_high 12 perm) by lia.
  by rewrite andb_false_r.
Qed.

(** The bits of the entry are those the caller asked for. *)
Lemma leaf_pte_bits pa perm i : 0 ≤ perm < 4096 → 0 ≤ i < 12 → Z.testbit (leaf_pte pa perm) i = Z.testbit perm i.
Proof.
  intros Hp Hi. unfold leaf_pte. rewrite !Z.lor_spec, Z.land_spec.
  rewrite (testbit_aligned 0xc000000000000000 12), (testbit_aligned 0x00fffffffffff000 12); [|by eexists (2 ^ 44 - 1)|done|by exists (12 * 2 ^ 48)|done].
  by rewrite andb_false_r.
Qed.

(** ** map *)

(** The memory outside of the tables and the registers are left alone. *)
Definition same_outside (lim : Z) (s s' : mstate) : Prop :=
  ms_spr s' = ms_spr s ∧ ∀ a, a < pgdir ∨ lim ≤ a → ms_mem s' !! a = ms_mem s !! a.

#[export] Instance same_outside_trans lim : Transitive (same_outside lim).
Proof. intros s1 s2 s3 [E1 H1] [E2 H2]. split; [congruence|]. intros a Ha. by rewrite H2, H1. Qed.

Lemma read_pmd_ok lim pg pt s i p : space_at lim pg pt s → 0 ≤ i < 512 → pg !! i = Some p → read_pmd i s = Ret p s.
Proof.
  intros S Hi Hp. destruct (tr_addr _ _ _ (sp_tree _ _ _ _ S) _ _ Hp) as [Ha Hr].
  pose proof (tr_pmd _ _ _ (sp_tree _ _ _ _ S) i Hi) as Hw. rewrite Hp in Hw. cbn [from_option] in Hw.
  unfold read_pmd. rewrite (wrap_small 64 (i * 8)), (Z.mul_comm i 8) by lia.
  rewrite (bind_Ret _ _ _ _ _ (mstate_mem_Ret _ _ _ _ (ldbrx_ok _ _ _ (sp_bytes _ _ _ _ S) Hw))), mstate_with_id.
  destruct (table_entry_fields p Ha Hr) as (_ & _ & _ & _ & _ & _ & E). cbn [mret M_ret]. by rewrite E.
Qed.

(** The word of the second level that [map] and [unmap] test. *)
Lemma pmd_test lim pg pt s i : space_at lim pg pt s → 0 ≤ i < 512 →
  ∃ w, on_mem (load 8 (pmdir + 8 * i)) s = Ret w s ∧ (w =? 0) = bool_decide (pg !! i = None).
Proof.
  intros S Hi. pose proof (tr_pmd _ _ _ (sp_tree _ _ _ _ S) i Hi) as Hw.
  destruct (load_be_zero _ _ _ (sp_bytes _ _ _ _ S) Hw) as (w & Hl & Hz).
  exists w. split; [by rewrite (mstate_mem_Ret _ _ _ _ Hl), mstate_with_id|]. rewrite Hz.
  destruct (pg !! i) as [p|] eqn:Ep; cbn [from_option]; [|done].
  destruct (tr_addr _ _ _ (sp_tree _ _ _ _ S) _ _ Ep) as [Ha Hr].
  destruct (table_entry_fields p Ha Hr) as (_ & Hne & _). rewrite bool_decide_eq_false_2 by done. by apply Z.eqb_neq.
Qed.

(** A table for the index: the one there is, or a new one. *)
Definition table_for (i : Z) : MM unit :=
  w ← on_mem (load 8 (pmdir + 8 * i));
  if w =? 0 then
    s ← get;
    zero_table (free_ptr s);;
    store_pte (pmdir + 8 * i) (Z.lor (Z.lor 0x8000000000000000 (free_ptr s)) 9);;
    set_free (u64 (free_ptr s + table_bytes))
  else mret tt.

Lemma table_for_ok lim pg pt s i :
  space_at lim pg pt s → 0 ≤ i < 512 → (pg !! i = None → free_ptr s + table_bytes ≤ lim) →
  ∃ s' p, table_for i s = Ret tt s' ∧ space_at lim (<[i := p]> pg) pt s' ∧ (∀ q, pg !! i = Some q → p = q) ∧
    free_ptr s' = (if decide (pg !! i = None) then free_ptr s + table_bytes else free_ptr s) ∧
    ms_mmu s' = ms_mmu s ∧ eas_mapped s' = eas_mapped s ∧ same_outside lim s s'.
Proof.
  intros S Hi Hroom. destruct (pmd_test _ _ _ _ i S Hi) as (w & Hl & Hz). unfold table_for.
  rewrite (bind_Ret _ _ _ _ _ Hl), Hz. destruct (pg !! i) as [p|] eqn:Ep; last first.
  2:{ rewrite bool_decide_eq_false_2, decide_False by done. exists s, p. rewrite insert_id by done.
      split_and!; try done. by intros q [= <-]. }
  rewrite bool_decide_eq_true_2, decide_True by done. specialize (Hroom eq_refl).
  rewrite (bind_Ret get _ s s s) by done. set (f := free_ptr s) in *.
  pose proof (sp_lim _ _ _ _ S) as Hlim. fold f in Hlim.
  destruct (pa_free _ _ (sp_pages _ _ _ _ S)) as [Ha Hlo]. fold f in Ha, Hlo.
  pose proof (sp_mapped _ _ _ _ S) as Hm. pose proof table_size_Z as Hsz.
  assert (0 ≤ f < 2 ^ 56) as Hf by layout.
  assert (mapped (ms_mem s) f table_size) as Hmf by (apply (sub_mapped lim); [done|layout..]).
  rewrite (bind_Ret _ _ _ _ _ (zero_table_ok s f Ha Hf Hmf)).
  set (m1 := write_bytes f (replicate table_size 0) (ms_mem s)).
  assert (mapped m1 pgdir (Z.to_nat (lim - pgdir))) as Hm1 by (by apply mapped_write).
  assert (mapped m1 (pmdir + 8 * i) 8) as Hmp by (apply (sub_mapped lim); [done|layout..]).
  rewrite (bind_Ret _ _ _ _ _ (store_pte_ok (with_mem s m1) _ _ Hmp)).
  assert (f < 2 ^ 56) as Hf' by lia. fold (table_entry f). set (m2 := write_bytes (pmdir + 8 * i) (be_bytes (table_entry f)) (ms_mem (with_mem s m1))).
  destruct (tree_add_table _ _ _ _ i (sp_tree _ _ _ _ S) (sp_pages _ _ _ _ S) Ep Hi Hf') as [T' P'].
  rewrite wrap_small by layout.
  exists (MState m2 (ms_mmu s) (f + table_bytes) (eas_mapped s) (ms_spr s)), f. split; [done|]. split; [|split; [by rewrite ?Ep|split; [done|split; [done|split; [done|]]]]].
  - constructor; cbn [ms_mem ms_mmu free_ptr]; [exact T'|exact P'| | | |apply S..].
    + unfold m2. apply mem_bytes_write; [apply be_bytes_bytes|]. apply mem_bytes_write; [|apply S].
      by apply Forall_replicate.
    + by apply mapped_write.
    + split; [layout|lia].
  - split; [done|]. intros a Ha'. cbn [ms_mem]. unfold m2, m1. cbn [ms_mem with_mem].
    rewrite !lookup_write_bytes_out by (rewrite ?length_be_bytes, ?length_replicate; layout). done.
Qed.

(** A leaf is written in a table there is; the address was not cached. *)
Lemma write_leaf_ok lim pg pt s i p j v u :
  space_at lim pg pt s → pg !! i = Some p → 0 ≤ i < 512 → 0 ≤ j < 512 →
  (∀ x, v = Some x → 0 ≤ x < 2 ^ 64 ∧ Z.testbit x 63 = true ∧ Z.testbit x 62 = true) →
  ptcr u = ptcr (ms_mmu s) → pid u = pid (ms_mmu s) →
  (∀ k x, tlb u !! k = Some x → tlb (ms_mmu s) !! k = Some x ∧ k.2 ≠ 512 * i + j) →
  let s' := with_mmu (with_mem s (write_bytes (p + 8 * j) (be_bytes (default 0 v)) (ms_mem s))) u in
  mapped (ms_mem s) (p + 8 * j) 8 ∧
  space_at lim pg (partial_alter (λ _, v) (512 * i + j) pt) s' ∧ same_outside lim s s'.
Proof.
  intros S Hp Hi Hj Hv Hu1 Hu2 Hu3 s'. destruct (pa_table _ _ (sp_pages _ _ _ _ S) _ _ Hp) as (_ & _ & Hlo & Hhi).
  pose proof (sp_lim _ _ _ _ S) as Hlim. split; [|split; [constructor|]].
  - apply (sub_mapped lim); [apply S|layout..].
  - by apply (tree_set_leaf _ _ _ (free_ptr s)); try apply S.
  - apply S.
  - apply mem_bytes_write; [apply be_bytes_bytes|apply S].
  - apply mapped_write, S.
  - apply S.
  - cbn [ms_mmu s' with_mmu with_mem]. rewrite Hu1, Hu2. apply S.
  - intros q e x Hx. cbn [ms_mmu s' with_mmu with_mem] in Hx. destruct (Hu3 _ _ Hx) as [Ht Hne]. cbn in Hne.
    rewrite lookup_partial_alter_ne by done. by apply S.
  - intros e x. destruct (decide (e = 512 * i + j)) as [->|Hne]; [lia|].
    rewrite lookup_partial_alter_ne by done. apply S.
  - split; [done|]. intros a Ha. cbn [ms_mem s' with_mmu with_mem]. apply lookup_write_bytes_out. rewrite length_be_bytes. layout.
Qed.

Lemma map_eq ea pa perm s :
  let epn := Z.shiftr ea 12 in
  let i := Z.land (Z.shiftr epn 9) 0x1ff in
  map ea pa perm s =
    (table_for i;; ptep ← read_pmd i; store_pte (ptep + 8 * Z.land epn 0x1ff) (leaf_pte pa perm);; note_ea ea) s.
Proof. intros epn i. unfold map, table_for, mbind, M_bind. by destruct (on_mem _ s). Qed.

(** [map] of a page that is not mapped adds it, with a table where there was none. *)
Lemma map_ok lim pg pt s ea pa perm :
  let i := ea `div` 2 ^ 21 in
  space_at lim pg pt s → 0 ≤ ea < 2 ^ 30 → 0 ≤ perm < 4096 → pt !! (ea `div` 4096) = None →
  (pg !! i = None → free_ptr s + table_bytes ≤ lim) → (length (eas_mapped s) < 4)%nat →
  ∃ s' p, map ea pa perm s = Ret tt s' ∧
    space_at lim (<[i := p]> pg) (<[ea `div` 4096 := leaf_pte pa perm]> pt) s' ∧
    free_ptr s' = (if decide (pg !! i = None) then free_ptr s + table_bytes else free_ptr s) ∧
    eas_mapped s' = eas_mapped s ++ [ea] ∧ same_outside lim s s'.
Proof.
  intros i0 S Hea Hperm Hnone Hroom Hlen. rewrite map_eq.
  destruct (page_index ea Hea) as (He & _ & Hi & Hj & Hij). set (epn := Z.shiftr ea 12) in *.
  set (i := Z.land (Z.shiftr epn 9) 0x1ff) in *. set (j := Z.land epn 0x1ff) in *.
  assert (i0 = i) as ->.
  { unfold i0. change (2 ^ 21) with (4096 * 512). rewrite <-Z.div_div, <-He, Hij by lia.
    symmetry. apply (Z.div_unique _ _ _ j); lia. }
  destruct (table_for_ok lim pg pt s i S Hi Hroom) as (s1 & p & Ht & S1 & _ & Hf & Hu & Ha & Ho).
  rewrite (bind_Ret _ _ _ _ _ Ht). pose proof (lookup_insert_eq pg i p) as Hp.
  rewrite (bind_Ret _ _ _ _ _ (read_pmd_ok _ _ _ _ _ _ S1 Hi Hp)).
  rewrite <-He, Hij in Hnone.
  destruct (write_leaf_ok lim _ pt s1 i p j (Some (leaf_pte pa perm)) (ms_mmu s1) S1 Hp Hi Hj) as (Hm & S2 & Ho2); try done.
  { intros x [= <-]. by apply leaf_pte_ok. }
  { intros [q e] x Hx. split; [done|]. cbn [snd]. intros ->. destruct (sp_tlb _ _ _ _ S1 _ _ _ Hx) as (_ & E & _). congruence. }
  change (default 0 (Some (leaf_pte pa perm))) with (leaf_pte pa perm) in *.
  rewrite (bind_Ret _ _ _ _ _ (store_pte_ok _ _ _ Hm)). set (m2 := write_bytes _ _ _) in *.
  unfold note_ea. rewrite (bind_Ret get _ _ (with_mem s1 m2) (with_mem s1 m2)) by done.
  cbn [eas_mapped with_mem]. rewrite Ha, (proj2 (Nat.ltb_lt _ _) Hlen).
  exists (MState m2 (ms_mmu s1) (free_ptr s1) (eas_mapped s ++ [ea]) (ms_spr s1)), p.
  split; [done|]. split; [|split; [done|split; [done|]]].
  - rewrite <-He, Hij. destruct S2; constructor; done.
  - exact (same_outside_trans lim _ _ _ Ho Ho2).
Qed.

(** ** unmap *)

(** The page number of an address, as the unit reads it. *)
Lemma bits_page ea : 0 ≤ ea < 2 ^ 52 → bits ea 51 12 = ea `div` 4096.
Proof.
  intros H. rewrite bits_mod by lia. change (2 ^ 12) with 4096. apply Z.mod_small.
  split; [apply Z.div_pos|apply Z.div_lt_upper_bound]; lia.
Qed.

Lemma tlbie_page ea u : 0 ≤ ea < 2 ^ 52 →
  tlbie (Z.ldiff ea 0xfff) (Z.shiftl 1 32) u = Mmu (ptcr u) (pid u) (delete (1, ea `div` 4096) (tlb u)).
Proof.
  intros H. unfold tlbie. change 0xfff with (Z.ones 12).
  rewrite !Z.ldiff_spec, !Z.testbit_ones_nonneg, !andb_false_r by lia.
  replace (bits (Z.ldiff ea (Z.ones 12)) 51 12) with (bits ea 51 12); [by rewrite bits_page|].
  apply Z.bits_inj'. intros i Hi. rewrite !testbit_bits, Z.ldiff_spec, Z.testbit_ones_nonneg by lia.
  by rewrite (proj2 (Z.ltb_ge (i + 12) 12)), andb_true_r by lia.
Qed.

(** [unmap] removes the page, from the tree and from the TLB. *)
Lemma unmap_ok lim pg pt s ea :
  space_at lim pg pt s → 0 ≤ ea < 2 ^ 30 →
  ∃ s', unmap ea s = Ret tt s' ∧ space_at lim pg (delete (ea `div` 4096) pt) s' ∧
    free_ptr s' = free_ptr s ∧ eas_mapped s' = eas_mapped s ∧ same_outside lim s s'.
Proof.
  intros S Hea. destruct (page_index ea Hea) as (He & _ & Hi & Hj & Hij). unfold unmap.
  set (epn := Z.shiftr ea 12) in *. set (i := Z.land (Z.shiftr epn 9) 0x1ff) in *. set (j := Z.land epn 0x1ff) in *.
  destruct (pmd_test _ _ _ _ i S Hi) as (w & Hl & Hz). rewrite (bind_Ret _ _ _ _ _ Hl), Hz.
  rewrite <-He. destruct (pg !! i) as [p|] eqn:Ep.
  2:{ rewrite bool_decide_eq_true_2 by done. exists s. rewrite delete_id; [done|]. rewrite Hij.
      by apply (tr_none _ _ _ (sp_tree _ _ _ _ S)). }
  rewrite bool_decide_eq_false_2 by done.
  rewrite (bind_Ret _ _ _ _ _ (read_pmd_ok _ _ _ _ _ _ S Hi Ep)).
  set (u := Mmu (ptcr (ms_mmu s)) (pid (ms_mmu s)) (delete (1, epn) (tlb (ms_mmu s)))).
  destruct (write_leaf_ok lim pg pt s i p j None u S Ep Hi Hj) as (Hm & S' & Ho); try done.
  { intros [q e] x. cbn [tlb u snd]. intros [Hne Hx]%lookup_delete_Some. split; [done|].
    destruct (sp_tlb _ _ _ _ S _ _ _ Hx) as (-> & _). rewrite <-Hij. congruence. }
  rewrite (bind_Ret _ _ _ _ _ (mstate_mem_Ret _ _ _ _ (store_Ret _ _ _ 0 Hm))).
  eexists. split; [|split; [rewrite Hij; exact S'|split; [done|split; [done|exact Ho]]]].
  unfold do_tlbie, set_mmu, modify. rewrite tlbie_page, <-He by lia. done.
Qed.

Definition unmap_pages (eas : list Z) (pt : gmap Z Z) : gmap Z Z :=
  foldl (λ pt ea, delete (ea `div` 4096) pt) pt eas.

Lemma unmap_loop_ok lim pg pt s eas :
  space_at lim pg pt s → Forall (λ ea, 0 ≤ ea < 2 ^ 30) eas →
  ∃ s', unmap_loop eas s = Ret tt s' ∧ space_at lim pg (unmap_pages eas pt) s' ∧
    free_ptr s' = free_ptr s ∧ eas_mapped s' = eas_mapped s ∧ same_outside lim s s'.
Proof.
  intros S H. revert pt s S. induction H as [|ea eas Hea _ IH]; intros pt s S; [by exists s|].
  destruct (unmap_ok _ _ _ _ _ S Hea) as (s1 & H1 & S1 & F1 & E1 & O1).
  destruct (IH _ _ S1) as (s2 & H2 & S2 & F2 & E2 & O2). exists s2. cbn [unmap_loop].
  rewrite (bind_Ret _ _ _ _ _ H1), H2. split; [done|]. split; [exact S2|]. split; [congruence|]. split; [congruence|].
  by etrans.
Qed.

Lemma lookup_unmap_pages eas pt e :
  unmap_pages eas pt !! e = if decide (e ∈ (λ ea, ea `div` 4096) <$> eas) then None else pt !! e.
Proof.
  revert pt. induction eas as [|ea eas IH]; intros pt; [done|].
  change (unmap_pages (ea :: eas) pt) with (unmap_pages eas (delete (ea `div` 4096) pt)). rewrite IH, fmap_cons.
  destruct (decide (e = ea `div` 4096)) as [->|Hne].
  - rewrite lookup_delete_eq, (decide_True (P := _ ∈ _ :: _)) by left. by case_decide.
  - rewrite lookup_delete_ne by done. apply decide_ext. rewrite elem_of_cons. naive_solver.
Qed.

(** [unmap_all] leaves the address space empty, when every page was noted. *)
Lemma unmap_all_ok lim pg pt s :
  space_at lim pg pt s → Forall (λ ea, 0 ≤ ea < 2 ^ 30) (eas_mapped s) →
  (∀ e v, pt !! e = Some v → e ∈ (λ ea, ea `div` 4096) <$> eas_mapped s) →
  ∃ s', unmap_all s = Ret tt s' ∧ space_at lim pg ∅ s' ∧
    free_ptr s' = free_ptr s ∧ eas_mapped s' = [] ∧ same_outside lim s s'.
Proof.
  intros S Hr Hall. destruct (unmap_loop_ok _ _ _ _ _ S Hr) as (s1 & H1 & S1 & F1 & E1 & O1).
  unfold unmap_all. rewrite (bind_Ret get _ s s s), (bind_Ret _ _ _ _ _ H1) by done.
  eexists. split; [done|]. split; [|by split].
  assert (unmap_pages (eas_mapped s) pt = ∅) as E.
  { apply map_empty. intros e. rewrite lookup_unmap_pages. case_decide; [done|].
    destruct (pt !! e) eqn:Ee; [|done]. exfalso. eauto. }
  rewrite E in S1. destruct S1; constructor; done.
Qed.

(** ** init_mmu *)

(** The six writes of [init_mmu], in its order. *)
Definition init_mem (m : mem) : mem :=
  write_bytes (proc_tbl + 16) (be_bytes root_entry)
    (write_bytes pmdir (replicate table_size 0)
      (write_bytes pgdir (be_bytes (table_entry pmdir))
        (write_bytes pgdir (replicate table_size 0)
          (write_bytes proc_tbl (replicate table_size 0)
            (write_bytes (part_tbl + 8) (be_bytes proc_tbl) m))))).

Ltac word_out := rewrite be_word_out by (rewrite ?length_be_bytes, ?length_replicate, ?table_size_Z; layout).

Lemma init_tree m : tree_ok (init_mem m) ∅ ∅.
Proof.
  pose proof table_size_Z as Hsz. unfold init_mem. constructor.
  - do 5 word_out. by rewrite be_word_same.
  - by rewrite be_word_same.
  - do 2 word_out. by rewrite be_word_same.
  - intros i Hi. do 3 word_out. apply be_word_zeros; layout.
  - intros i Hi. word_out. rewrite be_word_zeros by layout. by rewrite lookup_empty.
  - intros i p j. by rewrite lookup_empty.
  - intros. apply lookup_empty.
  - intros i p. by rewrite lookup_empty.
  - intros e v. by rewrite lookup_empty.
Qed.

Lemma init_mem_bytes m : mem_bytes m → mem_bytes (init_mem m).
Proof.
  intros Hm. unfold init_mem.
  repeat (apply mem_bytes_write; [first [apply be_bytes_bytes|by apply Forall_replicate]|]). done.
Qed.

Lemma init_mem_out lim m a : free_ptr_init ≤ lim → a < pgdir ∨ lim ≤ a → init_mem m !! a = m !! a.
Proof.
  intros Hl Ha. unfold init_mem. pose proof table_size_Z.
  by rewrite !lookup_write_bytes_out by (rewrite ?length_be_bytes, ?length_replicate; layout).
Qed.

Ltac owned lim := cbn [ms_mem with_mem with_mmu]; repeat apply mapped_write; apply (sub_mapped lim); [eassumption|layout..].

Lemma init_mmu_run lim s :
  free_ptr_init ≤ lim → mapped (ms_mem s) pgdir (Z.to_nat (lim - pgdir)) →
  init_mmu s = Ret tt (with_mmu (with_mem s (init_mem (ms_mem s))) (Mmu part_tbl 1 ∅)).
Proof.
  intros Hlim Hm. pose proof table_size_Z as Hsz. unfold init_mmu.
  erewrite bind_Ret by (apply store_pte_ok; owned lim).
  erewrite bind_Ret by (apply zero_table_ok; [by exists 18|layout|owned lim]).
  erewrite bind_Ret by reflexivity. erewrite bind_Ret by reflexivity.
  erewrite bind_Ret by (apply zero_table_ok; [exact pgdir_table|layout|]; owned lim).
  erewrite bind_Ret by (apply store_pte_ok; owned lim).
  erewrite bind_Ret by (apply zero_table_ok; [exact pmdir_table|layout|]; owned lim).
  erewrite bind_Ret by (apply store_pte_ok; owned lim).
  reflexivity.
Qed.

(** [init_mmu] makes the empty address space, whatever memory holds. *)
Lemma init_mmu_ok lim s :
  free_ptr_init ≤ lim ≤ 2 ^ 56 → mem_bytes (ms_mem s) → mapped (ms_mem s) pgdir (Z.to_nat (lim - pgdir)) →
  free_ptr s = free_ptr_init →
  ∃ s', init_mmu s = Ret tt s' ∧ space_at lim ∅ ∅ s' ∧ free_ptr s' = free_ptr_init ∧ eas_mapped s' = eas_mapped s ∧
    same_outside lim s s'.
Proof.
  intros Hlim Hb Hm Hf. rewrite (init_mmu_run lim) by (done || lia). eexists. split; [done|].
  split; [|split; [done|split; [done|]]].
  - constructor; cbn [ms_mem ms_mmu free_ptr with_mem with_mmu ptcr pid tlb].
    + apply init_tree.
    + rewrite Hf. constructor; [by intros i p; rewrite lookup_empty|by intros i i' p; rewrite lookup_empty|].
      split; [by exists 20|layout].
    + by apply init_mem_bytes.
    + unfold init_mem. by repeat apply mapped_write.
    + lia.
    + done.
    + intros q e v. by rewrite lookup_empty.
    + intros e v. by rewrite lookup_empty.
  - split; [done|]. intros a Ha. apply (init_mem_out lim); [lia|done].
Qed.

(** ** Accesses *)

(** Fetches do not store. *)
Definition access_ok (k : access) : bool := negb (iside k && is_store k).

Lemma tlb_key_low u ea : 0 ≤ ea < 2 ^ 39 → tlb_key u ea = Some (bits (pid u) 11 0, ea `div` 4096).
Proof.
  intros H. unfold tlb_key, effpid. rewrite !(wrap_testbit_high 39 ea) by lia. rewrite bits_page by lia.
  assert (bits ea 61 52 = 0) as -> by (rewrite bits_mod, Z.div_small by lia; done). done.
Qed.

Lemma check_leaf_Ok k v v' sh sh' : check_leaf k v sh = WalkOk v' sh' → v' = v ∧ sh' = sh ∧ Z.testbit v 8 = true.
Proof.
  unfold check_leaf. destruct (check_perm_c v k true); [|done]. cbn [andb negb].
  destruct (Z.testbit v 8); [|done]. cbn [andb]. destruct (_ || _); [|done]. by intros [= <- <-].
Qed.

(** An entry of the TLB that permits an access is one the walk would permit. *)
Lemma check_perm_leaf k v : access_ok k = true → Z.testbit v 8 = true →
  check_perm_c v k (Z.testbit v 7) = true → check_leaf k v 0 = WalkOk v 0.
Proof.
  unfold access_ok, check_leaf, check_perm_c. intros Hk -> H.
  destruct (priv k || _), (iside k), (is_store k); cbn [negb andb] in *; try done.
  - by rewrite H, orb_true_r.
  - apply andb_true_iff in H as [-> ->]. done.
  - by rewrite H, orb_true_r.
Qed.

Lemma space_lookup_Ok pt k ea v sh : space_lookup pt k ea = WalkOk v sh →
  sh = 0 ∧ pt !! (ea `div` 4096) = Some v ∧ Z.testbit v 8 = true.
Proof.
  unfold space_lookup. destruct (ea <? 2 ^ 30); [|done]. destruct (pt !! _) as [x|] eqn:E; [|done].
  intros (<- & <- & H)%check_leaf_Ok. done.
Qed.

(** The TLB may lose entries, and gain those the walk finds. *)
Lemma space_tlb lim pg pt s t : space_at lim pg pt s →
  (∀ q e v, t !! (q, e) = Some v → q = 1 ∧ pt !! e = Some v ∧ Z.testbit v 8 = true) →
  space_at lim pg pt (with_mmu s (Mmu (ptcr (ms_mmu s)) (pid (ms_mmu s)) t)).
Proof. intros S H. destruct S. constructor; done. Qed.

Lemma walk_and_keep_ok lim pg pt s k ea : space_at lim pg pt s → 0 ≤ ea < 2 ^ 39 →
  ∃ u, walk_and_keep (ms_mem s) k ea (ms_mmu s) = (Some (space_lookup pt k ea), u) ∧ space_at lim pg pt (with_mmu s u).
Proof.
  intros S Hea. unfold walk_and_keep. destruct (sp_regs _ _ _ _ S) as [E1 E2].
  rewrite tlb_key_low by done. rewrite E1, E2, (walk_tree _ _ _ _ _ (sp_tree _ _ _ _ S) Hea).
  eexists. split; [done|]. destruct (space_lookup pt k ea) as [v sh| | | | |] eqn:Es; try by destruct s, S.
  apply space_lookup_Ok in Es as (-> & Hv & H8). rewrite <-E1, <-E2. apply (space_tlb _ _ _ _ _ S).
  intros q e x. rewrite E2. destruct (decide (e = ea `div` 4096)) as [->|Hne].
  - change (bits 1 11 0) with 1. destruct (decide (q = 1)) as [->|Hq].
    + rewrite lookup_insert_eq. by intros [= <-].
    + rewrite lookup_insert_ne by congruence. apply S.
  - rewrite lookup_insert_ne by congruence. apply S.
Qed.

(** An access finds what the address space says, through the TLB or not. *)
Lemma translate_ok lim pg pt s k ea : space_at lim pg pt s → 0 ≤ ea < 2 ^ 39 → access_ok k = true →
  ∃ u, translate (ms_mem s) k ea (ms_mmu s) = (Some (space_lookup pt k ea), u) ∧ space_at lim pg pt (with_mmu s u).
Proof.
  intros S Hea Hk. pose proof (walk_and_keep_ok _ _ _ _ k _ S Hea) as Hw. unfold translate.
  destruct (tlb_lookup (ms_mmu s) ea) as [v|] eqn:Et; [|done].
  destruct (check_perm_c v k (Z.testbit v 7)) eqn:Ep; [|done]. exists (ms_mmu s). split; [|by destruct s, S].
  unfold tlb_lookup in Et. rewrite tlb_key_low in Et by done. cbn [mbind option_bind] in Et.
  apply (sp_tlb _ _ _ _ S) in Et as (_ & Hv & H8). unfold space_lookup.
  pose proof (sp_keys _ _ _ _ S _ _ Hv) as Hr. rewrite (proj2 (Z.ltb_lt ea (2 ^ 30))), Hv.
  - by rewrite check_perm_leaf.
  - pose proof (Z.div_mod ea 4096 ltac:(lia)). pose proof (Z.mod_pos_bound ea 4096 ltac:(lia)). lia.
Qed.

(** ** Stores elsewhere *)

Lemma be_word_ext m m' a : (∀ i, 0 ≤ i < 8 → m' !! (a + i) = m !! (a + i)) → be_word m' a = be_word m a.
Proof.
  intros H. unfold be_word. f_equal. assert (∀ n b, a ≤ b → b + Z.of_nat n ≤ a + 8 → read_bytes m' b n = read_bytes m b n) as Hr.
  { intros n. induction n as [|n IH]; intros b H1 H2; [done|]. cbn [read_bytes]. rewrite IH by lia.
    replace b with (a + (b - a)) by lia. by rewrite H by lia. }
  apply Hr; lia.
Qed.

Lemma tree_ext m m' pg pt free lim : tree_ok m pg pt → pages_ok pg free → free ≤ lim →
  (∀ a, pgdir ≤ a < lim → m' !! a = m !! a) → tree_ok m' pg pt.
Proof.
  intros T P Hf H. destruct (pa_free _ _ P) as [_ Hlo].
  assert (∀ a, pgdir ≤ a → a + 8 ≤ free → be_word m' a = be_word m a) as Hw
    by (intros a H1 H2; apply be_word_ext; intros i Hi; apply H; lia).
  constructor; try apply T.
  - rewrite Hw by layout. apply T.
  - rewrite Hw by layout. apply T.
  - rewrite Hw by layout. apply T.
  - intros i Hi. rewrite Hw by layout. by apply T.
  - intros i Hi. rewrite Hw by layout. by apply T.
  - intros i p j Hp Hj. destruct (pa_table _ _ P _ _ Hp) as (_ & _ & H1 & H2). rewrite Hw by layout. by apply T.
Qed.

(** A store outside of the tables leaves the address space alone. *)
Lemma space_write lim pg pt s a bs : space_at lim pg pt s → bytes bs →
  a + Z.of_nat (length bs) ≤ pgdir ∨ lim ≤ a → space_at lim pg pt (with_mem s (write_bytes a bs (ms_mem s))).
Proof.
  intros [T P B M L R TL K] Hb Ha. constructor; try done; cbn [ms_mem with_mem].
  - apply (tree_ext (ms_mem s) _ _ _ (free_ptr s) lim); [done|done|lia|]. intros q Hq.
    apply lookup_write_bytes_out. lia.
  - by apply mem_bytes_write.
  - by apply mapped_write.
Qed.
