(* ===== verification/MmuRun.v ===== *)
(** * The MMU test program

    The rest of [tests/mmu]: the accesses and jumps of [head.S] that run with
    translation on, the twenty-one tests, and [main].  A data fault goes to vector
    0x300 and a fetch fault to 0x400, which return to the caller with the vector in
    r3; at the other vectors the program stops.

    SRR0 and SRR1 are kept for [test_exec]; those of a data fault in [test_read],
    [test_write] or [test_dcbz], which nothing reads, are not. *)
From S2P Require Import Prelude CMem Mmu MmuTest.

(** ** head.S *)

(** The address a data access goes to, or a fault: [DAR] and [DSISR] are set as
    [loadstore1.vhdl] does. *)
Definition dsisr_of (r : walk_result) (st : bool) : Z :=
  Z.lor (match r with
         | WalkInvalid => 0x40000000
         | WalkPermErr => 0x08000000
         | WalkBadTree => 0x00080000
         | WalkRcErr => 0x00040000
         | _ => 0
         end) (if st then 0x02000000 else 0).

Definition data_addr (st : bool) (ea : Z) : MM (option Z) :=
  s ← get;
  let '(r, u) := translate (ms_mem s) (Access false st true) ea (ms_mmu s) in
  set_mmu (λ _, u);;
  match r with
  | Some (WalkOk pde shift) => mret (Some (phys_addr pde shift ea))
  | None | Some WalkSegErr => stuck
  | Some r => set_spr (λ x, Sprs ea (dsisr_of r st) (srr0 x) (srr1 x));; mret None
  end.

(** A doubleword that crosses an 8-byte boundary takes two accesses, the second at
    the boundary. *)
Definition first_len (ea : Z) : nat := Z.to_nat (8 - ea `mod` 8).
Definition second_addr (ea : Z) : Z := Z.shiftl (Z.shiftr ea 3 + 1) 3.

(** [ld r5,0(addr)]: what the register holds, when no fault occurred. *)
Definition ld (ea : Z) : MM (option Z) :=
  a ← data_addr false ea;
  match a with
  | None => mret None
  | Some a =>
      let n := first_len ea in
      lo ← on_mem (load n a);
      if (n =? 8)%nat then mret (Some lo) else
      b ← data_addr false (second_addr ea);
      match b with
      | None => mret None
      | Some b => hi ← on_mem (load (8 - n) b); mret (Some (Z.lor lo (Z.shiftl hi (8 * Z.of_nat n))))
      end
  end.

(** [std]: true when no fault occurred.  The first access is done before the second
    faults. *)
Definition std (ea v : Z) : MM bool :=
  a ← data_addr true ea;
  match a with
  | None => mret false
  | Some a =>
      let n := first_len ea in
      on_mem (store n a v);;
      if (n =? 8)%nat then mret true else
      b ← data_addr true (second_addr ea);
      match b with
      | None => mret false
      | Some b => on_mem (store (8 - n) b (Z.shiftr v (8 * Z.of_nat n)));; mret true
      end
  end.

(** The result in r3, and what is stored through the second argument. *)
Definition test_read (addr init : Z) : MM (Z * Z) :=
  r ← ld addr;
  match r with Some v => mret (0, v) | None => mret (0x300, init) end.

Definition test_write (addr v : Z) : MM Z :=
  ok ← std addr v; mret (if ok : bool then 0 else 0x300).

Definition test_dcbz (addr : Z) : MM Z :=
  a ← data_addr true addr;
  match a with
  | None => mret 0x300
  | Some a => on_mem (dcbz a);; mret 0
  end.

(** *** Code that runs from mapped pages *)

Definition MSR_LE : Z := 0x1.
Definition MSR_DR : Z := 0x10.
Definition MSR_IR : Z := 0x20.
Definition MSR_HV : Z := 0x1000000000000000.
Definition MSR_SF : Z := 0x8000000000000000.
Definition MSR_EXEC : Z := Z.lor (Z.lor (Z.lor MSR_SF MSR_HV) MSR_IR) MSR_LE.

(** [intr_srr1] of [execute1.vhdl]. *)
Definition intr_srr1 (msr flags : Z) : Z := Z.lor (Z.ldiff msr 0x783f0000) (Z.land flags 0x783f0000).

Definition isi_flags (r : walk_result) : Z :=
  match r with
  | WalkInvalid => 0x40000000
  | WalkPermErr => 0x10000000
  | WalkBadTree => 0x00080000
  | WalkRcErr => 0x00040000
  | _ => 0
  end.

Definition set_srr (pc v : Z) : MM unit := set_spr (λ x, Sprs (dar x) (dsisr x) pc v).

Definition fetch_addr (msr pc : Z) : MM (option Z) :=
  s ← get;
  let '(r, u) := translate (ms_mem s) (Access true false true) pc (ms_mmu s) in
  set_mmu (λ _, u);;
  match r with
  | Some (WalkOk pde shift) => mret (Some (phys_addr pde shift pc))
  | None | Some WalkSegErr => stuck
  | Some r => set_srr pc (intr_srr1 msr (isi_flags r));; mret None
  end.

(** The instructions of the test pages; a branch holds the address of its target. *)
Inductive instr :=
  | Inop | Imr_r6_r3 | Ili_r3_0 | Icmpdi_r6 (n : Z) | Ibeq (target : Z) | Ib (target : Z) | Isc
  | Ilwz_r7_r6 | Ild_r7_r7.

Definition code_at (a : Z) : option instr :=
  match a with
  | 0x1000 => Some Inop | 0x1004 => Some Inop
  | 0x1008 => Some Imr_r6_r3
  | 0x100c => Some Ili_r3_0
  | 0x1010 => Some (Icmpdi_r6 1) | 0x1014 => Some (Ibeq 0x1ff8)
  | 0x1018 => Some (Icmpdi_r6 2) | 0x101c => Some (Ibeq 0x1ffc)
  | 0x1020 => Some Isc
  | 0x1ff8 => Some (Ib 0x1020)
  | 0x1ffc => Some Inop
  | 0x2000 => Some (Ib 0x1020)
  | 0x2fe8 => Some Inop | 0x2fec => Some Inop
  | 0x2ff0 => Some Imr_r6_r3
  | 0x2ff4 => Some Ili_r3_0
  | 0x2ff8 => Some Ilwz_r7_r6
  | 0x2ffc => Some Ild_r7_r7
  | _ => None
  end.

(** The registers the test pages use. *)
Record regs := Regs { r3 : Z; r6 : Z; r7 : Z; cr_eq : bool }.

(** A load of the test pages, at a word boundary, with translation when MSR has it. *)
Definition exec_load (n : nat) (msr pc ea : Z) : MM (option Z) :=
  a ← (if Z.testbit msr 4 then data_addr false ea else mret (Some ea));
  match a with
  | Some a => v ← on_mem (load n a); mret (Some v)
  | None => set_srr pc (intr_srr1 msr 0);; mret None
  end.

(** Fetch and execute until a vector returns to [test_exec]. *)
Fixpoint exec (fuel : nat) (msr pc : Z) (g : regs) : MM Z :=
  match fuel with
  | O => out_of_fuel
  | S fuel =>
      a ← fetch_addr msr pc;
      match a with
      | None => mret 0x400
      | Some a =>
          i ← of_option (code_at a);
          match i with
          | Inop => exec fuel msr (pc + 4) g
          | Imr_r6_r3 => exec fuel msr (pc + 4) (Regs (r3 g) (r3 g) (r7 g) (cr_eq g))
          | Ili_r3_0 => exec fuel msr (pc + 4) (Regs 0 (r6 g) (r7 g) (cr_eq g))
          | Icmpdi_r6 n => exec fuel msr (pc + 4) (Regs (r3 g) (r6 g) (r7 g) (r6 g =? n))
          | Ibeq t => exec fuel msr (if cr_eq g then pc + (t - a) else pc + 4) g
          | Ib t => exec fuel msr (pc + (t - a)) g
          | Isc => set_srr (pc + 4) (intr_srr1 msr 0);; mret (r3 g)
          | Ilwz_r7_r6 =>
              v ← exec_load 4 msr pc (r6 g);
              match v with
              | Some v => exec fuel msr (pc + 4) (Regs (r3 g) (r6 g) v (cr_eq g))
              | None => mret 0x300
              end
          | Ild_r7_r7 =>
              v ← exec_load 8 msr pc (r7 g);
              match v with
              | Some v => exec fuel msr (pc + 4) (Regs (r3 g) (r6 g) v (cr_eq g))
              | None => mret 0x300
              end
          end
      end
  end.

(** [rfid] to the page; the longest path through it has fewer than sixteen
    instructions. *)
Definition test_exec (testno pc msr : Z) : MM Z := exec 16 msr pc (Regs testno 0 0 false).

(** ** The tests *)

(** Whether DAR and DSISR, or SRR0 and SRR1, are not what a test expects. *)
Definition fault_differs (a d : Z) : MM bool :=
  s ← get; mret (negb (dar (ms_spr s) =? a) || negb (dsisr (ms_spr s) =? d)).
Definition srr_differs (a d : Z) : MM bool :=
  s ← get; mret (negb (srr0 (ms_spr s) =? a) || negb (srr1 (ms_spr s) =? d)).

(** A variable of the program: [mem[i] = v], and its value. *)
Definition put_long (p i v : Z) : MM unit := on_mem (store 8 (p + 8 * i) v).
Definition get_long (p i : Z) : MM Z := on_mem (load 8 (p + 8 * i)).

Definition ok (r : Z) : bool := r =? 0.
Definition differs (a b : Z) : bool := negb (a =? b).

Definition mmu_test_1 : MM Z :=
  let ptr := 0x123000 in
  '(r, val) ← test_read ptr 0xdeadbeefd00d;
  if ok r then mret 1 else
  if differs val 0xdeadbeefd00d then mret 2 else
  d ← fault_differs ptr 0x40000000;
  if d : bool then mret 3 else mret 0.

Definition mmu_test_2 : MM Z :=
  let mem := 0x8000 in let ptr := 0x124000 in let ptr2 := 0x1124000 in
  map ptr mem DFLT_PERM;;
  put_long mem 33 0xbadc0ffee;;
  '(r, val) ← test_read (ptr + 8 * 33) 0xdeadbeefd00d;
  if negb (ok r) then mret 1 else
  if differs val 0xbadc0ffee then mret 2 else
  map ptr2 mem DFLT_PERM;;
  '(r, val) ← test_read (ptr2 + 8 * 33) 0xdeadbeefd00d;
  if negb (ok r) then mret 3 else
  if differs val 0xbadc0ffee then mret 4 else
  '(r, val) ← test_read (ptr + 8 * 33) 0xdeadbeefd00d;
  if negb (ok r) then mret 5 else
  if differs val 0xbadc0ffee then mret 6 else mret 0.

Definition mmu_test_3 : MM Z :=
  let mem := 0x9000 in let ptr := 0x14a000 in
  map ptr mem DFLT_PERM;;
  put_long mem 45 0xfee1800d4ea;;
  '(r, val) ← test_read (ptr + 8 * 45) 0xdeadbeefd0d0;
  if negb (ok r) then mret 1 else
  if differs val 0xfee1800d4ea then mret 2 else
  unmap ptr;;
  '(r, val) ← test_read (ptr + 8 * 45) 0xdeadbeefd0d0;
  if ok r then mret 3 else
  if differs val 0xdeadbeefd0d0 then mret 4 else
  d ← fault_differs (ptr + 8 * 45) 0x40000000;
  if d : bool then mret 5 else mret 0.

Definition mmu_test_4 : MM Z :=
  let mem := 0xa000 in let ptr := 0x10b000 in let ptr2 := 0x110b000 in
  map ptr mem DFLT_PERM;;
  put_long mem 27 0xf00f00f00f00;;
  r ← test_write (ptr + 8 * 27) 0xe44badc0ffee;
  if negb (ok r) then mret 1 else
  v ← get_long mem 27;
  if differs v 0xe44badc0ffee then mret 2 else
  map ptr2 mem DFLT_PERM;;
  r ← test_write (ptr2 + 8 * 27) 0x6e11ae;
  if negb (ok r) then mret 3 else
  v ← get_long mem 27;
  if differs v 0x6e11ae then mret 4 else
  '(r, val) ← test_read (ptr + 8 * 27) 0xdeadbeefd00d;
  if negb (ok r) then mret 5 else
  if differs val 0x6e11ae then mret 6 else mret 0.

Definition mmu_test_5 : MM Z :=
  let mem := 0xbffd in let ptr := 0x39fffd in
  map ptr mem DFLT_PERM;;
  '(r, val) ← test_read ptr 0xdeadbeef0dd0;
  if ok r then mret 1 else
  if differs val 0xdeadbeef0dd0 then mret 2 else
  d ← fault_differs (Z.ldiff ptr 0xfff + 0x1000) 0x40000000;
  if d : bool then mret 3 else mret 0.

Definition mmu_test_6 : MM Z :=
  let mem := 0xbffd in let ptr := 0x39fffd in
  map ptr mem DFLT_PERM;;
  put_long mem 0 0x123456789abcdef0;;
  r ← test_write ptr 0xdeadbeef0dd0;
  if ok r then mret 1 else
  d ← fault_differs (Z.ldiff ptr 0xfff + 0x1000) 0x42000000;
  if d : bool then mret 2 else mret 0.

Definition mmu_test_7 : MM Z :=
  let mem := 0x8000 in let ptr := 0x124000 in
  put_long mem 0 0x123456789abcdef0;;
  map ptr mem (Z.lor PERM_RD PERM_WR);;
  '(r, val) ← test_read ptr 0xdeadd00dbeef;
  if ok r then mret 1 else
  if differs val 0xdeadd00dbeef then mret 2 else
  d ← fault_differs ptr 0x00040000;
  if d : bool then mret 3 else
  r ← test_write ptr 0xdeadbeef0dd0;
  if ok r then mret 4 else
  d ← fault_differs ptr 0x02040000;
  if d : bool then mret 5 else
  v ← get_long mem 0;
  if differs v 0x123456789abcdef0 then mret 6 else mret 0.

Definition mmu_test_8 : MM Z :=
  let mem := 0x8000 in let ptr := 0x124000 in
  put_long mem 0 0x123456789abcdef0;;
  map ptr mem (Z.lor (Z.lor REF PERM_RD) PERM_WR);;
  '(r, val) ← test_read ptr 0xdeadd00dbeef;
  if negb (ok r) then mret 1 else
  r ← test_write ptr 0xdeadbeef0dd1;
  if ok r then mret 2 else
  d ← fault_differs ptr 0x02040000;
  if d : bool then mret 3 else
  v ← get_long mem 0;
  if differs v 0x123456789abcdef0 then mret 4 else mret 0.

Definition mmu_test_9 : MM Z :=
  let mem := 0x8000 in let ptr := 0x124000 in
  put_long mem 0 0x123456789abcdef0;;
  map ptr mem REF;;
  '(r, val) ← test_read ptr 0xdeadd00dbeef;
  if ok r then mret 1 else
  if differs val 0xdeadd00dbeef then mret 2 else
  d ← fault_differs ptr 0x08000000;
  if d : bool then mret 3 else
  r ← test_write ptr 0xdeadbeef0dd1;
  if ok r then mret 4 else
  d ← fault_differs ptr 0x0a000000;
  if d : bool then mret 5 else
  v ← get_long mem 0;
  if differs v 0x123456789abcdef0 then mret 6 else mret 0.

Definition mmu_test_10 : MM Z :=
  let mem := 0x8000 in let ptr := 0x124000 in
  put_long mem 0 0x123456789abcdef0;;
  map ptr mem (Z.lor REF PERM_RD);;
  '(r, val) ← test_read ptr 0xdeadd00dbeef;
  if negb (ok r) then mret 1 else
  r ← test_write ptr 0xdeadbeef0dd1;
  if ok r then mret 2 else
  d ← fault_differs ptr 0x0a000000;
  if d : bool then mret 3 else
  v ← get_long mem 0;
  if differs v 0x123456789abcdef0 then mret 4 else mret 0.

Definition mmu_test_11 : MM Z :=
  let ptr := 0x523000 in
  r ← test_exec 0 ptr MSR_EXEC;
  if ok r then mret 1 else
  d ← srr_differs ptr (Z.lor MSR_EXEC 0x40000000);
  if d : bool then mret 2 else mret 0.

Definition mmu_test_12 : MM Z :=
  let mem := 0x1000 in let ptr := 0x324000 in let ptr2 := 0x1324000 in
  map ptr mem (Z.lor PERM_EX REF);;
  r ← test_exec 0 ptr MSR_EXEC;
  if negb (ok r) then mret 1 else
  map ptr2 mem (Z.lor PERM_EX REF);;
  r ← test_exec 0 ptr2 MSR_EXEC;
  if negb (ok r) then mret 2 else mret 0.

Definition mmu_test_13 : MM Z :=
  let mem := 0x1000 in let ptr := 0x349000 in let ptr2 := 0x34a000 in
  map ptr mem (Z.lor PERM_EX REF);;
  r ← test_exec 1 ptr MSR_EXEC;
  if negb (ok r) then mret 1 else
  unmap ptr;;
  map ptr2 mem (Z.lor PERM_EX REF);;
  r ← test_exec 1 ptr MSR_EXEC;
  if ok r then mret 2 else
  d ← srr_differs ptr (Z.lor MSR_EXEC 0x40000000);
  if d : bool then mret 3 else mret 0.

Definition mmu_test_14 : MM Z :=
  let mem := 0x1000 in let mem2 := 0x2000 in let ptr := 0x30a000 in let ptr2 := 0x30b000 in
  map ptr mem (Z.lor PERM_EX REF);;
  r ← test_exec 2 ptr MSR_EXEC;
  if ok r then mret 1 else
  d ← srr_differs ptr2 (Z.lor MSR_EXEC 0x40000000);
  if d : bool then mret 2 else
  map ptr2 mem2 (Z.lor PERM_EX REF);;
  r ← test_exec 2 ptr MSR_EXEC;
  if negb (ok r) then mret 3 else mret 0.

Definition mmu_test_15 : MM Z :=
  let mem := 0x1000 in let ptr := 0x324000 in
  map ptr mem DFLT_PERM;;
  r ← test_exec 0 ptr MSR_EXEC;
  if ok r then mret 1 else
  d ← srr_differs ptr (Z.lor MSR_EXEC 0x10000000);
  if d : bool then mret 2 else mret 0.

Definition mmu_test_16 : MM Z :=
  let mem := 0x1000 in let mem2 := 0x2000 in let ptr := 0x30a000 in let ptr2 := 0x30b000 in
  map ptr mem (Z.lor PERM_EX REF);;
  map ptr2 mem2 (Z.lor PERM_RD REF);;
  r ← test_exec 2 ptr MSR_EXEC;
  if ok r then mret 1 else
  d ← srr_differs ptr2 (Z.lor MSR_EXEC 0x10000000);
  if d : bool then mret 2 else
  map ptr2 mem2 (Z.lor (Z.lor PERM_RD PERM_EX) REF);;
  r ← test_exec 2 ptr MSR_EXEC;
  if negb (ok r) then mret 3 else mret 0.

Definition mmu_test_17 : MM Z :=
  let mem := 0x1000 in let ptr := 0x349000 in
  map ptr mem PERM_EX;;
  r ← test_exec 2 ptr MSR_EXEC;
  if ok r then mret 1 else
  d ← srr_differs ptr (Z.lor MSR_EXEC 0x00040000);
  if d : bool then mret 2 else
  unmap ptr;;
  map ptr mem 0;;
  r ← test_exec 2 ptr MSR_EXEC;
  if ok r then mret 1 else
  d ← srr_differs ptr (Z.lor MSR_EXEC 0x10000000);
  if d : bool then mret 2 else mret 0.

Definition mmu_test_18 : MM Z :=
  let mem := 0x8000 in let ptr := 0x124000 in let ptr2 := 0x1124000 in
  map ptr mem DFLT_PERM;;
  r ← test_dcbz (ptr + 8 * 129);
  if negb (ok r) then mret 1 else
  map ptr2 mem DFLT_PERM;;
  r ← test_dcbz (ptr2 + 8 * 130);
  if negb (ok r) then mret 2 else mret 0.

Definition mmu_test_19 : MM Z :=
  let mem := 0x8000 in let ptr := 0x124000 in
  put_long mem 0 0x123456789abcdef0;;
  map ptr mem (Z.lor REF PERM_RD);;
  r ← test_write ptr 0xdeadbeef0dd1;
  if ok r then mret 1 else
  d ← fault_differs ptr 0x0a000000;
  if d : bool then mret 2 else
  map ptr mem (Z.lor (Z.lor (Z.lor REF CHG) PERM_RD) PERM_WR);;
  r ← test_write ptr 0xdeadbeef0dd1;
  if negb (ok r) then mret 3 else mret 0.

Definition mmu_test_20 : MM Z :=
  let mem := 0x2000 in let ptr := 0x324000 in
  map ptr mem (Z.lor (Z.lor PERM_EX PERM_PRIV) REF);;
  r ← test_exec 0x124000 (ptr + 0xfe8) (Z.lor MSR_EXEC MSR_DR);
  if differs r 0x300 then mret (r + 1) else mret 0.

Definition mmu_test_21 : MM Z :=
  let mem := 0x9000 in let mem2 := 0xa000 in let ptr := 0x14a000 in
  map ptr mem DFLT_PERM;;
  put_long mem 45 0xfee1800d4ea;;
  put_long mem2 45 0xabad78323c14;;
  '(r, val) ← test_read (ptr + 8 * 45) 0xdeadbeefd0d0;
  if negb (ok r) then mret 1 else
  if differs val 0xfee1800d4ea then mret 2 else
  map ptr mem2 DFLT_PERM;;
  do_tlbie 0x400 (Z.shiftl 1 32);;
  '(r, val) ← test_read (ptr + 8 * 45) 0xdeadbeefd0d0;
  if negb (ok r) then mret 3 else
  if differs val 0xabad78323c14 then mret 4 else mret 0.

(** ** main *)

(** What the program has printed, and its result. *)
Record tstate := TState { ts : mstate; ts_out : list Z; ts_fail : Z }.
Abbreviation MT := (M tstate).

Definition on_ms {A} (p : MM A) : MT A := zoom ts (λ s t, TState s (ts_out t) (ts_fail t)) p.
Definition print_string (str : list Z) : MT unit := modify (λ t, TState (ts t) (ts_out t ++ str) (ts_fail t)).
Definition putchar (c : Z) : MT unit := print_string [c].

Fixpoint print_hex_loop (n : nat) (v : Z) : MT unit :=
  match n with
  | O => mret tt
  | S n =>
      let x := Z.land (Z.shiftr v (4 * Z.of_nat n)) 0xf in
      putchar (if 10 <=? x then x + 97 - 10 else x + 48);;
      print_hex_loop n v
  end.
Definition print_hex (v : Z) : MT unit := print_hex_loop 16 v.

Definition print_test_number (i : Z) : MT unit :=
  print_string (lit "test ");;
  putchar (48 + i `quot` 10);;
  putchar (48 + i `rem` 10);;
  putchar 58.

Definition crlf : list Z := [13; 10].

Definition do_test (num : Z) (test : MM Z) : MT unit :=
  on_ms (set_spr (λ x, Sprs (dar x) 0 (srr0 x) (srr1 x)));;
  on_ms (set_spr (λ x, Sprs 0 (dsisr x) (srr0 x) (srr1 x)));;
  on_ms unmap_all;;
  print_test_number num;;
  ret ← on_ms test;
  if ret =? 0 then print_string (lit "PASS" ++ crlf) else
  modify (λ t, TState (ts t) (ts_out t) 1);;
  print_string (lit "FAIL ");;
  (if ret <? 10 then putchar (ret + 48) else print_hex ret);;
  t ← get;
  let x := ms_spr (ts t) in
  (if (num <=? 10) || (num =? 19) then
     print_string (lit " DAR=");; print_hex (dar x);;
     print_string (lit " DSISR=");; print_hex (dsisr x)
   else
     print_string (lit " SRR0=");; print_hex (srr0 x);;
     print_string (lit " SRR1=");; print_hex (srr1 x));;
  print_string crlf.

Fixpoint do_tests (l : list (Z * MM Z)) : MT unit :=
  match l with
  | [] => mret tt
  | (num, test) :: l => do_test num test;; do_tests l
  end.

Definition tests : list (Z * MM Z) :=
  [(1, mmu_test_1); (2, mmu_test_2); (3, mmu_test_3); (4, mmu_test_4); (5, mmu_test_5); (6, mmu_test_6);
   (7, mmu_test_7); (8, mmu_test_8); (9, mmu_test_9); (10, mmu_test_10); (11, mmu_test_11); (12, mmu_test_12);
   (13, mmu_test_13); (14, mmu_test_14); (15, mmu_test_15); (16, mmu_test_16); (17, mmu_test_17);
   (18, mmu_test_18); (19, mmu_test_19); (20, mmu_test_20); (21, mmu_test_21)].

(** [main], after [console_init]. *)
Definition main : MT Z :=
  on_ms init_mmu;;
  do_tests tests;;
  t ← get; mret (ts_fail t).
