(* ===== verification/MmuRefine.v ===== *)
(** * What the MMU test promises

    The address space as a program sees it: a map from pages to entries, the memory
    that is not used for tables, and the last fault.  [spec_call] says what each
    operation does there, and when it may be called; the program of [MmuTest] and
    [MmuRun] on the unit of [Mmu], with a TLB that may lose an entry at any point,
    refines it. *)
From S2P Require Import Prelude CMem MemTypes Mmu MmuTest MmuSpec MmuMap MmuRun.

(** ** The specification *)

Record aspace := ASpace {
  as_pt : gmap Z Z;        (** the entry of each page *)
  as_tabs : gset Z;        (** the 2 MB regions that have a table *)
  as_eas : list Z;         (** the addresses mapped since [unmap_all] *)
  as_mem : mem;            (** physical memory outside of the tables *)
  as_fault : Z * Z;        (** DAR and DSISR *)
}.

Inductive call :=
  | CMap (ea pa perm : Z) | CUnmap (ea : Z) | CUnmapAll
  | CRead (ea init : Z) | CWrite (ea v : Z)
  | CEvict (q e : Z).

(** The end of the tables, when there is room for [n]. *)
Definition tables_end (n : nat) : Z := free_ptr_init + table_bytes * Z.of_nat n.

Definition as_map (ea pa perm : Z) (a : aspace) : aspace :=
  ASpace (<[ea `div` 4096 := leaf_pte pa perm]> (as_pt a)) ({[ea `div` 2 ^ 21]} ∪ as_tabs a) (as_eas a ++ [ea])
    (as_mem a) (as_fault a).
Definition as_unmap (ea : Z) (a : aspace) : aspace :=
  ASpace (delete (ea `div` 4096) (as_pt a)) (as_tabs a) (as_eas a) (as_mem a) (as_fault a).
Definition as_clear (a : aspace) : aspace := ASpace ∅ (as_tabs a) [] (as_mem a) (as_fault a).
Definition as_set_mem (m : mem) (a : aspace) : aspace := ASpace (as_pt a) (as_tabs a) (as_eas a) m (as_fault a).
Definition as_set_fault (d : Z * Z) (a : aspace) : aspace := ASpace (as_pt a) (as_tabs a) (as_eas a) (as_mem a) d.

(** Where an access goes: to memory outside of the tables, or to a fault. *)
Definition as_access (n : nat) (st : bool) (ea : Z) (a : aspace) : option (option Z * aspace) :=
  if decide (0 ≤ ea < 2 ^ 39 ∧ ea `mod` 8 = 0) then
    match space_lookup (as_pt a) (Access false st true) ea with
    | WalkOk v sh =>
        let p := phys_addr v sh ea in
        if decide (p + 8 ≤ pgdir ∨ tables_end n ≤ p) then Some (Some p, a) else None
    | r => Some (None, as_set_fault (ea, dsisr_of r st) a)
    end
  else None.

(** The result of a call and the space after it; nothing when it may not be called. *)
Definition spec_call (n : nat) (c : call) (a : aspace) : option ((Z * Z) * aspace) :=
  match c with
  | CMap ea pa perm =>
      if decide (0 ≤ ea < 2 ^ 30 ∧ 0 ≤ perm < 4096 ∧ as_pt a !! (ea `div` 4096) = None ∧
                 (length (as_eas a) < 4)%nat ∧ (size (as_tabs (as_map ea pa perm a)) ≤ n)%nat)
      then Some ((0, 0), as_map ea pa perm a) else None
  | CUnmap ea => if decide (0 ≤ ea < 2 ^ 30) then Some ((0, 0), as_unmap ea a) else None
  | CUnmapAll => Some ((0, 0), as_clear a)
  | CRead ea init =>
      '(p, a) ← as_access n false ea a;
      match p with
      | Some p => bs ← read_bytes (as_mem a) p 8; Some ((0, le_combine bs), a)
      | None => Some ((0x300, init), a)
      end
  | CWrite ea v =>
      '(p, a) ← as_access n true ea a;
      match p with
      | Some p => _ ← read_bytes (as_mem a) p 8; Some ((0, 0), as_set_mem (write_bytes p (le_split 8 v) (as_mem a)) a)
      | None => Some ((0x300, 0), a)
      end
  | CEvict _ _ => Some ((0, 0), a)
  end.

Fixpoint spec_calls (n : nat) (cs : list call) (a : aspace) : option (list (Z * Z) * aspace) :=
  match cs with
  | [] => Some ([], a)
  | c :: cs =>
      '(r, a) ← spec_call n c a;
      '(rs, a) ← spec_calls n cs a;
      Some (r :: rs, a)
  end.

(** ** The program *)

Definition run_call (c : call) : MM (Z * Z) :=
  match c with
  | CMap ea pa perm => map ea pa perm;; mret (0, 0)
  | CUnmap ea => unmap ea;; mret (0, 0)
  | CUnmapAll => unmap_all;; mret (0, 0)
  | CRead ea init => test_read ea init
  | CWrite ea v => r ← test_write ea v; mret (r, 0)
  | CEvict q e => set_mmu (λ u, Mmu (ptcr u) (pid u) (delete (q, e) (tlb u)));; mret (0, 0)
  end.

Fixpoint run_calls (cs : list call) : MM (list (Z * Z)) :=
  match cs with
  | [] => mret []
  | c :: cs => r ← run_call c; rs ← run_calls cs; mret (r :: rs)
  end.

(** ** The relation between the two *)

Record related (n : nat) (a : aspace) (s : mstate) : Prop := {
  rel_space : ∃ pg, space_at (tables_end n) pg (as_pt a) s ∧ dom pg = as_tabs a;
  rel_free : free_ptr s = tables_end (size (as_tabs a));
  rel_eas : eas_mapped s = as_eas a;
  rel_range : Forall (λ ea, 0 ≤ ea < 2 ^ 30) (as_eas a);
  rel_noted e v : as_pt a !! e = Some v → e ∈ (λ ea, ea `div` 4096) <$> as_eas a;
  rel_mem p : p < pgdir ∨ tables_end n ≤ p → ms_mem s !! p = as_mem a !! p;
  rel_fault : as_fault a = (dar (ms_spr s), dsisr (ms_spr s));
}.

Lemma rel_outside n s s' a : same_outside (tables_end n) s s' → related n a s →
  (∀ p, p < pgdir ∨ tables_end n ≤ p → ms_mem s' !! p = as_mem a !! p) ∧
  as_fault a = (dar (ms_spr s'), dsisr (ms_spr s')).
Proof.
  intros [E O] R. rewrite E. split; [|apply R]. intros p Hp. rewrite O by done. by apply R.
Qed.

Lemma map_refines n a s ea pa perm r a' :
  related n a s → spec_call n (CMap ea pa perm) a = Some (r, a') →
  ∃ s', run_call (CMap ea pa perm) s = Ret r s' ∧ related n a' s'.
Proof.
  intros R. cbn [spec_call]. case_decide as Hc; [|done]. intros [= <- <-].
  destruct Hc as (Hea & Hperm & Hnone & Hlen & Hroom). cbn [as_tabs as_map] in Hroom.
  destruct (rel_space _ _ _ R) as (pg & S & Hd). set (i := ea `div` 2 ^ 21) in *.
  assert (i ∈ as_tabs a ↔ pg !! i ≠ None) as Hin.
  { rewrite <-Hd, elem_of_dom, <-not_eq_None_Some. done. }
  assert (free_ptr s + (if decide (pg !! i = None) then table_bytes else 0) =
          tables_end (size ({[i]} ∪ as_tabs a))) as Hfree.
  { rewrite (rel_free _ _ _ R). case_decide as Hi.
    - rewrite size_union, size_singleton; [|set_solver]. unfold tables_end. layout.
    - replace ({[i]} ∪ as_tabs a) with (as_tabs a) by set_solver. lia. }
  destruct (map_ok (tables_end n) pg (as_pt a) s ea pa perm S Hea Hperm Hnone) as (s' & p & Hr & S' & Hf & He & Ho).
  { fold i. intros Hi. rewrite decide_True in Hfree by done. rewrite Hfree. unfold tables_end. layout. }
  { by rewrite (rel_eas _ _ _ R). }
  exists s'. cbn [run_call]. rewrite (bind_Ret _ _ _ _ _ Hr). split; [done|].
  destruct (rel_outside _ _ _ _ Ho R) as [Hm Hq].
  constructor; cbn [as_map as_pt as_tabs as_eas as_mem as_fault]; [| | | | |exact Hm|exact Hq].
  - exists (<[i := p]> pg). split; [exact S'|]. by rewrite dom_insert_L, Hd.
  - fold i. rewrite Hf, <-Hfree. fold i. repeat case_decide; lia || done.
  - by rewrite He, (rel_eas _ _ _ R).
  - apply Forall_app. split; [apply R|by constructor].
  - intros e v. rewrite fmap_app, elem_of_app. destruct (decide (e = ea `div` 4096)) as [->|Hne].
    + intros _. right. by left.
    + rewrite lookup_insert_ne by done. intros H. left. by apply (rel_noted _ _ _ R _ v).
Qed.

Lemma unmap_refines n a s ea r a' :
  related n a s → spec_call n (CUnmap ea) a = Some (r, a') →
  ∃ s', run_call (CUnmap ea) s = Ret r s' ∧ related n a' s'.
Proof.
  intros R. cbn [spec_call]. case_decide as Hea; [|done]. intros [= <- <-].
  destruct (rel_space _ _ _ R) as (pg & S & Hd).
  destruct (unmap_ok _ _ _ _ _ S Hea) as (s' & Hr & S' & Hf & He & Ho).
  exists s'. cbn [run_call]. rewrite (bind_Ret _ _ _ _ _ Hr). split; [done|].
  destruct (rel_outside _ _ _ _ Ho R) as [Hm Hq].
  constructor; cbn [as_unmap as_pt as_tabs as_eas as_mem as_fault]; [| | |apply R| |exact Hm|exact Hq].
  - by exists pg.
  - rewrite Hf. apply R.
  - rewrite He. apply R.
  - intros e v [_ H]%lookup_delete_Some. by apply (rel_noted _ _ _ R _ v).
Qed.

Lemma unmap_all_refines n a s r a' :
  related n a s → spec_call n CUnmapAll a = Some (r, a') →
  ∃ s', run_call CUnmapAll s = Ret r s' ∧ related n a' s'.
Proof.
  intros R [= <- <-]. destruct (rel_space _ _ _ R) as (pg & S & Hd).
  destruct (unmap_all_ok _ _ _ _ S) as (s' & Hr & S' & Hf & He & Ho).
  { rewrite (rel_eas _ _ _ R). apply R. }
  { rewrite (rel_eas _ _ _ R). apply R. }
  exists s'. cbn [run_call]. rewrite (bind_Ret _ _ _ _ _ Hr). split; [done|].
  destruct (rel_outside _ _ _ _ Ho R) as [Hm Hq].
  constructor; cbn [as_clear as_pt as_tabs as_eas as_mem as_fault]; [| |done|done| |exact Hm|exact Hq].
  - by exists pg.
  - rewrite Hf. apply R.
  - intros e v. by rewrite lookup_empty.
Qed.

Lemma evict_refines n a s q e r a' :
  related n a s → spec_call n (CEvict q e) a = Some (r, a') →
  ∃ s', run_call (CEvict q e) s = Ret r s' ∧ related n a' s'.
Proof.
  intros R [= <- <-]. destruct (rel_space _ _ _ R) as (pg & S & Hd). eexists. split; [done|].
  destruct R. constructor; try done. exists pg. split; [|done]. apply (space_tlb _ _ _ _ _ S).
  intros q' e' v [_ H]%lookup_delete_Some. by apply S.
Qed.

(** ** Accesses *)

(** The words the program reads and writes outside of the tables. *)
Lemma rel_read n a s p bs : related n a s → p + 8 ≤ pgdir ∨ tables_end n ≤ p →
  read_bytes (as_mem a) p 8 = Some bs → read_bytes (ms_mem s) p 8 = Some bs.
Proof.
  intros R Hp H. pose proof (read_bytes_length _ _ _ _ H) as Hl. rewrite <-Hl in *.
  apply bytes_at_read in H. apply bytes_at_read, bytes_at_intro. intros i b Hi.
  pose proof (lookup_lt_Some _ _ _ Hi). rewrite (rel_mem _ _ _ R) by lia. by eapply bytes_at_lookup.
Qed.

(** The program has no segments. *)
Lemma space_lookup_seg pt k ea : space_lookup pt k ea ≠ WalkSegErr.
Proof.
  unfold space_lookup, check_leaf. destruct (ea <? 2 ^ 30); [|done]. destruct (pt !! _); [|done].
  destruct (_ && _); [done|]. by destruct (negb _).
Qed.

Lemma rel_spr n a s x y z w : related n a s →
  related n (as_set_fault (x, y) a) (MState (ms_mem s) (ms_mmu s) (free_ptr s) (eas_mapped s) (Sprs x y z w)).
Proof.
  intros R. destruct R as [(pg & S & Hd)]. constructor; try done. exists pg. split; [|done]. destruct S. by constructor.
Qed.

(** Translating an access of the program is translating it in the specification. *)
Lemma data_addr_refines n a s st ea p a' :
  related n a s → as_access n st ea a = Some (p, a') →
  ∃ s', data_addr st ea s = Ret p s' ∧ related n a' s' ∧ first_len ea = 8%nat ∧
    (∀ x, p = Some x → x + 8 ≤ pgdir ∨ tables_end n ≤ x).
Proof.
  intros R. unfold as_access. case_decide as Hea; [|done]. intros H. unfold data_addr, first_len.
  destruct Hea as [Hea ->]. destruct (rel_space _ _ _ R) as (pg & S & Hd).
  destruct (translate_ok _ _ _ _ (Access false st true) _ S Hea eq_refl) as (u & Ht & Su).
  rewrite (bind_Ret get _ s s s) by done. rewrite Ht.
  rewrite (bind_Ret (set_mmu _) _ s tt (with_mmu s u)) by done.
  assert (related n a (with_mmu s u)) as Ru.
  { destruct R. constructor; try done. by exists pg. }
  pose proof (space_lookup_seg (as_pt a) (Access false st true) ea) as Hseg.
  destruct (space_lookup (as_pt a) (Access false st true) ea) as [v sh| | | | |] eqn:El.
  1: case_decide as Hp; [|done].
  all: try done; simplify_eq; (eexists; split; [reflexivity|split; [|split; [done|by intros x [= <-]]]]).
  1: exact Ru.
  all: apply (rel_spr _ _ _ _ _ _ _ Ru).
Qed.

Lemma read_refines n a s ea init r a' :
  related n a s → spec_call n (CRead ea init) a = Some (r, a') →
  ∃ s', run_call (CRead ea init) s = Ret r s' ∧ related n a' s'.
Proof.
  intros R. cbn [spec_call run_call]. unfold test_read, ld.
  destruct (as_access n false ea a) as [[p a1]|] eqn:Ea; [|done]. cbn [mbind option_bind].
  destruct (data_addr_refines _ _ _ _ _ _ _ R Ea) as (s1 & Hd & R1 & Hlen & Hp).
  destruct p as [p|]; cycle 1.
  { intros [= <- <-]. exists s1. unfold mbind, M_bind. by rewrite Hd. }
  destruct (read_bytes (as_mem a1) p 8) as [bs|] eqn:Hb; [|done]. intros [= <- <-]. exists s1.
  unfold mbind, M_bind. rewrite Hd, Hlen. cbn [Nat.eqb].
  rewrite (mstate_mem_Ret (load 8 p) s1 (le_combine bs) (ms_mem s1)); [by rewrite mstate_with_id|].
  unfold load. by rewrite (rel_read _ _ _ _ _ R1 (Hp p eq_refl) Hb).
Qed.

(** A store outside of the tables. *)
Lemma rel_write n a s p bs : related n a s → bytes bs → length bs = 8%nat → p + 8 ≤ pgdir ∨ tables_end n ≤ p →
  related n (as_set_mem (write_bytes p bs (as_mem a)) a) (with_mem s (write_bytes p bs (ms_mem s))).
Proof.
  intros R Hb Hl Hp. destruct R as [(pg & S & Hd) Hf He Hr Hn Hm Hq]. constructor; try done.
  - exists pg. split; [|done]. apply space_write; [done|done|]. by rewrite Hl.
  - intros q Hq'. cbn [ms_mem with_mem as_mem as_set_mem]. rewrite !lookup_write_bytes. case_decide; [done|by apply Hm].
Qed.

Lemma write_refines n a s ea v r a' :
  related n a s → spec_call n (CWrite ea v) a = Some (r, a') →
  ∃ s', run_call (CWrite ea v) s = Ret r s' ∧ related n a' s'.
Proof.
  intros R. cbn [spec_call run_call]. unfold test_write, std.
  destruct (as_access n true ea a) as [[p a1]|] eqn:Ea; [|done]. cbn [mbind option_bind].
  destruct (data_addr_refines _ _ _ _ _ _ _ R Ea) as (s1 & Hd & R1 & Hlen & Hp).
  destruct p as [p|]; cycle 1.
  { intros [= <- <-]. exists s1. unfold mbind, M_bind. by rewrite Hd. }
  destruct (read_bytes (as_mem a1) p 8) as [bs|] eqn:Hb; [|done]. intros [= <- <-].
  exists (with_mem s1 (write_bytes p (le_split 8 v) (ms_mem s1))).
  unfold mbind, M_bind. rewrite Hd, Hlen. cbn [Nat.eqb].
  rewrite (mstate_mem_Ret (store 8 p v) s1 tt (write_bytes p (le_split 8 v) (ms_mem s1))).
  - split; [done|]. apply (rel_write n a1 s1 p (le_split 8 v)); [done|apply le_split_bytes|apply length_le_split|by apply Hp].
  - unfold store. by rewrite (rel_read _ _ _ _ _ R1 (Hp p eq_refl) Hb).
Qed.

(** ** Refinement *)

Lemma call_refines n c a s r a' :
  related n a s → spec_call n c a = Some (r, a') → ∃ s', run_call c s = Ret r s' ∧ related n a' s'.
Proof.
  destruct c; [apply map_refines|apply unmap_refines|apply unmap_all_refines|apply read_refines|apply write_refines|apply evict_refines].
Qed.

Lemma calls_refine n cs a s rs a' :
  related n a s → spec_calls n cs a = Some (rs, a') → ∃ s', run_calls cs s = Ret rs s' ∧ related n a' s'.
Proof.
  revert a s rs. induction cs as [|c cs IH]; intros a s rs R; cbn [spec_calls run_calls].
  { intros [= <- <-]. by exists s. }
  destruct (spec_call n c a) as [[r a1]|] eqn:Ec; [|done]. cbn [mbind option_bind].
  destruct (spec_calls n cs a1) as [[rs' a2]|] eqn:Es; [|done]. intros [= <- <-].
  destruct (call_refines _ _ _ _ _ _ R Ec) as (s1 & H1 & R1). destruct (IH _ _ _ R1 Es) as (s2 & H2 & R2).
  exists s2. split; [|done]. unfold mbind, M_bind. by rewrite H1, H2.
Qed.

(** The specification before the first call. *)
Definition as_start (m : mem) : aspace := ASpace ∅ ∅ [] m (0, 0).

Lemma init_related n m :
  tables_end n ≤ 2 ^ 56 → mem_bytes m → mapped m pgdir (Z.to_nat (tables_end n - pgdir)) →
  ∃ s, init_mmu (mmu_start m) = Ret tt s ∧ related n (as_start m) s.
Proof.
  intros Hn Hb Hm. destruct (init_mmu_ok (tables_end n) (mmu_start m)) as (s & Hr & S & Hf & He & E & Ho); try done.
  { unfold tables_end in *. layout. }
  exists s. split; [done|]. constructor; cbn [as_start as_pt as_tabs as_eas as_mem as_fault].
  - exists ∅. split; [done|]. apply dom_empty_L.
  - rewrite Hf, size_empty. unfold tables_end. layout.
  - done.
  - done.
  - intros e v. by rewrite lookup_empty.
  - done.
  - by rewrite E.
Qed.
