(* ===== verification/Xics.v ===== *)
(** * The interrupt controller and its test

    [xics.vhdl] for one core, sixteen sources and three bits of priority, as it
    stands between two accesses: the presenter (CPPR, MFRR) and the priorities of the
    sources.  [tests/xics/xics.c] and [xics.h]: the accessors, the interrupt handler
    and the four tests, as statements between any two of which the core can take an
    interrupt.  An access is a word, or the byte at the offset of a word, as those of
    [xics.h] are.

    The UART raises its line while its transmitter interrupt is enabled, since it has
    nothing to send; it has received nothing.  What [head.S] saves and restores around
    the handler, so that the interrupted code goes on with its registers, is in
    [IsrEntry]; the latches between the controller and the core are in [XicsClk]. *)
From S2P Require Import Prelude CMem Soc Io Console.

(** ** xics.vhdl *)

(** The priorities of the sources are kept in three bits; 7 masks a source. *)
Record xics := Xics { cppr : Z; mfrr : Z; xives : list Z; levels : list bool }.

Definition xics_reset : xics := Xics 0 0xff (replicate 16 7) (replicate 16 false).

Definition prio_pack (pri8 : Z) : Z := if 7 <=? pri8 then 7 else pri8.
Definition prio_unpack (pri : Z) : Z := if pri =? 7 then 0xff else pri.

(** The most favoured priority of the sources that are raised, and the first source
    that has it. *)
Fixpoint max_pri (ps : list Z) (ls : list bool) : Z :=
  match ps, ls with
  | p :: ps, l :: ls => if (l : bool) then Z.min p (max_pri ps ls) else max_pri ps ls
  | _, _ => 7
  end.

Fixpoint max_idx (i : Z) (pri : Z) (ps : list Z) (ls : list bool) : Z :=
  match ps, ls with
  | p :: ps, l :: ls => if l && (p =? pri) then i else max_idx (i + 1) pri ps ls
  | _, _ => 15
  end.

Definition ics_out (x : xics) : Z * Z :=
  let pri := max_pri (xives x) (levels x) in
  (max_idx 0 pri (xives x) (levels x), prio_unpack pri).

(** What is presented: the source number (XISR), and its priority. *)
Definition presented (x : xics) : Z * Z :=
  let '(src, pri) := ics_out x in
  let '(xisr, pending) := if negb (pri =? 0xff) then (16 + src, pri) else (0, 0xff) in
  if mfrr x <? pending then (2, mfrr x) else (xisr, pending).

Definition irq (x : xics) : bool := snd (presented x) <? cppr x.

(** A word in the order of the bus, and in the order of the registers. *)
Definition bswap32 (v : Z) : Z := le_combine (rev (le_split 4 v)).

Definition set_cppr (v : Z) (x : xics) : xics := Xics v (mfrr x) (xives x) (levels x).
Definition set_mfrr (v : Z) (x : xics) : xics := Xics (cppr x) v (xives x) (levels x).
Definition set_level (i : nat) (b : bool) (x : xics) : xics := Xics (cppr x) (mfrr x) (xives x) (<[i := b]> (levels x)).

(** The register of the presenter at an offset: four words for each core, of which
    there is one, and the upper bits of the offset are not decoded. *)
Definition icp_reg (off : Z) : option Z :=
  if Z.land (Z.shiftr off 4) 0xf =? 0 then Some (Z.land off 0xc) else None.

(** CPPR and MFRR are the high byte of a word; a load of all four bytes of XIRR
    accepts the interrupt. *)
Definition icp_load (n : nat) (off : Z) (x : xics) : Z * xics :=
  let xirr := Z.lor (Z.shiftl (cppr x) 24) (fst (presented x)) in
  match icp_reg off with
  | Some 0x0 => (bswap32 xirr, x)
  | Some 0x4 => (bswap32 xirr, if (n =? 4)%nat then set_cppr (snd (presented x)) x else x)
  | Some 0xc => (bswap32 (Z.shiftl (mfrr x) 24), x)
  | _ => (0, x)
  end.

Definition icp_store (off v : Z) (x : xics) : xics :=
  let b := Z.shiftr (bswap32 v) 24 in
  match icp_reg off with
  | Some 0x0 | Some 0x4 => set_cppr b x
  | Some 0xc => set_mfrr b x
  | _ => x
  end.

(** The registers of the sources, from 0x800 on; the number of sources and of bits of
    priority at 0, and what the sources present at 4.  With one core every source is
    directed to it. *)
Definition ics_load (off : Z) (x : xics) : Z :=
  if Z.testbit off 11 then
    let i := Z.to_nat (Z.land (Z.shiftr off 2) 0xf) in
    let l := Z.b2z (default false (levels x !! i)) in
    bswap32 (Z.lor (Z.lor (Z.shiftl l 31) (Z.shiftl l 29)) (prio_unpack (default 7 (xives x !! i))))
  else if Z.shiftr off 2 =? 0 then bswap32 (Z.lor (Z.shiftl 3 24) 16)
  else if Z.shiftr off 2 =? 1 then let '(src, pri) := ics_out x in bswap32 (Z.lor (Z.shiftl src 16) pri)
  else 0.

(** A store of a word; a byte at the offset of a word is not its priority. *)
Definition ics_store (n : nat) (off v : Z) (x : xics) : xics :=
  if Z.testbit off 11 && (n =? 4)%nat then
    let i := Z.to_nat (Z.land (Z.shiftr off 2) 0xf) in
    Xics (cppr x) (mfrr x) (<[i := prio_pack (Z.land (bswap32 v) 0xff)]> (xives x)) (levels x)
  else x.

(** The devices of the test: the controller, and the UART for its interrupt line. *)
Definition uart_off (addr : Z) (u : uart_state) : option Z :=
  if (uart_base u <=? addr) && (addr <? uart_base u + 0x1000) then Some (addr - uart_base u) else None.

Definition uart_irq_line (u : uart_state) (off v : Z) : option bool :=
  if uart_is_std u then if off =? UART_REG_IER then Some (tst v UART_REG_IER_THRI) else None
  else if off =? POTATO_CONSOLE_IRQ_EN then Some (tst v POTATO_CONSOLE_IRQ_TX) else None.

Definition xics_bus (u : uart_state) : Bus xics := {|
  bus_load n addr x :=
    if (XICS_ICP_BASE <=? addr) && (addr <? XICS_ICP_BASE + 0x1000) then icp_load n (addr - XICS_ICP_BASE) x
    else if (XICS_ICS_BASE <=? addr) && (addr <? XICS_ICS_BASE + 0x1000) then (ics_load (addr - XICS_ICS_BASE) x, x)
    else (0, x);
  bus_store n addr v x :=
    if (XICS_ICP_BASE <=? addr) && (addr <? XICS_ICP_BASE + 0x1000) then icp_store (addr - XICS_ICP_BASE) v x
    else if (XICS_ICS_BASE <=? addr) && (addr <? XICS_ICS_BASE + 0x1000) then ics_store n (addr - XICS_ICS_BASE) v x
    else match uart_off addr u with
         | Some off => match uart_irq_line u off v with Some b => set_level 0 b x | None => x end
         | None => x
         end;
|}.

(** ** xics.h *)

Definition XICS_XIRR_POLL : Z := 0x0.
Definition XICS_XIRR : Z := 0x4.
Definition XICS_MFRR : Z := 0xc.

Section program.
Context (u : uart_state).
#[local] Instance test_bus : Bus xics := xics_bus u.

(** The machine, the variables of the program, whether interrupts are enabled
    (MSR[EE]), and what has been printed. *)
Record xstate := XState {
  xm : machine xics;
  isrs_run : Z;
  ipi_running : bool;
  v0 : Z;
  v1 : Z;
  ee : bool;
  out : list Z;
}.
Abbreviation MX := (M xstate).

Definition io {A} (p : M (machine xics) A) : MX A :=
  zoom xm (λ m s, XState m (isrs_run s) (ipi_running s) (v0 s) (v1 s) (ee s) (out s)) p.

Definition icp_read8 (offset : Z) : MX Z := io (readb (XICS_ICP_BASE + offset)).
Definition icp_write8 (offset val : Z) : MX unit := io (writeb val (XICS_ICP_BASE + offset)).
Definition icp_read32 (offset : Z) : MX Z := v ← io (readl (XICS_ICP_BASE + offset)); mret (bswap32 v).
Definition icp_write32 (offset val : Z) : MX unit := io (writel (bswap32 val) (XICS_ICP_BASE + offset)).
Definition ics_read_xive (irq : Z) : MX Z :=
  v ← io (readl (XICS_ICS_BASE + 0x800 + Z.shiftl irq 2)); mret (bswap32 v).
Definition ics_write_xive (val irq : Z) : MX unit :=
  io (writel (bswap32 val) (XICS_ICS_BASE + 0x800 + Z.shiftl irq 2)).

(** ** xics.c *)

Definition set_isrs (v : Z) : MX unit :=
  modify (λ s, XState (xm s) v (ipi_running s) (v0 s) (v1 s) (ee s) (out s)).
Definition set_running (b : bool) : MX unit :=
  modify (λ s, XState (xm s) (isrs_run s) b (v0 s) (v1 s) (ee s) (out s)).
Definition set_v0 (v : Z) : MX unit :=
  modify (λ s, XState (xm s) (isrs_run s) (ipi_running s) v (v1 s) (ee s) (out s)).
Definition set_v1 (v : Z) : MX unit :=
  modify (λ s, XState (xm s) (isrs_run s) (ipi_running s) (v0 s) v (ee s) (out s)).
Definition set_ee (b : bool) : MX unit :=
  modify (λ s, XState (xm s) (isrs_run s) (ipi_running s) (v0 s) (v1 s) b (out s)).
Definition puts_out (str : list Z) : MX unit :=
  modify (λ s, XState (xm s) (isrs_run s) (ipi_running s) (v0 s) (v1 s) (ee s) (out s ++ str)).

(** [for (m = 0; m < 10; m++)]: a digit per iteration, from the left. *)
Fixpoint print_number_loop (n : nat) (i k : Z) (zeros : bool) : list Z :=
  match n with
  | O => []
  | S n =>
      let j := i `div` k in
      let zeros := zeros || (n =? 0)%nat in
      if zeros || negb (j =? 0) then u8 (48 + j) :: print_number_loop n (i `mod` k) (k `div` 10) true
      else print_number_loop n (i `mod` k) (k `div` 10) zeros
  end.
Definition print_number (i : Z) : list Z := print_number_loop 10 i 1000000000 false.

(** [assert]: the message, and the program stops. *)
Definition assert (cond : bool) (line : Z) (func : String.string) : MX unit :=
  if cond then mret tt else
  puts_out (lit "xics.c:" ++ print_number line ++ [58] ++ lit func ++ lit "() ASSERT_FAILURE!" ++ [13; 10; 32]);;
  exit_ line.

Definition ISR_IPI : Z := 1.
Definition ISR_UART : Z := 2.
Definition ISR_SPURIOUS : Z := 4.

Definition ipi_isr : MX unit :=
  s ← get; set_isrs (Z.lor (isrs_run s) ISR_IPI);;
  icp_write8 XICS_MFRR 0xff.

Definition uart_isr : MX unit :=
  io (console_set_irq_en u false false);;
  s ← get; set_isrs (Z.lor (isrs_run s) ISR_UART).

Definition spurious_isr : MX unit :=
  s ← get; set_isrs (Z.lor (isrs_run s) ISR_SPURIOUS).

Definition isr_table : list (MX unit * Z) := [(ipi_isr, 2); (uart_isr, 16); (spurious_isr, 0)].

(** [while (1)] over the table, which ends with a null function. *)
Fixpoint isr_dispatch (table : list (MX unit * Z)) (xirr : Z) : MX unit :=
  match table with
  | [] => assert false 138 "isr"
  | (func, source_id) :: table =>
      if source_id =? Z.land xirr 0x00ffffff then func else isr_dispatch table xirr
  end.

Definition isr : MX unit :=
  s ← get;
  assert (negb (ipi_running s)) 121 "isr";;
  set_running true;;
  xirr ← icp_read32 XICS_XIRR;
  isr_dispatch isr_table xirr;;
  icp_write32 XICS_XIRR xirr;;
  set_running false.

(** The core takes the interrupt: EE is cleared, [__isr] calls the handler, and [rfid]
    restores EE; the registers are those of [IsrEntry]. *)
Definition take_irq : MX unit := set_ee false;; isr;; set_ee true.

(** ** The tests *)

(** A statement of a test: code with one access at most, or [delay], which counts to
    16 in a variable nothing else uses. *)
Inductive stmt := Do (p : MX unit) | Delay.

Definition assert_isrs (v line : Z) (func : String.string) : stmt :=
  Do (s ← get; assert (isrs_run s =? v) line func).

(** The conditions of the assertions assign: their values are constants. *)
Definition assert_v0 (v line : Z) : stmt := Do (set_v0 v;; assert (negb (v =? 0)) line "xics_test_0").
Definition assert_v1 (v line : Z) : stmt := Do (set_v1 v;; assert (negb (v =? 0)) line "xics_test_0").
Definition read_v0 : stmt := Do (v ← ics_read_xive 0; set_v0 v).
Definition read_v1 : stmt := Do (v ← ics_read_xive 1; set_v1 v).

Definition xics_test_0 : list stmt :=
  [read_v0; read_v1; assert_v0 0xff 168; assert_v1 0xff 169;
   Do (ics_write_xive 0xa 0); Do (ics_write_xive 0x5 1);
   read_v0; read_v1; assert_v0 0xa 184; assert_v1 0x5 185;
   Do (ics_write_xive 0xff 0); Do (ics_write_xive 0xff 1);
   read_v0; read_v1; assert_v0 0xff 191; assert_v1 0xff 192].

(** [cleanup] is the call that ends the use of the UART interrupt. *)
Definition xics_test_1_with (cleanup : MX unit) : list stmt :=
  [Do (icp_write8 XICS_XIRR 0x00); Do (set_isrs 0); Do (icp_write8 XICS_XIRR 0x00);
   Do (io (console_set_irq_en u true true)); Do (ics_write_xive 0x6 0); Do (icp_write8 XICS_MFRR 0x04);
   Delay; assert_isrs 0 211 "xics_test_1";
   Do (icp_write8 XICS_XIRR 0x6);
   Delay; assert_isrs ISR_IPI 216 "xics_test_1";
   Do (icp_write8 XICS_XIRR 0x7);
   Delay; assert_isrs (Z.lor ISR_IPI ISR_UART) 221 "xics_test_1";
   Do (icp_write8 XICS_XIRR 0x00); Do (io (console_set_irq_en u false false)); Do cleanup; Do (set_isrs 0)].
Definition xics_test_1 : list stmt := xics_test_1_with (ics_write_xive 0 0xff).

Definition xics_test_2 : list stmt :=
  [Do (icp_write8 XICS_XIRR 0x00); Do (set_isrs 0); Do (icp_write8 XICS_XIRR 0xff);
   Delay; assert_isrs 0 242 "xics_test_2";
   Do (io (console_set_irq_en u true true)); Do (icp_write8 XICS_MFRR 0x05);
   Delay; assert_isrs (Z.lor ISR_IPI ISR_UART) 249 "xics_test_2";
   Do (icp_write8 XICS_XIRR 0x00); Do (io (console_set_irq_en u false false)); Do (set_isrs 0)].

Definition mtmsrd (val : Z) : MX unit := set_ee (Z.testbit val 15).

Definition xics_test_3 : list stmt :=
  [Do (icp_write8 XICS_XIRR 0x00); Do (set_isrs 0);
   Do (mtmsrd 0x9000000000000003);
   Do (icp_write8 XICS_XIRR 0xff); Do (icp_write8 XICS_MFRR 0x05);
   Delay; assert_isrs 0 279 "xics_test_3";
   Do (mtmsrd 0x9000000000008003);
   Delay; assert_isrs ISR_IPI 283 "xics_test_3";
   Do (icp_write8 XICS_XIRR 0x00); Do (set_isrs 0)].

(** [main] after [console_init]: every test returns 0. *)
Definition run_test (i : Z) (t : list stmt) : list stmt :=
  Do (puts_out (lit "Test " ++ print_number i ++ [58])) :: t ++ [Do (puts_out (lit "PASS" ++ [13; 10]))].

Definition xics_main_with (cleanup : MX unit) : list stmt :=
  Do (set_running false) :: run_test 0 xics_test_0 ++ run_test 1 (xics_test_1_with cleanup) ++
  run_test 2 xics_test_2 ++ run_test 3 xics_test_3.
Definition xics_main : list stmt := xics_main_with (ics_write_xive 0 0xff).

(** ** Executions *)

(** The rest of the program and the state; or the program has stopped. *)
Inductive config := Running (l : list stmt) (s : xstate) | Stopped (line : Z) (s : xstate).

Definition irq_taken (s : xstate) : bool := ee s && irq (dev (xm s)).

Definition after (l : list stmt) (r : outcome xstate unit) : option config :=
  match r with
  | Ret _ s => Some (Running l s)
  | Exit line s => Some (Stopped line s)
  | Stuck | OutOfFuel => None
  end.

(** A step is a statement, or an interrupt when one is pending and enabled.  Sixteen
    iterations of a loop may or may not be long enough for an interrupt to arrive. *)
Inductive step : config → config → Prop :=
  | step_do p l s c : after l (p s) = Some c → step (Running (Do p :: l) s) c
  | step_delay l s : step (Running (Delay :: l) s) (Running l s)
  | step_irq l s c : irq_taken s = true → after l (take_irq s) = Some c → step (Running l s) c.

(** The core is prompt: a delay is long enough for the interrupts that are pending and
    enabled to be taken.  In other statements they are still taken at any time. *)
Inductive prompt_step : config → config → Prop :=
  | prompt_do p l s c : after l (p s) = Some c → prompt_step (Running (Do p :: l) s) c
  | prompt_delay l s : irq_taken s = false → prompt_step (Running (Delay :: l) s) (Running l s)
  | prompt_irq l s c : irq_taken s = true → after l (take_irq s) = Some c → prompt_step (Running l s) c.

Lemma prompt_step_step c c' : prompt_step c c' → step c c'.
Proof. destruct 1; by econstructor. Qed.
End program.
