(* ===== verification/XicsSpec.v ===== *)
(** * Interrupts at any time

    Executions of the interrupt test are sequences of steps; [safe] explores all that
    are prompt, and [follow] follows one.  What the handler does to the controller, for
    every state of it. *)
From S2P Require Import Prelude CMem Soc Io Console Xics.

Section executions.
Context (u : uart_state) (stop_ok : Z → bool) (end_ok : xstate → bool).
Abbreviation step := (step u).
Abbreviation prompt_step := (prompt_step u).

(** The program has not stopped, or reached its end, where it should not. *)
Definition good (c : config) : bool :=
  match c with
  | Stopped line _ => stop_ok line
  | Running [] s => end_ok s
  | Running _ _ => true
  end.

(** Every prompt execution is good and takes at most [fuel] steps. *)
Fixpoint safe (fuel : nat) (c : config) : bool :=
  good c &&
  match c with
  | Stopped _ _ => true
  | Running l s =>
      match fuel with
      | O => false
      | S fuel =>
          (if irq_taken s then from_option (safe fuel) false (after l (take_irq u s)) else true) &&
          match l with
          | [] => true
          | Do p :: l => from_option (safe fuel) false (after l (p s))
          | Delay :: l => if irq_taken s then true else safe fuel (Running l s)
          end
      end
  end.

Lemma safe_step fuel c c' : safe fuel c = true → prompt_step c c' → ∃ f, fuel = S f ∧ safe f c' = true.
Proof.
  intros Hs Hst. destruct Hst as [p l s c' Ha|l s Hi|l s c' Hi Ha]; destruct fuel as [|fuel]; cbn [safe] in Hs;
    rewrite ?andb_false_r in Hs; try done; exists fuel; (split; [done|]).
  - apply andb_true_iff in Hs as [_ Hs]. apply andb_true_iff in Hs as [_ Hs]. by rewrite Ha in Hs.
  - rewrite Hi in Hs. by apply andb_true_iff in Hs as [_ Hs].
  - rewrite Hi in Hs. apply andb_true_iff in Hs as [_ Hs]. apply andb_true_iff in Hs as [Hs _]. by rewrite Ha in Hs.
Qed.

Lemma safe_good fuel c : safe fuel c = true → good c = true.
Proof. destruct fuel; cbn [safe]; intros H; by apply andb_true_iff in H as [? _]. Qed.

(** A good program that is not at its end goes on. *)
Lemma safe_progress fuel l s : safe fuel (Running l s) = true → l ≠ [] → ∃ c, prompt_step (Running l s) c.
Proof.
  destruct fuel as [|fuel]; cbn [safe]; [by rewrite andb_false_r|]. intros H Hl.
  apply andb_true_iff in H as [_ H]. apply andb_true_iff in H as [Hi H].
  destruct l as [|[p|] l]; [done| |].
  - destruct (after l (p s)) as [c|] eqn:E; [|done]. exists c. by constructor.
  - destruct (irq_taken s) eqn:E; [|eexists; by constructor].
    destruct (after (Delay :: l) (take_irq u s)) as [c|] eqn:Ea; [|done]. exists c. by apply prompt_irq.
Qed.

Lemma safe_steps fuel c n c' : safe fuel c = true → nsteps prompt_step n c c' →
  (n ≤ fuel)%nat ∧ safe (fuel - n) c' = true.
Proof.
  revert fuel c. induction n as [|n IH]; intros fuel c Hs Hn; inversion Hn; subst.
  - by rewrite Nat.sub_0_r; split; [lia|].
  - match goal with H1 : prompt_step c ?y, H2 : nsteps _ n ?y c' |- _ => destruct (safe_step _ _ _ Hs H1) as (f & -> & Hf);
      destruct (IH _ _ Hf H2) end.
    split; [lia|done].
Qed.

(** What a safe program does, step by step. *)
Lemma safe_execution fuel c n c' : safe fuel c = true → nsteps prompt_step n c c' →
  (n ≤ fuel)%nat ∧
  match c' with
  | Running [] s => end_ok s = true
  | Running _ _ => ∃ c'', prompt_step c' c''
  | Stopped line _ => stop_ok line = true
  end.
Proof.
  intros Hs Hn. destruct (safe_steps _ _ _ _ Hs Hn) as [Hle Hc]. split; [done|].
  pose proof (safe_good _ _ Hc) as Hg. destruct c' as [[|st l] s|line s]; [done|by eapply safe_progress|done].
Qed.

(** The execution that takes every interrupt at once, or ([lazy]) none. *)
Fixpoint follow (lazy : bool) (fuel : nat) (c : config) : config :=
  match fuel, c with
  | S fuel, Running l s =>
      let next := if negb lazy && irq_taken s then after l (take_irq u s)
                  else match l with
                       | [] => None
                       | Do p :: l => after l (p s)
                       | Delay :: l => Some (Running l s)
                       end in
      from_option (follow lazy fuel) c next
  | _, _ => c
  end.

Lemma follow_steps lazy fuel c : rtc step c (follow lazy fuel c).
Proof.
  revert c. induction fuel as [|fuel IH]; intros [l s|line s]; cbn [follow]; try reflexivity.
  destruct (negb lazy && irq_taken s) eqn:Hi.
  - apply andb_true_iff in Hi as [_ Hi].
    destruct (after l (take_irq u s)) as [c|] eqn:E; cbn [from_option]; [|reflexivity].
    eapply rtc_l; [by apply step_irq|apply IH].
  - destruct l as [|[p|] l]; cbn [from_option]; [reflexivity| |].
    + destruct (after l (p s)) as [c|] eqn:E; cbn [from_option]; [|reflexivity].
      eapply rtc_l; [by apply step_do|apply IH].
    + eapply rtc_l; [by apply step_delay|apply IH].
Qed.

Lemma follow_prompt fuel c : rtc prompt_step c (follow false fuel c).
Proof.
  revert c. induction fuel as [|fuel IH]; intros [l s|line s]; cbn [follow negb andb]; try reflexivity.
  destruct (irq_taken s) eqn:Hi.
  - destruct (after l (take_irq u s)) as [c|] eqn:E; cbn [from_option]; [|reflexivity].
    eapply rtc_l; [by apply prompt_irq|apply IH].
  - destruct l as [|[p|] l]; cbn [from_option]; [reflexivity| |].
    + destruct (after l (p s)) as [c|] eqn:E; cbn [from_option]; [|reflexivity].
      eapply rtc_l; [by apply prompt_do|apply IH].
    + eapply rtc_l; [by apply prompt_delay|apply IH].
Qed.
End executions.

Definition xics_start : xstate := XState (Machine ∅ xics_reset []) 0 false 0 0 true [].
Definition uart_of (std : bool) : uart_state := {| uart_is_std := std; uart_base := UART_BASE |}.
Definition expected_out : list Z := concat ((λ i, lit "Test " ++ [48 + i; 58] ++ lit "PASS" ++ [13; 10]) <$> [0; 1; 2; 3]).

(** ** The most favoured interrupt *)

(** The registers hold bytes, and the priorities three bits. *)
Record xics_ok (x : xics) : Prop := {
  xo_cppr : 0 ≤ cppr x < 256;
  xo_mfrr : 0 ≤ mfrr x < 256;
  xo_xives : Forall (λ p, 0 ≤ p ≤ 7) (xives x);
  xo_length : length (xives x) = 16%nat ∧ length (levels x) = 16%nat;
}.

(** An interrupt is pending: the one of MFRR, or one of a source that is raised and
    not masked. *)
Definition pending (x : xics) (src p : Z) : Prop :=
  (src = 2 ∧ p = mfrr x ∧ p < 0xff) ∨
  ∃ i : nat, src = 16 + Z.of_nat i ∧ levels x !! i = Some true ∧ xives x !! i = Some p ∧ p < 7.

Lemma max_pri_le ps ls : max_pri ps ls ≤ 7.
Proof. revert ls. induction ps as [|p ps IH]; intros [|[] ls]; cbn [max_pri]; try lia; specialize (IH ls); lia. Qed.

Lemma max_pri_lower ps ls i p : ls !! i = Some true → ps !! i = Some p → max_pri ps ls ≤ p.
Proof.
  revert ls i. induction ps as [|q ps IH]; intros [|l ls] [|i] Hl Hp; cbn in *; simplify_eq; try lia.
  specialize (IH _ _ Hl Hp). destruct l; lia.
Qed.

(** The encoder finds a source that has the priority. *)
Lemma max_idx_ok ps ls k : max_pri ps ls < 7 →
  ∃ i : nat, max_idx k (max_pri ps ls) ps ls = k + Z.of_nat i ∧ ls !! i = Some true ∧ ps !! i = Some (max_pri ps ls).
Proof.
  intros Hlt. assert (∀ q, q < 7 → q = max_pri ps ls → ∃ i : nat, max_idx k q ps ls = k + Z.of_nat i ∧ ls !! i = Some true ∧ ps !! i = Some q) as H.
  { clear Hlt. intros q Hq. revert ls k. induction ps as [|p ps IH]; intros [|l ls] k; cbn [max_pri]; intros E; try lia.
    cbn [max_idx]. destruct (l && (p =? q)) eqn:Eb.
    - apply andb_true_iff in Eb as [-> ->%Z.eqb_eq]. exists 0%nat. split; [lia|done].
    - assert (q = max_pri ps ls) as E'.
      { destruct l; [|done]. cbn [andb] in Eb. apply Z.eqb_neq in Eb. lia. }
      destruct (IH ls (k + 1) E') as (i & Hi & Hl & Hp). exists (S i). split; [lia|done]. }
  by apply H.
Qed.

Lemma presented_ok x : xics_ok x →
  (snd (presented x) = 0xff ∧ fst (presented x) = 0 ∧ ∀ src p, ~ pending x src p) ∨
  (pending x (fst (presented x)) (snd (presented x)) ∧ ∀ src p, pending x src p → snd (presented x) ≤ p).
Proof.
  intros [Hc Hm Hx Hl]. unfold presented, ics_out. set (pri := max_pri (xives x) (levels x)).
  pose proof (max_pri_le (xives x) (levels x)) as Hle. fold pri in Hle.
  assert (∀ (i : nat) p, levels x !! i = Some true → xives x !! i = Some p → pri ≤ p) as Hlow by (intros i p; apply max_pri_lower).
  unfold prio_unpack. destruct (Z.eqb_spec pri 7) as [E7|Hne].
  - cbn [negb Z.eqb Pos.eqb]. destruct (Z.ltb_spec (mfrr x) 0xff) as [Hlt|Hge]; cbn [fst snd].
    + right. split; [by left|]. intros src p [(-> & -> & _)|(i & -> & H1 & H2 & H3)]; [lia|]. specialize (Hlow _ _ H1 H2). lia.
    + left. split_and!; [done|done|]. intros src p [(-> & -> & ?)|(i & -> & H1 & H2 & H3)]; [lia|]. specialize (Hlow _ _ H1 H2). lia.
  - rewrite (proj2 (Z.eqb_neq pri 0xff)) by lia. cbn [negb].
    destruct (max_idx_ok (xives x) (levels x) 0) as (i & Hi & Hli & Hpi); [fold pri; lia|]. fold pri in Hi, Hpi.
    right. destruct (Z.ltb_spec (mfrr x) pri) as [Hlt|Hge]; cbn [fst snd].
    + split; [left; split_and!; [done|done|lia]|]. intros src p [(-> & -> & ?)|(i' & -> & H1 & H2 & H3)]; [lia|].
      specialize (Hlow _ _ H1 H2). lia.
    + split; [right; exists i; split_and!; [lia|done|done|lia]|].
      intros src p [(-> & -> & ?)|(i' & -> & H1 & H2 & H3)]; [lia|]. by apply (Hlow i').
Qed.

Lemma presented_range x : xics_ok x → 0 ≤ fst (presented x) < 32 ∧ 0 ≤ snd (presented x) < 256.
Proof.
  intros Hx. destruct (presented_ok x Hx) as [(-> & -> & _)|[[(-> & -> & _)|(i & -> & Hl & Hp & _)] _]].
  - lia.
  - split; [lia|apply Hx].
  - pose proof (xo_length _ Hx) as [_ Hlen]. apply lookup_lt_Some in Hl. split; [lia|].
    pose proof (proj1 (Forall_lookup _ _) (xo_xives _ Hx) _ _ Hp) as H. cbn beta in H. lia.
Qed.

(** ** Every state of the controller *)

(** The accesses are words, or the bytes at their offsets. *)
Definition word_access (n : nat) (addr : Z) : Prop := (n = 1%nat ∨ n = 4%nat) ∧ (4 | addr).

(** What such accesses, and the lines of the sources, can make of the controller
    after its reset. *)
Inductive xics_reach (u : uart_state) : xics → Prop :=
  | reach_reset : xics_reach u xics_reset
  | reach_load n addr x : word_access n addr → xics_reach u x → xics_reach u (snd (bus_load (Bus := xics_bus u) n addr x))
  | reach_store n addr v x : word_access n addr → xics_reach u x → xics_reach u (bus_store (Bus := xics_bus u) n addr v x)
  | reach_line i b x : xics_reach u x → xics_reach u (set_level i b x).

Lemma bswap32_range v : 0 ≤ bswap32 v < 2 ^ 32.
Proof.
  unfold bswap32. assert (bytes (rev (le_split 4 v))) as Hb by apply Forall_rev, le_split_bytes.
  pose proof (le_combine_range _ Hb) as H. rewrite length_rev, length_le_split in H. done.
Qed.

Lemma set_cppr_ok v x : 0 ≤ v < 256 → xics_ok x → xics_ok (set_cppr v x).
Proof. intros Hv []. by constructor. Qed.

Lemma set_mfrr_ok v x : 0 ≤ v < 256 → xics_ok x → xics_ok (set_mfrr v x).
Proof. intros Hv []. by constructor. Qed.

Lemma set_level_ok i b x : xics_ok x → xics_ok (set_level i b x).
Proof. intros []. constructor; try done. cbn. by rewrite length_insert. Qed.

Lemma icp_store_ok off v x : xics_ok x → xics_ok (icp_store off v x).
Proof.
  intros Hx. unfold icp_store. pose proof (bswap32_range v) as Hv.
  assert (0 ≤ Z.shiftr (bswap32 v) 24 < 256) by (rewrite Z.shiftr_div_pow2 by lia; split; [apply Z.div_pos|apply Z.div_lt_upper_bound]; lia).
  repeat case_match; auto using set_cppr_ok, set_mfrr_ok.
Qed.

Lemma icp_load_ok n off x : xics_ok x → xics_ok (snd (icp_load n off x)).
Proof.
  intros Hx. unfold icp_load. repeat case_match; cbn [snd]; try done.
  by apply set_cppr_ok; [apply presented_range|].
Qed.

Lemma ics_store_ok n off v x : xics_ok x → xics_ok (ics_store n off v x).
Proof.
  intros Hx. unfold ics_store. case_match; [|done]. destruct Hx as [H1 H2 H3 H4]. constructor; cbn [cppr mfrr xives levels]; try done.
  - apply Forall_insert; [done|]. change 0xff with (Z.ones 8). rewrite Z.land_ones by lia. unfold prio_pack.
    pose proof (Z.mod_pos_bound (bswap32 v) (2 ^ 8) eq_refl).
    cbn beta. destruct (Z.leb_spec 7 (bswap32 v `mod` 2 ^ 8)); lia.
  - by rewrite length_insert.
Qed.

Lemma xics_reach_ok u x : xics_reach u x → xics_ok x.
Proof.
  induction 1 as [|n addr x _ _ IH|n addr v x _ _ IH|i b x _ IH]; [|cbn..|by apply set_level_ok].
  - constructor; cbn [cppr mfrr xives levels xics_reset]; try lia; [|done]. by apply Forall_replicate.
  - repeat case_match; try done. by apply icp_load_ok.
  - repeat case_match; auto using icp_store_ok, ics_store_ok, set_level_ok.
Qed.

(** ** The handler *)

Lemma bswap32_twice v : 0 ≤ v < 2 ^ 32 → bswap32 (u32 (bswap32 v)) = v.
Proof.
  intros Hv. rewrite (wrap_small 32) by apply bswap32_range. unfold bswap32.
  rewrite (le_split_combine_n 4); [|apply Forall_rev, le_split_bytes|by rewrite length_rev, length_le_split].
  rewrite rev_involutive, (le_combine_split 4). apply wrap_small. done.
Qed.

(** The word of XIRR and its two parts. *)
Lemma xirr_parts c src : 0 ≤ c < 256 → 0 ≤ src < 32 →
  let v := Z.lor (Z.shiftl c 24) src in
  0 ≤ v < 2 ^ 32 ∧ Z.land v 0x00ffffff = src ∧ Z.shiftr v 24 = c.
Proof.
  intros Hc Hs v. assert (v = src + c * 2 ^ 24) as ->.
  { unfold v. rewrite Z.lor_comm, lor_shiftl_add by lia. lia. }
  split; [lia|]. change 0x00ffffff with (Z.ones 24). rewrite Z.land_ones, Z.shiftr_div_pow2 by lia. split.
  - by rewrite Z.mod_add, Z.mod_small by lia.
  - rewrite Z.div_add, Z.div_small by lia. lia.
Qed.

Section handler.
Context (u : uart_state).
Hypothesis base_ok : uart_base u = UART_BASE.

Definition with_dev (s : xstate) (x : xics) (ev : list io_event) (isrs : Z) (running : bool) (e : bool) : xstate :=
  XState (Machine (ram (xm s)) x (io_trace (xm s) ++ ev)) isrs running (v0 s) (v1 s) e (out s).

Definition with_io (s : xstate) (x : xics) (ev : list io_event) : xstate :=
  with_dev s x ev (isrs_run s) (ipi_running s) (ee s).

(** The four accesses of the handler. *)
Lemma read_xirr s : xics_ok (dev (xm s)) →
  let x := dev (xm s) in
  ∃ ev, icp_read32 u XICS_XIRR s =
    Ret (Z.lor (Z.shiftl (cppr x) 24) (fst (presented x))) (with_io s (set_cppr (snd (presented x)) x) ev).
Proof.
  intros Hx x. destruct (presented_range x Hx) as [Hsrc Hpri].
  destruct (xirr_parts (cppr x) (fst (presented x)) (xo_cppr _ Hx) Hsrc) as (Hv & _ & _).
  set (v := Z.lor (Z.shiftl (cppr x) 24) (fst (presented x))) in *. eexists.
  unfold icp_read32, mbind, M_bind, io, zoom, readl, io_load.
  change (bus_load 4 (XICS_ICP_BASE + XICS_XIRR) (dev (xm s))) with (bswap32 v, set_cppr (snd (presented x)) x).
  cbv beta iota zeta. cbn [mret M_ret]. change (wrap (8 * Z.of_nat 4) (bswap32 v)) with (u32 (bswap32 v)).
  by rewrite bswap32_twice by done.
Qed.

Lemma write_xirr v s : 0 ≤ v < 2 ^ 32 →
  ∃ ev, icp_write32 u XICS_XIRR v s = Ret tt (with_io s (set_cppr (Z.shiftr v 24) (dev (xm s))) ev).
Proof.
  intros Hv. eexists. unfold icp_write32, io, zoom, writel, io_store.
  change (wrap (8 * Z.of_nat 4) (bswap32 v)) with (u32 (bswap32 v)).
  change (bus_store 4 (XICS_ICP_BASE + XICS_XIRR) (u32 (bswap32 v)) (dev (xm s)))
    with (set_cppr (Z.shiftr (bswap32 (u32 (bswap32 v))) 24) (dev (xm s))).
  by rewrite bswap32_twice by done.
Qed.

Lemma clear_mfrr s : ∃ ev, icp_write8 u XICS_MFRR 0xff s = Ret tt (with_io s (set_mfrr 0xff (dev (xm s))) ev).
Proof. eexists. reflexivity. Qed.

Lemma quiet_uart s :
  ∃ ev, io (console_set_irq_en (Bus0 := test_bus u) u false false) s = Ret tt (with_io s (set_level 0 false (dev (xm s))) ev).
Proof using base_ok.
  destruct u as [std base]. cbn [uart_base] in base_ok. subst base. destruct std; eexists; reflexivity.
Qed.

(** What the handler does about the interrupt that is presented, or nothing when the
    table has no entry for it. *)
Definition served (x : xics) (isrs : Z) : option (xics * Z) :=
  match fst (presented x) with
  | 2 => Some (set_mfrr 0xff x, Z.lor isrs ISR_IPI)
  | 16 => Some (set_level 0 false x, Z.lor isrs ISR_UART)
  | 0 => Some (x, Z.lor isrs ISR_SPURIOUS)
  | _ => None
  end.

Lemma take_irq_ok s : xics_ok (dev (xm s)) → ipi_running s = false →
  match served (dev (xm s)) (isrs_run s) with
  | Some (x, isrs) => ∃ ev, take_irq u s = Ret tt (with_dev s x ev isrs false true)
  | None => ∃ s', take_irq u s = Exit 138 s'
  end.
Proof.
  intros Hx Hr. set (x := dev (xm s)) in *. destruct (presented_range x Hx) as [Hsrc Hpri].
  destruct (xirr_parts (cppr x) (fst (presented x)) (xo_cppr _ Hx) Hsrc) as (Hv & Hlow & Hhigh).
  set (v := Z.lor (Z.shiftl (cppr x) 24) (fst (presented x))) in *.
  set (s1 := XState (xm s) (isrs_run s) true (v0 s) (v1 s) false (out s)).
  destruct (read_xirr s1 Hx) as (ev1 & H1). cbn [xm s1] in H1. fold x v in H1.
  set (s2 := with_io s1 (set_cppr (snd (presented x)) x) ev1) in H1.
  assert (take_irq u s = (isr_dispatch (isr_table u) v;; icp_write32 u XICS_XIRR v;; set_running false;; set_ee true) s2) as ->.
  { unfold take_irq, isr, mbind, M_bind. cbn [set_ee modify get]. rewrite Hr.
    cbn [negb assert mret M_ret set_running modify xm isrs_run v0 v1 ee out ipi_running]. fold s1. rewrite H1.
    by destruct (isr_dispatch _ _ s2) as [[] s3| | |]. }
  assert (∀ (p : M xstate unit) x3 isrs, cppr x3 = cppr x →
    (∃ ev, p s2 = Ret tt (with_dev s (set_cppr (snd (presented x)) x3) ev isrs true false)) →
    ∃ ev, (p;; icp_write32 u XICS_XIRR v;; set_running false;; set_ee true) s2 = Ret tt (with_dev s x3 ev isrs false true)) as Hend.
  { intros p x3 isrs Hc3 [ev E]. unfold mbind, M_bind. rewrite E.
    destruct (write_xirr v (with_dev s (set_cppr (snd (presented x)) x3) ev isrs true false) Hv) as (ev2 & ->).
    rewrite Hhigh, <-Hc3. exists (ev ++ ev2). unfold with_io, with_dev. cbn. rewrite <-app_assoc. by destruct x3. }
  unfold served, isr_table, isr_dispatch. rewrite Hlow.
  destruct (Z.eqb_spec 2 (fst (presented x))) as [<-|N2].
  { apply Hend; [done|]. unfold ipi_isr, mbind, M_bind. cbn [get set_isrs modify].
    match goal with |- context [icp_write8 u XICS_MFRR 0xff ?s'] => destruct (clear_mfrr s') as (ev3 & ->) end.
    exists (ev1 ++ ev3). unfold with_io, with_dev, s2, s1. cbn. by rewrite <-app_assoc. }
  destruct (Z.eqb_spec 16 (fst (presented x))) as [<-|N16].
  { apply Hend; [done|]. unfold uart_isr, mbind, M_bind. destruct (quiet_uart s2) as (ev3 & ->).
    exists (ev1 ++ ev3). unfold with_io, with_dev, s2, s1. cbn. by rewrite <-app_assoc. }
  destruct (Z.eqb_spec 0 (fst (presented x))) as [<-|N0].
  { apply Hend; [done|]. eexists. reflexivity. }
  assert (served x (isrs_run s) = None) as Hn.
  { unfold served. destruct (fst (presented x)) as [|q|q]; [done| |done].
    repeat (destruct q as [q|q|]; try done). }
  unfold served in Hn. rewrite Hn. eexists. reflexivity.
Qed.

(** A source that has been served is no longer pending. *)
Lemma served_quiet x isrs x' isrs' p : xics_ok x →
  served x isrs = Some (x', isrs') → fst (presented x) ≠ 0 → ~ pending x' (fst (presented x)) p.
Proof.
  intros Hx. unfold served. pose proof (xo_length _ Hx) as [_ Hlen].
  destruct (presented_range x Hx) as [Hr _].
  intros E Hn. destruct (decide (fst (presented x) = 2)) as [E2|N2]; [|destruct (decide (fst (presented x) = 16)) as [E3|N3]].
  - rewrite E2 in *. injection E as <- <-. intros [(_ & -> & H)|(i & H & _)]; [cbn in H|]; lia.
  - rewrite E3 in *. injection E as <- <-. intros [(H & _)|(i & Hi & H & _)]; [lia|].
    assert (i = 0%nat) as -> by lia. cbn in H. by rewrite list_lookup_insert_eq in H by lia.
  - exfalso. destruct (fst (presented x)) as [|q|q]; [done| |lia]. revert E. repeat (destruct q as [q|q|]; try done).
Qed.
End handler.
