(* ===== verification/XicsClk.v ===== *)
(** * The interrupt controller, clock by clock

    The two entities of [xics.vhdl] for one core as they are clocked: the source unit
    latches the interrupt lines and what it passes on, the presenter latches what it
    presents, and the line to the core is delayed by one more clock.  So what is
    presented may for a few clocks not be the most favoured interrupt, as the comment
    at the top of [xics.vhdl] says.  Once the lines and registers have been left alone for four
    clocks it is, and accesses that far apart see the controller of [Xics].  The reset
    input is not modelled; the theorems start from any contents of the registers. *)
From S2P Require Import Prelude CMem Soc Io Console Xics XicsSpec.

(** ** The two units *)

(** A cycle on the bus ([cyc] and [stb]), with the number of the word. *)
Record io_req := IoReq { q_we : bool; q_adr : Z; q_sel : Z; q_dat : Z }.

Record icp_regs := Icp {
  p_xisr : Z; p_cppr : Z; p_mfrr : Z; p_irq : bool;
  p_rd_data : Z; p_ack : bool;
  p_core_irq : bool;
}.

Record ics_regs := Ics {
  c_xives : list Z; c_level_l : list bool;
  c_src : Z; c_pri : Z;
  c_dat : Z; c_ack : bool;
}.

(** The register a cycle selects. *)
Definition icp_select (w : option io_req) : option (io_req * Z) :=
  q ← w; reg ← icp_reg (Z.shiftl (q_adr q) 2); Some (q, reg).

(** The writes: CPPR and MFRR. *)
Definition icp_writes (w : option io_req) (r : icp_regs) : Z * Z :=
  match icp_select w with
  | Some (q, reg) =>
      let b := Z.shiftr (bswap32 (q_dat q)) 24 in
      if q_we q then
        match reg with
        | 0x0 | 0x4 => (b, p_mfrr r)
        | 0xc => (p_cppr r, b)
        | _ => (p_cppr r, p_mfrr r)
        end
      else (p_cppr r, p_mfrr r)
  | None => (p_cppr r, p_mfrr r)
  end.

(** The reads: the word, and whether it accepts the interrupt. *)
Definition icp_reads (w : option io_req) (r : icp_regs) : Z * bool :=
  let xirr := Z.lor (Z.shiftl (p_cppr r) 24) (p_xisr r) in
  match icp_select w with
  | Some (q, reg) =>
      if q_we q then (0, false) else
      match reg with
      | 0x0 => (xirr, false)
      | 0x4 => (xirr, q_sel q =? 0xf)
      | 0xc => (Z.shiftl (p_mfrr r) 24, false)
      | _ => (0, false)
      end
  | None => (0, false)
  end.

Definition icp_clk (w : option io_req) (src pri : Z) (r : icp_regs) : icp_regs :=
  let '(cppr, mfrr) := icp_writes w r in
  let '(be_out, accept) := icp_reads w r in
  let '(xisr, pending) := if negb (pri =? 0xff) then (16 + src, pri) else (0, 0xff) in
  let '(xisr, pending) := if p_mfrr r <? pending then (2, p_mfrr r) else (xisr, pending) in
  let cppr := if (accept : bool) then pending else cppr in
  Icp xisr cppr mfrr (pending <? cppr) (bswap32 be_out) (bool_decide (is_Some w)) (p_irq r).

(** [icp_out_next]. *)
Definition ics_next (r : ics_regs) : Z * Z := ics_out (Xics 0 0 (c_xives r) (c_level_l r)).

(** The read multiplexer follows the address whether there is a cycle or not; the
    address of none is taken to be 0. *)
Definition ics_reads (w : option io_req) (r : ics_regs) : Z :=
  let adr := from_option q_adr 0 w in
  if Z.testbit adr 9 then
    let i := Z.to_nat (Z.land adr 0xf) in
    let l := Z.b2z (default false (c_level_l r !! i)) in
    Z.lor (Z.lor (Z.shiftl l 31) (Z.shiftl l 29)) (prio_unpack (default 7 (c_xives r !! i)))
  else if adr =? 0 then Z.lor (Z.shiftl 3 24) 16
  else if adr =? 1 then Z.lor (Z.shiftl (fst (ics_next r)) 16) (snd (ics_next r))
  else 0.

Definition ics_writes (w : option io_req) (r : ics_regs) : list Z :=
  match w with
  | Some q =>
      if q_we q && Z.testbit (q_adr q) 9 && Z.testbit (q_sel q) 3 then
        <[Z.to_nat (Z.land (q_adr q) 0xf) := prio_pack (Z.land (bswap32 (q_dat q)) 0xff)]> (c_xives r)
      else c_xives r
  | None => c_xives r
  end.

Definition ics_clk (w : option io_req) (int_level_in : list bool) (r : ics_regs) : ics_regs :=
  Ics (ics_writes w r) int_level_in (fst (ics_next r)) (snd (ics_next r))
    (bswap32 (ics_reads w r)) (bool_decide (is_Some w)).

(** Both, on one clock. *)
Record xhw := XHw { h_icp : icp_regs; h_ics : ics_regs }.

Definition xclk (wp wc : option io_req) (int_level_in : list bool) (h : xhw) : xhw :=
  XHw (icp_clk wp (c_src (h_ics h)) (c_pri (h_ics h)) (h_icp h)) (ics_clk wc int_level_in (h_ics h)).

Definition idle_clks (k : nat) (ls : list bool) (h : xhw) : xhw := Nat.iter k (xclk None None ls) h.

(** ** At rest *)

(** The controller of [Xics] in the registers, with the lines [ls]. *)
Definition held (h : xhw) (ls : list bool) : xics :=
  Xics (p_cppr (h_icp h)) (p_mfrr (h_icp h)) (c_xives (h_ics h)) ls.

(** The latches have caught up. *)
Record settled (h : xhw) (ls : list bool) : Prop := {
  st_level : c_level_l (h_ics h) = ls;
  st_out : (c_src (h_ics h), c_pri (h_ics h)) = ics_out (held h ls);
  st_xisr : p_xisr (h_icp h) = fst (presented (held h ls));
  st_irq : p_irq (h_icp h) = irq (held h ls);
  st_core : p_core_irq (h_icp h) = irq (held h ls);
}.

Lemma held_idle h ls ls' : held (xclk None None ls h) ls' = held h ls'.
Proof. unfold held, xclk, icp_clk. cbn. by repeat case_match; simplify_eq. Qed.

Lemma held_idles k h ls ls' : held (idle_clks k ls h) ls' = held h ls'.
Proof. induction k as [|k IH]; [done|]. cbn [idle_clks Nat.iter nat_rect]. by rewrite held_idle. Qed.

(** One clock of the presenter, when the source unit has caught up. *)
Lemma icp_idle h ls : (c_src (h_ics h), c_pri (h_ics h)) = ics_out (held h ls) →
  let r := h_icp (xclk None None ls h) in
  p_xisr r = fst (presented (held h ls)) ∧ p_irq r = irq (held h ls).
Proof.
  intros E. unfold irq, presented. rewrite <- E. unfold xclk, icp_clk. cbn.
  destruct (negb (c_pri (h_ics h) =? 255)); case_match; by simplify_eq/=; case_match; simplify_eq/=.
Qed.

Lemma core_delay wp wc ls h : p_core_irq (h_icp (xclk wp wc ls h)) = p_irq (h_icp h).
Proof. unfold xclk, icp_clk. cbn. by repeat case_match. Qed.

Lemma idle_settles k h ls : (4 ≤ k)%nat → settled (idle_clks k ls h) ls.
Proof.
  intros Hk. replace k with (S (S (S (S (k - 4))))) by lia. set (h0 := idle_clks (k - 4) ls h).
  change (idle_clks (S (S (S (S (k - 4))))) ls h)
    with (xclk None None ls (xclk None None ls (xclk None None ls (xclk None None ls h0)))).
  set (h1 := xclk None None ls h0). set (h2 := xclk None None ls h1). set (h3 := xclk None None ls h2).
  assert (c_level_l (h_ics h1) = ls ∧ c_level_l (h_ics h2) = ls ∧ c_level_l (h_ics h3) = ls) as (L1 & L2 & L3) by done.
  assert (∀ g, c_level_l (h_ics g) = ls → (c_src (h_ics (xclk None None ls g)), c_pri (h_ics (xclk None None ls g))) = ics_out (held g ls)) as Hout.
  { intros g Hg. cbn. unfold ics_next. rewrite Hg. by destruct (ics_out _) eqn:E; cbn. }
  pose proof (Hout h1 L1) as O2. pose proof (Hout h2 L2) as O3. pose proof (Hout h3 L3) as O4.
  fold h2 in O2. fold h3 in O3.
  rewrite <- (held_idle h1 ls ls) in O2. rewrite <- (held_idle h2 ls ls) in O3. fold h2 in O2. fold h3 in O3.
  destruct (icp_idle h2 ls O2) as [X3 I3]. destruct (icp_idle h3 ls O3) as [X4 I4]. fold h3 in X3, I3.
  constructor; rewrite ?(held_idle h3 ls ls); try done.
  rewrite core_delay, I3.
  by rewrite <- (held_idle h2 ls ls).
Qed.

(** ** Accesses *)

(** What can happen to the controller: an access to one of the units, or a change of
    the interrupt lines. *)
Inductive xop :=
  | IcpLoad (n : nat) (off : Z)
  | IcpStore (n : nat) (off v : Z)
  | IcsLoad (n : nat) (off : Z)
  | IcsStore (n : nat) (off v : Z)
  | Lines (ls : list bool).

(** A word, or the byte at the offset of a word, of the 4 KB of a unit. *)
Definition xop_ok (op : xop) : Prop :=
  match op with
  | IcpLoad n off | IcpStore n off _ | IcsLoad n off | IcsStore n off _ =>
      word_access n off ∧ 0 ≤ off < 0x1000
  | Lines _ => True
  end.

(** To the controller of [Xics]. *)
Definition spec_op (op : xop) (x : xics) : Z * xics :=
  match op with
  | IcpLoad n off => icp_load n off x
  | IcpStore n off v => (0, icp_store off v x)
  | IcsLoad n off => (ics_load off x, x)
  | IcsStore n off v => (0, ics_store n off v x)
  | Lines ls => (0, Xics (cppr x) (mfrr x) (xives x) ls)
  end.

(** The byte enables of an access of [n] bytes. *)
Definition sel_of (n : nat) : Z := if (n =? 4)%nat then 0xf else 0x1.

(** To the clocked one: the clock of the access, of which the registered data is the
    result, and [k] more. *)
Definition hw_op (op : xop) (k : nat) (s : xhw * list bool) : Z * (xhw * list bool) :=
  let '(h, ls) := s in
  match op with
  | IcpLoad n off =>
      let h := xclk (Some (IoReq false (Z.shiftr off 2) (sel_of n) 0)) None ls h in
      (p_rd_data (h_icp h), (idle_clks k ls h, ls))
  | IcpStore n off v =>
      (0, (idle_clks k ls (xclk (Some (IoReq true (Z.shiftr off 2) (sel_of n) v)) None ls h), ls))
  | IcsLoad n off =>
      let h := xclk None (Some (IoReq false (Z.shiftr off 2) (sel_of n) 0)) ls h in
      (c_dat (h_ics h), (idle_clks k ls h, ls))
  | IcsStore n off v =>
      (0, (idle_clks k ls (xclk None (Some (IoReq true (Z.shiftr off 2) (sel_of n) v)) ls h), ls))
  | Lines ls => (0, (idle_clks k ls h, ls))
  end.

Lemma word_off off : (4 | off) → Z.shiftl (Z.shiftr off 2) 2 = off.
Proof.
  intros [q ->]. rewrite Z.shiftl_mul_pow2, Z.shiftr_div_pow2 by lia. change (2 ^ 2) with 4.
  by rewrite Z.div_mul by lia.
Qed.

(** In a settled controller the presenter computes what [presented] is. *)
Lemma icp_clk_settled w h ls : settled h ls →
  let r := icp_clk w (c_src (h_ics h)) (c_pri (h_ics h)) (h_icp h) in
  p_cppr r = (if snd (icp_reads w (h_icp h)) then snd (presented (held h ls)) else fst (icp_writes w (h_icp h))) ∧
  p_mfrr r = snd (icp_writes w (h_icp h)) ∧ p_rd_data r = bswap32 (fst (icp_reads w (h_icp h))).
Proof.
  intros [_ E _ _ _]. unfold presented. rewrite <- E. unfold icp_clk.
  destruct (icp_writes w (h_icp h)), (icp_reads w (h_icp h)). cbn [fst snd].
  destruct (negb (c_pri (h_ics h) =? 255)); case_match; by simplify_eq/=; case_match; simplify_eq/=.
Qed.

Lemma icp_load_settled n off h ls : settled h ls → word_access n off →
  let h' := xclk (Some (IoReq false (Z.shiftr off 2) (sel_of n) 0)) None ls h in
  p_rd_data (h_icp h') = fst (icp_load n off (held h ls)) ∧ held h' ls = snd (icp_load n off (held h ls)).
Proof.
  intros Hs [Hn Hoff] h'. set (w := Some (IoReq false (Z.shiftr off 2) (sel_of n) 0)) in *.
  destruct (icp_clk_settled w h ls Hs) as (C1 & C2 & C3). pose proof (st_xisr _ _ Hs) as Hx.
  assert (∃ b a, icp_reads w (h_icp h) = (b, a) ∧ fst (icp_load n off (held h ls)) = bswap32 b ∧
    snd (icp_load n off (held h ls)) = if a then set_cppr (snd (presented (held h ls))) (held h ls) else held h ls)
    as (b & a & Er & Eb & Ea).
  { unfold icp_reads, icp_select, w, icp_load. cbn [mbind option_bind q_adr q_we q_sel]. rewrite (word_off off Hoff), Hx.
    destruct (icp_reg off) as [[|reg|reg]|]; cbn [mbind option_bind]; try by do 2 eexists.
    destruct (decide (reg = 4%positive)) as [->|N4].
    { exists (Z.lor (Z.shiftl (p_cppr (h_icp h)) 24) (fst (presented (held h ls)))), (n =? 4)%nat.
      by destruct Hn as [-> | ->]. }
    repeat (destruct reg as [reg|reg|]; try first [done|by do 2 eexists]). }
  assert (icp_writes w (h_icp h) = (p_cppr (h_icp h), p_mfrr (h_icp h))) as Ew.
  { unfold icp_writes. destruct (icp_select w) as [[q reg]|] eqn:Es; [|done].
    unfold icp_select, w in Es. cbn in Es. by destruct (icp_reg _); simplify_eq/=. }
  rewrite Er, Ew in *. cbn [fst snd] in *. rewrite Eb, Ea. split; [exact C3|].
  unfold held, h', xclk. cbn [h_icp h_ics ics_clk ics_writes c_xives]. rewrite C1, C2. by destruct a.
Qed.

Lemma icp_store_settled n off v h ls : word_access n off →
  held (xclk (Some (IoReq true (Z.shiftr off 2) (sel_of n) v)) None ls h) ls = icp_store off v (held h ls).
Proof.
  intros [Hn Hoff]. unfold held, xclk, icp_clk. cbn [h_icp h_ics ics_clk ics_writes c_xives].
  unfold icp_writes, icp_reads, icp_select, icp_store. cbn [mbind option_bind q_adr q_we q_dat]. rewrite (word_off off Hoff).
  destruct (icp_reg off) as [[|reg|reg]|]; cbn [mbind option_bind].
  2: repeat (destruct reg as [reg|reg|]; try (cbn; by repeat case_match)).
  all: cbn; by repeat case_match.
Qed.

Lemma ics_settled n (we : bool) off v h ls : settled h ls → word_access n off → 0 ≤ off < 0x1000 →
  let h' := xclk None (Some (IoReq we (Z.shiftr off 2) (sel_of n) v)) ls h in
  c_dat (h_ics h') = ics_load off (held h ls) ∧
  held h' ls = if we then ics_store n off v (held h ls) else held h ls.
Proof.
  intros [Hl _ _ _ _] [Hn Hoff] Hr h'.
  assert (Z.testbit (Z.shiftr off 2) 9 = Z.testbit off 11) as Hb by (by rewrite Z.shiftr_spec by lia).
  split.
  - cbn [h' xclk h_ics ics_clk c_dat]. unfold ics_reads, ics_load, ics_next. cbn [from_option q_adr]. rewrite Hl, Hb.
    destruct (Z.testbit off 11); [done|]. destruct (Z.shiftr off 2 =? 0); [done|].
    destruct (Z.shiftr off 2 =? 1); [|done].
    change (ics_out (Xics 0 0 (c_xives (h_ics h)) ls)) with (ics_out (held h ls)). by destruct (ics_out _).
  - assert (p_cppr (h_icp h') = p_cppr (h_icp h) ∧ p_mfrr (h_icp h') = p_mfrr (h_icp h)) as [E1 E2].
    { unfold h', xclk, icp_clk. cbn. split; by repeat case_match; simplify_eq/=. }
    unfold held. rewrite E1, E2. cbn [h' xclk h_ics ics_clk c_xives ics_writes q_we q_adr q_sel q_dat]. rewrite Hb.
    unfold ics_store. destruct we; [|done]. cbn [andb].
    assert (Z.testbit (sel_of n) 3 = (n =? 4)%nat) as -> by (by destruct Hn as [-> | ->]).
    by destruct (Z.testbit off 11 && (n =? 4)%nat).
Qed.

Lemma hw_op_ok op k h ls x : settled h ls → held h ls = x → xop_ok op → (4 ≤ k)%nat →
  let '(v, (h', ls')) := hw_op op k (h, ls) in
  v = fst (spec_op op x) ∧ settled h' ls' ∧ held h' ls' = snd (spec_op op x).
Proof.
  intros Hs <- Hop Hk. destruct op as [n off|n off v|n off|n off v|ls']; cbn [hw_op spec_op xop_ok] in *;
    (split; [|split; [by apply idle_settles|rewrite held_idles]]); try destruct Hop as [Hw Hr]; try done.
  - by apply icp_load_settled.
  - by apply icp_load_settled.
  - by apply icp_store_settled.
  - by apply (ics_settled n false off 0).
  - by apply (ics_settled n false off 0).
  - by apply (ics_settled n true off v).
Qed.

(** Sequences of operations, each with the clocks that pass after it. *)
Fixpoint hw_run (ops : list (xop * nat)) (s : xhw * list bool) : list Z * (xhw * list bool) :=
  match ops with
  | [] => ([], s)
  | (op, k) :: ops =>
      let '(v, s) := hw_op op k s in
      let '(vs, s) := hw_run ops s in (v :: vs, s)
  end.

Fixpoint spec_run (ops : list (xop * nat)) (x : xics) : list Z * xics :=
  match ops with
  | [] => ([], x)
  | (op, _) :: ops =>
      let '(v, x) := spec_op op x in
      let '(vs, x) := spec_run ops x in (v :: vs, x)
  end.

Lemma hw_run_ok ops h ls x : settled h ls → held h ls = x → Forall (λ '(op, k), xop_ok op ∧ (4 ≤ k)%nat) ops →
  let '(vs, (h', ls')) := hw_run ops (h, ls) in
  vs = fst (spec_run ops x) ∧ settled h' ls' ∧ held h' ls' = snd (spec_run ops x).
Proof.
  revert h ls x. induction ops as [|[op k] ops IH]; intros h ls x Hs Hx Hops; [done|].
  apply Forall_cons in Hops as [[Hop Hk] Hops]. cbn [hw_run spec_run].
  pose proof (hw_op_ok op k h ls x Hs Hx Hop Hk) as H1. destruct (hw_op op k (h, ls)) as [v [h1 ls1]].
  destruct H1 as (-> & Hs1 & Hx1). specialize (IH h1 ls1 _ Hs1 Hx1 Hops).
  destruct (hw_run ops (h1, ls1)) as [vs [h2 ls2]]. destruct (spec_op op x) as [v' x1]. cbn [fst snd] in *.
  destruct (spec_run ops x1) as [vs' x2]. cbn [fst snd] in *. by destruct IH as (-> & ? & ?).
Qed.
