(* ===== verification/IsrEntry.v ===== *)
(** * The interrupt entry of the XICS test

    [__isr] of [tests/xics/head.S], instruction by instruction, around the compiled C
    function [isr]: the registers of the core and the bytes of the memory.  The core
    enters it with the interrupted address and MSR in HSRR0 and HSRR1 (external
    interrupts are hypervisor interrupts while LPCR[LPES] is clear); [rfid] returns
    through SRR0 and SRR1.  The compiled function is a parameter, of which only what
    the ABI promises is used. *)
From stdpp Require Import functions.
From S2P Require Import Prelude CMem.

(** ** The core *)

Inductive spr := LR | CTR | CR | XER | SRR0 | SRR1 | HSRR0 | HSRR1 | NIA | MSR.
#[export] Instance spr_eq_dec : EqDecision spr.
Proof. solve_decision. Defined.

Record cpu := Cpu { gpr : Z → Z; reg : spr → Z }.

Definition set_gpr (r v : Z) (c : cpu) : cpu := Cpu (<[r := v]> (gpr c)) (reg c).
Definition set_reg (r : spr) (v : Z) (c : cpu) : cpu := Cpu (gpr c) (<[r := v]> (reg c)).

(** The instructions used; [Call] is [bctrl] to the C function. *)
Inductive instr :=
  | Stdu (rs d ra : Z)
  | Std (rs d ra : Z)
  | Ld (rt d ra : Z)
  | Mf (r : spr) (rt : Z)
  | Mt (r : spr) (rs : Z)
  | LoadImm64 (rt v : Z)
  | Nop
  | Call
  | Rfid.

(** The bits of the MSR that an interrupt and its return leave to others. *)
Definition msr_partial : Z := 0x783f0000.

(** The MSR after [rfid]: HV is always set, and problem state has EE, IR and DR. *)
Definition rfid_msr (srr1 msr : Z) : Z :=
  let v := Z.setbit (Z.lor (Z.ldiff srr1 msr_partial) (Z.land msr msr_partial)) 60 in
  if Z.testbit srr1 14 then Z.setbit (Z.setbit (Z.setbit v 15) 5) 4 else v.

Section core.
Context (handler : M (cpu * mem) unit).
Abbreviation MC := (M (cpu * mem)).

Definition on_mem {A} (p : M mem A) : MC A := zoom snd (λ m s, (fst s, m)) p.
Definition cpu_set (f : cpu → cpu) : MC unit := modify (λ s, (f (fst s), snd s)).

(** The effective address of a displacement form; register 0 would be zero. *)
Definition ea (d ra : Z) (c : cpu) : Z := u64 ((if ra =? 0 then 0 else gpr c ra) + d).

(** CR has 32 bits; [rfid] clears the two low bits of the address. *)
Definition exec (i : instr) : MC unit :=
  s ← get;
  let c := fst s in
  match i with
  | Std rs d ra => on_mem (store 8 (ea d ra c) (gpr c rs))
  | Stdu rs d ra => on_mem (store 8 (ea d ra c) (gpr c rs));; cpu_set (set_gpr ra (ea d ra c))
  | Ld rt d ra => v ← on_mem (load 8 (ea d ra c)); cpu_set (set_gpr rt v)
  | Mf r rt => cpu_set (set_gpr rt (reg c r))
  | Mt r rs => cpu_set (set_reg r (if decide (r = CR) then u32 (gpr c rs) else gpr c rs))
  | LoadImm64 rt v => cpu_set (set_gpr rt v)
  | Nop => mret tt
  | Call => cpu_set (set_reg NIA (reg c CTR));; handler
  | Rfid => cpu_set (λ c, set_reg MSR (rfid_msr (reg c SRR1) (reg c MSR)) (set_reg NIA (Z.ldiff (reg c SRR0) 3) c))
  end.

Fixpoint exec_all (l : list instr) : MC unit :=
  match l with
  | [] => mret tt
  | i :: l => exec i;; exec_all l
  end.

(** ** head.S *)

Definition REDZONE_SIZE : Z := 512.
Definition REG_SAVE_SIZE : Z := (32 + 5) * 8.
Definition STACK_FRAME_C_MINIMAL : Z := 64.
Definition SAVE_NIA : Z := 32 * 8.
Definition SAVE_LR : Z := 33 * 8.
Definition SAVE_CTR : Z := 34 * 8.
Definition SAVE_CR : Z := 35 * 8.
Definition SAVE_SRR1 : Z := 36 * 8.

(** [std %rN, N*8(%r1)] and [ld %rN, N*8(%r1)]; register 0 goes to the word of
    register 1, which is not saved there. *)
Definition save_gprs : list (Z * Z) := (0, 1 * 8) :: ((λ n, (n, n * 8)) <$> seqZ 2 30).
Definition restore_gprs : list (Z * Z) := (0, 1 * 8) :: (2, 2 * 8) :: ((λ n, (n, n * 8)) <$> seqZ 4 28).

Definition isr_save : list instr :=
  [Stdu 1 (- (REG_SAVE_SIZE + REDZONE_SIZE)) 1] ++
  ((λ '(r, d), Std r d 1) <$> save_gprs) ++
  [Mf HSRR0 0; Std 0 (SAVE_NIA * 8) 1;
   Mf LR 0; Std 0 (SAVE_LR * 8) 1;
   Mf CTR 0; Std 0 (SAVE_CTR * 8) 1;
   Mf CR 0; Std 0 (SAVE_CR * 8) 1;
   Mf HSRR1 0; Std 0 (SAVE_SRR1 * 8) 1;
   Stdu 1 (- STACK_FRAME_C_MINIMAL) 1].

Definition isr_call (isr : Z) : list instr := [LoadImm64 3 isr; Mt CTR 3; Call; Nop; Ld 1 0 1].

Definition isr_restore : list instr :=
  ((λ '(r, d), Ld r d 1) <$> restore_gprs) ++
  [Ld 3 (SAVE_LR * 8) 1; Mt LR 3;
   Ld 3 (SAVE_CTR * 8) 1; Mt CTR 3;
   Ld 3 (SAVE_CR * 8) 1; Mt CR 3;
   Ld 3 (SAVE_SRR1 * 8) 1; Mt SRR1 3;
   Ld 3 (SAVE_NIA * 8) 1; Mt SRR0 3;
   Ld 3 (3 * 8) 1;
   Ld 1 (0 * 8) 1;
   Rfid].

Definition isr_entry (isr : Z) : MC unit :=
  exec_all isr_save;; exec_all (isr_call isr);; exec_all isr_restore.
End core.

(** The MSR in an interrupt that does not keep relocation on: SF and LE are set, EE, PR,
    FP, FE0, SE, BE, FE1, IR and DR are cleared. *)
Definition intr_msr (msr : Z) : Z := Z.lor (Z.ldiff msr 0xef30) 0x8000000000000001.

(** The core takes an external interrupt; the flags of HSRR1 are clear. *)
Definition take_external (c : cpu) : cpu :=
  set_reg NIA 0x500 (set_reg MSR (intr_msr (reg c MSR))
    (set_reg HSRR1 (Z.ldiff (reg c MSR) msr_partial) (set_reg HSRR0 (reg c NIA) c))).

(** ** Words in memory *)

Definition put64 (a v : Z) (m : mem) : mem := write_bytes a (le_split 8 v) m.

(** The words [ws], each at its offset from [a]. *)
Definition put_all (a : Z) (ws : list (Z * Z)) (m : mem) : mem :=
  foldl (λ m '(d, v), put64 (a + d) v m) m ws.

(** Eight bytes from each of the offsets. *)
Definition covered (a : Z) (ds : list Z) (k : Z) : Prop := Exists (λ d, a + d ≤ k < a + d + 8) ds.

Lemma put64_out a v m k : k < a ∨ a + 8 ≤ k → put64 a v m !! k = m !! k.
Proof. intros Hk. apply lookup_write_bytes_out. rewrite length_le_split. lia. Qed.

Lemma put_all_out a ws m k : ¬ covered a (fst <$> ws) k → put_all a ws m !! k = m !! k.
Proof.
  revert m. induction ws as [|[d v] ws IH]; intros m Hk; [done|]. cbn [put_all foldl].
  fold (put_all a ws (put64 (a + d) v m)). unfold covered in *. cbn [fmap list_fmap fst] in Hk. rewrite Exists_cons in Hk.
  rewrite IH by tauto. apply put64_out. lia.
Qed.

(** Offsets at least eight bytes apart from [d]. *)
Definition apart8 (d : Z) (ds : list Z) : bool := forallb (λ e, (e + 8 <=? d) || (d + 8 <=? e)) ds.
Fixpoint all_apart8 (ds : list Z) : bool :=
  match ds with
  | [] => true
  | d :: ds => apart8 d ds && all_apart8 ds
  end.

Lemma apart8_not_covered a d ds k : apart8 d ds = true → a + d ≤ k < a + d + 8 → ¬ covered a ds k.
Proof.
  intros Ha Hk Hc. apply Exists_exists in Hc as (e & He & Hek). unfold apart8 in Ha.
  rewrite forallb_forall in Ha. specialize (Ha e ltac:(by apply list_elem_of_In)). conds; lia.
Qed.

Lemma put_all_at a ws m i d v :
  all_apart8 (fst <$> ws) = true → ws !! i = Some (d, v) → bytes_at (put_all a ws m) (a + d) (le_split 8 v).
Proof.
  revert m i. induction ws as [|[e w] ws IH]; intros m i Ha Hi; [done|]. cbn [fmap list_fmap fst all_apart8] in Ha.
  apply andb_prop in Ha as [Ha Hr]. cbn [put_all foldl]. fold (put_all a ws (put64 (a + e) w m)).
  destruct i as [|i]; [|by apply (IH _ i)]. cbn in Hi. simplify_eq.
  apply bytes_at_intro. intros j b Hj. pose proof (lookup_lt_Some _ _ _ Hj) as Hlt. rewrite length_le_split in Hlt.
  rewrite put_all_out by (eapply apart8_not_covered; [exact Ha|lia]).
  by apply (bytes_at_lookup _ _ (le_split 8 v)); [apply bytes_at_write|].
Qed.

Lemma put_all_mapped a ws m p n : mapped m p n → mapped (put_all a ws m) p n.
Proof.
  revert m. induction ws as [|[d v] ws IH]; intros m Hm; [done|]. cbn [put_all foldl]. apply IH. by apply mapped_write.
Qed.

Lemma put_all_app a ws ws' m : put_all a (ws ++ ws') m = put_all a ws' (put_all a ws m).
Proof. apply foldl_app. Qed.

Lemma load_word m a v : 0 ≤ v < 2 ^ 64 → bytes_at m a (le_split 8 v) → load 8 a m = Ret v m.
Proof.
  intros Hv Hb. rewrite (load_Ret m a (le_split 8 v) 8 Hb) by apply length_le_split.
  rewrite le_combine_split. f_equal. by apply (wrap_small 64).
Qed.

(** ** What the entry saves *)

(** The words that are written, from the bottom of the frame of the entry: the back
    chain, the registers, NIA, LR, CTR, CR and MSR, and the back chain of the frame of
    the C function below it. *)
Definition saved_words (c : cpu) : list (Z * Z) :=
  [(0, gpr c 1)] ++ ((λ '(r, d), (d, gpr c r)) <$> save_gprs) ++
  [(SAVE_NIA * 8, reg c HSRR0); (SAVE_LR * 8, reg c LR); (SAVE_CTR * 8, reg c CTR);
   (SAVE_CR * 8, reg c CR); (SAVE_SRR1 * 8, reg c HSRR1)] ++
  [(- STACK_FRAME_C_MINIMAL, gpr c 1 - 808)].

Definition saved_offsets : list Z :=
  [0] ++ (snd <$> save_gprs) ++
  [SAVE_NIA * 8; SAVE_LR * 8; SAVE_CTR * 8; SAVE_CR * 8; SAVE_SRR1 * 8] ++ [- STACK_FRAME_C_MINIMAL].

Lemma saved_words_offsets c : fst <$> saved_words c = saved_offsets.
Proof. reflexivity. Qed.

Lemma saved_offsets_apart : all_apart8 saved_offsets = true.
Proof. vm_compute. reflexivity. Qed.

Lemma saved_offsets_range d : d ∈ saved_offsets → -64 ≤ d ≤ 2304.
Proof.
  assert (Forall (λ d, -64 ≤ d ≤ 2304) saved_offsets) as H by (unfold saved_offsets; decided).
  intros Hd. rewrite Forall_forall in H. by apply H.
Qed.

(** The registers hold 64 bits, CR 32, and instructions are aligned. *)
Record cpu_ok (c : cpu) : Prop := {
  co_gpr : ∀ r, 0 ≤ gpr c r < 2 ^ 64;
  co_reg : ∀ r, 0 ≤ reg c r < 2 ^ 64;
  co_cr : reg c CR < 2 ^ 32;
  co_nia : reg c NIA `mod` 4 = 0;
}.

(** An MSR the core can have: no partial bits, HV set, and EE, IR and DR in problem
    state. *)
Record msr_ok (msr : Z) : Prop := {
  mo_partial : Z.land msr msr_partial = 0;
  mo_hv : Z.testbit msr 60 = true;
  mo_pr : Z.testbit msr 14 = true → Z.testbit msr 15 = true ∧ Z.testbit msr 5 = true ∧ Z.testbit msr 4 = true;
}.

(** The stack of the interrupted code: memory from the frames of the entry to the
    last word it writes, at no wrapping address. *)
Record stack_ok (sp : Z) (m : mem) : Prop := {
  so_low : 872 ≤ sp;
  so_high : sp + 1504 ≤ 2 ^ 64;
  so_mapped : mapped m (sp - 872) 2376;
}.

(** Memory when the C function is called. *)
Definition entered (c : cpu) (m : mem) : mem := put_all (gpr c 1 - 808) (saved_words (take_external c)) m.

(** The ABI: called with this memory and stack pointer, the C function returns with the
    stack pointer and the MSR it was called with, and leaves the frames above its own,
    of which these are the words, as they were. *)
Definition abi (handler : M (cpu * mem) unit) (sp : Z) (m : mem) : Prop :=
  ∀ c, gpr c 1 = sp → ∃ c' m', handler (c, m) = Ret tt (c', m') ∧ gpr c' 1 = sp ∧ reg c' MSR = reg c MSR ∧
    ∀ k, covered (sp + 64) saved_offsets k → m' !! k = m !! k.

Section entry.
Context (handler : M (cpu * mem) unit).
Abbreviation exec := (exec handler).
Abbreviation exec_all := (exec_all handler).

Lemma core_mem_Ret {A} (p : M mem A) (c : cpu) m a m' : p m = Ret a m' → on_mem p (c, m) = Ret a (c, m').
Proof. intros H. unfold on_mem, zoom. cbn [snd fst]. by rewrite H. Qed.

Lemma exec_all_app l l' s s' : exec_all l s = Ret tt s' → exec_all (l ++ l') s = exec_all l' s'.
Proof.
  revert s. induction l as [|i l IH]; intros s; cbn [exec_all app]; [by intros [= ->]|].
  unfold mbind, M_bind. destruct (exec i s) as [[] s1| | |]; try done. apply IH.
Qed.

Lemma exec_std c m rs d a :
  gpr c 1 = a → 0 ≤ a + d < 2 ^ 64 → mapped m (a + d) 8 →
  exec (Std rs d 1) (c, m) = Ret tt (c, put64 (a + d) (gpr c rs) m).
Proof.
  intros <- Ha Hm. unfold IsrEntry.exec, mbind, M_bind, get, ea. cbn [fst Z.eqb].
  rewrite (wrap_small 64) by done. by rewrite (core_mem_Ret _ c m tt _ (store_Ret _ _ 8 _ Hm)).
Qed.

Lemma exec_stdu c m d a :
  gpr c 1 = a → 0 ≤ a + d < 2 ^ 64 → mapped m (a + d) 8 →
  exec (Stdu 1 d 1) (c, m) = Ret tt (set_gpr 1 (a + d) c, put64 (a + d) a m).
Proof.
  intros <- Ha Hm. unfold IsrEntry.exec, mbind, M_bind, get, ea. cbn [fst Z.eqb].
  rewrite (wrap_small 64) by done. by rewrite (core_mem_Ret _ c m tt _ (store_Ret _ _ 8 _ Hm)).
Qed.

Lemma exec_ld c m rt d a v :
  gpr c 1 = a → 0 ≤ a + d < 2 ^ 64 → 0 ≤ v < 2 ^ 64 → bytes_at m (a + d) (le_split 8 v) →
  exec (Ld rt d 1) (c, m) = Ret tt (set_gpr rt v c, m).
Proof.
  intros <- Ha Hv Hm. unfold IsrEntry.exec, mbind, M_bind, get, ea. cbn [fst Z.eqb].
  rewrite (wrap_small 64) by done. by rewrite (core_mem_Ret _ c m v _ (load_word _ _ _ Hv Hm)).
Qed.

(** A run of stores at offsets from [%r1]. *)
Lemma exec_stds l c m a :
  gpr c 1 = a → (∀ r d, (r, d) ∈ l → 0 ≤ a + d < 2 ^ 64 ∧ mapped m (a + d) 8) →
  exec_all ((λ '(r, d), Std r d 1) <$> l) (c, m) = Ret tt (c, put_all a ((λ '(r, d), (d, gpr c r)) <$> l) m).
Proof.
  intros Ha. revert m. induction l as [|[r d] l IH]; intros m Hl; [done|]. cbn [fmap list_fmap IsrEntry.exec_all].
  destruct (Hl r d ltac:(left)) as [H1 H2]. rewrite (bind_Ret _ _ _ _ _ (exec_std c m r d a Ha H1 H2)).
  rewrite IH; [done|]. intros r' d' Hin. destruct (Hl r' d' ltac:(by right)). split; [done|]. by apply mapped_write.
Qed.

(** A special register, saved through [%r0]. *)
Lemma exec_save_spr l c m r d a :
  gpr c 1 = a → 0 ≤ a + d < 2 ^ 64 → mapped m (a + d) 8 →
  exec_all (Mf r 0 :: Std 0 d 1 :: l) (c, m) = exec_all l (set_gpr 0 (reg c r) c, put64 (a + d) (reg c r) m).
Proof.
  intros Ha Hr Hm. cbn [IsrEntry.exec_all].
  rewrite (bind_Ret _ _ (c, m) tt (set_gpr 0 (reg c r) c, m)) by done.
  by rewrite (bind_Ret _ _ _ _ _ (exec_std (set_gpr 0 (reg c r) c) m 0 d a Ha Hr Hm)).
Qed.

(** A run of loads at offsets from [%r1] into other registers. *)
Lemma exec_lds l c m a (f : Z → Z) :
  gpr c 1 = a →
  (∀ r d, (r, d) ∈ l → r ≠ 1 ∧ 0 ≤ a + d < 2 ^ 64 ∧ 0 ≤ f r < 2 ^ 64 ∧ bytes_at m (a + d) (le_split 8 (f r))) →
  ∃ c', exec_all ((λ '(r, d), Ld r d 1) <$> l) (c, m) = Ret tt (c', m) ∧ reg c' = reg c ∧
    ∀ r, gpr c' r = if decide (r ∈ fst <$> l) then f r else gpr c r.
Proof.
  revert c. induction l as [|[r d] l IH]; intros c Ha Hl; [by exists c|]. cbn [fmap list_fmap IsrEntry.exec_all].
  destruct (Hl r d ltac:(left)) as (Hr & H1 & H2 & H3).
  rewrite (bind_Ret _ _ _ _ _ (exec_ld c m r d a (f r) Ha H1 H2 H3)).
  destruct (IH (set_gpr r (f r) c)) as (c' & Hc & Hreg & Hg).
  { cbn. by rewrite fn_lookup_insert_ne. }
  { intros r' d' Hin. apply Hl. by right. }
  exists c'. split; [done|]. split; [done|]. intros r'. rewrite Hg. cbn [fst set_gpr gpr].
  destruct (decide (r' = r)) as [->|Hne].
  - rewrite fn_lookup_insert. rewrite (decide_True (P := r ∈ r :: _)) by left. by case_decide.
  - rewrite fn_lookup_insert_ne by done. apply decide_ext. rewrite elem_of_cons. tauto.
Qed.

(** A special register, restored through [%r3]. *)
Lemma exec_restore_spr l c m r d a v :
  gpr c 1 = a → 0 ≤ a + d < 2 ^ 64 → 0 ≤ v < 2 ^ 64 → (r = CR → v < 2 ^ 32) → bytes_at m (a + d) (le_split 8 v) →
  exec_all (Ld 3 d 1 :: Mt r 3 :: l) (c, m) = exec_all l (set_reg r v (set_gpr 3 v c), m).
Proof.
  intros Ha Hr Hv Hcr Hm. cbn [IsrEntry.exec_all]. rewrite (bind_Ret _ _ _ _ _ (exec_ld c m 3 d a v Ha Hr Hv Hm)).
  rewrite (bind_Ret _ _ _ tt (set_reg r v (set_gpr 3 v c), m)); [done|].
  unfold IsrEntry.exec, mbind, M_bind, get, cpu_set, modify. cbn [fst snd gpr set_gpr].
  rewrite fn_lookup_insert. case_decide; [|done]. by rewrite (wrap_small 32) by (split; [lia|by apply Hcr]).
Qed.

(** *** The whole entry *)

Lemma ldiff_aligned x : x `mod` 4 = 0 → Z.ldiff x 3 = x.
Proof.
  intros Hx. change 3 with (Z.ones 2). rewrite Z.ldiff_ones_r by lia.
  rewrite Z.shiftl_mul_pow2, Z.shiftr_div_pow2 by lia. change (2 ^ 2) with 4.
  pose proof (Z.div_mod x 4 ltac:(lia)). lia.
Qed.

Lemma ldiff_nothing x y : Z.land x y = 0 → Z.ldiff x y = x.
Proof.
  intros H. apply Z.bits_inj'. intros i Hi. pose proof (f_equal (λ z, Z.testbit z i) H) as Hb. cbn beta in Hb.
  rewrite Z.land_spec, Z.bits_0 in Hb. rewrite Z.ldiff_spec. by destruct (Z.testbit x i), (Z.testbit y i).
Qed.

Lemma setbit_set x i : 0 ≤ i → Z.testbit x i = true → Z.setbit x i = x.
Proof.
  intros Hi H. apply Z.bits_inj'. intros j Hj. rewrite Z.setbit_eqb by done.
  destruct (Z.eqb_spec i j) as [->|]; [by rewrite H|done].
Qed.

(** Interrupt, handler and [rfid] give the MSR back. *)
Lemma rfid_msr_back msr : msr_ok msr → rfid_msr (Z.ldiff msr msr_partial) (intr_msr msr) = msr.
Proof.
  intros [Hp Hhv Hpr]. unfold rfid_msr. rewrite !(ldiff_nothing msr) by done.
  assert (Z.land (intr_msr msr) msr_partial = 0) as ->.
  { apply Z.bits_inj'. intros i Hi. pose proof (f_equal (λ z, Z.testbit z i) Hp) as Hb. cbn beta in Hb.
    pose proof (f_equal (λ z, Z.testbit z i) (eq_refl : Z.land 0x8000000000000001 msr_partial = 0)) as Hc. cbn beta in Hc.
    unfold intr_msr. rewrite !Z.land_spec, !Z.bits_0 in *. rewrite Z.lor_spec, Z.ldiff_spec.
    by destruct (Z.testbit msr i), (Z.testbit msr_partial i), (Z.testbit 0x8000000000000001 i), (Z.testbit 0xef30 i). }
  rewrite Z.lor_0_r, (setbit_set msr 60) by done.
  destruct (Z.testbit msr 14) eqn:E; [|done]. destruct (Hpr eq_refl) as (H15 & H5 & H4).
  by rewrite (setbit_set msr 15), (setbit_set msr 5), (setbit_set msr 4).
Qed.

(** Each of the words is where it was put, as long as memory keeps them. *)
Lemma saved_word_at c m m' i d v :
  (∀ k, covered (gpr c 1 - 808) saved_offsets k → m' !! k = put_all (gpr c 1 - 808) (saved_words c) m !! k) →
  saved_words c !! i = Some (d, v) → bytes_at m' (gpr c 1 - 808 + d) (le_split 8 v).
Proof.
  intros Hk Hi. pose proof (put_all_at (gpr c 1 - 808) (saved_words c) m i d v saved_offsets_apart Hi) as Hb.
  apply bytes_at_intro. intros j b Hj. pose proof (lookup_lt_Some _ _ _ Hj) as Hlt. rewrite length_le_split in Hlt.
  rewrite Hk; [by apply (bytes_at_lookup _ _ _ _ _ Hb)|]. apply Exists_exists. exists d. split; [|lia].
  rewrite <- (saved_words_offsets c). apply list_elem_of_fmap. exists (d, v). split; [done|].
  by eapply list_elem_of_lookup_2.
Qed.

Lemma mapped_word_in m p n a : mapped m p n → p ≤ a → a + 8 ≤ p + Z.of_nat n → mapped m a 8.
Proof.
  intros Hm H1 H2. apply mapped_intro. intros i Hi.
  replace (a + i) with (p + (a - p + i)) by lia. apply (mapped_lookup m p n); [done|lia].
Qed.

Lemma isr_save_ok c m :
  stack_ok (gpr c 1) m →
  ∃ c', exec_all isr_save (c, m) = Ret tt (c', put_all (gpr c 1 - 808) (saved_words c) m) ∧
    gpr c' 1 = gpr c 1 - 872 ∧ reg c' = reg c.
Proof.
  intros [Hlo Hhi Hm]. set (sp := gpr c 1) in *. set (a := sp - 808).
  assert (∀ d, -64 ≤ d ≤ 2304 → 0 ≤ a + d < 2 ^ 64) as HB by lia.
  assert (∀ m' d, mapped m' (sp - 872) 2376 → -64 ≤ d ≤ 2304 → mapped m' (a + d) 8) as HM.
  { intros m' d Hm' Hd. apply (mapped_word_in m' (sp - 872) 2376); [done|lia|lia]. }
  unfold isr_save. change (- (REG_SAVE_SIZE + REDZONE_SIZE)) with (-808).
  pose proof (HB 0 ltac:(lia)) as B0. pose proof (HM m 0 Hm ltac:(lia)) as M0. rewrite Z.add_0_r in B0, M0.
  rewrite (exec_all_app [Stdu 1 (-808) 1] _ _ (set_gpr 1 a c, put64 a sp m)).
  2:{ cbn [IsrEntry.exec_all]. by rewrite (bind_Ret _ _ _ _ _ (exec_stdu c m (-808) sp eq_refl B0 M0)). }
  set (c1 := set_gpr 1 a c). set (m1 := put64 a sp m).
  assert (mapped m1 (sp - 872) 2376) as Hm1 by (by apply mapped_write).
  rewrite (exec_all_app _ _ _ (c1, put_all a ((λ '(r, d), (d, gpr c1 r)) <$> save_gprs) m1)).
  2:{ apply exec_stds; [done|]. intros r d Hin.
      assert (Forall (λ p, -64 ≤ p.2 ≤ 2304) save_gprs) as H by (unfold save_gprs; decided).
      rewrite Forall_forall in H. specialize (H (r, d) Hin). split; [by apply HB|by apply HM]. }
  set (m2 := put_all a _ m1). assert (mapped m2 (sp - 872) 2376) as Hm2 by (by apply put_all_mapped).
  rewrite (exec_save_spr _ c1 m2 HSRR0 _ a eq_refl) by (by first [apply HB|apply HM]).
  rewrite (exec_save_spr _ _ _ LR _ a) by (by first [reflexivity|apply HB|apply HM; [repeat apply mapped_write|]]).
  rewrite (exec_save_spr _ _ _ CTR _ a) by (by first [reflexivity|apply HB|apply HM; [repeat apply mapped_write|]]).
  rewrite (exec_save_spr _ _ _ CR _ a) by (by first [reflexivity|apply HB|apply HM; [repeat apply mapped_write|]]).
  rewrite (exec_save_spr _ _ _ HSRR1 _ a) by (by first [reflexivity|apply HB|apply HM; [repeat apply mapped_write|]]).
  cbn [reg set_gpr].
  match goal with |- context [IsrEntry.exec_all handler _ (?c5, ?m5)] => set (c6 := c5); set (m6 := m5) end.
  assert (mapped m6 (sp - 872) 2376) as Hm6 by (by repeat apply mapped_write).
  pose proof (HB (-64) ltac:(lia)) as B6. pose proof (HM m6 (-64) Hm6 ltac:(lia)) as M6.
  cbn [IsrEntry.exec_all]. change (- STACK_FRAME_C_MINIMAL) with (-64).
  rewrite (bind_Ret _ _ _ _ _ (exec_stdu c6 m6 (-64) a eq_refl B6 M6)).
  exists (set_gpr 1 (a + -64) c6). split; [|split; [cbn [gpr set_gpr]; rewrite fn_lookup_insert; lia|done]].
  unfold saved_words. rewrite !put_all_app. cbn [put_all foldl]. unfold m6, m2. rewrite Z.add_0_r. reflexivity.
Qed.

(** The back chain of the frame of the C function. *)
Lemma saved_words_chain c m' :
  (∀ i d v, saved_words c !! i = Some (d, v) → bytes_at m' (gpr c 1 - 808 + d) (le_split 8 v)) →
  bytes_at m' (gpr c 1 - 872) (le_split 8 (gpr c 1 - 808)).
Proof.
  intros H. specialize (H 37%nat _ _ eq_refl). change (- STACK_FRAME_C_MINIMAL) with (-64) in H.
  by replace (gpr c 1 - 808 + -64) with (gpr c 1 - 872) in H by lia.
Qed.

(** The way back: from a memory that has the words of [c], into the registers of [c]. *)
Lemma isr_restore_ok c c2 m' :
  cpu_ok c → 872 ≤ gpr c 1 → gpr c 1 + 1504 ≤ 2 ^ 64 → gpr c2 1 = gpr c 1 - 808 →
  (∀ i d v, saved_words c !! i = Some (d, v) → bytes_at m' (gpr c 1 - 808 + d) (le_split 8 v)) →
  ∃ c', exec_all isr_restore (c2, m') = Ret tt (c', m') ∧ (∀ r, 0 ≤ r < 32 → gpr c' r = gpr c r) ∧
    reg c' LR = reg c LR ∧ reg c' CTR = reg c CTR ∧ reg c' CR = reg c CR ∧
    reg c' NIA = Z.ldiff (reg c HSRR0) 3 ∧ reg c' MSR = rfid_msr (reg c HSRR1) (reg c2 MSR) ∧ reg c' XER = reg c2 XER.
Proof.
  intros [G R Rcr _] Hlo Hhi H1 Hw. set (a := gpr c 1 - 808) in *.
  assert (∀ d, -64 ≤ d ≤ 2304 → 0 ≤ a + d < 2 ^ 64) as HB by lia.
  assert (∀ r d, (r, d) ∈ save_gprs → bytes_at m' (a + d) (le_split 8 (gpr c r))) as Hg.
  { intros r d Hin. apply list_elem_of_lookup in Hin as [i Hi]. apply (Hw (1 + i)%nat). cbn [saved_words app].
    change ((0, gpr c 1) :: ?l) with ([(0, gpr c 1)] ++ l). rewrite lookup_app_r by (cbn; lia).
    cbn [length]. replace (1 + i - 1)%nat with i by lia. apply lookup_app_l_Some. by rewrite list_lookup_fmap, Hi. }
  unfold isr_restore.
  destruct (exec_lds restore_gprs c2 m' a (gpr c) H1) as (c3 & E3 & R3 & G3).
  { assert (Forall (λ p, p.1 ≠ 1 ∧ -64 ≤ p.2 ≤ 2304 ∧ p ∈ save_gprs) restore_gprs) as H by (unfold restore_gprs; decided).
    intros r d Hin. rewrite Forall_forall in H. destruct (H (r, d) Hin) as (Hr & Hd & Hs).
    split; [done|]. split; [by apply HB|]. split; [apply G|by apply Hg]. }
  rewrite (exec_all_app _ _ _ (c3, m')) by exact E3. clear E3.
  assert (gpr c3 1 = a) as H3 by (rewrite G3, decide_False; [done|unfold restore_gprs; decided]).
  rewrite (exec_restore_spr _ c3 m' LR _ a (reg c LR) H3) by (first [by apply HB|apply R|done|by apply (Hw 33%nat)]).
  rewrite (exec_restore_spr _ _ m' CTR _ a (reg c CTR)) by (first [exact H3|by apply HB|apply R|done|by apply (Hw 34%nat)]).
  rewrite (exec_restore_spr _ _ m' CR _ a (reg c CR)) by (first [exact H3|by apply HB|apply R|done|by apply (Hw 35%nat)]).
  rewrite (exec_restore_spr _ _ m' SRR1 _ a (reg c HSRR1)) by (first [exact H3|by apply HB|apply R|done|by apply (Hw 36%nat)]).
  rewrite (exec_restore_spr _ _ m' SRR0 _ a (reg c HSRR0)) by (first [exact H3|by apply HB|apply R|done|by apply (Hw 32%nat)]).
  match goal with |- context [IsrEntry.exec_all handler _ (?c5, m')] => set (c4 := c5) end.
  assert (gpr c4 1 = a) as H4 by exact H3.
  cbn [IsrEntry.exec_all].
  rewrite (bind_Ret _ _ _ _ _ (exec_ld c4 m' 3 (3 * 8) a (gpr c 3) H4 ltac:(by apply HB) (G 3) (Hg 3 (3 * 8) ltac:(unfold save_gprs; decided)))).
  rewrite (bind_Ret _ _ _ _ _ (exec_ld (set_gpr 3 (gpr c 3) c4) m' 1 (0 * 8) a (gpr c 1) H4 ltac:(by apply HB) (G 1) (Hw 0%nat _ _ eq_refl))).
  eexists. split; [reflexivity|]. subst c4. cbn [reg gpr set_reg set_gpr fst snd]. split.
  - intros r Hr. destruct (decide (r = 1)) as [->|N1]; [done|]. rewrite fn_lookup_insert_ne by done.
    destruct (decide (r = 3)) as [->|N3]; [done|]. rewrite !fn_lookup_insert_ne by done. rewrite G3.
    rewrite decide_True; [done|].
    assert (Forall (λ r, r = 1 ∨ r = 3 ∨ r ∈ fst <$> restore_gprs) (seqZ 0 32)) as H by (unfold restore_gprs; decided).
    rewrite Forall_forall in H. destruct (H r ltac:(apply elem_of_seqZ; lia)) as [?|[?|?]]; done.
  - by rewrite <- R3.
Qed.

(** Entry, handler and exit: the interrupted program goes on with its registers; what
    it finds changed in memory is what the handler did, and the words of the entry. *)
Lemma isr_entry_ok isr c m :
  cpu_ok c → msr_ok (reg c MSR) → stack_ok (gpr c 1) m → abi handler (gpr c 1 - 872) (entered c m) →
  ∃ c1 c2 m2 c', handler (c1, entered c m) = Ret tt (c2, m2) ∧
    reg c1 NIA = isr ∧ gpr c1 1 = gpr c 1 - 872 ∧
    isr_entry handler isr (take_external c, m) = Ret tt (c', m2) ∧ (∀ r, 0 ≤ r < 32 → gpr c' r = gpr c r) ∧
    reg c' LR = reg c LR ∧ reg c' CTR = reg c CTR ∧ reg c' CR = reg c CR ∧
    reg c' NIA = reg c NIA ∧ reg c' MSR = reg c MSR ∧ reg c' XER = reg c2 XER.
Proof.
  intros Hc Hmsr Hs Habi. unfold entered in *. set (t := take_external c) in *. change (gpr c 1) with (gpr t 1) in Hs, Habi |- *.
  destruct (isr_save_ok t m Hs) as (c0 & E0 & G0 & R0). pose proof Hs as [Hlo Hhi _].
  set (m1 := put_all (gpr t 1 - 808) (saved_words t) m) in *.
  set (c1 := set_reg NIA isr (set_reg CTR isr (set_gpr 3 isr c0))).
  assert (gpr c1 1 = gpr t 1 - 872) as G1 by (cbn [c1 set_reg set_gpr gpr]; by rewrite fn_lookup_insert_ne).
  destruct (Habi c1 G1) as (c2 & m2 & E2 & G2 & S2 & K2).
  assert (∀ i d v, saved_words t !! i = Some (d, v) → bytes_at m2 (gpr t 1 - 808 + d) (le_split 8 v)) as Hw.
  { intros i d v Hi. apply (saved_word_at t m m2 i d v); [|done]. intros k Hk. apply K2.
    by replace (gpr t 1 - 872 + 64) with (gpr t 1 - 808) by lia. }
  assert (cpu_ok t) as Ht.
  { destruct Hc as [A B C D]. constructor; try done.
    intros [].
    1-6: apply B.
    - exact (B NIA).
    - apply ldiff_range, B.
    - change (0 ≤ 0x500 < 2 ^ 64). lia.
    - apply lor_range; [apply ldiff_range, B|lia]. }
  destruct (isr_restore_ok t (set_gpr 1 (gpr t 1 - 808) c2) m2 Ht Hlo Hhi) as (c' & E' & H'); [|done|].
  { cbn. by rewrite fn_lookup_insert. }
  exists c1, c2, m2, c'. split; [exact E2|]. split; [done|]. split; [done|]. split.
  - unfold isr_entry. rewrite (bind_Ret _ _ _ _ _ E0), <- E'.
    rewrite (bind_Ret _ _ _ tt (set_gpr 1 (gpr t 1 - 808) c2, m2)); [done|].
    unfold isr_call. cbn [IsrEntry.exec_all].
    rewrite (bind_Ret _ _ (c0, m1) tt (set_gpr 3 isr c0, m1)) by done.
    rewrite (bind_Ret _ _ _ tt (set_reg CTR isr (set_gpr 3 isr c0), m1)).
    2:{ unfold IsrEntry.exec, mbind, M_bind, get, cpu_set, modify. cbn [fst snd gpr set_gpr].
        by rewrite fn_lookup_insert. }
    rewrite (bind_Ret _ _ _ tt (c2, m2)).
    2:{ unfold IsrEntry.exec, mbind, M_bind, get, cpu_set, modify. cbn [fst snd reg set_reg].
        rewrite fn_lookup_insert. exact E2. }
    rewrite (bind_Ret _ _ _ tt (c2, m2)) by done.
    pose proof (saved_words_chain t m2 Hw) as Hch.
    rewrite (bind_Ret _ _ _ _ _ (exec_ld c2 m2 1 0 (gpr t 1 - 872) (gpr t 1 - 808)
      ltac:(by rewrite G2) ltac:(lia) ltac:(lia) ltac:(by rewrite Z.add_0_r))). done.
  - destruct H' as (A1 & A2 & A3 & A4 & A5 & A6 & A7). split; [exact A1|].
    split; [exact A2|]. split; [exact A3|]. split; [exact A4|]. split; [|split; [|exact A7]].
    2:{ rewrite A6. cbn [set_gpr reg]. rewrite S2. change (reg c1 MSR) with (reg c0 MSR). rewrite R0.
        by apply rfid_msr_back. }
    rewrite A5. change (reg t HSRR0) with (reg c NIA). by apply ldiff_aligned, Hc.
Qed.
End entry.

(** What the entry has put outside of its frames, and that it is all. *)
Lemma saved_outside c m i r : msr_ok (reg c MSR) → [NIA; LR; CTR; CR; MSR] !! i = Some r →
  bytes_at (entered c m) (gpr c 1 + 1240 + 64 * Z.of_nat i) (le_split 8 (reg c r)).
Proof.
  intros Hmsr Hi. unfold entered. set (t := take_external c).
  assert (saved_words t !! (32 + i)%nat = Some (2048 + 64 * Z.of_nat i, reg c r)) as Hw.
  { do 4 (destruct i as [|i]; [by injection Hi as <-|]). destruct i as [|i]; [|done]. injection Hi as <-.
    rewrite <- (ldiff_nothing (reg c MSR) msr_partial) by apply Hmsr. done. }
  pose proof (put_all_at (gpr t 1 - 808) (saved_words t) m _ _ _ saved_offsets_apart Hw) as H.
  by replace (gpr c 1 + 1240 + 64 * Z.of_nat i) with (gpr t 1 - 808 + (2048 + 64 * Z.of_nat i)) by (cbn; lia).
Qed.

Lemma saved_frame c m k : gpr c 1 - 512 ≤ k →
  (∀ i, 0 ≤ i < 5 → k < gpr c 1 + 1240 + 64 * i ∨ gpr c 1 + 1240 + 64 * i + 8 ≤ k) →
  entered c m !! k = m !! k.
Proof.
  intros Hk Hi. unfold entered. apply put_all_out. rewrite saved_words_offsets. intros Hc. apply Exists_exists in Hc as (d & Hd & Hdk).
  assert (Forall (λ d, d ≤ 248 ∨ d ∈ (λ i, 2048 + 64 * i) <$> seqZ 0 5) saved_offsets) as H by (unfold saved_offsets; decided).
  rewrite Forall_forall in H. destruct (H d Hd) as [?|Hin]; [lia|].
  apply list_elem_of_fmap in Hin as (i & -> & Hin). apply elem_of_seqZ in Hin. destruct (Hi i ltac:(lia)); lia.
Qed.
