(* ===== verification/FmtLog.v ===== *)
(** * The formatter of core logs

    [scripts/fmt_log/fmt_log.c]: turns the log that [ldump] saves into a table,
    one line per clock.  A [struct log_entry] is 256 bits, its bit fields
    allocated from the low end as the x86-64 ABI does; a field is a range of the
    number that the 32 bytes make up. *)
From S2P Require Import Prelude CMem Vhpi.

(** ** Log entries *)

Inductive log_field :=
  | F_nia_lo | F_nia_hi | F_ic_ra_valid | F_ic_access_ok | F_ic_is_miss | F_ic_is_hit | F_ic_way
  | F_ic_state | F_ic_part_nia | F_ic_fetch_failed | F_ic_stall_out | F_ic_wb_stall | F_ic_wb_cyc
  | F_ic_wb_stb | F_ic_wb_adr | F_ic_wb_ack | F_ic_insn | F_ic_valid | F_d1_valid | F_d1_unit
  | F_d1_part_nia | F_d1_insn_type | F_d2_bypass_a | F_d2_bypass_b | F_d2_bypass_c | F_d2_stall_out
  | F_d2_stopped_out | F_d2_valid | F_d2_part_nia | F_e1_flush_out | F_e1_stall_out | F_e1_redirect
  | F_e1_valid | F_e1_write_enable | F_e1_irq_state | F_e1_irq | F_e1_exception | F_e1_msr_dr
  | F_e1_msr_ir | F_e1_msr_pr | F_e1_msr_ee | F_pad1 | F_ls_state | F_ls_dw_done | F_ls_min_done
  | F_ls_do_valid | F_ls_mo_valid | F_ls_lo_valid | F_ls_eo_except | F_ls_stall_out | F_pad2
  | F_dc_state | F_dc_ra_valid | F_dc_tlb_way | F_dc_stall_out | F_dc_op | F_dc_do_valid
  | F_dc_do_error | F_dc_wb_cyc | F_dc_wb_stb | F_dc_wb_ack | F_dc_wb_stall | F_dc_wb_adr
  | F_cr_wr_mask | F_cr_wr_data | F_cr_wr_enable | F_reg_wr_reg | F_reg_wr_enable | F_reg_wr_data.

Definition log_layout : list (log_field * Z) :=
  [(F_nia_lo, 42); (F_nia_hi, 1); (F_ic_ra_valid, 1); (F_ic_access_ok, 1); (F_ic_is_miss, 1);
   (F_ic_is_hit, 1); (F_ic_way, 3); (F_ic_state, 1); (F_ic_part_nia, 4); (F_ic_fetch_failed, 1);
   (F_ic_stall_out, 1); (F_ic_wb_stall, 1); (F_ic_wb_cyc, 1); (F_ic_wb_stb, 1); (F_ic_wb_adr, 3);
   (F_ic_wb_ack, 1); (F_ic_insn, 36); (F_ic_valid, 1); (F_d1_valid, 1); (F_d1_unit, 2);
   (F_d1_part_nia, 4); (F_d1_insn_type, 6); (F_d2_bypass_a, 1); (F_d2_bypass_b, 1);
   (F_d2_bypass_c, 1); (F_d2_stall_out, 1); (F_d2_stopped_out, 1); (F_d2_valid, 1);
   (F_d2_part_nia, 4); (F_e1_flush_out, 1); (F_e1_stall_out, 1); (F_e1_redirect, 1);
   (F_e1_valid, 1); (F_e1_write_enable, 1); (F_e1_irq_state, 1); (F_e1_irq, 1);
   (F_e1_exception, 1); (F_e1_msr_dr, 1); (F_e1_msr_ir, 1); (F_e1_msr_pr, 1); (F_e1_msr_ee, 1);
   (F_pad1, 4); (F_ls_state, 3); (F_ls_dw_done, 1); (F_ls_min_done, 1); (F_ls_do_valid, 1);
   (F_ls_mo_valid, 1); (F_ls_lo_valid, 1); (F_ls_eo_except, 1); (F_ls_stall_out, 1); (F_pad2, 1);
   (F_dc_state, 3); (F_dc_ra_valid, 1); (F_dc_tlb_way, 3); (F_dc_stall_out, 1); (F_dc_op, 3);
   (F_dc_do_valid, 1); (F_dc_do_error, 1); (F_dc_wb_cyc, 1); (F_dc_wb_stb, 1); (F_dc_wb_ack, 1);
   (F_dc_wb_stall, 1); (F_dc_wb_adr, 3); (F_cr_wr_mask, 8); (F_cr_wr_data, 4);
   (F_cr_wr_enable, 1); (F_reg_wr_reg, 7); (F_reg_wr_enable, 1); (F_reg_wr_data, 64)].

#[export] Instance log_field_eq_dec : EqDecision log_field.
Proof. solve_decision. Defined.

Fixpoint field_at (f : log_field) (off : Z) (l : list (log_field * Z)) : Z * Z :=
  match l with
  | [] => (0, 0)
  | (g, w) :: l => if decide (f = g) then (off, w) else field_at f (off + w) l
  end.

(** [log.f] *)
Definition fld (log : Z) (f : log_field) : Z :=
  let '(off, w) := field_at f 0 log_layout in wrap w (Z.shiftr log off).

(** ** Names *)

Definition units : list String.string := ["al"; "ls"; "fp"; "3?"]%string.
Definition ops : list String.string :=
  ["illegal"; "nop    "; "add    "; "attn   "; "b      "; "bc     "; "bcreg  "; "bperm  ";
   "bsort  "; "cmp    "; "compute"; "countb "; "darn   "; "dcbf   "; "dcbst  "; "dcbz   ";
   "icbi   "; "icbt   "; "fpcmp  "; "fparith"; "fpmove "; "fpmisc "; "div    "; "dive   ";
   "mod    "; "isync  "; "ld     "; "st     "; "mcrxrx "; "mfmsr  "; "mfspr  "; "msg    ";
   "mtcrf  "; "mtmsr  "; "mtspr  "; "mull64 "; "mulh64 "; "mulh32 "; "rfid   "; "sc     ";
   "sync   "; "tlbie  "; "trap   "; "wait   "; "ffail  "; "?45    "; "?46    "; "?47    ";
   "?48    "; "?49    "; "?50    "; "?51    "; "?52    "; "?53    "; "?54    "; "?55    ";
   "?56    "; "?57    "; "?58    "; "?59    "; "?60    "; "?61    "; "?62    "; "?63    "]%string.
Definition spr_names : list String.string :=
  ["lr "; "ctr"; "sr0"; "sr1"; "hr0"; "hr1"; "sg0"; "sg1"; "sg2"; "sg3"; "hg0"; "hg1"; "xer"]%string.

(** ** One line *)

Abbreviation MF := (M (list msg)).
Definition out (fmt : String.string) (args : list parg) : MF unit := modify (λ s, s ++ [Out fmt args]).

Section line.
Context (log : Z) (full_nia : list Z).

Definition FLGA (f : log_field) (y z : Z) : parg := PZ (if negb (fld log f =? 0) then y else z).
Definition FLAG (f : log_field) (y : Z) : parg := FLGA f y 32.
Definition NUM (f : log_field) : parg := PZ (fld log f).
Definition PNIA (f : log_field) : MF parg :=
  v ← of_option (full_nia !! Z.to_nat (fld log f)); mret (PZ (Z.land v 0xff)).
Definition set (f : log_field) : bool := negb (fld log f =? 0).

Definition header : MF unit :=
  out "        fetch1 NIA      icache                             decode1       decode2   execute1         loadstore  dcache       CR   GSPR" [];;
  out "     ----------------   TAHW S -WB-- pN  ic --insn--    pN un op         pN byp    FR IIE MSR  WC   SD MM CE   SRTO DE -WB-- c ms reg val" [];;
  out "                        LdMy t csnSa IA                 IA it            IA abc    le srx EPID em   tw rd mx   tAwp vr csnSa 0 k" [].

Definition line_fetch (lineno : Z) : MF unit :=
  out "%4ld %c0000%.11llx %c "
    [PZ lineno; PZ (if set F_nia_hi then 99 else 48); PZ (u64 (Z.shiftl (fld log F_nia_lo) 2));
     FLAG F_ic_stall_out 124];;
  pn ← PNIA F_ic_part_nia;
  out "%c%c%c%d %c %c%c%d%c%c %.2llx "
    [FLGA F_ic_ra_valid 32 84; FLGA F_ic_access_ok 32 88;
     PZ (if set F_ic_is_hit then 72 else if set F_ic_is_miss then 77 else 32);
     NUM F_ic_way; FLAG F_ic_state 87; FLAG F_ic_wb_cyc 99; FLAG F_ic_wb_stb 115;
     NUM F_ic_wb_adr; FLAG F_ic_wb_stall 83; FLAG F_ic_wb_ack 97; pn];;
  if set F_ic_valid then
    if tst (fld log F_ic_insn) (Z.shiftl 1 35)
    then out "ill %.8lx" [PZ (Z.land (fld log F_ic_insn) 0xffffffff)]
    else out "%3lu x%.7lx" [PZ (Z.shiftr (fld log F_ic_insn) 26); PZ (Z.land (fld log F_ic_insn) 0x3ffffff)]
  else if set F_ic_fetch_failed then out "    !!!!!!!!" []
  else out "--- --------" [].

Definition line_decode : MF unit :=
  pn1 ← PNIA F_d1_part_nia;
  out " %c%c %.2llx " [FLAG F_ic_valid 62; FLAG F_d2_stall_out 124; pn1];;
  (if set F_d1_valid then
     un ← of_option (units !! Z.to_nat (fld log F_d1_unit));
     op ← of_option (ops !! Z.to_nat (fld log F_d1_insn_type));
     out "%s %s" [PS (lit un); PS (lit op)]
   else out "-- -------" []);;
  out " %c%c " [FLAG F_d1_valid 62; FLAG F_d2_stall_out 124];;
  pn2 ← PNIA F_d2_part_nia;
  out "%.2llx %c%c%c %c%c "
    [pn2; FLAG F_d2_bypass_a 97; FLAG F_d2_bypass_b 98; FLAG F_d2_bypass_c 99; FLAG F_d2_valid 62;
     FLAG F_e1_stall_out 124].

Definition line_execute : MF unit :=
  out "%c%c %c%c%c %c%c%c%c %c%c "
    [FLAG F_e1_flush_out 70; FLAG F_e1_redirect 82; FLAG F_e1_irq_state 119; FLAG F_e1_irq 73;
     FLAG F_e1_exception 88; FLAG F_e1_msr_ee 69; FLGA F_e1_msr_pr 117 115; FLAG F_e1_msr_ir 73;
     FLAG F_e1_msr_dr 68; FLAG F_e1_write_enable 87; FLAG F_e1_valid 67];;
  out "%c %d%d %c%c %c%c %c "
    [FLAG F_ls_stall_out 124; NUM F_ls_state; NUM F_ls_dw_done; FLAG F_ls_mo_valid 77;
     FLAG F_ls_min_done 109; FLAG F_ls_lo_valid 67; FLAG F_ls_eo_except 88; FLAG F_ls_do_valid 62];;
  out "%d%c%d%d %c%c %c%c%d%c%c "
    [NUM F_dc_state; FLAG F_dc_ra_valid 82; NUM F_dc_tlb_way; NUM F_dc_op; FLAG F_dc_do_valid 86;
     FLAG F_dc_do_error 69; FLAG F_dc_wb_cyc 99; FLAG F_dc_wb_stb 115; NUM F_dc_wb_adr;
     FLAG F_dc_wb_stall 83; FLAG F_dc_wb_ack 97].

Definition line_write : MF unit :=
  (if set F_cr_wr_enable then out "%x>%.2x " [NUM F_cr_wr_data; NUM F_cr_wr_mask] else out "     " []);;
  (if set F_reg_wr_enable then
     let r := fld log F_reg_wr_reg in
     (if (r <? 32) || (44 <? r) then out "r%02d" [PZ r]
      else n ← of_option (spr_names !! Z.to_nat (r - 32)); out "%s" [PS (lit n)]);;
     out "=%.16llx" [NUM F_reg_wr_data]
   else mret tt);;
  out (String.String (Ascii.ascii_of_nat 10) String.EmptyString) [].
End line.

(** ** The program *)

Record fmt_vars := FmtVars { v_full_nia : list Z; v_lineno : Z; v_ncompl : Z }.

(** [full_nia[15]] keeps what the uninitialised array held. *)
Definition fmt_init (junk : Z) : fmt_vars :=
  FmtVars (((λ i, Z.of_nat i * 4) <$> seq 0 15) ++ [junk]) 1 0.

Definition nia_of (log : Z) : Z :=
  Z.lor (if negb (fld log F_nia_hi =? 0) then 0xc000000000000000 else 0) (u64 (Z.shiftl (fld log F_nia_lo) 2)).

(** The body of the loop. *)
Definition fmt_entry (log : Z) (v : fmt_vars) : MF fmt_vars :=
  let full_nia := <[Z.to_nat (Z.land (fld log F_nia_lo) 0xf) := nia_of log]> (v_full_nia v) in
  (if v_lineno v `mod` 20 =? 1 then header else mret tt);;
  line_fetch log full_nia (v_lineno v);;
  line_decode log full_nia;;
  line_execute log;;
  line_write log;;
  mret (FmtVars full_nia (v_lineno v + 1)
         (if set log F_ls_lo_valid || set log F_e1_valid then v_ncompl v + 1 else v_ncompl v)).

(** [while (fread (&log, sizeof (log), 1, f) == 1)]: whole entries of 32 bytes. *)
Fixpoint fmt_loop (n : nat) (file : list Z) (v : fmt_vars) : MF fmt_vars :=
  match n with
  | O => out_of_fuel
  | S n =>
      if (length file <? 32)%nat then mret v
      else v ← fmt_entry (le_combine (take 32 file)) v; fmt_loop n (drop 32 file) v
  end.

(** [file] is the contents of the file named by the argument, if it opens, and
    [stdin] what is read when there is none. *)
Definition fmt_main (ac junk : Z) (file : option (list Z)) (stdin : list Z) : MF unit :=
  if negb (ac =? 1) && negb (ac =? 2) then
    modify (λ s, s ++ [Err "Usage: %s [filename]" []]);; exit_ 1
  else
  input ← (if ac =? 2 then
             match file with
             | None => modify (λ s, s ++ [Err "perror" []]);; exit_ 1
             | Some f => mret f
             end
           else mret stdin);
  v ← fmt_loop (S (length input)) input (fmt_init junk);
  out "%ld instructions completed, %.2f CPI" [PZ (v_ncompl v); PZ (v_lineno v - 1); PZ (v_ncompl v)];;
  exit_ 0.

(** ** Fields *)

Definition width_of (f : log_field) : Z := snd (field_at f 0 log_layout).

Lemma fld_range log f : 0 ≤ fld log f < 2 ^ width_of f.
Proof.
  unfold fld, width_of. destruct (field_at f 0 log_layout) as [off w] eqn:E. cbn [snd].
  apply wrap_range. destruct f; vm_compute in E; injection E as <- <-; lia.
Qed.

(** An entry with given field values. *)
Fixpoint pack (vals : log_field → Z) (l : list (log_field * Z)) : Z :=
  match l with
  | [] => 0
  | (f, w) :: l => Z.lor (wrap w (vals f)) (Z.shiftl (pack vals l) w)
  end.

Definition enc_entry (vals : log_field → Z) : Z := pack vals log_layout.

Lemma pack_field vals f off l :
  0 ≤ off → Forall (λ p, 0 ≤ snd p) l → f ∈ (fst <$> l) →
  let '(o, w) := field_at f off l in off ≤ o ∧ wrap w (Z.shiftr (pack vals l) (o - off)) = wrap w (vals f).
Proof.
  intros Hoff Hl. revert off Hoff. induction Hl as [|[g w] l Hw Hl IH]; intros off Hoff Hf; cbn in Hf.
  { by apply not_elem_of_nil in Hf. }
  cbn [field_at pack snd] in *. destruct (decide (f = g)) as [->|Hne].
  - split; [lia|]. rewrite Z.sub_diag, Z.shiftr_0_r.
    apply Z.bits_inj'. intros i Hi. rewrite !testbit_wrap, Z.lor_spec, testbit_wrap, Z.shiftl_spec by done.
    destruct (Z.ltb_spec i w); [|done]. cbn [andb].
    rewrite (Z.testbit_neg_r _ (i - w)) by lia. by rewrite orb_false_r.
  - apply elem_of_cons in Hf as [Hf|Hf]; [done|].
    specialize (IH (off + w) ltac:(lia) Hf). destruct (field_at f (off + w) l) as [o v].
    destruct IH as [Ho IH]. split; [lia|]. rewrite <- IH. f_equal.
    apply Z.bits_inj'. intros i Hi. rewrite !Z.shiftr_spec, Z.lor_spec, testbit_wrap, Z.shiftl_spec by lia.
    rewrite (proj2 (Z.ltb_ge (i + (o - off)) w)) by lia. cbn [andb orb]. f_equal. lia.
Qed.

(** The value of every field comes back. *)
Lemma fld_enc_entry vals f : fld (enc_entry vals) f = wrap (width_of f) (vals f).
Proof.
  unfold fld, width_of, enc_entry.
  assert (f ∈ (fst <$> log_layout)) as Hf by (destruct f; apply (bool_decide_unpack _); vm_compute; exact I).
  assert (Forall (λ p : log_field * Z, 0 ≤ snd p) log_layout) as Hl
    by (apply (bool_decide_unpack _); vm_compute; exact I).
  pose proof (pack_field vals f 0 log_layout ltac:(lia) Hl Hf) as H.
  destruct (field_at f 0 log_layout) as [o w]. destruct H as [_ H]. by rewrite Z.sub_0_r in H.
Qed.

(** ** No access outside a table *)

Lemma fld_bound log f n : width_of f = n → 0 ≤ fld log f < 2 ^ n.
Proof. intros <-. apply fld_range. Qed.

Lemma PNIA_ok log nia f s :
  length nia = 16%nat → width_of f = 4 → ∃ a, PNIA log nia f s = Ret a s.
Proof.
  intros Hl Hw. pose proof (fld_bound log f 4 Hw) as Hf. unfold PNIA.
  destruct (lookup_lt_is_Some_2 nia (Z.to_nat (fld log f))) as [v Hv]; [lia|].
  rewrite Hv. by eexists.
Qed.

Definition prints {A} (m : MF A) (a : A) : Prop := ∀ s, ∃ t, m s = Ret a (s ++ t).

Lemma prints_out fmt args : prints (out fmt args) tt.
Proof. intros s. by eexists. Qed.
Lemma prints_ret {A} (a : A) : prints (mret a) a.
Proof. intros s. exists []. by rewrite app_nil_r. Qed.
Lemma prints_bind {A C} (m : MF A) (f : A → MF C) a c :
  prints m a → prints (f a) c → prints (m ≫= f) c.
Proof.
  intros Hm Hf s. destruct (Hm s) as [t1 H1]. destruct (Hf (s ++ t1)) as [t2 H2].
  exists (t1 ++ t2). by rewrite (bind_Ret _ _ _ _ _ H1), H2, app_assoc.
Qed.
Lemma prints_if {A} (b : bool) (m1 m2 : MF A) a :
  prints m1 a → prints m2 a → prints (if b then m1 else m2) a.
Proof. by destruct b. Qed.
Lemma prints_pnia {C} log nia f (k : parg → MF C) c :
  length nia = 16%nat → width_of f = 4 → (∀ a, prints (k a) c) → prints (PNIA log nia f ≫= k) c.
Proof.
  intros Hl Hw Hk s. destruct (PNIA_ok log nia f s Hl Hw) as [a Ha].
  rewrite (bind_Ret _ _ _ _ _ Ha). apply Hk.
Qed.
Lemma prints_name {C} (tbl : list String.string) i (k : String.string → MF C) c :
  (i < length tbl)%nat → (∀ n, prints (k n) c) → prints (of_option (tbl !! i) ≫= k) c.
Proof.
  intros Hi Hk s. destruct (lookup_lt_is_Some_2 tbl i Hi) as [n Hn]. rewrite Hn. apply Hk.
Qed.

Ltac fmt_go := repeat first
  [ apply prints_if | apply prints_out | apply prints_ret
  | apply prints_pnia; [done|reflexivity|intros ?]
  | eapply prints_bind; [apply prints_out|] ].

Lemma line_fetch_prints log nia n : length nia = 16%nat → prints (line_fetch log nia n) tt.
Proof. intros Hl. unfold line_fetch. fmt_go. Qed.

Lemma line_decode_prints log nia : length nia = 16%nat → prints (line_decode log nia) tt.
Proof.
  intros Hl. unfold line_decode. apply prints_pnia; [done|reflexivity|intros pn1].
  eapply prints_bind; [apply prints_out|]. eapply prints_bind; [|fmt_go]. apply prints_if; [|fmt_go].
  apply prints_name.
  { pose proof (fld_bound log F_d1_unit 2 eq_refl). cbn [length units]. lia. }
  intros un. apply prints_name; [|intros; fmt_go].
  pose proof (fld_bound log F_d1_insn_type 6 eq_refl). vm_compute length. lia.
Qed.

Lemma line_execute_prints log : prints (line_execute log) tt.
Proof. unfold line_execute. fmt_go. Qed.

Lemma line_write_prints log : prints (line_write log) tt.
Proof.
  unfold line_write. eapply prints_bind; [fmt_go|]. eapply prints_bind; [|fmt_go].
  apply prints_if; [|fmt_go]. eapply prints_bind; [|fmt_go].
  destruct (Z.ltb_spec (fld log F_reg_wr_reg) 32); cbn [orb]; [fmt_go|].
  destruct (Z.ltb_spec 44 (fld log F_reg_wr_reg)); [fmt_go|].
  apply prints_name; [vm_compute length; lia|intros; fmt_go].
Qed.

(** A line is always printed; the line and the completions are counted. *)
Lemma fmt_entry_prints log v :
  length (v_full_nia v) = 16%nat →
  ∃ nia, length nia = 16%nat ∧
    prints (fmt_entry log v)
      (FmtVars nia (v_lineno v + 1)
         (if set log F_ls_lo_valid || set log F_e1_valid then v_ncompl v + 1 else v_ncompl v)).
Proof.
  intros Hl. unfold fmt_entry. eexists. split; [|].
  2:{ eapply prints_bind; [apply prints_if; unfold header; fmt_go|].
      eapply prints_bind; [by apply line_fetch_prints; rewrite length_insert|].
      eapply prints_bind; [by apply line_decode_prints; rewrite length_insert|].
      eapply prints_bind; [apply line_execute_prints|].
      eapply prints_bind; [apply line_write_prints|apply prints_ret]. }
  by rewrite length_insert.
Qed.

(** ** The whole file *)

(** The entries of a file; a last partial one is dropped. *)
Fixpoint entries (n : nat) (file : list Z) : list Z :=
  match n with
  | O => []
  | S n => if (length file <? 32)%nat then [] else le_combine (take 32 file) :: entries n (drop 32 file)
  end.

Definition completes (log : Z) : bool := set log F_ls_lo_valid || set log F_e1_valid.

Lemma fmt_loop_prints n file v :
  length (v_full_nia v) = 16%nat → (length file < n)%nat →
  ∃ nia, length nia = 16%nat ∧ prints (fmt_loop n file v)
    (FmtVars nia (v_lineno v + Z.of_nat (length (entries n file)))
       (v_ncompl v + Z.of_nat (length (List.filter completes (entries n file))))).
Proof.
  revert file v. induction n as [|n IH]; intros file v Hl Hn; [lia|]. cbn [fmt_loop entries].
  destruct (Nat.ltb_spec (length file) 32) as [Hs|Hs].
  { exists (v_full_nia v). split; [done|]. cbn. rewrite !Z.add_0_r. destruct v. apply prints_ret. }
  destruct (fmt_entry_prints (le_combine (take 32 file)) v Hl) as (nia & Hn1 & Hp1).
  fold (completes (le_combine (take 32 file))) in Hp1.
  destruct (IH (drop 32 file) (FmtVars nia (v_lineno v + 1)
    (if completes (le_combine (take 32 file)) then v_ncompl v + 1 else v_ncompl v))) as (nia' & Hn2 & Hp2).
  { done. } { rewrite length_drop. lia. }
  exists nia'. split; [done|]. eapply prints_bind; [exact Hp1|]. cbn [v_lineno v_ncompl] in Hp2.
  cbn [length List.filter]. destruct (completes (le_combine (take 32 file))); cbn [length].
  - replace (v_lineno v + Z.of_nat (S _)) with (v_lineno v + 1 + Z.of_nat (length (entries n (drop 32 file)))) by lia.
    replace (v_ncompl v + Z.of_nat (S _)) with
      (v_ncompl v + 1 + Z.of_nat (length (List.filter completes (entries n (drop 32 file))))) by lia. exact Hp2.
  - replace (v_lineno v + Z.of_nat (S _)) with (v_lineno v + 1 + Z.of_nat (length (entries n (drop 32 file)))) by lia.
    exact Hp2.
Qed.

Lemma fmt_init_length junk : length (v_full_nia (fmt_init junk)) = 16%nat.
Proof. done. Qed.

(** Every whole entry gives a line, and the last line counts them. *)
Lemma fmt_main_ok junk file s :
  let es := entries (S (length file)) file in
  ∃ lines, fmt_main 1 junk None file s =
    Exit 0 (s ++ lines ++ [Out "%ld instructions completed, %.2f CPI"
      [PZ (Z.of_nat (length (List.filter completes es))); PZ (Z.of_nat (length es));
       PZ (Z.of_nat (length (List.filter completes es)))]]).
Proof.
  intros es. destruct (fmt_loop_prints (S (length file)) file (fmt_init junk) (fmt_init_length junk)
    ltac:(lia)) as (nia & _ & Hp). fold es in Hp.
  unfold fmt_main. cbn [Z.eqb negb andb Pos.eqb]. rewrite bind_mret.
  destruct (Hp s) as [t Ht]. exists t. rewrite (bind_Ret _ _ _ _ _ Ht). cbn [v_ncompl v_lineno fmt_init].
  rewrite !Z.add_0_l. replace (1 + Z.of_nat (length es) - 1) with (Z.of_nat (length es)) by lia.
  unfold mbind, M_bind, out, modify, exit_. by rewrite <- app_assoc.
Qed.
