(* ===== verification/LibcProps.v ===== *)
(** * What the firmware libc promises

    The contracts of the memory, string and number routines of
    [litedram/gen-src/sdram_init/libc/src], as the callers see them: on every
    memory in which the arguments are valid, the routine returns, with the value
    and the memory of its specification.  A pointer result is described by the
    position it points to, a comparison by the order of the two strings. *)
From S2P Require Import Prelude CMem LibMem MemEquiv Ctype LibStr Strtol Printf MemTypes.

(** A memory for the examples: "hello" at 100, "help" at 200, "lo" at 220 and
    32 zero bytes at 300. *)
Definition demo : mem :=
  write_bytes 100 (lit "hello" ++ [0]) (write_bytes 200 (lit "help" ++ [0])
    (write_bytes 220 (lit "lo" ++ [0]) (write_bytes 300 (replicate 32 0) ∅))).

(** ** Types *)

(** Memory stays a memory of bytes: any sequence of calls of the libc, with any
    arguments, that returns leaves exactly the addresses mapped that were, and a
    value from 0 to 255 at each of them. *)
Lemma libc_memory_typed fuel cs m rs m' :
  mem_bytes m → libc_runs fuel cs m = Ret rs m' → mem_bytes m' ∧ dom m' = dom m.
Proof.
  intros Hb Hr. destruct (keeps_Ret _ _ _ _ (keeps_libc_runs fuel cs) Hr) as [Hd Hm]. auto.
Qed.

Lemma libc_memory_typed_witness :
  let cs := [CallMemset 300 511 16; CallStrcpy 300 100; CallStrcat 300 200; CallStrtok 300 220 NULL;
             CallMemmove 303 300 8; CallStrlen 300] in
  ∃ rs m', libc_runs 20 cs demo = Ret rs m' ∧ mem_bytes m' ∧ dom m' = dom demo.
Proof.
  intros cs. assert (match libc_runs 20 cs demo with Ret _ _ => true | _ => false end = true) as H
    by (vm_compute; reflexivity).
  destruct (libc_runs 20 cs demo) as [rs m'| | |] eqn:E; try discriminate H. exists rs, m'. split; [reflexivity|].
  apply (libc_memory_typed 20 cs demo rs m'); [|exact E].
  unfold demo. repeat (apply mem_bytes_write; [decided|]). apply map_Forall_empty.
Defined.

(** ** Memory *)

(** [memcpy] of [n] mapped bytes returns [dest], and afterwards the [n] bytes
    at [dest] are the bytes that were at [src] while every other byte of memory is
    unchanged.  The word loop and the byte loop together copy every byte exactly
    once, whatever the length is modulo 8. *)
Lemma memcpy_spec dest src bs m :
  bytes bs → bytes_at m src bs → mapped m dest (length bs) →
  dest ≤ src ∨ src + Z.of_nat (length bs) ≤ dest →
  ∃ m', memcpy dest src (Z.of_nat (length bs)) m = Ret dest m' ∧
    bytes_at m' dest bs ∧
    (∀ a, a < dest ∨ dest + Z.of_nat (length bs) ≤ a → m' !! a = m !! a).
Proof.
  intros. eexists. split; [by apply memcpy_ok|]. split; [apply bytes_at_write|].
  intros. by apply lookup_write_bytes_out.
Qed.

Lemma memcpy_spec_witness :
  ∃ m', memcpy 300 100 5 demo = Ret 300 m' ∧ bytes_at m' 300 (lit "hello") ∧
    (∀ a, a < 300 ∨ 305 ≤ a → m' !! a = demo !! a).
Proof.
  apply (memcpy_spec 300 100 (lit "hello") demo); [decided..|cbn; lia].
Defined.

(** C20: [memmove] is correct for every overlap of the two buffers: it returns
    [dest], the [n] bytes at [dest] are the bytes that were at [src] before the
    call, every other byte of memory is unchanged ([n] at most [INT_MAX], since
    the backward loop counts in an [int]). *)
Theorem memmove_spec dest src bs m :
  bytes bs → bytes_at m src bs → mapped m dest (length bs) →
  Z.of_nat (length bs) ≤ INT_MAX →
  ∃ m', memmove dest src (Z.of_nat (length bs)) m = Ret dest m' ∧
    bytes_at m' dest bs ∧
    (∀ a, a < dest ∨ dest + Z.of_nat (length bs) ≤ a → m' !! a = m !! a).
Proof.
  intros. eexists. split; [by apply memmove_ok|]. split; [apply bytes_at_write|].
  intros. by apply lookup_write_bytes_out.
Qed.

(** One byte up, over itself: "hello" becomes "hhell". *)
Lemma memmove_spec_witness :
  ∃ m', memmove 101 100 4 demo = Ret 101 m' ∧ bytes_at m' 101 (lit "hell") ∧
    (∀ a, a < 101 ∨ 105 ≤ a → m' !! a = demo !! a).
Proof.
  apply (memmove_spec 101 100 (lit "hell") demo); [decided..|unfold INT_MAX; cbn; lia].
Defined.

(** [memset] returns [dest] and leaves [size] copies of the low byte of [c]
    there, also for [c <> 0], where the word loop is not entered, and for every
    [c] outside the range of a byte; nothing else changes. *)
Lemma memset_spec dest c size m :
  0 ≤ size → mapped m dest (Z.to_nat size) →
  ∃ m', memset dest c size m = Ret dest m' ∧
    (∀ a, dest ≤ a < dest + size → m' !! a = Some (c `mod` 256)) ∧
    (∀ a, a < dest ∨ dest + size ≤ a → m' !! a = m !! a).
Proof.
  intros Hs Hm. eexists. split; [by apply memset_ok|]. split; intros a Ha.
  - replace a with (dest + Z.of_nat (Z.to_nat (a - dest))) by lia.
    rewrite lookup_write_bytes_in by (rewrite length_replicate; lia).
    by apply lookup_replicate_2; lia.
  - apply lookup_write_bytes_out. rewrite length_replicate. lia.
Qed.

Lemma memset_spec_witness :
  ∃ m', memset 300 (-1) 20 demo = Ret 300 m' ∧
    (∀ a, 300 ≤ a < 300 + 20 → m' !! a = Some 255) ∧
    (∀ a, a < 300 ∨ 300 + 20 ≤ a → m' !! a = demo !! a).
Proof. apply (memset_spec 300 (-1) 20 demo); [lia|decided]. Defined.

(** C21: the word loops of [memcpy] and [memset] are an optimisation only: on every
    memory of bytes and for every length, [memset] has the outcome of the loop over
    bytes, and so has [memcpy] unless the destination starts inside the source; that
    holds also where cells are not mapped and both are undefined. *)
Theorem word_loops_bytewise dest src c n m :
  0 ≤ n → map_Forall (λ _ b, is_byte b) m →
  memset dest c n m = byte_fill dest c n m ∧
  (dest ≤ src ∨ src + n ≤ dest → memcpy dest src n m = byte_copy dest src n m).
Proof. intros Hn Hm. split; [by apply memset_equiv|]. intros Ho. by apply memcpy_equiv. Qed.

Lemma word_loops_bytewise_witness :
  memset 0 0 11 (list_to_map (zip (seqZ 0 12) (seqZ 1 12))) = byte_fill 0 0 11 (list_to_map (zip (seqZ 0 12) (seqZ 1 12))) ∧
  memcpy 0 1 11 (list_to_map (zip (seqZ 0 12) (seqZ 1 12))) = byte_copy 0 1 11 (list_to_map (zip (seqZ 0 12) (seqZ 1 12))).
Proof.
  destruct (word_loops_bytewise 0 1 0 11 (list_to_map (zip (seqZ 0 12) (seqZ 1 12)))) as [H1 H2];
    [lia|apply map_Forall_to_list; unfold is_byte; decided|].
  split; [exact H1|]. apply H2. lia.
Defined.

(** The sign of [memcmp] is the lexicographic order of the two buffers. *)
Lemma memcmp_spec p1 p2 bs1 bs2 m :
  length bs1 = length bs2 → bytes_at m p1 bs1 → bytes_at m p2 bs2 →
  ∃ r, memcmp p1 p2 (Z.of_nat (length bs1)) m = Ret r m ∧ (r ?= 0) = lexcmp bs1 bs2.
Proof. intros. unfold memcmp. apply memcmp_loop_ok; done || lia. Qed.

Lemma memcmp_spec_witness :
  ∃ r, memcmp 100 200 4 demo = Ret r demo ∧ (r ?= 0) = Lt.
Proof. apply (memcmp_spec 100 200 (lit "hell") (lit "help") demo); [done|decided..]. Defined.

(** [memchr] returns the address of the first byte of the buffer equal to the
    low byte of [c], or the null pointer when there is none. *)
Lemma memchr_spec p c bs m :
  bytes_at m p bs →
  (∀ i, bs !! i = Some (c `mod` 256) → c `mod` 256 ∉ take i bs →
     memchr p c (Z.of_nat (length bs)) m = Ret (p + Z.of_nat i) m) ∧
  (c `mod` 256 ∉ bs → memchr p c (Z.of_nat (length bs)) m = Ret NULL m).
Proof.
  intros Hb. unfold memchr. rewrite memchr_loop_ok by (done || lia). split.
  - intros i Hi Hn. by rewrite (proj2 (find_byte_Some p (u8 c) bs _)) by eauto.
  - intros Hn. by rewrite (proj2 (find_byte_None p (u8 c) bs)) by done.
Qed.

Lemma memchr_spec_witness : memchr 100 (256 + 108) 5 demo = Ret 102 demo.
Proof.
  apply (proj1 (memchr_spec 100 (256 + 108) (lit "hello") demo ltac:(decided)) 2%nat);
    [done|vm_compute; set_solver].
Defined.

(** ** Strings *)

(** The sign of [strcmp] is the lexicographic order of the two strings, and
    [strncmp] orders their first [n] characters the same way, for every [n],
    zero included; neither reads past a terminator or changes memory. *)
Lemma strcmp_spec fuel m a1 a2 s1 s2 n :
  (length s1 < fuel)%nat → cstr m a1 s1 → cstr m a2 s2 → 0 ≤ n →
  (∃ r, strcmp fuel a1 a2 m = Ret r m ∧ (r ?= 0) = lexcmp s1 s2) ∧
  (∃ r, strncmp fuel a1 a2 n m = Ret r m ∧
        (r ?= 0) = lexcmp (take (Z.to_nat n) s1) (take (Z.to_nat n) s2)).
Proof. intros. split; [by apply strcmp_ok|by apply strncmp_ok]. Qed.

Lemma strcmp_spec_witness :
  (∃ r, strcmp 6 100 200 demo = Ret r demo ∧ (r ?= 0) = Lt) ∧
  (∃ r, strncmp 6 100 200 3 demo = Ret r demo ∧ (r ?= 0) = Eq).
Proof.
  apply (strcmp_spec 6 demo 100 200 (lit "hello") (lit "help") 3); [cbn; lia|decided..|lia].
Defined.

(** [strncasecmp] orders the first [n] characters of the strings in upper
    case; [strcasecmp] returns zero exactly when the strings in upper case are
    equal, but its sign is not their order: it is negative for "B" and "a". *)
Lemma strcasecmp_spec fuel m a1 a2 s1 s2 n :
  (length s1 < fuel)%nat → cstr m a1 s1 → cstr m a2 s2 → 0 ≤ n →
  (∃ r, strcasecmp fuel a1 a2 m = Ret r m ∧ (r = 0 ↔ toupper <$> s1 = toupper <$> s2)) ∧
  (∃ r, strncasecmp fuel a1 a2 n m = Ret r m ∧
        (r ?= 0) = casecmp (take (Z.to_nat n) s1) (take (Z.to_nat n) s2)) ∧
  (s1 = lit "B" → s2 = lit "a" →
   ∃ r, strcasecmp fuel a1 a2 m = Ret r m ∧ r < 0 ∧ casecmp s1 s2 = Gt).
Proof.
  intros Hf H1 H2 Hn. split_and!; [by apply strcasecmp_eq|by apply strncasecmp_ok|].
  intros -> ->. destruct fuel as [|fuel]; [cbn in Hf; lia|].
  apply cstr_cons in H1 as (H1 & _), H2 as (H2 & _).
  exists (-31). cbn [strcasecmp].
  step_with (load8_Ret _ _ _ H1). step_with (load8_Ret _ _ _ H2). done.
Qed.

Lemma strcasecmp_spec_witness :
  let m := write_bytes 10 (lit "B" ++ [0]) (write_bytes 20 (lit "a" ++ [0]) ∅) in
  (∃ r, strcasecmp 3 10 20 m = Ret r m ∧ (r = 0 ↔ toupper <$> lit "B" = toupper <$> lit "a")) ∧
  (∃ r, strncasecmp 3 10 20 9 m = Ret r m ∧ (r ?= 0) = casecmp (lit "B") (lit "a")) ∧
  (lit "B" = lit "B" → lit "a" = lit "a" →
   ∃ r, strcasecmp 3 10 20 m = Ret r m ∧ r < 0 ∧ casecmp (lit "B") (lit "a") = Gt).
Proof.
  intros m. apply (strcasecmp_spec 3 m 10 20 (lit "B") (lit "a") 9); [cbn; lia|decided..|lia].
Defined.

(** [strcpy] makes [dst] a copy of the string at [src] and [strcat] makes
    it the concatenation of the two strings; both return [dst] and change no
    byte outside the room the result takes. *)
Lemma strcpy_strcat_spec fuel m dst src s1 s2 :
  (length s1 < fuel)%nat → (length s2 < fuel)%nat → Z.of_nat (length s1) < 2 ^ 64 →
  cstr m dst s1 → cstr m src s2 → mapped m dst (S (length s1 + length s2)) →
  src + Z.of_nat (length s2) < dst ∨ dst + Z.of_nat (length s1 + length s2) < src →
  (∃ m', strcpy fuel dst src m = Ret dst m' ∧ cstr m' dst s2 ∧
     ∀ a, a < dst ∨ dst + Z.of_nat (length s2) < a → m' !! a = m !! a) ∧
  (∃ m', strcat fuel dst src m = Ret dst m' ∧ cstr m' dst (s1 ++ s2) ∧
     ∀ a, a < dst ∨ dst + Z.of_nat (length s1 + length s2) < a → m' !! a = m !! a).
Proof.
  intros Hf1 Hf2 Hl Hd Hs Hm Ho.
  replace (S (length s1 + length s2)) with (length s1 + S (length s2))%nat in Hm by lia.
  assert (mapped m dst (S (length s2))) as Hm1.
  { replace (length s1 + S (length s2))%nat with (S (length s2) + length s1)%nat in Hm by lia.
    by apply mapped_app in Hm as [? _]. }
  apply mapped_app in Hm as [_ Hm2]. pose proof Hs as [_ Hc2]. pose proof Hd as [Hb1 Hc1].
  apply bytes_at_app in Hb1 as [Hb1 _]. split.
  - eexists. split; [apply strcpy_ok; try done; lia|]. split; [by apply cstr_write|].
    intros a Ha. apply lookup_write_bytes_out. rewrite length_app. cbn [length]. lia.
  - eexists. split; [apply (strcat_ok _ _ _ _ s1 s2); try done; lia|]. split.
    + apply cstr_join; [|done|by apply cstr_write]. by apply bytes_at_write_disj; [lia|].
    + intros a Ha. apply lookup_write_bytes_out. rewrite length_app. cbn [length]. lia.
Qed.

Lemma strcpy_strcat_spec_witness :
  let m := write_bytes 300 (lit "he" ++ [0]) demo in
  (∃ m', strcpy 9 300 200 m = Ret 300 m' ∧ cstr m' 300 (lit "help") ∧
     ∀ a, a < 300 ∨ 304 < a → m' !! a = m !! a) ∧
  (∃ m', strcat 9 300 200 m = Ret 300 m' ∧ cstr m' 300 (lit "hehelp") ∧
     ∀ a, a < 300 ∨ 306 < a → m' !! a = m !! a).
Proof.
  intros m. apply (strcpy_strcat_spec 9 m 300 200 (lit "he") (lit "help"));
    [cbn; lia..|decided|decided|decided|cbn; lia].
Defined.

(** [strncpy] fills exactly [n] bytes: the first [n] characters of the string,
    then zeros; a string of [n] characters or more is left unterminated. *)
Lemma strncpy_spec fuel m dst src s n :
  (length s < fuel)%nat → cstr m src s → mapped m dst n →
  src + Z.of_nat (length s) < dst ∨ dst + Z.of_nat n ≤ src →
  ∃ m', strncpy fuel dst src (Z.of_nat n) m = Ret dst m' ∧
    (∀ i, (i < n)%nat → m' !! (dst + Z.of_nat i) = Some (default 0 (s !! i))) ∧
    (∀ a, a < dst ∨ dst + Z.of_nat n ≤ a → m' !! a = m !! a).
Proof.
  intros. eexists. split; [by apply strncpy_ok|].
  assert (length (strncpy_image n s) = n) as Hl
    by (unfold strncpy_image; rewrite length_app, length_take, length_replicate; lia).
  split.
  - intros i Hi. rewrite lookup_write_bytes_in by lia. unfold strncpy_image.
    rewrite lookup_app, lookup_take. case_decide; [|lia].
    destruct (s !! i) eqn:E; [done|]. apply lookup_ge_None in E. cbn.
    apply lookup_replicate_2. rewrite length_take. lia.
  - intros a Ha. apply lookup_write_bytes_out. lia.
Qed.

Lemma strncpy_spec_witness :
  ∃ m', strncpy 9 300 200 6 demo = Ret 300 m' ∧
    (∀ i, (i < 6)%nat → m' !! (300 + Z.of_nat i) = Some (default 0 (lit "help" !! i))) ∧
    (∀ a, a < 300 ∨ 306 ≤ a → m' !! a = demo !! a).
Proof.
  apply (strncpy_spec 9 demo 300 200 (lit "help") 6); [cbn; lia|decided..|cbn; lia].
Defined.

(** [strlen] is the length of the string.  [strnlen] is the smaller of [n]
    and the length, but it looks at the character behind the [n]-th before it
    looks at [n]: on [n] characters that fill their buffer it reads one byte too
    many, which is an access out of bounds. *)
Lemma strlen_spec fuel m a s n :
  (length s < fuel)%nat → Z.of_nat (length s) < 2 ^ 64 → 0 ≤ n →
  (cstr m a s →
     strlen fuel a m = Ret (Z.of_nat (length s)) m ∧
     strnlen fuel a n m = Ret (Z.min n (Z.of_nat (length s))) m) ∧
  (bytes_at m a s → Forall (λ b, b ≠ 0) s → m !! (a + Z.of_nat (length s)) = None →
     strnlen fuel a (Z.of_nat (length s)) m = Stuck).
Proof.
  intros Hf Hl Hn. split.
  - intros Hs. split; [by apply strlen_ok|]. unfold strnlen.
    by rewrite (strnlen_loop_ok fuel m a s 0 n).
  - intros. unfold strnlen. by eapply strnlen_loop_overread.
Qed.

Lemma strlen_spec_witness :
  strlen 9 100 demo = Ret 5 demo ∧ strnlen 9 100 3 demo = Ret 3 demo.
Proof.
  apply (proj1 (strlen_spec 9 demo 100 (lit "hello") 3 ltac:(cbn; lia) ltac:(cbn; lia) ltac:(lia))).
  decided.
Defined.

(** [strchr] returns the address of the first character of the string equal to
    the low byte of [c], [strrchr] that of the last one; both return the null
    pointer when the string has none, and also for [c = 0], where C asks for
    the address of the terminator. *)
Lemma strchr_spec fuel m a s c :
  (length s < fuel)%nat → cstr m a s →
  (∀ i, s !! i = Some (c `mod` 256) → c `mod` 256 ∉ take i s →
     strchr fuel a c m = Ret (a + Z.of_nat i) m) ∧
  (∀ i, s !! i = Some (c `mod` 256) → c `mod` 256 ∉ drop (S i) s →
     strrchr fuel a c m = Ret (a + Z.of_nat i) m) ∧
  (c `mod` 256 ∉ s → strchr fuel a c m = Ret NULL m ∧ strrchr fuel a c m = Ret NULL m) ∧
  (c `mod` 256 = 0 → strchr fuel a c m = Ret NULL m ∧ strrchr fuel a c m = Ret NULL m).
Proof.
  intros Hf Hs. unfold strchr, strrchr.
  rewrite (strchr_loop_ok _ _ _ s), (strrchr_loop_ok _ _ _ s _ None) by done.
  change (c `mod` 256) with (u8 c).
  assert (u8 c ∉ s → Ret (ptr_of (find_byte a (u8 c) s)) m = Ret NULL m ∧
            Ret (ptr_of (find_last a (u8 c) s None)) m = Ret NULL m) as Hnone.
  { intros Hn. rewrite (proj2 (find_byte_None a (u8 c) s)) by done. split; [done|].
    destruct (find_last a (u8 c) s None) as [p|] eqn:E; [|done].
    apply find_last_Some in E as (i & _ & Hi & _). by apply list_elem_of_lookup_2 in Hi. }
  split_and!; [..|done|].
  - intros i Hi Hn. by rewrite (proj2 (find_byte_Some a (u8 c) s _)) by eauto.
  - intros i Hi Hn. by rewrite (proj2 (find_last_Some a (u8 c) s _)) by eauto.
  - intros E. apply Hnone. intros Hin. destruct Hs as [_ Hs].
    rewrite Forall_forall in Hs. specialize (Hs _ Hin). cbn in Hs. lia.
Qed.

Lemma strchr_spec_witness :
  strchr 9 100 108 demo = Ret 102 demo ∧ strrchr 9 100 108 demo = Ret 103 demo.
Proof.
  destruct (strchr_spec 9 demo 100 (lit "hello") 108) as (H1 & H2 & _); [cbn; lia|decided|].
  split; [apply (H1 2%nat)|apply (H2 3%nat)]; (done || vm_compute; set_solver).
Defined.

(** [strstr] returns the address of the first occurrence of the needle in
    the haystack, the null pointer when it does not occur, and the haystack for
    the empty needle. *)
Lemma strstr_spec fuel m hay needle h n :
  (length h < fuel)%nat → (length n < fuel)%nat →
  Z.of_nat (length h) < 2 ^ 64 → Z.of_nat (length n) < 2 ^ 64 →
  cstr m hay h → cstr m needle n → hay ≠ NULL → needle ≠ NULL →
  (n = [] → strstr fuel hay needle m = Ret hay m) ∧
  (∀ i, n ≠ [] → n `prefix_of` drop i h → (∀ j, (j < i)%nat → ¬ n `prefix_of` drop j h) →
     strstr fuel hay needle m = Ret (hay + Z.of_nat i) m) ∧
  (n ≠ [] → (∀ i, ¬ n `prefix_of` drop i h) → strstr fuel hay needle m = Ret NULL m).
Proof.
  intros. rewrite (strstr_ok _ _ _ _ h n) by done. split_and!.
  - intros ->. by rewrite decide_True.
  - intros i Hn Hi Hj. rewrite decide_False by done.
    by rewrite (proj2 (find_sub_Some hay n h _ Hn)) by eauto.
  - intros Hn Hall. rewrite decide_False by done.
    destruct (find_sub hay n h) as [p|] eqn:E; [|done].
    apply find_sub_Some in E as (i & _ & Hi & _); [|done]. by destruct (Hall i).
Qed.

Lemma strstr_spec_witness : strstr 9 100 220 demo = Ret 103 demo.
Proof.
  destruct (strstr_spec 9 demo 100 220 (lit "hello") (lit "lo")) as (_ & H & _);
    [cbn; lia..|decided|decided|done|done|].
  apply (H 3%nat); [done|by exists []|]. intros [|[|[|j]]] Hj [k Hk]; done || lia.
Defined.

(** C19: calling [strtok] on a string until it returns the null pointer gives
    the maximal runs of characters that are not in the pattern, in their order:
    the pointers it returned are, in the final memory, those strings; no byte
    outside the string is touched. *)
Theorem strtok_spec fuel m src pattern delims s :
  (length s < fuel)%nat → (length delims < fuel)%nat → 0 < src →
  cstr m src s → cstr m pattern delims →
  pattern + Z.of_nat (length delims) < src ∨ src + Z.of_nat (length s) < pattern →
  ∃ ts m', strtok_all (S (length s)) fuel src pattern NULL m = Ret ts m' ∧
    Forall2 (cstr m') ts (words delims s) ∧
    (∀ a, a < src ∨ src + Z.of_nat (length s) ≤ a → m' !! a = m !! a).
Proof.
  intros Hf Hd Hpos Hs Hp Ho.
  apply (strtok_all_ok _ fuel m src NULL src pattern delims); try done; [lia| |].
  - unfold NULL. by rewrite (proj2 (Z.eqb_neq src 0)) by lia.
  - split; [done|lia].
Qed.

Lemma strtok_spec_witness :
  let m := write_bytes 100 (lit "  a=bc, d" ++ [0]) (write_bytes 20 (lit " =," ++ [0]) ∅) in
  ∃ ts m', strtok_all 10 11 100 20 NULL m = Ret ts m' ∧
    Forall2 (cstr m') ts [lit "a"; lit "bc"; lit "d"] ∧
    (∀ a, a < 100 ∨ 109 ≤ a → m' !! a = m !! a).
Proof.
  intros m. apply (strtok_spec 11 m 100 20 (lit " =,") (lit "  a=bc, d"));
    [cbn; lia..|decided|decided|cbn; lia].
Defined.

(** ** Numbers *)

(** The text of a number as the readers see it: blanks, a sign for [strtol],
    the prefix "0x" where the base allows it, digits below the base, and what
    follows them. *)
Record number_text (BASE : Z) (ws t cs rest : list Z) : Prop := {
  nt_BASE : 0 ≤ BASE ≤ 36;
  nt_ws : Forall (λ c, is_blank c = true) ws;
  nt_split : drop (eff_prefix BASE t) t = cs ++ rest;
  nt_digits : Forall (λ c, digit_lt (eff_base BASE t) c = true) cs;
  nt_rest : ∀ c r', rest = c :: r' → digit_lt (eff_base BASE t) c = false;
}.

(** [strtoul] skips blanks, recognises a "0x" prefix for the bases 0 and 16,
    and returns the value of the longest run of digits, modulo 2^64, with the
    address of the first character behind it; a base outside [0, 36] gives 0 and
    the start of the string. *)
Lemma strtoul_spec fuel m a BASE ws t cs rest :
  (length ws + length t < fuel)%nat → number_text BASE ws t cs rest →
  (∀ c t', t = c :: t' → is_blank c = false) → cstr m a (ws ++ t) →
  strtoul fuel a BASE m =
    Ret (num_value (eff_base BASE t) cs `mod` 2 ^ 64,
         a + Z.of_nat (length ws + eff_prefix BASE t + length cs)) m ∧
  (∀ B, B < 0 ∨ 36 < B → strtoul fuel a B m = Ret (0, a) m).
Proof.
  intros Hf [H1 H2 H3 H4 H5] Ht Hs. split.
  - rewrite (strtoul_ok fuel m a BASE ws t cs rest) by done. f_equal. change (wrap 64 ?x) with (x `mod` 2 ^ 64). f_equal. lia.
  - intros B HB. unfold strtoul. destruct (Z.ltb_spec B 0), (Z.ltb_spec 36 B); done || lia.
Qed.

Lemma strtoul_spec_witness :
  let m := write_bytes 10 (lit "  0x1fg" ++ [0]) ∅ in
  strtoul 9 10 0 m = Ret (31, 16) m ∧ (∀ B, B < 0 ∨ 36 < B → strtoul 9 10 B m = Ret (0, 10) m).
Proof.
  intros m. apply (strtoul_spec 9 m 10 0 (lit "  ") (lit "0x1fg") (lit "1f") (lit "g"));
    [cbn; lia| |by intros c t' [= <- _]|decided].
  constructor; [lia|by repeat constructor|done|by repeat constructor|by intros c r' [= <- _]].
Defined.

(** [strtol] reads a signed number that fits in a [long]: blanks, a minus
    sign, a prefix, digits; the value is exact, no step of the computation
    overflows, and the address is that of the first character behind it. *)
Lemma strtol_spec fuel m a BASE (negative : bool) ws t cs rest :
  let sign := if negative then [45] else [] in
  let v := num_value (eff_base BASE t) cs in
  (S (length ws + length t) < fuel)%nat → number_text BASE ws t cs rest →
  (∀ c t', sign ++ t = c :: t' → is_blank c = false ∧ (negative = false → c ≠ 45)) →
  1 ≤ eff_base BASE t → v < 2 ^ 63 → cstr m a (ws ++ sign ++ t) →
  strtol fuel a BASE m =
    Ret (if negative then - v else v,
         a + Z.of_nat (length ws + length sign + eff_prefix BASE t + length cs)) m.
Proof.
  intros sign v Hf [H1 H2 H3 H4 H5] Ht Hb Hv Hs.
  rewrite (strtol_ok fuel m a BASE ws t cs rest ltac:(lia) H1 H2 H3 H4 H5 negative Ht) by done.
  fold sign v. f_equal. f_equal. lia.
Qed.

Lemma strtol_spec_witness :
  let m := write_bytes 10 (lit " -42;" ++ [0]) ∅ in strtol 9 10 0 m = Ret (-42, 14) m.
Proof.
  intros m. apply (strtol_spec 9 m 10 0 true (lit " ") (lit "42;") (lit "42") (lit ";"));
    [cbn; lia| |by intros c t' [= <- _]|done|done|decided].
  constructor; [lia|by repeat constructor|done|by repeat constructor|by intros c r' [= <- _]].
Defined.

Lemma itoa_no_0x base upper v : 2 ≤ base ≤ 16 → starts_0x (itoa base upper v) = false.
Proof.
  intros Hb. pose proof (itoa_digits base upper v Hb) as Hd.
  destruct (itoa base upper v) as [|c0 [|c1 l]]; [reflexivity|reflexivity|]. cbn [starts_0x].
  apply Forall_cons in Hd as [_ [Hd _]%Forall_cons].
  destruct (Z.eqb_spec c1 120) as [->|]; [|by rewrite andb_false_r].
  change ((33 <? base) = true) in Hd. apply Z.ltb_lt in Hd. lia.
Qed.

Lemma digit_not_blank base c : digit_lt base c = true → is_blank c = false.
Proof.
  unfold digit_lt, digit_of, is_blank. intros H.
  destruct (Z.eqb_spec c 32), (Z.eqb_spec c 9), (Z.eqb_spec c 10), (Z.eqb_spec c 13); subst; done.
Qed.

(** C18: a 64-bit number that [print_itoa] prints into a buffer in a base from 3
    to 16, in lower or upper case, is read back by [strtoul] in the same base, and
    the reader stops at the end of the digits. *)
Theorem itoa_strtoul_roundtrip fuel m buffer bufsize v base upper :
  2 < base ≤ 16 → 0 ≤ v < 2 ^ 64 → 64 ≤ bufsize → (64 < fuel)%nat →
  mapped m buffer 65 →
  ∃ p m1, print_itoa buffer bufsize v base upper m = Ret p m1 ∧
    (∀ m2, store8 p 0 m1 = Ret tt m2 → strtoul fuel buffer base m2 = Ret (v, p) m2) ∧
    (∃ m2, store8 p 0 m1 = Ret tt m2).
Proof.
  intros Hb Hv Hsz Hf Hm. set (s := itoa base upper v).
  assert (length s ≤ 64)%nat as Hl.
  { unfold s, itoa, digits. rewrite length_fmap. destruct (v =? 0); [cbn; lia|].
    apply digits_fuel_length. }
  assert (∃ x, write_bytes buffer s m !! (buffer + Z.of_nat (length s)) = Some x) as [x Hx].
  { apply (mapped_lookup _ _ 65); [by apply mapped_write|lia]. }
  eexists _, _. split; [apply print_itoa_ok; try done; fold s|]; [lia| |].
  { replace 65%nat with (length s + (65 - length s))%nat in Hm by lia.
    by apply mapped_app in Hm as [? _]. }
  fold s. rewrite (store8_Ret _ _ 0 x Hx). split; [|by eexists].
  intros m2 [= <-]. change (<[?a:=u8 0]> ?m0) with (write_bytes a [0] m0).
  rewrite <- (write_bytes_app buffer s [0]).
  pose proof (itoa_digits base upper v ltac:(lia)) as Hd.
  assert (eff_base base s = base) as Hbase.
  { unfold eff_base. by rewrite (proj2 (Z.eqb_neq base 0)) by lia. }
  assert (eff_prefix base s = 0%nat) as Hpre.
  { unfold eff_prefix, s. by rewrite itoa_no_0x, andb_false_r by lia. }
  rewrite (strtoul_ok fuel _ buffer base [] s s []); rewrite ?Hbase, ?Hpre; try done.
  - unfold s. rewrite num_value_itoa, wrap_small by lia. repeat f_equal. cbn. lia.
  - cbn. lia.
  - lia.
  - by rewrite app_nil_r.
  - intros c t' E. fold s in Hd. rewrite E in Hd. apply Forall_cons in Hd as [Hc _].
    by eapply digit_not_blank.
  - apply cstr_write. apply itoa_chars. lia.
Qed.

Lemma itoa_strtoul_roundtrip_witness :
  let m := write_bytes 100 (replicate 65 7) ∅ in
  ∃ p m1, print_itoa 100 64 0xdeadbeef 16 true m = Ret p m1 ∧
    (∀ m2, store8 p 0 m1 = Ret tt m2 → strtoul 65 100 16 m2 = Ret (0xdeadbeef, p) m2) ∧
    (∃ m2, store8 p 0 m1 = Ret tt m2).
Proof.
  intros m. apply (itoa_strtoul_roundtrip 65 m 100 64 0xdeadbeef 16 true); [lia..|decided].
Defined.
