(* ===== verification/FirmwareProps.v ===== *)
(** * What the firmware promises

    Formatted output, the console, the hello-world program and the flash boot
    loader ([main.c], [lib/console.c], [hello_world.c]), for every UART of the
    class [Uart].  The loader's theorems are for the real [_printf]: the class
    [PrintfOk] of [BootSpec] is discharged by [fw_printf_ok]. *)
From S2P Require Import Prelude CMem LibMem LibStr Strtol Printf PrintfSpec Soc Io Console Hello Fw Elf ElfTables Boot BootSpec.

#[local] Instance apart_dec fr st bs a n : Decision (apart fr st bs a n).
Proof. unfold apart. apply _. Defined.

(** ** Formatted output *)

(** C6: [vsnprintf] refines the rendering of formats: for a format made of
    literals, "%%" and the directives d, i, u, x, X, o, p, c, s with width, zero
    flag and length modifiers, and arguments of the right kinds, it returns the
    length of the rendered text, leaves the text with its terminator in the buffer,
    and changes no byte outside the buffer and its own stack frame. *)
Theorem vsnprintf_refines fr fuel buffer bufsize lit_0x strs fmt items args out m :
  fr + 52 ≤ buffer ∨ buffer + bufsize ≤ fr → buffer ≠ NULL →
  0 < bufsize < 2 ^ 31 → (Z.to_nat bufsize < fuel)%nat → (40 < fuel)%nat →
  (length items < fuel)%nat → Forall wf_item items →
  vsn_ok fr fuel buffer (bufsize - 1) lit_0x strs m fmt items args →
  mapped m buffer (Z.to_nat bufsize) →
  render strs items args = Some out → Z.of_nat (length out) < bufsize →
  ∃ m', vsnprintf fr fuel lit_0x buffer bufsize fmt args m = Ret (Z.of_nat (length out)) m' ∧
    bytes_at m' buffer (out ++ [0]) ∧
    ∀ a, a < fr ∨ fr + 52 ≤ a → a < buffer ∨ buffer + Z.of_nat (length out) < a →
      m' !! a = m !! a.
Proof.
  intros Hd Hnull Hbs Hf1 Hf2 Hf3 Hwf Hvsn Hbuf Hr Hlen.
  destruct (vsnprintf_ok fr fuel buffer bufsize lit_0x strs fmt items args out m)
    as (m' & Hrun & _ & Hoff); try done.
  exists m'. split; [done|]. split.
  - apply bytes_at_intro. intros i b Hi. pose proof (lookup_lt_Some _ _ _ Hi) as Hlt.
    rewrite length_app in Hlt. cbn [length] in Hlt.
    rewrite Hoff by lia. rewrite lookup_write_bytes_in; [done|]. rewrite length_app. cbn. lia.
  - intros a Ha1 Ha2. rewrite Hoff by done. apply lookup_write_bytes_out.
    rewrite length_app. cbn [length]. lia.
Qed.

(** "%d [%08lx]%%" of 42 and 0xbeef. *)
Definition demo_items : list item :=
  [dir false [] LNone Cd; ILit 32; ILit 91; dir true [56] Ll Cx; ILit 93; IPct].

Lemma vsnprintf_refines_witness :
  let m := write_bytes 0 (lit "%d [%08lx]%%" ++ [0]) (write_bytes 20 (lit "0x" ++ [0])
    (write_bytes 100 (replicate 52 0) (write_bytes 200 (replicate 64 0) ∅))) in
  ∃ m', vsnprintf 100 65 20 200 64 0 [42; 0xbeef] m = Ret 14 m' ∧
    bytes_at m' 200 (lit "42 [0000beef]%" ++ [0]) ∧
    ∀ a, a < 100 ∨ 100 + 52 ≤ a → a < 200 ∨ 200 + 14 < a → m' !! a = m !! a.
Proof.
  intros m.
  apply (vsnprintf_refines 100 65 200 64 20 (λ _, []) 0 demo_items [42; 0xbeef]
    (lit "42 [0000beef]%") m); try (cbn; lia); [done| | |decided|reflexivity].
  - unfold demo_items. repeat (apply Forall_cons; split; [first [by apply wf_dir|done]|]). done.
  - constructor; try decided. cbn. repeat split; done || lia.
Defined.

(** C7: a call of [_printf] whose text is shorter than the buffer of 128 bytes
    sends exactly that text to the console, each line feed preceded by a carriage
    return, returns its length, changes memory only in its own buffers, and
    touches no device but the UART; the console is then ready for the next call. *)
Theorem printf_sends {D : Type} `{!Bus D} (u : uart_state) `{!Uart D u} (e : fw_env)
    fmt args out (s : machine D) :
  fw_layout e → (tx_bound < fw_fuel e)%nat → fw_ok u e s → fmt ∈ fw_formats e →
  printf_call (fw_str_at e) (fw_str e) fmt args out →
  ∃ s' evs, _printf e u (fw_lit e fmt) args s = Ret (Z.of_nat (length out)) s' ∧
    fw_ok u e s' ∧ same_outside (fw_addr e) (ram s) (ram s') ∧
    tx_log (dev s') = tx_log (dev s) ++ crlf out ∧
    io_trace s' = io_trace s ++ evs ∧ Forall (uart_event u) evs.
Proof. intros. by apply fw_printf_run. Qed.

(** *** A firmware image for the examples

    The literals and the stack lie where [sdram_init.lds.S] and [head.S] put them:
    the program is at [0xff000000] and the stack ends at [0xff006000]. *)

(** The address of [f] when the strings [fs] are laid out from [a] on. *)
Fixpoint place (a : Z) (fs : list (list Z)) (f : list Z) : Z :=
  match fs with
  | [] => a
  | g :: fs => if decide (f = g) then a else place (a + Z.of_nat (S (length g))) fs f
  end.

Definition demo_env : fw_env := {|
  fw_fuel := 150;
  fw_frame := 0xff005b00;
  fw_buffer := 0xff005c00;
  fw_0x := 0xff003000;
  fw_formats := boot_formats;
  fw_lit := place 0xff003100 boot_formats;
  fw_str_at := 0xff003010;
  fw_str := lit "v1";
|}.

Definition demo_ram : mem :=
  foldr (λ f m, write_bytes (fw_lit demo_env f) (f ++ [0]) m)
    (write_bytes 0xff005b00 (replicate 52 0) (write_bytes 0xff005c00 (replicate 128 0)
      (write_bytes 0xff003000 (lit "0x" ++ [0]) (write_bytes 0xff003010 (lit "v1" ++ [0]) ∅))))
    boot_formats.

Definition demo_uart : uart_state := {| uart_is_std := true; uart_base := UART_BASE |}.

(** The machine with a memory [m], a quiet UART, and [cs] to be received. *)
Definition demo_machine (m : mem) (cs : list Z) : machine (sim_uart demo_uart) :=
  Machine m (SimUart 2 0 [] 3 cs) [].

Lemma demo_layout : fw_layout demo_env.
Proof.
  constructor; [cbn; unfold PRINTF_BUFFER; lia|done|cbn; lia| |decided|]; unfold fw_apart.
  - decided.
  - split; [decided|cbn; lia].
Qed.

Lemma demo_fw_ok : fw_ok demo_uart demo_env (demo_machine demo_ram []).
Proof. constructor; decided. Qed.

Lemma printf_sends_witness :
  ∃ s' evs, _printf demo_env demo_uart (fw_lit demo_env msg_copy) [1; 0x20; 0x4000]
      (demo_machine demo_ram []) = Ret 38 s' ∧
    fw_ok demo_uart demo_env s' ∧ same_outside (fw_addr demo_env) demo_ram (ram s') ∧
    tx_log (dev s') = lit "Copy segment 1 (0x20 bytes) to 0x4000" ++ [13; 10] ∧
    io_trace s' = evs ∧ Forall (uart_event demo_uart) evs.
Proof.
  assert (copy_line 1 0x20 0x4000 = lit "Copy segment 1 (0x20 bytes) to 0x4000" ++ [10]) as E
    by (vm_compute; reflexivity).
  destruct (printf_sends demo_uart demo_env msg_copy [1; 0x20; 0x4000]
    (copy_line 1 0x20 0x4000) (demo_machine demo_ram []) demo_layout) as (s' & evs & H).
  - cbn. lia.
  - apply demo_fw_ok.
  - decided.
  - apply copy_call; lia.
  - exists s', evs. rewrite E in H. exact H.
Defined.

(** ** The console *)

Section console.
Context {D : Type} `{!Bus D} (u : uart_state) `{!Uart D u}.

(** [puts] polls the transmitter before every character and sends the
    string, with a carriage return before every line feed; it ends, returns 0 and
    leaves memory and the received characters alone, whatever the delay of the
    transmitter is. *)
Lemma puts_sends fuel k str t (s : machine D) :
  (tx_bound < fuel)%nat → (tx_busy (dev s) < fuel)%nat → (length t < k)%nat →
  cstr (ram s) str t →
  ∃ s', puts fuel k u str s = Ret 0 s' ∧ ram s' = ram s ∧
    rx_queue (dev s') = rx_queue (dev s) ∧ tx_log (dev s') = tx_log (dev s) ++ crlf t.
Proof.
  intros Hf Hb Hk Hs.
  destruct (puts_loop_ok u fuel k str t s) as (s' & Hr & Hm & Hl & Hq & _); try done.
  exists s'. unfold puts. by step_with Hr.
Qed.

(** [getchar] waits for a character and returns the oldest one that was
    received, exactly once: the device has the rest of them left, nothing was sent
    and memory is unchanged. *)
Lemma getchar_receives fuel c q (s : machine D) :
  (rx_wait (dev s) < fuel)%nat → rx_queue (dev s) = c :: q →
  ∃ s', getchar fuel u s = Ret c s' ∧ ram s' = ram s ∧
    rx_queue (dev s') = q ∧ tx_log (dev s') = tx_log (dev s).
Proof.
  intros Hf Hq. destruct (getchar_ok u fuel c q s Hf Hq) as (s' & Hr & [Hm Hl] & Hq' & _).
  by exists s'.
Qed.
End console.

Lemma puts_sends_witness :
  let s := demo_machine (write_bytes 50 (lit "hi" ++ [10; 0]) ∅) [65] in
  ∃ s', puts 65 5 demo_uart 50 s = Ret 0 s' ∧ ram s' = ram s ∧
    rx_queue (dev s') = [65] ∧ tx_log (dev s') = lit "hi" ++ [13; 10].
Proof.
  intros s. pose proof (puts_sends demo_uart 65 5 50 (lit "hi" ++ [10]) s) as H.
  apply H; [cbn; lia..|decided].
Defined.

Lemma getchar_receives_witness :
  let s := demo_machine ∅ [65; 66] in
  ∃ s', getchar 65 demo_uart s = Ret 65 s' ∧ ram s' = ∅ ∧
    rx_queue (dev s') = [66] ∧ tx_log (dev s') = [].
Proof.
  intros s. pose proof (getchar_receives demo_uart 65 65 [66] s) as H. apply H; [cbn; lia|done].
Defined.

(** C38: [console_init] returns on every machine: it reads the clock and the
    feature bits, reads the description of the UART only when the syscon has one,
    takes the 16550 exactly when bit 32 of that is set, and makes the
    initialisation stores of the chosen UART, and no others, with the divisor of
    the 40-bit processor clock; that divisor is exact. *)
Theorem console_init_accesses {D : Type} `{!Bus D} (s : machine D) :
  ∃ u s' clk info uinfo,
    console_init s = Ret u s' ∧ ram s' = ram s ∧ uart_base u = UART_BASE ∧
    uart_is_std u = Z.testbit info 5 && Z.testbit uinfo 32 ∧
    io_trace s' = io_trace s ++
      [Ld 8 (SYSCON_BASE + SYS_REG_CLKINFO) clk; Ld 8 (SYSCON_BASE + SYS_REG_INFO) info] ++
      (if Z.testbit info 5 then [Ld 8 (SYSCON_BASE + SYS_REG_UART0_INFO) uinfo] else []) ++
      (if uart_is_std u then std_init_stores else potato_init_stores) UART_BASE (wrap 40 clk) ∧
    let div := uart_divisor (wrap 40 clk) UART_BAUDS in
    div * (16 * 115200) ≤ wrap 40 clk < (div + 1) * (16 * 115200).
Proof.
  destruct (console_init_ok s) as (u & s' & clk & info & ui & H1 & H2 & H3 & H4 & H5).
  exists u, s', clk, info, ui. do 5 (split; [done|]).
  apply uart_divisor_ok. by apply wrap_range.
Qed.

(** After [console_init], the hello-world program prints its logo, the 56-bit
    git hash in hex, "-dirty" exactly when the top bit of the git register is set,
    and the rest of the logo, then echoes every received character once and in
    order, a carriage return with a line feed. *)
Lemma hello_prints {D : Type} `{!Bus D} (u : uart_state) `{!Uart D u} fuel k l git cs q
    (s : machine D) :
  (tx_bound < fuel)%nat → (rx_bound < fuel)%nat → git_info_of u git →
  hello_loaded l (ram s) → ready u fuel s → (length mw_logo1 < k)%nat →
  rx_queue (dev s) = cs ++ q → bytes cs →
  ∃ s', hello_body fuel k l u (length cs) s = Ret tt s' ∧ ram s' = ram s ∧
    rx_queue (dev s') = q ∧
    tx_log (dev s') = tx_log (dev s) ++ hello_text git ++ echo_text cs.
Proof. intros. by apply hello_body_ok. Qed.

Definition demo_lits : hello_lits := {| logo1_at := 0x100; logo2_at := 0x200; dirty_at := 0x280 |}.
Definition demo_hello : mem :=
  write_bytes 0x100 (mw_logo1 ++ [0]) (write_bytes 0x200 (mw_logo2 ++ [0])
    (write_bytes 0x280 (dirty_text ++ [0]) ∅)).

(** The example UART has no git register: reading it gives zero. *)
Lemma hello_prints_witness :
  let s := demo_machine demo_hello [65; 13; 66] in
  ∃ s', hello_body 65 200 demo_lits demo_uart 2 s = Ret tt s' ∧ ram s' = ram s ∧
    rx_queue (dev s') = [66] ∧
    tx_log (dev s') = (crlf mw_logo1 ++ replicate 14 48 ++ crlf mw_logo2) ++ [65; 13; 10].
Proof.
  intros s. pose proof (hello_prints demo_uart 65 200 demo_lits 0 [65; 13] [66] s) as H. apply H.
  - cbn. lia.
  - cbn. lia.
  - intros d. by cbn.
  - split_and!; decided.
  - split; cbn; lia.
  - vm_compute. lia.
  - done.
  - decided.
Defined.

(** ** Booting from flash *)

Section flash.
Context {D : Type} `{!Bus D} (u : uart_state) `{!Uart D u} (e : fw_env) (f : boot_frame).
Hypothesis layout : fw_layout e.
Hypothesis tx_fuel : (tx_bound < fw_fuel e)%nat.
Abbreviation fwP := (fw_printf e : Printf D).
Abbreviation fwOk := (fw_printf_ok u e layout tx_fuel).
Context (m0 : mem) (offset : Z) (img : list Z) (h : Elf64_Ehdr) (phs : list Elf64_Phdr).
Context (fuel : nat) (s : machine D).

(** What a call of [boot_flash] on the image needs: the locals and the console
    are where nothing else is, the image is in the flash window, and the segments
    go to memory that is neither flash nor the loader's own. *)
Record bootable : Prop := {
  bt_frame : frame_ok u f (Printf0 := fwP) (PrintfOk0 := fwOk);
  bt_image : elf_image img h phs;
  bt_offset : 0 ≤ offset ∧ offset + Z.of_nat (length img) ≤ FLASH_WINDOW;
  bt_pre : boot_pre u f m0 offset img phs s (Printf0 := fwP) (PrintfOk0 := fwOk);
}.

(** C1: [boot_flash] on a little-endian PPC64 ELF image copies, for each of the
    leading [PT_LOAD] program headers, the [p_filesz] bytes at [p_offset] of the
    image to [p_vaddr], returns the entry point, prints one line per segment, and
    changes nothing else but its own locals and buffers. *)
Theorem boot_flash_loads :
  bootable → ppc64le_elf h → (length phs < fuel)%nat →
  ∃ s', boot_flash (Printf0 := fwP) u fuel f offset s = Ret (e_entry h) s' ∧
    same_outside (scratch u f (Printf0 := fwP) (PrintfOk0 := fwOk))
      (load_all img (load_prefix phs) m0) (ram s') ∧
    tx_log (dev s') = tx_log (dev s) ++ crlf msg_trying ++ copy_text 0 (load_prefix phs) ++
      crlf (boot_line (e_entry h `mod` 2 ^ 32)).
Proof.
  intros [H1 H2 H3 H4] He Hf.
  destruct (boot_flash_ok u f H1 m0 offset img h phs (elf_hdr_image _ _ _ H2) H3 H2 fuel s H4 He Hf)
    as (s' & Hr & _ & Hm & Ht).
  by exists s'.
Qed.

(** C2: whatever the flash holds at the offset, when its first 64 bytes are not
    the header of a little-endian PPC64 ELF file (erased flash, data, an ELF file of
    another class, byte order or machine), [boot_flash] returns [ULONG_MAX] after
    printing whether the header is that of a 64-bit ELF file at all, and its first
    eight bytes; nothing is copied: memory is unchanged outside the locals and
    buffers of the loader. *)
Theorem boot_flash_refuses hdr :
  frame_ok u f (Printf0 := fwP) (PrintfOk0 := fwOk) →
  hdr_pre u f m0 offset hdr s (Printf0 := fwP) (PrintfOk0 := fwOk) →
  ¬ ppc64le_hdr hdr →
  ∃ s', boot_flash (Printf0 := fwP) u fuel f offset s = Ret (2 ^ 64 - 1) s' ∧
    same_outside (scratch u f (Printf0 := fwP) (PrintfOk0 := fwOk)) m0 (ram s') ∧
    tx_log (dev s') = tx_log (dev s) ++ crlf msg_trying ++
      crlf (if elf64_hdr hdr then msg_not_ppc else msg_not_elf) ++
      crlf (hdr_line (take 8 hdr)).
Proof.
  intros H1 H2 H3.
  destruct (boot_flash_refused_hdr u f H1 m0 offset hdr fuel s H2 H3) as (s' & Hr & _ & Hm & Ht).
  by exists s'.
Qed.

(** One header that is not [PT_LOAD] hides all that follow it: when the first
    program header has another type, [boot_flash] copies no segment at all and
    still returns the entry point, although later headers are [PT_LOAD]. *)
Lemma boot_flash_stops_at_other p rest :
  bootable → ppc64le_elf h → (length phs < fuel)%nat →
  phs = p :: rest → p_type p ≠ PT_LOAD →
  ∃ s', boot_flash (Printf0 := fwP) u fuel f offset s = Ret (e_entry h) s' ∧
    same_outside (scratch u f (Printf0 := fwP) (PrintfOk0 := fwOk)) m0 (ram s').
Proof.
  intros [H1 H2 H3 H4] He Hf Hp Hty.
  destruct (boot_flash_ok u f H1 m0 offset img h phs (elf_hdr_image _ _ _ H2) H3 H2 fuel s H4 He Hf)
    as (s' & Hr & _ & Hm & _).
  exists s'. split; [done|]. rewrite Hp in Hm. cbn [load_prefix] in Hm.
  by rewrite (proj2 (Z.eqb_neq _ _) Hty) in Hm.
Qed.
End flash.

(** *** An image for the examples *)

Definition demo_ehdr (machine : Z) : Elf64_Ehdr := {|
  e_ident := [ELFMAG0; ELFMAG1; ELFMAG2; ELFMAG3; ELFCLASS64; ELFDATA2LSB; 1; 0; 0; 0; 0; 0; 0; 0; 0; 0];
  e_type := 2; e_machine := machine; e_version := 1; e_entry := 0x40000010; e_phoff := 64;
  e_shoff := 0; e_flags := 2; e_ehsize := 64; e_phentsize := 56; e_phnum := 2; e_shentsize := 64;
  e_shnum := 0; e_shstrndx := 0;
|}.

(** A segment of eight bytes behind the two headers. *)
Definition demo_phdr (type : Z) : Elf64_Phdr := {|
  p_type := type; p_flags := 7; p_offset := 176; p_vaddr := 0x40000000; p_paddr := 0x40000000;
  p_filesz := 8; p_memsz := 8; p_align := 8;
|}.
Definition PT_NOTE : Z := 4.

Definition demo_img (machine t1 t2 : Z) : list Z :=
  ehdr_bytes (demo_ehdr machine) ++ phdr_bytes (demo_phdr t1) ++ phdr_bytes (demo_phdr t2) ++
  [1; 2; 3; 4; 5; 6; 7; 8].

Definition demo_frame : boot_frame := {| ehdr_at := 0xff005d00; ph_at := 0xff005e00 |}.

Definition demo_boot (img : list Z) : mem :=
  write_bytes 0xff005d00 (replicate 64 0) (write_bytes 0xff005e00 (replicate 56 0)
    (write_bytes 0x40000000 (replicate 16 0) (write_bytes (SPI_FLASH_BASE + 0x1000) img demo_ram))).

#[local] Instance fits_dec fs : Decision (fits fs).
Proof. unfold fits. apply Forall_dec. intros [n v]. apply _. Defined.

Lemma demo_addr k : fw_addr demo_env k → 0xff003000 ≤ k < 0xff005d00.
Proof.
  unfold fw_addr, within. cbn [fw_frame fw_buffer fw_0x fw_str_at fw_str fw_formats demo_env].
  intros [H|[H|[H|[H|H]]]]; try (cbn in H; lia).
  assert (Forall (λ f, 0xff003000 ≤ fw_lit demo_env f ∧
    fw_lit demo_env f + Z.of_nat (S (length f)) ≤ 0xff005b00) boot_formats) as Hall by decided.
  apply Exists_exists in H as (g & Hg & Hk). rewrite Forall_forall in Hall.
  specialize (Hall g Hg). cbn beta in Hall. lia.
Qed.

Lemma demo_tx : (tx_bound (D := sim_uart demo_uart) (u := demo_uart) < fw_fuel demo_env)%nat.
Proof. cbn. lia. Qed.

Section demo_image.
Context (machine t1 t2 : Z).
Abbreviation img := (demo_img machine t1 t2).
Abbreviation phs := [demo_phdr t1; demo_phdr t2].
Hypothesis ehdr_fits : fits (ehdr_fields (demo_ehdr machine)).

Lemma demo_phs p : p ∈ load_prefix phs → ∃ ty, p = demo_phdr ty.
Proof.
  intros Hp. apply list_elem_of_lookup in Hp as [i Hi]. apply load_prefix_lookup in Hi as [Hi _].
  destruct i as [|[|]]; cbn in Hi; simplify_eq; eauto.
Qed.

Lemma demo_ehdr_wf : ehdr_wf (demo_ehdr machine).
Proof. constructor; [done|decided|done]. Qed.

Lemma length_demo_img : length img = 184%nat.
Proof. unfold demo_img. by rewrite !length_app, (length_ehdr_bytes _ demo_ehdr_wf), !length_phdr_bytes. Qed.

Lemma demo_image :
  fits (phdr_fields (demo_phdr t1)) → fits (phdr_fields (demo_phdr t2)) → bytes img →
  elf_image img (demo_ehdr machine) phs.
Proof.
  intros Hf1 Hf2 Hb. constructor.
  - done.
  - apply demo_ehdr_wf.
  - reflexivity.
  - done.
  - intros [|[|i]] p Hp; cbn in Hp; simplify_eq; (split; [done|reflexivity]).
  - apply Forall_forall. intros p [ty ->]%demo_phs. rewrite length_demo_img. cbn. lia.
Qed.

End demo_image.

Section demo.
Context {D : Type} `{!Bus D, !Uart D demo_uart}.
Hypothesis tx : (tx_bound < fw_fuel demo_env)%nat.
Abbreviation demoOk := (fw_printf_ok demo_uart demo_env demo_layout tx).

Lemma demo_flash k : in_flash k → 0xf0000000 ≤ k < 0xff000000.
Proof. unfold in_flash, SPI_FLASH_BASE, FLASH_WINDOW. lia. Qed.

Lemma demo_scratch k : scratch demo_uart demo_frame (PrintfOk0 := demoOk) k → 0xff003000 ≤ k < 0xff006000.
Proof.
  unfold scratch, within. cbn [pr_addr fw_printf_ok ehdr_at ph_at demo_frame].
  intros [H%demo_addr|[H|H]]; lia.
Qed.

Lemma demo_frame_ok : frame_ok demo_uart demo_frame (PrintfOk0 := demoOk).
Proof.
  constructor; cbn [pr_formats pr_addr fw_printf_ok fw_formats demo_env ehdr_at ph_at demo_frame].
  - apply Forall_forall. done.
  - intros k Hk. unfold within in *. split_and!; [intros ?%demo_addr|intros ?%demo_flash|]; lia.
  - intros k Hk. unfold within in *. split_and!; [intros ?%demo_addr|intros ?%demo_flash]; lia.
  - intros k ?%demo_flash ?%demo_addr. lia.
Qed.

Lemma demo_boot_pre machine t1 t2 m d tr :
  let img := demo_img machine t1 t2 in
  let phs := [demo_phdr t1; demo_phdr t2] in
  fw_ok demo_uart demo_env (Machine m d tr) → mapped m 0xff005d00 64 → mapped m 0xff005e00 56 →
  mapped m 0x40000000 8 → bytes_at m (SPI_FLASH_BASE + 0x1000) img →
  boot_pre demo_uart demo_frame m 0x1000 img phs (Machine m d tr) (PrintfOk0 := demoOk).
Proof.
  intros img phs Hfw Hm1 Hm2 Hm3 Hfl. constructor; try done. apply Forall_forall. intros p [ty ->]%demo_phs. split; [done|].
  intros k Hk. unfold within in Hk. change (length _) with 8%nat in Hk. cbn in Hk.
  split; [intros ?%demo_scratch|intros ?%demo_flash]; lia.
Qed.
End demo.

(** Everything but the types of the image and its headers. *)
Lemma demo_bootable machine t1 t2 :
  let img := demo_img machine t1 t2 in
  let phs := [demo_phdr t1; demo_phdr t2] in
  fits (ehdr_fields (demo_ehdr machine)) → fits (phdr_fields (demo_phdr t1)) →
  fits (phdr_fields (demo_phdr t2)) → bytes img →
  fw_ok demo_uart demo_env (demo_machine (demo_boot img) []) →
  mapped (demo_boot img) 0xff005d00 64 → mapped (demo_boot img) 0xff005e00 56 →
  mapped (demo_boot img) 0x40000000 8 → bytes_at (demo_boot img) (SPI_FLASH_BASE + 0x1000) img →
  bootable demo_uart demo_env demo_frame demo_layout demo_tx (demo_boot img) 0x1000 img
    (demo_ehdr machine) phs (demo_machine (demo_boot img) []).
Proof.
  intros img phs Hf0 Hf1 Hf2 Hb Hfw Hm1 Hm2 Hm3 Hfl. constructor.
  - apply demo_frame_ok.
  - by apply demo_image.
  - unfold img. rewrite length_demo_img by done. unfold FLASH_WINDOW. lia.
  - by apply demo_boot_pre.
Qed.

(** The hypotheses of [demo_bootable] on a closed image, by evaluation. *)
Ltac demo_boots := apply demo_bootable; try decided; constructor; decided.

Lemma boot_flash_loads_witness :
  let img := demo_img EM_PPC64 PT_LOAD PT_NOTE in
  let s := demo_machine (demo_boot img) [] in
  ∃ s', boot_flash (Printf0 := fw_printf demo_env) demo_uart 3 demo_frame 0x1000 s =
      Ret 0x40000010 s' ∧
    same_outside (scratch demo_uart demo_frame (Printf0 := fw_printf demo_env)
        (PrintfOk0 := fw_printf_ok demo_uart demo_env demo_layout demo_tx))
      (write_bytes 0x40000000 [1; 2; 3; 4; 5; 6; 7; 8] (demo_boot img)) (ram s') ∧
    tx_log (dev s') = [] ++ crlf msg_trying ++ copy_text 0 [demo_phdr PT_LOAD] ++
      crlf (boot_line 0x40000010).
Proof.
  intros img s.
  apply (boot_flash_loads demo_uart demo_env demo_frame demo_layout demo_tx (demo_boot img) 0x1000 img
    (demo_ehdr EM_PPC64) [demo_phdr PT_LOAD; demo_phdr PT_NOTE] 3 s); [demo_boots|done|cbn; lia].
Defined.

(** Erased flash. *)
Lemma boot_flash_refuses_witness :
  let hdr := replicate 64 0xff in
  let s := demo_machine (demo_boot hdr) [] in
  ∃ s', boot_flash (Printf0 := fw_printf demo_env) demo_uart 3 demo_frame 0x1000 s =
      Ret (2 ^ 64 - 1) s' ∧
    same_outside (scratch demo_uart demo_frame (Printf0 := fw_printf demo_env)
        (PrintfOk0 := fw_printf_ok demo_uart demo_env demo_layout demo_tx))
      (demo_boot hdr) (ram s') ∧
    tx_log (dev s') = [] ++ crlf msg_trying ++ crlf msg_not_elf ++
      crlf (hdr_line (replicate 8 0xff)).
Proof.
  intros hdr s.
  apply (boot_flash_refuses demo_uart demo_env demo_frame demo_layout demo_tx (demo_boot hdr) 0x1000 3 s hdr).
  - apply demo_frame_ok.
  - constructor; try done; [constructor; decided|decided..].
  - by intros [? _].
Defined.

(** A note before the segment: the segment is not loaded. *)
Lemma boot_flash_stops_at_other_witness :
  let img := demo_img EM_PPC64 PT_NOTE PT_LOAD in
  let s := demo_machine (demo_boot img) [] in
  ∃ s', boot_flash (Printf0 := fw_printf demo_env) demo_uart 3 demo_frame 0x1000 s =
      Ret 0x40000010 s' ∧
    same_outside (scratch demo_uart demo_frame (Printf0 := fw_printf demo_env)
        (PrintfOk0 := fw_printf_ok demo_uart demo_env demo_layout demo_tx))
      (demo_boot img) (ram s').
Proof.
  intros img s.
  apply (boot_flash_stops_at_other demo_uart demo_env demo_frame demo_layout demo_tx (demo_boot img)
    0x1000 img (demo_ehdr EM_PPC64) [demo_phdr PT_NOTE; demo_phdr PT_LOAD] 3 s
    (demo_phdr PT_NOTE) [demo_phdr PT_LOAD]); [demo_boots|done|cbn; lia|done|done].
Defined.

(** ** The tables of an ELF file *)

(** Every structure of the ELF tables that [CStruct] describes, stored at any address and read back, is the
    structure that was stored, signed fields included: the layout, with every field at
    a multiple of its size, keeps the fields apart.  No byte outside the structure
    changes. *)
Lemma elf_struct_roundtrip {A : Type} `{!CStruct A} (a : Z) (x : A) m :
  well_typed x → mapped m a (sizeof (c_types A)) →
  ∃ m', store_struct a x m = Ret tt m' ∧ load_struct a m' = Ret (Some x) m' ∧
    ∀ b, b < a ∨ a + Z.of_nat (sizeof (c_types A)) ≤ b → m' !! b = m !! b.
Proof. apply struct_store_load. Qed.

Definition demo_rela : Elf64_Rela := MkElf64_Rela 0x1000 (ELF64_R_INFO 5 38) (-8).

Lemma elf_struct_roundtrip_witness :
  let m := write_bytes 0x2000 (replicate 24 0) ∅ in
  ∃ m', store_struct 0x2000 demo_rela m = Ret tt m' ∧ load_struct 0x2000 m' = Ret (Some demo_rela) m' ∧
    ∀ b, b < 0x2000 ∨ 0x2000 + Z.of_nat (sizeof (c_types Elf64_Rela)) ≤ b → m' !! b = m !! b.
Proof.
  intros m. apply (elf_struct_roundtrip 0x2000 demo_rela m).
  - unfold well_typed. cbn [c_types c_values elf64_rela_struct demo_rela]. repeat constructor; done.
  - apply mapped_intro. intros i Hi. destruct (lookup_lt_is_Some_2 (replicate 24 0) (Z.to_nat i)) as [b Hb].
    { rewrite length_replicate. change (Z.of_nat (sizeof _)) with 24 in Hi. lia. }
    exists b. rewrite <- (bytes_at_lookup _ _ _ _ _ (bytes_at_write 0x2000 (replicate 24 0) ∅) Hb). f_equal. lia.
Defined.
