(* ===== verification/BootProps.v ===== *)
(** * What the boot firmware does as a whole

    [check_flash] and [main] of [litedram/gen-src/sdram_init/main.c], with the real
    [_printf], on every SoC of the class [SocDev]. *)
From S2P Require Import Prelude CMem LibMem LibStr Strtol Printf PrintfSpec Soc Io Console Fw Elf Boot BootSpec BootMain FirmwareProps.

Section boot.
Context {D : Type} `{!Bus D} (u : uart_state) `{!Uart D u, !SocDev D u} (e : fw_env).
Hypothesis layout : fw_layout e.
Hypothesis tx_fuel : (tx_bound < fw_fuel e)%nat.
Abbreviation fwP := (fw_printf e : Printf D).
Abbreviation fwOk := (fw_printf_ok u e layout tx_fuel).

(** C27: [check_flash] returns, given a chip that ends its writes, although it
    polls the chip without a limit. Its accesses other than to the console are the
    RDID command with its three bytes and, exactly for the Spansion, Micron and ISSI
    chips it knows, the commands that put the chip into quad mode where its register
    says it is not in it (write enable, write of the register with the quad bit set
    and the other bits kept, status reads up to the first one that is not busy) and
    one store that configures the controller for the chip with the clock divider
    kept; it answers whether there is a chip; memory is unchanged outside the buffers
    of [_printf]. *)
Theorem check_flash_configures fuel (s : machine D) :
  uart_base u = UART_BASE → Forall (λ m, m ∈ fw_formats e) boot_formats → (wip_bound < fuel)%nat →
  fw_ok u e s →
  ∃ r s' evs id0 id1 id2 evs',
    check_flash (Printf0 := fwP) u fuel s = Ret r s' ∧ same_outside (fw_addr e) (ram s) (ram s') ∧
    io_trace s' = io_trace s ++ evs ∧
    others u evs = spi_xfer [SPI_CMD_RDID] [id0; id1; id2] ++ evs' ∧
    (r = false ↔ no_flash id0 id1 id2) ∧ cfg_events (chip_of id0 id1 id2) evs'.
Proof.
  intros Hu Hf Hw Hs.
  destruct (check_flash_ok (PrintfOk0 := fwOk) u (fw_addr e) fuel Hu Hf (λ k H, H) Hw s Hs)
    as (r & s' & evs & t & Hr & _ & [Hm _] & _ & Ht & id0 & id1 & id2 & e' & He & Hno & Hc).
  by exists r, s', evs, id0, id1, id2, e'.
Qed.

Context (ddrctrl_init_done_read : M (machine D) Z) (sdram_init : M (machine D) unit).
Context (LITEX_GIT_SHA1 : Z) (fuel : nat) (f : boot_frame).
Context (img : list Z) (h : Elf64_Ehdr) (phs : list Elf64_Phdr).

(** The firmware is linked right. *)
Record main_pre : Prop := {
  mp_fw : firmware_ok u ddrctrl_init_done_read sdram_init LITEX_GIT_SHA1 fuel (PrintfOk0 := fwOk);
  mp_frame : frame_ok u f (PrintfOk0 := fwOk);
}.

(** The flash holds an image, and there is room for its segments. *)
Record image_pre (s : machine D) : Prop := {
  ip_image : elf_image img h phs;
  ip_offset : flash_offset u + Z.of_nat (length img) ≤ FLASH_WINDOW;
  ip_boot : boot_pre u f (ram s) (flash_offset u) img phs s (PrintfOk0 := fwOk);
}.
Abbreviation mainB :=
  (main_body (Printf0 := fwP) ddrctrl_init_done_read sdram_init LITEX_GIT_SHA1 fuel f u).
Abbreviation features := (sys SYS_REG_INFO).

(** C3: on a SoC with a SPI flash and no BRAM, [main] after [console_init] returns
    the entry point of the little-endian PPC64 ELF image at the offset the system
    controller gives: it initialises the DRAM if need be, then copies the segments of
    the leading [PT_LOAD] program headers of the image, those before the first header
    of another type, and outside the DRAM changes nothing but that and its own locals
    and buffers. *)
Theorem main_boots_flash (s : machine D) :
  main_pre → image_pre s →
  Z.testbit features 2 = false → Z.testbit features 3 = true →
  ppc64le_elf h → (length phs < fuel)%nat → e_entry h ≠ ULONG_MAX →
  ∃ s' m1, mainB s = Ret (e_entry h) s' ∧
    same_outside (λ k, fw_addr e k ∨ in_dram k) (ram s) m1 ∧
    same_outside (scratch u f (PrintfOk0 := fwOk)) (load_all img (load_prefix phs) m1) (ram s').
Proof. intros [] [] ? ? ? ? ?. eapply (main_boots_image u (PrintfOk0 := fwOk)); done. Qed.

(** C4: on a SoC without BRAM, when there is no SPI flash, or when whatever the flash
    holds at the offset does not start with the header of a little-endian PPC64 ELF
    file (erased flash included), [main] returns 0 with the 40 KB payload behind the
    firmware copied to the start of the DRAM, where the core then starts; nothing
    outside the DRAM changes but the loader's locals and buffers. *)
Theorem main_falls_back (s : machine D) payload :
  main_pre → fw_ok u e s → payload_ok u f payload (ram s) (PrintfOk0 := fwOk) →
  Z.testbit features 2 = false →
  no_image u f s (PrintfOk0 := fwOk) →
  ∃ s', mainB s = Ret 0 s' ∧ bytes_at (ram s') DRAM_BASE payload ∧
    same_outside (λ k, in_dram k ∨ scratch u f (PrintfOk0 := fwOk) k) (ram s) (ram s').
Proof. intros [] Hs. by eapply main_boots_payload. Qed.

(** Before it chooses what to boot, [main] has read the features and the flash
    offset from the system controller, and its last access to a device other than
    the console clears the alternate-reset bit of the control register and no other
    bit of it. *)
Lemma main_setup_clears_reset (s : machine D) :
  firmware_ok u ddrctrl_init_done_read sdram_init LITEX_GIT_SHA1 fuel (PrintfOk0 := fwOk) →
  fw_ok u e s →
  ∃ s' evs evs' v,
    main_setup (Printf0 := fwP) ddrctrl_init_done_read sdram_init LITEX_GIT_SHA1 fuel u s =
      Ret (features, Z.testbit features 3, if Z.testbit features 3 then flash_offset u else 0) s' ∧
    io_trace s' = io_trace s ++ evs ∧
    others u evs = evs' ++ [Ld 8 (SYSCON_BASE + SYS_REG_CTRL) v;
                            St 8 (SYSCON_BASE + SYS_REG_CTRL) (Z.clearbit v 3)].
Proof.
  intros Hfw Hs.
  destruct (main_setup_ok u _ _ _ _ Hfw s Hs)
    as (r & s' & evs & t & Hr & _ & _ & _ & Ht & -> & e' & v & He).
  by exists s', evs, e', v.
Qed.
End boot.

(** ** The firmware on a SoC with a flash chip *)

(** A Micron chip, an image at 0x1000 in it, DRAM that is initialised, and no BRAM. *)
Definition demo_regs (r : Z) : Z :=
  if r =? SYS_REG_INFO then Z.lor SYS_REG_INFO_HAS_DRAM SYS_REG_INFO_HAS_SPI_FLASH
  else if r =? SYS_REG_SPI_INFO then 0x1000 else 0.
Definition demo_id : list Z := [0x20; 0xba; 0x18].

#[local] Instance demo_soc_bus : Bus (sim_soc demo_uart) := sim_soc_bus demo_uart demo_regs demo_id.
#[local] Instance demo_soc_uart : Uart (sim_soc demo_uart) demo_uart := sim_soc_uart demo_uart demo_regs demo_id.
#[local] Instance demo_soc_dev : SocDev (sim_soc demo_uart) demo_uart :=
  sim_soc_dev demo_uart demo_regs demo_id eq_refl.

Definition demo_soc : sim_soc demo_uart := SimSoc (SimUart 2 0 [] 3 []) 0 [] 2.
Definition demo_soc_machine (m : mem) : machine (sim_soc demo_uart) := Machine m demo_soc [].

Lemma demo_soc_tx : (tx_bound (D := sim_soc demo_uart) (u := demo_uart) < fw_fuel demo_env)%nat.
Proof. cbn. lia. Qed.

Lemma check_flash_configures_witness :
  ∃ r s' evs id0 id1 id2 evs',
    check_flash (Printf0 := fw_printf demo_env) demo_uart 9 (demo_soc_machine demo_ram) = Ret r s' ∧
    same_outside (fw_addr demo_env) demo_ram (ram s') ∧
    io_trace s' = [] ++ evs ∧
    others demo_uart evs = spi_xfer [SPI_CMD_RDID] [id0; id1; id2] ++ evs' ∧
    (r = false ↔ no_flash id0 id1 id2) ∧ cfg_events (chip_of id0 id1 id2) evs'.
Proof.
  apply (check_flash_configures demo_uart demo_env demo_layout demo_soc_tx 9 (demo_soc_machine demo_ram)).
  - done.
  - apply Forall_forall. done.
  - cbn. lia.
  - constructor; decided.
Defined.

(** The initialisation of the DRAM, when it is done already. *)
Lemma demo_dram_ok :
  dram_init_ok demo_uart (mret 1) (mret tt)
    (PrintfOk0 := fw_printf_ok demo_uart demo_env demo_layout demo_soc_tx).
Proof. split; by apply does_ret. Qed.

Lemma demo_main_pre :
  main_pre demo_uart demo_env demo_layout demo_soc_tx (mret 1) (mret tt) 0xff003010 9 demo_frame.
Proof.
  constructor; [|apply demo_frame_ok].
  constructor; [done|by apply Forall_forall|cbn; lia|split; [done|split; [lia|cbn; lia]]|apply demo_dram_ok].
Qed.

Lemma main_boots_flash_witness :
  let img := demo_img EM_PPC64 PT_LOAD PT_NOTE in
  ∃ s' m1, main_body (Printf0 := fw_printf demo_env) (mret 1) (mret tt) 0xff003010 9 demo_frame demo_uart
      (demo_soc_machine (demo_boot img)) = Ret 0x40000010 s' ∧
    same_outside (λ k, fw_addr demo_env k ∨ in_dram k) (demo_boot img) m1 ∧
    same_outside (scratch demo_uart demo_frame
        (PrintfOk0 := fw_printf_ok demo_uart demo_env demo_layout demo_soc_tx))
      (write_bytes 0x40000000 [1; 2; 3; 4; 5; 6; 7; 8] m1) (ram s').
Proof.
  intros img.
  apply (main_boots_flash demo_uart demo_env demo_layout demo_soc_tx (mret 1) (mret tt) 0xff003010 9 demo_frame
    img (demo_ehdr EM_PPC64) [demo_phdr PT_LOAD; demo_phdr PT_NOTE] (demo_soc_machine (demo_boot img))).
  - apply demo_main_pre.
  - constructor.
    + apply demo_image; decided.
    + unfold img. by rewrite length_demo_img by decided.
    + apply demo_boot_pre; [constructor; decided|decided..].
  - reflexivity.
  - reflexivity.
  - done.
  - cbn. lia.
  - done.
Defined.

(** A payload behind the firmware. *)
Definition demo_payload : list Z := replicate (Z.to_nat 0xa000) 0x60.
Definition demo_payload_ram (payload img : list Z) : mem :=
  write_bytes DRAM_BASE (replicate (length payload) 0) (write_bytes payload_at payload (demo_boot img)).

Lemma mapped_fill m a n v : mapped (write_bytes a (replicate n v) m) a n.
Proof.
  pose proof (bytes_at_mapped _ _ _ (bytes_at_write a (replicate n v) m)) as H.
  by rewrite length_replicate in H.
Qed.

Section payload.
Context (payload img : list Z).
Hypothesis payload_bytes : bytes payload.
Hypothesis payload_length : length payload = Z.to_nat 0xa000.

Lemma demo_payload_agree k :
  0xff001000 ≤ k < 0xff006000 ∨ 0xf0000000 ≤ k < 0xff000000 →
  demo_payload_ram payload img !! k = demo_boot img !! k.
Proof.
  intros Hk. unfold demo_payload_ram.
  rewrite !lookup_write_bytes_out; [done|rewrite ?length_replicate, payload_length..];
    unfold payload_at, DRAM_INIT_BASE, DRAM_BASE; lia.
Qed.

Lemma demo_payload_ok :
  payload_ok demo_uart demo_frame payload (demo_payload_ram payload img)
    (PrintfOk0 := fw_printf_ok demo_uart demo_env demo_layout demo_soc_tx).
Proof.
  constructor.
  - done.
  - done.
  - unfold demo_payload_ram. apply bytes_at_write_disj; [|apply bytes_at_write].
    rewrite length_replicate, payload_length. unfold payload_at, DRAM_INIT_BASE, DRAM_BASE. lia.
  - apply mapped_fill.
  - intros k Hk ?%demo_scratch. unfold within, payload_at, DRAM_INIT_BASE in Hk. lia.
  - intros k Hk ?%demo_scratch. unfold within, DRAM_BASE in Hk. lia.
Qed.

Lemma demo_payload_fw :
  fw_ok demo_uart demo_env (demo_soc_machine (demo_boot img)) →
  fw_ok demo_uart demo_env (demo_soc_machine (demo_payload_ram payload img)).
Proof.
  intros H.
  apply (fw_ok_agree demo_uart demo_env (demo_soc_machine (demo_boot img)) (demo_payload_ram payload img));
    [done| |done].
  intros a Ha%demo_addr. apply demo_payload_agree. lia.
Qed.

Lemma demo_payload_pre :
  bytes img → length img = 64%nat →
  fw_ok demo_uart demo_env (demo_soc_machine (demo_boot img)) →
  mapped (demo_boot img) 0xff005d00 64 → mapped (demo_boot img) 0xff005e00 56 →
  bytes_at (demo_boot img) (SPI_FLASH_BASE + 0x1000) img →
  hdr_pre demo_uart demo_frame (demo_payload_ram payload img) 0x1000 img
    (demo_soc_machine (demo_payload_ram payload img))
    (PrintfOk0 := fw_printf_ok demo_uart demo_env demo_layout demo_soc_tx).
Proof.
  intros Hb Hlen Hfw H1 H2 H4. constructor; try done.
  - by apply demo_payload_fw.
  - by do 2 apply mapped_write.
  - by do 2 apply mapped_write.
  - apply bytes_at_intro. intros i b Hi. pose proof (lookup_lt_Some _ _ _ Hi).
    rewrite demo_payload_agree by (unfold SPI_FLASH_BASE; lia). by apply (bytes_at_lookup _ _ img).
Qed.
End payload.

Lemma demo_payload_bytes : bytes demo_payload.
Proof. apply Forall_replicate. decided. Qed.

Lemma demo_payload_length : length demo_payload = Z.to_nat 0xa000.
Proof. apply length_replicate. Qed.

(** Erased flash. *)
Definition demo_erased : list Z := replicate 64 0xff.

Lemma demo_refused :
  let m := demo_payload_ram demo_payload demo_erased in
  fw_ok demo_uart demo_env (demo_soc_machine m) ∧
  no_image demo_uart demo_frame (demo_soc_machine m)
    (PrintfOk0 := fw_printf_ok demo_uart demo_env demo_layout demo_soc_tx).
Proof.
  assert (fw_ok demo_uart demo_env (demo_soc_machine (demo_boot demo_erased))) as Hfw by (constructor; decided).
  generalize demo_payload_bytes demo_payload_length. generalize demo_payload as payload. intros payload Hb Hl m.
  split; [by apply demo_payload_fw|]. right. exists demo_erased.
  split; [|by intros [? _]]. apply (demo_payload_pre _ _ Hl); [decided|done|exact Hfw|decided..].
Qed.

#[local] Strategy opaque [demo_payload demo_payload_ram].

Lemma main_falls_back_witness :
  let m := demo_payload_ram demo_payload demo_erased in
  ∃ s', main_body (Printf0 := fw_printf demo_env) (mret 1) (mret tt) 0xff003010 9 demo_frame demo_uart
      (demo_soc_machine m) = Ret 0 s' ∧
    bytes_at (ram s') DRAM_BASE demo_payload ∧
    same_outside (λ k, in_dram k ∨ scratch demo_uart demo_frame
        (PrintfOk0 := fw_printf_ok demo_uart demo_env demo_layout demo_soc_tx) k) m (ram s').
Proof.
  exact (main_falls_back demo_uart demo_env demo_layout demo_soc_tx (mret 1) (mret tt) 0xff003010 9 demo_frame
    (demo_soc_machine (demo_payload_ram demo_payload demo_erased)) demo_payload
    demo_main_pre
    (proj1 demo_refused) (demo_payload_ok demo_payload demo_erased demo_payload_bytes demo_payload_length) eq_refl (proj2 demo_refused)).
Defined.

Lemma main_setup_clears_reset_witness :
  ∃ s' evs evs' v,
    main_setup (Printf0 := fw_printf demo_env) (mret 1) (mret tt) 0xff003010 9 demo_uart
      (demo_soc_machine demo_ram) = Ret (10, true, 0x1000) s' ∧
    io_trace s' = [] ++ evs ∧
    others demo_uart evs = evs' ++ [Ld 8 (SYSCON_BASE + SYS_REG_CTRL) v;
                                    St 8 (SYSCON_BASE + SYS_REG_CTRL) (Z.clearbit v 3)].
Proof.
  pose proof (main_setup_clears_reset demo_uart demo_env demo_layout demo_soc_tx (mret 1) (mret tt) 0xff003010 9
    (demo_soc_machine demo_ram)) as H.
  apply H; clear H.
  - constructor; [done|by apply Forall_forall|cbn; lia|split; [done|split; [lia|cbn; lia]]|apply demo_dram_ok].
  - constructor; decided.
Defined.
