(* ===== verification/SimProps.v ===== *)
(** * What the simulation back ends promise

    The helpers the VHDL and Verilator simulations call: the serial line
    ([uart-verilator.c]), the vectors that cross the VHPI boundary
    ([sim_vhpi_c.c]), the behavioural memory ([sim_bram_helpers_c.c]) and the
    debug socket ([sim_jtag_socket_c.c]) with its client in [mw_debug.c]. *)
From S2P Require Import Prelude CMem LibMem MemEquiv Termios UartSim Vhpi SimBram DmiBits SimJtag SimConsole.

(** ** The serial line *)

(** C13: with its output looped back to its input, the serial line of the
    simulation delivers every typed character exactly once, in order, and reports
    no bad transition: from the initial static variables, [k] characters take [k]
    times a polling interval and ten bit times, and afterwards both state machines
    are idle.  This holds for every number of clocks per bit from 2 up, on a
    terminal that stays open and on one that is closed after the characters. *)
Theorem uart_loopback W cs closed tt0 :
  2 ≤ W < 2 ^ 40 → bytes cs →
  ∃ s, clocks W (length cs * (Z.to_nat RX_INTERVAL + 1 + 10 * Z.to_nat W))
         (Wire rx_init tx_init (Term cs closed tt0 []) []) = Ret tt s ∧
    w_out s = OutByte <$> cs ∧ typed (w_in s) = [] ∧
    rx_state (w_rx s) = IDLE ∧ tx_state (w_tx s) = IDLE.
Proof.
  intros HW Hcs.
  destruct (line_run W HW 0 0 0 0 cs (Term [] closed tt0 []) [] Hcs) as (b & c & p & n & r & _ & Hr).
  { unfold RX_INTERVAL. lia. }
  cbn [typed UartSim.closed line_tty reported] in Hr. rewrite app_nil_r in Hr. change ([] ++ ?l) with l in Hr.
  exists (at_rest b c p n (Term [] closed r []) (OutByte <$> cs)). split; [|done].
  rewrite <- Hr. f_equal.
  destruct (length cs); cbn [line_time]; [done|]. rewrite Z.sub_0_r. cbn [Nat.mul]. lia.
Qed.

Lemma uart_loopback_witness :
  ∃ s, clocks 4 (2 * (Z.to_nat RX_INTERVAL + 1 + 10 * Z.to_nat 4))
         (Wire rx_init tx_init (Term [72; 105] true (tty_init (Termios 0 0 0 0)) []) []) = Ret tt s ∧
    w_out s = [OutByte 72; OutByte 105] ∧ typed (w_in s) = [] ∧
    rx_state (w_rx s) = IDLE ∧ tx_state (w_tx s) = IDLE.
Proof. apply (uart_loopback 4 [72; 105] true (tty_init (Termios 0 0 0 0))); [lia|decided]. Defined.

(** A start bit that arrives in the very last clock of a stop bit makes the
    decoder print the byte twice, for every width above 20 clocks per bit. *)
Lemma uart_stop_bit_twice W b :
  20 < W →
  uart_tx W 0 (TxVars STOP_BIT 1 8 b 1) = (TxVars IDLE 0 8 b 0, [OutByte b; OutByte b]).
Proof. apply stop_bit_twice. Qed.

Lemma uart_stop_bit_twice_witness :
  uart_tx 434 0 (TxVars STOP_BIT 1 8 65 1) = (TxVars IDLE 0 8 65 0, [OutByte 65; OutByte 65]).
Proof. apply (uart_stop_bit_twice 434 65). lia. Defined.

(** ** The terminal *)

(** C34: both simulations put the terminal into raw mode, with the interrupt key
    working, and leave it as they found it. In the VHDL one, any sequence of reads,
    polls and writes returns, or ends the program in a read when the typed characters
    are used up; each read takes one character; from the first read or poll on the
    terminal is raw; and at exit its attributes are the old ones. In the Verilator
    one, the receiver does not touch the terminal in its first [RX_INTERVAL] clocks,
    from the next one on the terminal is raw, and after any number of clocks its
    attributes at exit are the old ones. *)
Theorem terminal_restored a ops s W n t :
  sc_tty s = tty_init a → con_vecs ops (sc_mem s) → line_tty t = tty_init a →
  (∃ s', session ops s = (if (reads ops <=? length (sc_stdin s))%nat then Ret tt s' else Exit 1 s') ∧
    attrs (at_exit (sc_tty s')) = a ∧
    (existsb con_input ops = true → raw (attrs (sc_tty s'))) ∧
    ((reads ops ≤ length (sc_stdin s))%nat → sc_stdin s' = drop (reads ops) (sc_stdin s))) ∧
  (∃ t', ((∃ v', rx_clocks W n rx_init t = Ret v' t') ∨ ∃ c, rx_clocks W n rx_init t = Exit c t') ∧
    attrs (at_exit (line_tty t')) = a ∧
    (Z.of_nat n ≤ RX_INTERVAL → t' = t) ∧
    (RX_INTERVAL < Z.of_nat n → raw (attrs (line_tty t')))).
Proof.
  intros Hs Hv Ht. split.
  - destruct (session_ok a ops s) as (s' & Hr & Hok & Hraw & Hq); [rewrite Hs; apply tty_ok_init|done|].
    exists s'. split_and!; [done|by apply tty_ok_exit| |done]. intros He. apply Hraw. right. by rewrite He.
  - destruct (Z.le_gt_cases (Z.of_nat n) RX_INTERVAL) as [Hn|Hn].
    + pose proof (rx_clocks_quiet W 0 n 0 t ltac:(done) ltac:(lia)) as E. rewrite Nat.add_0_r in E.
      change (RxVars IDLE 0 0 0 1 0) with rx_init in E. rewrite E. exists t.
      split; [left; by eexists|]. split; [rewrite Ht; by apply tty_ok_exit|]. split; [done|lia].
    + pose proof (rx_clocks_raw a W n t Ht Hn) as Hx.
      assert (raw (attrs (enable_raw_mode (tty_init a)))) as Hraw by (apply (enable_raw a); auto).
      destruct (rx_clocks W n rx_init t) as [v' t'| |c t'|]; try done; unfold leaves_tty in Hx; exists t'; rewrite Hx;
        (split; [eauto|]); (split; [apply tty_ok_exit; by right|]); (split; [lia|done]).
Qed.

(** The attributes of an interactive terminal. *)
Definition demo_attrs : termios := Termios 0x4500 0x5 0xbf 0x8a3b.
Definition demo_con : simcon :=
  Simcon (Host (list_to_map (zip (seqZ 100 64) (replicate 64 2))) []) [65] (tty_init demo_attrs).

Lemma terminal_restored_witness :
  (∃ s', session [ConPoll 100; ConRead 100; ConWrite 100; ConRead 100] demo_con = Exit 1 s' ∧
    attrs (at_exit (sc_tty s')) = demo_attrs ∧ raw (attrs (sc_tty s'))) ∧
  (∃ t', ((∃ v', rx_clocks 4 (Z.to_nat 10002) rx_init (Term [65] false (tty_init demo_attrs) []) = Ret v' t') ∨
          ∃ c, rx_clocks 4 (Z.to_nat 10002) rx_init (Term [65] false (tty_init demo_attrs) []) = Exit c t') ∧
    attrs (at_exit (line_tty t')) = demo_attrs ∧ raw (attrs (line_tty t'))).
Proof.
  destruct (terminal_restored demo_attrs [ConPoll 100; ConRead 100; ConWrite 100; ConRead 100] demo_con
    4 (Z.to_nat 10002) (Term [65] false (tty_init demo_attrs) []))
    as [(s' & Hr & Ha & Hraw & _) (t' & Ht1 & Ht2 & _ & Ht3)];
    [reflexivity|unfold con_vecs; decided|reflexivity|].
  split.
  - exists s'. split; [exact Hr|]. split; [exact Ha|]. by apply Hraw.
  - exists t'. split; [exact Ht1|]. split; [exact Ht2|]. apply Ht3. rewrite Z2Nat.id; by vm_compute.
Defined.

(** ** Vectors *)

(** A value of up to 64 bits that is stored as a [std_logic_vector] is read
    back unchanged (its bits above the length of the vector dropped), and a vector
    longer than 64 bits ends the simulation with status 1 in both directions. *)
Lemma slv_roundtrip len p v s :
  mapped (hmem s) p len →
  ((len ≤ 64)%nat →
   ∃ s', to_std_logic_vector v p (Z.of_nat len) s = Ret tt s' ∧
     from_std_logic_vector p (Z.of_nat len) s' = Ret (v `mod` 2 ^ Z.of_nat len) s' ∧
     ∀ a, a < p ∨ p + Z.of_nat len ≤ a → hmem s' !! a = hmem s !! a) ∧
  ((64 < len)%nat →
   (∃ s1, to_std_logic_vector v p (Z.of_nat len) s = Exit 1 s1 ∧ hmem s1 = hmem s) ∧
   (∃ s2, from_std_logic_vector p (Z.of_nat len) s = Exit 1 s2 ∧ hmem s2 = hmem s)).
Proof.
  intros Hm. split; intros Hlen.
  - eexists. split; [by apply to_slv_ok|]. split.
    + apply from_slv_ok; [done|apply Z.mod_pos_bound; lia|]. cbn [hmem].
      change (v `mod` 2 ^ Z.of_nat len) with (wrap (Z.of_nat len) v).
      rewrite slv_wrap by lia. apply bytes_at_write.
    + intros a Ha. apply lookup_write_bytes_out. by rewrite length_slv.
  - unfold to_std_logic_vector, from_std_logic_vector.
    rewrite (proj2 (Z.ltb_lt 64 _)) by lia. split; by eexists.
Qed.

Lemma slv_roundtrip_witness :
  let s := Host (write_bytes 10 (replicate 8 0) ∅) [] in
  ∃ s', to_std_logic_vector 0x1a5 10 8 s = Ret tt s' ∧
    from_std_logic_vector 10 8 s' = Ret 0xa5 s' ∧
    ∀ a, a < 10 ∨ 18 ≤ a → hmem s' !! a = hmem s !! a.
Proof.
  intros s. apply (proj1 (slv_roundtrip 8 10 0x1a5 s ltac:(decided))). lia.
Defined.

(** ** The behavioural memory *)

(** C33: a load after a store at the same address of a region returns the word in
    which the byte lanes selected by the store come from its value and the others
    are the old ones; a store that selects all eight lanes is read back
    unchanged. *)
Theorem bram_write_read s id r va aa vr sel sel' addr v old :
  region_ok s id r → 0 ≤ addr → addr + 8 ≤ r_size r → 0 ≤ v < 2 ^ 64 →
  bytes_at (bmem s) aa (slv 64 addr) → bytes_at (bmem s) va (slv 64 v) →
  length old = 8%nat → bytes old → bytes_at (bmem s) (r_m r + addr) old →
  mapped (bmem s) vr 64 → aa + 64 ≤ r_m r + addr ∨ r_m r + addr + 8 ≤ aa →
  ∃ s1 s2 w, behavioural_write va aa sel id s = Ret tt s1 ∧
    behavioural_read vr aa sel' id s1 = Ret tt s2 ∧
    from_std_logic_vector vr 64 (b_host s2) = Ret w (b_host s2) ∧
    le_split 8 w = lanes sel 0 old (le_split 8 v) ∧ (sel = 255 → w = v).
Proof.
  intros Hok Ha Hend Hv Haa Hva Hlo Hbo Hold Hvr Hdisj.
  set (new := lanes sel 0 old (le_split 8 v)).
  assert (length new = 8%nat) as Hln by (unfold new; by rewrite length_lanes, Hlo).
  assert (bytes new) as Hbn by (apply lanes_bytes; [done|apply le_split_bytes]).
  pose proof (behavioural_write_ok s id r Hok va aa sel addr v old Ha Hend Hv Haa Hva Hlo Hold) as Hw.
  fold new in Hw. set (s1 := with_mem s _) in Hw.
  pose proof (behavioural_read_ok s1 id r (region_ok_with_mem _ _ _ _ Hok) vr aa sel' addr new) as Hr.
  eexists s1, _, (le_combine new). split; [done|].
  pose proof (le_combine_range new Hbn) as Hrange. rewrite Hln in Hrange.
  split; [apply Hr; try done|].
  - apply bytes_at_write_disj; [rewrite Hln, length_slv; lia|done].
  - apply bytes_at_write.
  - by apply mapped_write.
  - split; [|split].
    + apply (from_slv_ok 64); [lia|done|apply bytes_at_write].
    + by apply le_split_combine_n.
    + intros ->. unfold new. rewrite lanes_all, le_combine_split by done. by apply wrap_small.
Qed.

(** One region of 16 bytes at 0x1000, with vectors for an address, a value and a
    result. *)
Definition demo_bram (addr v : Z) : bram :=
  Bram (Host (write_bytes 0x100 (slv 64 addr) (write_bytes 0x200 (slv 64 v)
      (write_bytes 0x300 (replicate 64 0) (write_bytes 0x1000 (replicate 16 9) ∅)))) [])
    [{| r_filename := 1; r_size := 16; r_m := 0x1000 |}] 1.
Definition demo_region : ram_behavioural := {| r_filename := 1; r_size := 16; r_m := 0x1000 |}.

Lemma demo_region_ok addr v : region_ok (demo_bram addr v) 0 demo_region.
Proof. by constructor. Qed.

Lemma bram_write_read_witness :
  ∃ s1 s2 w, behavioural_write 0x200 0x100 255 0 (demo_bram 4 0x123456789a) = Ret tt s1 ∧
    behavioural_read 0x300 0x100 0 0 s1 = Ret tt s2 ∧
    from_std_logic_vector 0x300 64 (b_host s2) = Ret w (b_host s2) ∧
    le_split 8 w = lanes 255 0 (replicate 8 9) (le_split 8 0x123456789a) ∧
    (255 = 255 → w = 0x123456789a).
Proof.
  apply (bram_write_read (demo_bram 4 0x123456789a) 0 demo_region 0x200 0x100 0x300 255 0 4
    0x123456789a (replicate 8 9)); [apply demo_region_ok|lia|cbn; lia|lia|decided|decided|done|decided|decided|decided|cbn; lia].
Defined.

(** C40: the bound check of the accesses is off by one: a load of the eight bytes
    of which the last lies just behind the region passes the check and reads
    outside the mapping. *)
Theorem bram_read_overruns s id r va aa sel ws :
  region_ok s id r → 7 ≤ r_size r → bytes_at (bmem s) aa (slv 64 (r_size r - 7)) →
  length ws = 7%nat → bytes ws → bytes_at (bmem s) (r_m r + (r_size r - 7)) ws →
  bmem s !! (r_m r + r_size r) = None →
  behavioural_read va aa sel id s = Stuck.
Proof. intros Hok. by apply behavioural_read_overrun. Qed.

Lemma bram_read_overruns_witness :
  behavioural_read 0x300 0x100 0 0 (demo_bram 9 0) = Stuck.
Proof.
  apply (bram_read_overruns (demo_bram 9 0) 0 demo_region 0x300 0x100 0 (replicate 7 9));
    [apply demo_region_ok|cbn; lia|decided|done|decided|decided|done].
Defined.

(** ** The debug socket *)

(** the request of [mw_debug]'s [sim_command] arrives in the simulation bit
    for bit: [sim_jtag_read_msg] reports 74 bits, the vector it fills holds the
    2-bit operation, the 64 bits of data and the 8-bit register address, each low
    bit first, and nothing else is written. *)
Lemma jtag_request_link o s out_msg out_size op addr d :
  0 ≤ op < 4 → 0 ≤ d < 2 ^ 64 → 0 ≤ addr < 256 →
  0 ≤ j_fd s → 0 ≤ j_cfd s → 0 < os_poll o →
  mapped (jmem s) out_msg 74 → mapped (jmem s) out_size 8 →
  ∃ pkt, sim_packet op addr d = Some pkt ∧
    (os_read o = (Z.of_nat (length pkt), pkt) →
     sim_jtag_read_msg o out_msg out_size s =
     Ret tt (j_with_mem s (write_bytes out_size (slv 8 74)
       (write_bytes out_msg (msg_bits 74 (op + d * 2 ^ 2 + addr * 2 ^ 66)) (jmem s))))).
Proof.
  intros Hop Hd Ha Hfd Hcfd Hpoll Hm1 Hm2.
  destruct (sim_packet_ok op addr d Hop Hd Ha) as (payload & Hp & Hl & Hb & Hbits).
  exists (74 :: payload). split; [done|]. cbn [length]. intros Hread.
  assert (op + d * 2 ^ 2 + addr * 2 ^ 66 = bits_of payload) as ->.
  { rewrite Hbits. unfold request_bits. rewrite (lor_shiftl_add 2 op d) by lia.
    rewrite lor_shiftl_add by lia. done. }
  rewrite (read_msg_ok o s out_msg out_size 74 payload); try done; rewrite ?Hl; lia.
Qed.

Definition demo_sock (data : list Z) : sock_os := {|
  os_socket := 3; os_getfl := 0; os_setfl := 0; os_bind := 0; os_listen := 0; os_accept := 4;
  os_poll := 1; os_read := (Z.of_nat (length data), data); os_write := 10;
|}.

Lemma jtag_request_link_witness :
  let pkt := default [] (sim_packet 1 0x12 0xdeadbeef) in
  let s := Jtag (Host (write_bytes 0 (replicate 74 0) (write_bytes 100 (replicate 8 0) ∅)) []) 3 4 [] in
  ∃ p, sim_packet 1 0x12 0xdeadbeef = Some p ∧
    (os_read (demo_sock pkt) = (Z.of_nat (length p), p) →
     sim_jtag_read_msg (demo_sock pkt) 0 100 s =
     Ret tt (j_with_mem s (write_bytes 100 (slv 8 74)
       (write_bytes 0 (msg_bits 74 (1 + 0xdeadbeef * 2 ^ 2 + 0x12 * 2 ^ 66)) (jmem s))))).
Proof.
  intros pkt s. apply (jtag_request_link (demo_sock pkt) s 0 100 1 0x12 0xdeadbeef);
    [lia|lia|lia|cbn; lia|cbn; lia|cbn; lia|decided|decided].
Defined.

(** The reply of the simulation is read back by [mw_debug]: of a message of at
    least 73 bits, [sim_jtag_write_msg] sends the size and all but the last byte of
    the bits, and [sim_command] takes the status (2 bits) and the data (64 bits)
    out of that exactly as they were in the message. *)
Lemma jtag_reply_link o junk s in_msg in_size n v :
  length junk = MAX_PACKET → bytes junk → (73 ≤ n ≤ 248)%nat →
  bytes_at (jmem s) in_msg (msg_bits n v) → bytes_at (jmem s) in_size (slv 8 (Z.of_nat n)) →
  0 ≤ os_write o →
  ∃ pkt, sim_jtag_write_msg o junk in_msg in_size s =
      Ret tt (Jtag (j_host s) (j_fd s) (j_cfd s) (j_sent s ++ [pkt])) ∧
    Z.of_nat (length pkt) = (Z.of_nat n + 7) `div` 8 ∧ pkt !! 0%nat = Some (Z.of_nat n) ∧
    sim_reply pkt = Some (v `mod` 4, Z.shiftr v 2 `mod` 2 ^ 64).
Proof.
  intros Hl Hb Hn Hmsg Hsize How.
  destruct (write_msg_ok o junk s in_msg in_size n v) as (sent & Hr & Hbs & Hls & Hbits); try done; [lia|].
  assert (10 ≤ (Z.of_nat n + 7) `div` 8) by (apply Z.div_le_lower_bound; lia).
  exists (Z.of_nat n :: sent). split; [done|]. cbn [length]. split; [lia|]. split; [done|].
  rewrite sim_reply_ok; [|constructor; [unfold is_byte; lia|done]|cbn [length]; lia]. cbn [drop].
  do 2 f_equal.
  - apply (bits_eq_wrap 2); [lia|by apply wrap_range|apply Z.mod_pos_bound; lia|].
    intros i Hi. change (v `mod` 4) with (wrap 2 v). rewrite !testbit_wrap by lia.
    f_equal. apply Hbits; lia.
  - apply (bits_eq_wrap 64); [lia|by apply wrap_range|apply Z.mod_pos_bound; lia|].
    intros i Hi. change (Z.shiftr v 2 `mod` 2 ^ 64) with (u64 (Z.shiftr v 2)).
    rewrite !testbit_wrap, !Z.shiftr_spec by lia. f_equal. apply Hbits; lia.
Qed.

Lemma jtag_reply_link_witness :
  let v := 0x1234567 * 4 + 1 in
  let s := Jtag (Host (write_bytes 0 (msg_bits 74 v) (write_bytes 100 (slv 8 74) ∅)) []) 3 4 [] in
  ∃ pkt, sim_jtag_write_msg (demo_sock []) (replicate 32 0xff) 0 100 s =
      Ret tt (Jtag (j_host s) 3 4 ([] ++ [pkt])) ∧
    Z.of_nat (length pkt) = 10 ∧ pkt !! 0%nat = Some 74 ∧ sim_reply pkt = Some (1, 0x1234567).
Proof.
  intros v s. apply (jtag_reply_link (demo_sock []) (replicate 32 0xff) s 0 100 74 v);
    [done|decided|lia|decided|decided|cbn; lia].
Defined.
