(* ===== verification/BenchProps.v ===== *)
(** * What the test benches promise

    The decoder of the serial line on any input, the Verilator test bench around it
    ([verilator/]), and the LiteDRAM model ([sim_litedram_c.cpp]). *)
From S2P Require Import Prelude CMem Termios UartSim UartLine UartRate Verilator Vhpi LiteDram.

(** ** The serial line *)

(** Whatever is on the line, the variables of the decoder stay in the ranges of
    its states: the counter never passes below zero, at most eight bits are
    collected, so that no shift leaves the byte; what it prints are bytes, and
    errors only for transitions in the middle of a bit. *)
Lemma uart_tx_invariant W samples v :
  2 ≤ W < 2 ^ 40 → tx_inv W v →
  let '(v', out) := uart_tx_run W samples v in tx_inv W v' ∧ Forall (out_ok W) out.
Proof. intros HW. by apply tx_run_ok. Qed.

Lemma uart_tx_invariant_witness :
  let '(v', out) := uart_tx_run 434 [0; 1; 0; 7] tx_init in tx_inv 434 v' ∧ Forall (out_ok 434) out.
Proof. apply (uart_tx_invariant 434 [0; 1; 0; 7] tx_init); [lia|apply tx_init_inv]. Defined.

(** C29: the decoder recovers: after any samples at all, twelve bit times of an idle
    line bring it to rest, and the characters of a line that [carries] them are then
    printed exactly once each and in order: characters with bits of exactly the width
    the decoder counts, each with at least one idle sample behind its stop bit, or
    characters with bits a little shorter, back to back or with pauses.  (With bits of
    exactly that width and no idle sample, a character is printed twice.) *)
Theorem uart_tx_recovers W noise n bs cs :
  2 ≤ W < 2 ^ 40 → 12 * W ≤ Z.of_nat n → bytes cs → carries W bs cs →
  ∃ junk v, uart_tx_run W (noise ++ replicate n 1) tx_init = (v, junk) ∧ resting v ∧
    ∃ v', uart_tx_run W ((noise ++ replicate n 1) ++ bs) tx_init = (v', junk ++ (OutByte <$> cs)) ∧
      resting v'.
Proof.
  intros HW Hn Hcs Hbs.
  pose proof (tx_run_ok W HW noise tx_init (tx_init_inv W)) as H1.
  destruct (uart_tx_run W noise tx_init) as [v1 o1] eqn:E1. destruct H1 as [H1 _].
  pose proof (idle_recovers W HW n v1 H1 ltac:(pose proof (restless_bound W HW v1 H1); lia)) as H2.
  destruct (uart_tx_run W (replicate n 1) v1) as [v2 o2] eqn:E2.
  assert (uart_tx_run W (noise ++ replicate n 1) tx_init = (v2, o1 ++ o2)) as E
    by (by rewrite (run_app _ _ _ _ _ _ E1), E2).
  exists (o1 ++ o2), v2. split; [done|]. split; [done|].
  destruct (carries_decode W bs cs v2 HW Hcs Hbs H2) as (v3 & H3 & E3).
  exists v3. by rewrite (run_app _ _ _ _ _ _ E), E3.
Qed.

Lemma uart_tx_recovers_witness :
  ∃ junk v, uart_tx_run 221 ([0; 1; 0] ++ replicate 2652 1) tx_init = (v, junk) ∧ resting v ∧
    ∃ v', uart_tx_run 221 (([0; 1; 0] ++ replicate 2652 1) ++ replicate 3 1 ++ rate_line 220 [(72, 0); (105, 500)]) tx_init =
      (v', junk ++ [OutByte 72; OutByte 105]) ∧ resting v'.
Proof.
  apply (uart_tx_recovers 221 [0; 1; 0] 2652 _ [72; 105]); [lia|lia|decided|].
  apply (carries_fast 221 220 3 [(72, 0); (105, 500)]); [lia|]. cbn. unfold long_gap. lia.
Defined.

(** C30: with nothing typed, the Verilator test bench resets the SoC for five clocks,
    runs it until it finishes, with two evaluations per clock, and returns.  What it
    prints is, for every SoC, what the decoder makes of the level of the serial port
    after each clock; when that line [carries] characters (with bits of exactly the
    width the bench counts and an idle sample behind each, or a little shorter ones,
    back to back or with pauses), exactly these characters, in order. *)
Theorem verilator_prints {T : Type} `{!Toplevel T} W VM_TRACE fuel (top : T) term n :
  2 ≤ W < 2 ^ 40 → typed term = [] → closed term = false →
  finishes n (reset top) → (n < fuel)%nat →
  ∃ s, main W VM_TRACE fuel (bench_init top term) = Ret tt s ∧
    main_time s = u64 (2 * (5 + Z.of_nat n)) ∧
    b_out s = snd (uart_tx_run W (txd_trace n (reset top)) tx_init) ∧
    ∀ cs, bytes cs → carries W (txd_trace n (reset top)) cs → b_out s = OutByte <$> cs.
Proof.
  intros HW H1 H2 Hn Hf.
  destruct (main_ok W VM_TRACE n fuel top term H1 H2 Hn Hf) as (s & Hr & Ht & Ho).
  exists s. do 3 (split; [done|]). intros cs Hcs Hc. rewrite Ho.
  by destruct (carries_decode W _ cs tx_init HW Hcs Hc eq_refl) as (v & _ & ->).
Qed.

(** A SoC that sends "A" and finishes: the samples left, and the level of the line. *)
Definition demo_top : Type := Z * (Z * list Z).
#[local] Instance demo_toplevel : Toplevel demo_top := {|
  set_ext_clk c t := (c, snd t);
  set_ext_rst _ t := t;
  set_uart0_rxd _ t := t;
  uart0_txd t := fst (snd t);
  eval t := if fst t =? 1 then (2, (hd 1 (snd (snd t)), tail (snd (snd t)))) else t;
  gotFinish t := match snd (snd t) with [] => true | _ => false end;
|}.

Lemma verilator_prints_witness :
  let top : demo_top := (0, (1, replicate 8 1 ++ line 4 [(65, 0%nat)])) in
  ∃ s, main 4 false 100 (bench_init top (Term [] false (tty_init (Termios 0 0 0 0)) [])) = Ret tt s ∧
    main_time s = u64 (2 * (5 + Z.of_nat 44)) ∧ b_out s = [OutByte 65].
Proof.
  intros top.
  destruct (verilator_prints 4 false 100 top (Term [] false (tty_init (Termios 0 0 0 0)) []) 44)
    as (s & H1 & H2 & _ & H3); [lia|done|done|vm_compute; tauto|lia|].
  exists s. split; [exact H1|]. split; [exact H2|]. apply (H3 [65]); [decided|].
  exact (carries_exact 4 3 [(65, 0%nat)]).
Defined.

(** ** The LiteDRAM model *)

(** C32: one cycle of the LiteDRAM model, whatever the core does: the requests, laid
    out as [sim_litedram.vhdl] documents them, arrive field by field on the pins of
    the core, the core is evaluated once per request and on both edges of the clock,
    and the responses written for the simulator are its outputs after that, bit for
    bit; no size is reported wrong, and no other memory changes. *)
Theorem litedram_cycle_transfers {X : Type} (x0 : X) v_eval v_outs VM_TRACE
    a_wb a_user r_wb r_user w r (s : dsim (X := X)) :
  bytes_at (hmem (ds_host s)) a_wb (wb_req_vec w) →
  bytes_at (hmem (ds_host s)) a_user (user_req_vec r) →
  mapped (hmem (ds_host s)) r_wb 36 → mapped (hmem (ds_host s)) r_user 131 →
  ∃ s', litedram_cycle x0 v_eval v_outs VM_TRACE a_wb a_user r_wb r_user s = Ret tt s' ∧
    let x := cycle_core x0 v_eval w r s in
    ds_v s' = Some (cycle_pins x0 w r s, x) ∧ ds_time s' = u64 (ds_time s + 4) ∧
    hlog (ds_host s') = hlog (ds_host s) ∧
    hmem (ds_host s') = write_bytes r_user (user_rsp_vec (v_outs x))
      (write_bytes r_wb (wb_rsp_vec (v_outs x)) (hmem (ds_host s))).
Proof. apply litedram_cycle_ok. Qed.

(** A core that acknowledges at once and gives back the data of the last rising
    edge. *)
Definition demo_core (p : dram_in) (x : Z * Z) : Z * Z :=
  if in_clk p =? 1 then (wb_ctrl_dat_w p, let '(_, _, _, d0) := wdata_data p in d0) else x.
Definition demo_outs (x : Z * Z) : dram_out := DramOut 0 1 0 1 (fst x) 1 1 1 (0, 0, 0, snd x).

Lemma litedram_cycle_transfers_witness :
  let w := WbReq 0 0 15 true true true 0x100 0xdeadbeef in
  let r := UserReq true true true true 0x40 0xffff 1 2 3 4 in
  let m := write_bytes 0 (wb_req_vec w) (write_bytes 0x100 (user_req_vec r)
             (write_bytes 0x300 (replicate 36 0) (write_bytes 0x400 (replicate 131 0) ∅))) in
  ∃ s', litedram_cycle (0, 0) demo_core demo_outs true 0 0x100 0x300 0x400
      (Dsim None 0 None false (Host m [])) = Ret tt s' ∧
    ds_v s' = Some (set_clk 0 (user_pins r (wb_pins w pins0)), (0xdeadbeef, 4)) ∧ ds_time s' = 4 ∧
    hlog (ds_host s') = [] ∧
    hmem (ds_host s') = write_bytes 0x400 (user_rsp_vec (demo_outs (0xdeadbeef, 4)))
      (write_bytes 0x300 (wb_rsp_vec (demo_outs (0xdeadbeef, 4))) m).
Proof.
  intros w r m.
  apply (litedram_cycle_transfers (0, 0) demo_core demo_outs true 0 0x100 0x300 0x400 w r
    (Dsim None 0 None false (Host m []))); decided.
Defined.
