(* ===== verification/SerialProps.v ===== *)
(** * What the serial line of the FPGA designs promises

    The buffer and the transmitter of the UART, the decoder of the test bench at a rate
    that is not quite its own, and both with the console driver between them. *)
From S2P Require Import Prelude CMem LibStr Soc Io Console Hello UartSim UartLine UartRate PpFifo PpUart PpUartTx PpUartRx PpSoc PpConsole PpGetchar PpBoot Vhpi Termios SimConsole SimPpUart.

(** ** The buffer *)

(** C16: from a reset on, the buffer is a queue of at most [DEPTH] characters: for every
    sequence of pushes and pops that never pops from the empty queue and never pushes
    to the full one without a pop at the same clock, what is popped and the two flags
    are those of the queue at every clock. *)
Theorem fifo_refines_queue DEPTH i f ins out :
  (0 < DEPTH)%nat → length (memory f) = DEPTH → f_reset i = true →
  queue_run DEPTH ins [] = Some out → fifo_run DEPTH ins (fifo_clk DEPTH i f) = out.
Proof. intros HD Hm Hr. apply fifo_run_queue. by apply holds_reset. Qed.

Definition demo_fifo : pp_fifo := PpFifo [7; 7] 1 1 FIFO_PUSH 0.
Definition demo_ops : list fifo_in :=
  [FifoIn false true false 65; FifoIn false true false 66; FifoIn false true true 67; FifoIn false false true 0].

Lemma fifo_refines_queue_witness :
  fifo_run 2 demo_ops (fifo_clk 2 (FifoIn true true true 9) demo_fifo) =
    [(true, false, None); (false, false, None); (false, true, Some 65); (false, true, Some 66)].
Proof. apply (fifo_refines_queue 2 (FifoIn true true true 9) demo_fifo demo_ops); [lia|reflexivity..]. Defined.

(** ** The decoder at another rate *)

(** C31: the decoder of the test bench tolerates a sender that is a little fast: with
    bits of [w] clocks where it counts [W], as long as the ten bits of a character do
    not drift by a twentieth of a bit, it prints every character once and in order, be
    the next one right behind the stop bit or after a pause longer than the drift. *)
Theorem decoder_tolerates_rate W w n cs v :
  2 ≤ W < 2 ^ 40 → w < W ∧ 20 * (10 * (W - w) + 1) < W →
  bytes (fst <$> cs) → gaps_ok W w cs → resting v →
  ∃ v', resting v' ∧ uart_tx_run W (replicate n 1 ++ rate_line w cs) v = (v', OutByte <$> (fst <$> cs)).
Proof. intros HW Hrate. by apply rate_line_decode. Qed.

Lemma decoder_tolerates_rate_witness :
  ∃ v', resting v' ∧ uart_tx_run 434 (replicate 3 1 ++ rate_line 432 [(72, 0); (105, 500)]) tx_init = (v', [OutByte 72; OutByte 105]).
Proof.
  apply (decoder_tolerates_rate 434 432 3 [(72, 0); (105, 500)] tx_init); [lia|lia|decided| |reflexivity].
  cbn. unfold long_gap. lia.
Defined.

(** ** The transmitter *)

(** C15: what is pushed into the transmitter of the UART, at any clocks at which its
    buffer has room, comes out of the decoder of the test bench, every character once
    and in order, once the line has been left alone for the time the full buffer
    takes. *)
Theorem transmitter_decodes d DEPTH W ins1 ins2 s v :
  1 ≤ d < 256 → 2 ≤ W < 2 ^ 40 → bit_clocks d < W ∧ 20 * (10 * (W - bit_clocks d) + 1) < W →
  at_ease d DEPTH s → steady_run DEPTH (ins1 ++ ins2) s = true → pushes DEPTH ins2 (pp_run DEPTH ins1 s) = [] →
  (10 * Z.of_nat DEPTH + 13) * bit_clocks d ≤ Z.of_nat (length ins2) → bytes (pushes DEPTH ins1 s) → resting v →
  ∃ v', resting v' ∧ uart_tx_run W (txd_samples DEPTH (ins1 ++ ins2) s) v = (v', OutByte <$> pushes DEPTH ins1 s).
Proof. intros Hd. by apply transmit_decodes. Qed.

(** A UART with 224 clocks per bit; the program stores two characters. *)
Definition pp_demo_uart : pp_uart :=
  PpUart (Baud false 0 0 0 false) (Receiver RX_IDLE 0 0 0 0 false 1 1) (Transmitter 1 TX_IDLE false 0)
    (Registers false 0 WB_IDLE false 0 false 13 false false) (PpFifo [0; 0] 0 0 FIFO_POP 0) (PpFifo [0; 0] 0 0 FIFO_POP 0).
Definition demo_nop : pp_in := PpIn false 1 0 0 false false false.
Definition demo_stores : list pp_in :=
  [PpIn false 1 0 72 true true true; demo_nop; PpIn false 1 0 105 true true true; demo_nop; demo_nop].

Lemma demo_at_ease : at_ease 13 2 pp_demo_uart.
Proof.
  exists (TxSpec 225 false 1 [] []). split_and!; [|done..]. constructor; try done.
  split_and!; [done..|]. constructor; try done; cbn; lia.
Qed.

Lemma transmitter_decodes_witness :
  ∃ v', resting v' ∧ uart_tx_run 225 (txd_samples 2 (demo_stores ++ replicate (Z.to_nat 8000) demo_nop) pp_demo_uart) tx_init =
    (v', [OutByte 72; OutByte 105]).
Proof.
  set (n := Z.to_nat 8000). assert (Z.of_nat n = 8000) as Hn by (unfold n; lia). clearbody n.
  destruct (idle_steady 2 demo_nop n (pp_run 2 demo_stores pp_demo_uart)) as [H1 H2]; [done..|].
  apply (transmitter_decodes 13 2 225 demo_stores (replicate n demo_nop) pp_demo_uart tx_init); try done.
  - exact demo_at_ease.
  - rewrite length_replicate, Hn. done.
  - decided.
Defined.

(** ** The receiver *)

(** The receiver puts the characters of a line into its buffer, every one once and
    in order behind those that are there, as long as they fit: for bits up to an
    eighteenth longer than its own, any pauses, and any phase of its sample clock to
    the line.  It is then ready for the next start bit. *)
Lemma receiver_delivers d DEPTH W ins s q cs n m :
  1 ≤ d < 256 → let p := Z.to_nat (d + 1) in
  (16 * p ≤ W)%nat ∧ (9 * (W - 16 * p) ≤ 8 * p)%nat →
  Forall no_access ins → rx_rest d s → holds DEPTH (recv_buffer s) q → bytes (fst <$> cs) → Forall (λ x, 0 ≤ snd x) cs →
  (length q + length cs ≤ DEPTH)%nat →
  rxd <$> ins = replicate n 1 ++ rate_line (Z.of_nat W) cs ++ replicate m 1 ++ [1; 1; 1] →
  rx_rest d (pp_run DEPTH ins s) ∧ holds DEPTH (recv_buffer (pp_run DEPTH ins s)) (q ++ (fst <$> cs)).
Proof. intros Hd p. by apply receive_delivers. Qed.

Definition demo_typed : list pp_in :=
  (λ l, PpIn false l 0 0 false false false) <$> (replicate 3 1 ++ rate_line 225 [(72, 0); (105, 40)] ++ replicate 1 1 ++ [1; 1; 1]).

Lemma receiver_delivers_witness :
  rx_rest 13 (pp_run 2 demo_typed pp_demo_uart) ∧ holds 2 (recv_buffer (pp_run 2 demo_typed pp_demo_uart)) [72; 105].
Proof.
  apply (receiver_delivers 13 2 225 demo_typed pp_demo_uart [] [(72, 0); (105, 40)] 3 1).
  - lia.
  - split; vm_compute; lia.
  - unfold demo_typed. by apply Forall_fmap, Forall_true.
  - constructor; [constructor; try done; cbn; lia|by split_and!|done|cbn; lia].
  - constructor; try done; cbn; lia.
  - decided.
  - decided.
  - done.
  - unfold demo_typed. by rewrite <- list_fmap_compose, list_fmap_id.
Defined.

(** C17: characters that arrive on the line while the program does something else, no
    more than the buffer holds, are returned by as many calls of [getchar], in order:
    for bits up to an eighteenth longer than those of the UART, any pauses between the
    characters, and any phase of its sample clock to the line.  The calls return, and
    the UART is then ready for more. *)
Theorem typed_characters_read d DEPTH sysreg W ins s cs n m fuel mem tr :
  1 ≤ d < 256 → let p := Z.to_nat (d + 1) in
  (16 * p ≤ W)%nat ∧ (9 * (W - 16 * p) ≤ 8 * p)%nat →
  idle s → rx_rest d (so_uart s) → holds DEPTH (recv_buffer (so_uart s)) [] →
  Forall no_access ins → bytes (fst <$> cs) → Forall (λ x, 0 ≤ snd x) cs → (length cs ≤ DEPTH)%nat → (0 < fuel)%nat →
  rxd <$> ins = replicate n 1 ++ rate_line (Z.of_nat W) cs ++ replicate m 1 ++ [1; 1; 1] →
  let bus := soc_bus DEPTH sysreg in
  ∃ st', getchars fuel (length cs) potato (Machine mem (meanwhile DEPTH ins s) tr) = Ret (fst <$> cs) st' ∧ ram st' = mem ∧
    idle (dev st') ∧ rx_holds DEPTH (so_uart (dev st')) [].
Proof. intros. by eapply typed_arrive. Qed.

Lemma typed_characters_read_witness :
  let bus := soc_bus 2 (λ _, 0) in
  ∃ st', getchars 1 2 potato (Machine ∅ (meanwhile 2 demo_typed (IoSoc latch_reset pp_demo_uart [] [4; 2]%nat)) []) = Ret [72; 105] st' ∧
    ram st' = ∅ ∧ idle (dev st') ∧ rx_holds 2 (so_uart (dev st')) [].
Proof.
  apply (typed_characters_read 13 2 (λ _, 0) 225 demo_typed (IoSoc latch_reset pp_demo_uart [] [4; 2]%nat) [(72, 0); (105, 40)] 3 1 1 ∅ []).
  - lia.
  - split; vm_compute; lia.
  - by constructor.
  - constructor; [constructor; try done; cbn; lia|by split_and!|done|cbn; lia].
  - constructor; try done; cbn; lia.
  - unfold demo_typed. by apply Forall_fmap, Forall_true.
  - decided.
  - decided.
  - cbn. lia.
  - lia.
  - unfold demo_typed. by rewrite <- list_fmap_compose, list_fmap_id.
Defined.

(** ** From the program to the terminal *)

(** C5: a program that sets up the console after a reset and prints a string, on a SoC
    with this UART at a processor clock of [F] Hz: the driver computes the divisor,
    waits whenever the buffer is full, however the core spaces its accesses, and
    returns; once the line has been left alone for the time the full buffer takes, the
    decoder of the test bench has printed the string, with a carriage return before
    every line feed, and nothing else.  Bits of [16 * (d + 1)] clocks, from the divisor
    the driver computes, stand against the [BITWIDTH F] clocks of the test bench. *)
Theorem console_text_arrives DEPTH sysreg F d i u delays fuel k str s m tr N :
  (0 < DEPTH)%nat → 1 ≤ d < 256 → uart_divisor F UART_BAUDS = d + 1 →
  Z.land (wrap 64 (sysreg (SYSCON_BASE + SYS_REG_CLKINFO))) SYS_REG_CLKINFO_FREQ_MASK = F →
  (tst (wrap 64 (sysreg (SYSCON_BASE + SYS_REG_INFO))) SYS_REG_INFO_HAS_LARGE_SYSCON = true →
   tst (wrap 64 (sysreg (SYSCON_BASE + SYS_REG_UART0_INFO))) SYS_REG_UART_IS_16550 = false) →
  2 ≤ BITWIDTH F < 2 ^ 40 →
  bit_clocks d < BITWIDTH F ∧ 20 * (10 * (BITWIDTH F - bit_clocks d) + 1) < BITWIDTH F →
  length (memory (send_buffer u)) = DEPTH → cstr m str s → (length s < k)%nat →
  drain_clocks DEPTH d < Z.of_nat fuel → (10 * Z.of_nat DEPTH + 13) * bit_clocks d ≤ Z.of_nat N →
  let bus := soc_bus DEPTH sysreg in
  ∃ st v, (u ← console_init; puts fuel k u str) (Machine m (reset_soc DEPTH i u delays) tr) = Ret 0 st ∧
    uart_tx_run (BITWIDTH F) (so_samples (soc_clks DEPTH N (dev st))) tx_init = (v, OutByte <$> crlf s).
Proof.
  intros HD Hd Hdiv Hfreq Hpot HW Hrate Hm Hs Hk Hfuel HN bus.
  destruct (reset_ok DEPTH HD i u delays Hm) as (H1 & H2 & H3 & H4).
  by apply (text_arrives DEPTH sysreg HD F d Hd Hdiv Hfreq Hpot).
Qed.

(** The 50 MHz designs: 432 clocks per bit, against 434. *)
Definition pp_demo_sysreg (addr : Z) : Z := if addr =? SYSCON_BASE + SYS_REG_CLKINFO then 50000000 else 0.
Definition pp_demo_text : list Z := [72; 105; 10].

Lemma console_text_arrives_witness :
  let bus := soc_bus 2 pp_demo_sysreg in
  ∃ st v, (u ← console_init; puts (Z.to_nat 20000) 4 u 0x1000)
      (Machine (write_bytes 0x1000 (pp_demo_text ++ [0]) ∅) (reset_soc 2 demo_nop pp_demo_uart [3; 0]%nat) []) = Ret 0 st ∧
    uart_tx_run 434 (so_samples (soc_clks 2 (Z.to_nat 15000) (dev st))) tx_init =
      (v, [OutByte 72; OutByte 105; OutByte 13; OutByte 10]).
Proof.
  apply (console_text_arrives 2 pp_demo_sysreg 50000000 26 demo_nop pp_demo_uart [3; 0]%nat (Z.to_nat 20000) 4 0x1000 pp_demo_text);
    try done; try (rewrite Z2Nat.id by done; done).
  - lia.
  - apply cstr_write. decided.
  - cbn. lia.
Defined.

(** ** On the simulator *)

(** C14: the hello-world program in the VHDL simulation, from [console_init] on, with
    the simulated UART and the console calls of the simulator underneath: the standard
    error output gets the logo with the git hash, and then every character that was
    typed, once and in order, a carriage return with a line feed; the rest of the input
    is left. *)
Theorem hello_on_simulator vec sysreg fuel k l cs q st :
  (0 < fuel)%nat → hello_loaded l (ram st) → (length mw_logo1 < k)%nat →
  (tst (wrap 64 (sysreg (SYSCON_BASE + SYS_REG_INFO))) SYS_REG_INFO_HAS_LARGE_SYSCON = true →
   tst (wrap 64 (sysreg (SYSCON_BASE + SYS_REG_UART0_INFO))) SYS_REG_UART_IS_16550 = false) →
  typed (dev st) = cs ++ q →
  let bus := sim_pp_bus vec sysreg in
  ∃ st', (u ← console_init; hello_body fuel k l u (length cs)) st = Ret tt st' ∧ typed (dev st') = q ∧
    sent (dev st') = sent (dev st) ++ hello_text (u64 (sysreg (SYSCON_BASE + SYS_REG_GIT_INFO))) ++ echo_text cs.
Proof. intros. by apply hello_simulated. Qed.

Definition sim_lits : hello_lits := {| logo1_at := 0x100; logo2_at := 0x200; dirty_at := 0x280 |}.
Definition sim_ram : mem :=
  write_bytes 0x100 (mw_logo1 ++ [0]) (write_bytes 0x200 (mw_logo2 ++ [0]) (write_bytes 0x280 (dirty_text ++ [0]) ∅)).
Definition sim_machine : machine sim_pp :=
  Machine sim_ram (SimPp (Simcon (Host ∅ []) [65; 13; 66] (tty_init (Termios 0 0 0 0))) 0 false false) [].

Lemma hello_on_simulator_witness :
  let bus := sim_pp_bus 0x5000 pp_demo_sysreg in
  ∃ st', (u ← console_init; hello_body 1 200 sim_lits u 2) sim_machine = Ret tt st' ∧ typed (dev st') = [66] ∧
    sent (dev st') = (crlf mw_logo1 ++ replicate 14 48 ++ crlf mw_logo2) ++ [65; 13; 10].
Proof.
  apply (hello_on_simulator 0x5000 pp_demo_sysreg 1 200 sim_lits [65; 13] [66] sim_machine); try done.
  - lia.
  - split_and!; decided.
  - vm_compute. lia.
Defined.
