(* ===== verification/DebugProps.v ===== *)
(** * What the debugging tools promise

    [mw_debug.c] against every debug module of the class [DmiTarget], and with
    the class [WbTarget] against every SoC memory behind it; [fmt_log.c] on every
    log file. *)
From S2P Require Import Prelude CMem Vhpi DmiBits SimJtag Dmi MwDebug MwDebugSpec MwDebugRegs MwDebugTotal DmiInit DmiInitSpec DmiLink SimLink JtagLink DmiRefine FmtLog.

(** ** Accesses *)

Section access.
Context {B : Type} (b : backend B) `{!DmiTarget b}.

(** [dmi_read] and [dmi_write] make one whole access each: they start it, poll
    while the module is busy, however long it takes up to its bound, and return 0
    with the value the register had; the link is then ready for the next access
    and nothing was printed. *)
Lemma dmi_access fuel addr v s :
  (busy_bound < fuel)%nat → 0 ≤ addr < 256 → 0 ≤ v < 2 ^ 64 → idle (t_link s) →
  (∃ s', dmi_read b fuel addr v s = Ret (0, fst (tgt_read addr (t_link s))) s' ∧
     t_link s' = snd (tgt_read addr (t_link s)) ∧ idle (t_link s') ∧ t_log s' = t_log s) ∧
  (∃ s', dmi_write b fuel addr v s = Ret 0 s' ∧
     t_link s' = tgt_write addr v (t_link s) ∧ idle (t_link s') ∧ t_log s' = t_log s).
Proof.
  intros Hf Ha Hv Hi. split; eexists.
  - split; [by apply dmi_read_ok|]. split; [done|]. split; [|done]. by apply tgt_read_idle.
  - split; [by apply dmi_write_ok|]. split; [done|]. split; [|done]. by apply tgt_write_idle.
Qed.

(** When the backend reports an error, [dmi_read] and [dmi_write] return that
    error at once without polling, and [check] then ends the tool with status 1
    after printing what failed. *)
Lemma dmi_access_error fuel addr v s rc d s' what :
  rc < 0 →
  (b_command b 1 (u8 addr) (Some v) s = Ret (rc, d) s' →
     dmi_read b fuel addr v s = Ret (rc, default v d) s' ∧
     dmi_rd b fuel addr v what s =
       Exit 1 (Tool (t_link s') (t_log s' ++ [Err "Error %s" [PS (lit what)]]) (t_fs s') (t_disk s'))) ∧
  (b_command b 2 (u8 addr) (Some v) s = Ret (rc, d) s' →
     dmi_write b fuel addr v s = Ret rc s' ∧
     dmi_wr b fuel addr v what s =
       Exit 1 (Tool (t_link s') (t_log s' ++ [Err "Error %s" [PS (lit what)]]) (t_fs s') (t_disk s'))).
Proof.
  intros Hrc. split; intros Hc.
  - pose proof (dmi_read_fails b fuel addr v s rc d s' Hc Hrc) as Hr. split; [done|].
    unfold dmi_rd, check. rewrite (bind_Ret _ _ _ _ _ Hr). by rewrite (proj2 (Z.leb_gt 0 rc)).
  - pose proof (dmi_write_fails b fuel addr v s rc d s' Hc Hrc) as Hr. split; [done|].
    unfold dmi_wr, check. rewrite (bind_Ret _ _ _ _ _ Hr). by rewrite (proj2 (Z.leb_gt 0 rc)).
Qed.

(** [core_step] reads the status of the selected core and writes the step
    command to its control register exactly when the status says it is stopped;
    otherwise it only prints that it is not. *)
Lemma core_step_stopped core fuel junk s :
  (busy_bound < fuel)%nat → 0 ≤ core < 15 → idle (t_link s) →
  let stat := fst (tgt_read (0x11 + 16 * core) (t_link s)) in
  let l := snd (tgt_read (0x11 + 16 * core) (t_link s)) in
  core_step b core fuel junk s =
  Ret tt (if Z.testbit stat 1 then with_link s (tgt_write (0x10 + 16 * core) 8 l)
          else says (with_link s l) [Out "Core not stopped !" []]).
Proof. intros. by apply core_step_ok. Qed.

(** ** Files *)

(** Loading a file into the memory of the SoC and saving as many bytes from the same
    address gives the file back, filled with zeros to a multiple of eight bytes: the
    words are written at consecutive addresses and read back from them.  What a longer
    file of the target name held behind that stays. *)
Lemma load_save_ok `{!WbTarget b} fuel junk name name' contents addr s :
  (busy_bound < fuel)%nat → idle (t_link s) →
  t_fs s !! name = Some contents → bytes contents → contents ≠ [] →
  0 ≤ addr < 2 ^ 64 → wb_room b addr (length (words_of (S (length contents)) contents)) →
  Z.of_nat (length contents) + 8 ≤ INT_MAX → (length contents ≤ t_disk s)%nat →
  ∃ s1 s2 k, load_file b fuel name addr s = Ret tt s1 ∧
    save_file b fuel junk name' addr (Z.of_nat (length contents)) s1 = Ret tt s2 ∧
    t_fs s2 !! name' = Some (contents ++ replicate k 0 ++
      drop (length contents + k) (default [] (t_fs s !! name'))) ∧ (k < 8)%nat ∧
    (8 | Z.of_nat (length contents + k)).
Proof.
  intros Hf Hi Hfile Hb Hne Ha Hroom Hmax Hdisk.
  set (ws := words_of (S (length contents)) contents) in *.
  pose proof (length_words_of (S (length contents)) contents ltac:(lia)) as Hlw. fold ws in Hlw.
  pose proof (words_of_range (S (length contents)) contents Hb) as Hws. fold ws in Hws.
  assert (0 < length contents)%nat as Hpos by (destruct contents; [done|cbn; lia]).
  assert (0 < Z.of_nat (length ws) ∧ 8 * Z.of_nat (length ws) < Z.of_nat (length contents) + 8) as [Hw1 Hw2].
  { rewrite Hlw. split; [apply Z.div_str_pos; lia|].
    pose proof (Z.div_mod (Z.of_nat (length contents) + 7) 8 ltac:(lia)).
    pose proof (Z.mod_pos_bound (Z.of_nat (length contents) + 7) 8 ltac:(lia)). lia. }
  destruct (load_file_ok b fuel Hf name contents addr s Hfile Hb ltac:(lia) Hi ltac:(fold ws; lia)) as [log1 Hr1].
  fold ws in Hr1. set (s1 := says _ log1) in Hr1.
  destruct (wb_setup_ok b addr (t_link s) Hi Ha) as (I0 & A0 & D0 & _).
  destruct (write_words_ok b ws _ addr I0 A0 ltac:(by rewrite D0) ltac:(unfold INT_MAX in *; lia) Hroom Hws)
    as (I1 & H1 & _).
  destruct (wb_setup_ok b addr (t_link s1) I1 Ha) as (I2 & A2 & D2 & W2).
  assert (save_words (Z.of_nat (length contents)) = length ws) as Hn by (unfold save_words; lia).
  destruct (save_file_ok b fuel junk Hf name' addr (Z.of_nat (length contents)) s1 ltac:(lia) ltac:(lia) I1)
    as [log2 Hr2]; [rewrite Hn; change (t_disk s1) with (t_disk s); lia|rewrite Hn; lia|].
  fold (wb_setup b addr (t_link s1)) in Hr2.
  rewrite Hn, (read_words_ok b (length ws) _ addr ws I2 A2 ltac:(by rewrite D2) Hroom eq_refl) in Hr2.
  2:{ intros i w Hw. rewrite W2. by apply H1. }
  destruct (word_bytes_words_of (S (length contents)) contents Hb ltac:(lia)) as (k & Hk & E). fold ws in E.
  assert (length (word_bytes ws) = 8 * length ws)%nat as Hlb by apply length_word_bytes.
  rewrite E, length_app, length_replicate in Hlb.
  eexists s1, _, k. split; [done|]. split; [exact Hr2|]. split; [|split; [done|rewrite Hlb; exists (Z.of_nat (length ws)); lia]].
  unfold says, with_link, with_file. cbn [t_fs]. rewrite lookup_insert_eq, E, Hlb.
  unfold s1, says, with_link. cbn [t_fs]. by rewrite <- app_assoc.
Qed.
End access.

(** The example module holds the file "boot" and nothing else; its core is
    running. *)
Definition demo_tool : tool dbg :=
  Tool (Dbg ∅ 0 0 {[ 0x11 := 0 ]} None) [] {[ lit "boot" := [1; 2; 3; 4; 5; 6; 7; 8; 9; 10] ]} 100.

Lemma dmi_access_witness :
  (∃ s', dmi_read dbg_backend 3 0x11 7 demo_tool = Ret (0, 0) s' ∧
     t_link s' = snd (tgt_read 0x11 (t_link demo_tool)) ∧ idle (t_link s') ∧ t_log s' = []) ∧
  (∃ s', dmi_write dbg_backend 3 0x11 7 demo_tool = Ret 0 s' ∧
     t_link s' = tgt_write 0x11 7 (t_link demo_tool) ∧ idle (t_link s') ∧ t_log s' = []).
Proof.
  exact (dmi_access dbg_backend (DmiTarget0 := dbg_target) 3 0x11 7 demo_tool ltac:(cbn; lia) ltac:(lia) ltac:(lia) eq_refl).
Defined.

(** A backend without a connection. *)
Definition dead_backend : backend dbg := Backend (λ _ _, mret (-1)) (mret (-1)) (λ _ _ d, mret (-1, d)).

Lemma dmi_access_error_witness :
  dmi_read dead_backend 3 0 5 demo_tool = Ret (-1, 5) demo_tool ∧
  dmi_rd dead_backend 3 0 5 "reading core status" demo_tool =
    Exit 1 (Tool (t_link demo_tool) [Err "Error %s" [PS (lit "reading core status")]]
             (t_fs demo_tool) (t_disk demo_tool)).
Proof.
  apply (proj1 (dmi_access_error dead_backend 3 0 5 demo_tool (-1) (Some 5) demo_tool
    "reading core status" ltac:(lia))). done.
Defined.

Lemma core_step_stopped_witness :
  core_step dbg_backend 0 3 0 demo_tool =
  Ret tt (says demo_tool [Out "Core not stopped !" []]).
Proof. exact (core_step_stopped dbg_backend (DmiTarget0 := dbg_target) 0 3 0 demo_tool ltac:(cbn; lia) ltac:(lia) eq_refl). Defined.

(** ** The command line *)



(** ** Opening the connection *)

(** C35: whatever the JTAG library answers, the set-up of both kinds of part returns
    and makes the calls of one script, in order: connect to the cable the target
    names (or the one the probe finds) with the words behind it as parameters, set
    the frequency when there is one, add the part with its instruction length, define
    IDCODE and the 74-bit USER2 register with the codes of the part, read the ID and
    leave USER2 selected. The result is 0 when all of it was done; otherwise it is -1,
    the calls are a first part of the script, and the last line printed says why. *)
Theorem jtag_init_script {B : Type} (u : urj_lib B) debug target freq :
  0 ∉ default [] target → Z.of_nat (length (snd (cable_of target))) ≤ max_params →
  follows (bscane2_init debug (recorded u) target freq) (sets_up target freq 6 "001001" "000011") ∧
  follows (ecp5_init debug (recorded u) target freq) (sets_up target freq 8 "11100000" "00110010").
Proof. intros. split; [by apply bscane2_init_follows|by apply ecp5_init_follows]. Qed.

(** A library whose calls all return 1, where that is the good status. *)
Definition demo_urj : urj_lib unit :=
  UrjLib (λ _ l, (1, l)) (λ _, lit "cable") (λ _, true) (λ _, true) (λ _, 0) (λ _, []) 1.

Lemma jtag_init_script_witness :
  follows (ecp5_init false (recorded demo_urj) (Some (lit "usb vid=1 pid=2")) 0)
    (sets_up (Some (lit "usb vid=1 pid=2")) 0 8 "11100000" "00110010") ∧
  cable_of (Some (lit "usb vid=1 pid=2")) = (lit "usb", [lit "vid=1"; lit "pid=2"]).
Proof.
  split; [|reflexivity].
  destruct (jtag_init_script demo_urj false (Some (lit "usb vid=1 pid=2")) 0) as [_ Hx];
    [decided|by vm_compute|exact Hx].
Defined.

(** [sim_init] connects to the host and the port the target names, to the port the
    simulation listens on when it names none, and to this machine without a target:
    it opens a socket, resolves the host and connects, and returns 0 when all three
    succeed; otherwise it returns -1 with a message, the socket closed again after a
    refused connection. *)
Lemma sim_init_connects {B : Type} (k : net B) debug target host port freq (s : tool B) :
  names target host port →
  ∃ log, sim_init debug k target freq s =
    Ret (fst (sim_connect k host port (t_link s)))
        (Tool (snd (sim_connect k host port (t_link s))) (t_log s ++ log) (t_fs s) (t_disk s)) ∧
    (fst (sim_connect k host port (t_link s)) ≠ 0 → complained log).
Proof. apply sim_init_ok. Qed.

(** A network whose only host is "sim", with the connections made as its state. *)
Definition demo_net : net (list (list Z * Z)) :=
  Net (λ l, (3, l)) (λ h l, (if bool_decide (h = lit "sim") then Some [10; 0; 0; 1] else None, l))
      (λ a p l, (0, l ++ [(a, p)])) (λ l, (tt, l)) (λ _, []).

Lemma sim_init_connects_witness :
  ∃ log, sim_init false demo_net (Some (lit "sim" ++ 58 :: lit "4000")) 0 (Tool [] [] ∅ 0) =
    Ret 0 (Tool [([10; 0; 0; 1], 4000)] log ∅ 0).
Proof.
  destruct (sim_init_connects demo_net false (Some (lit "sim" ++ 58 :: lit "4000")) (lit "sim")
    (dec_value 0 (lit "4000")) 0 (Tool [] [] ∅ 0)) as (log & H & _).
  - apply names_both; [decided|decided|by vm_compute].
  - exists log. exact H.
Defined.

(** ** Through the simulation *)

(** C11: connected to the simulation, [dmi_read] and [dmi_write] reach the registers
    behind the simulated transport module: the request goes through [sim_command],
    the socket, [sim_jtag_read_msg] and 74 clocks of the module, and the reply back
    through [sim_jtag_write_msg], for every module of the class [Dtm]; afterwards
    the link is ready for the next access. *)
Theorem sim_link_access {H : Type} `{!Dtm H} debug k o j fuel addr v (s : tool (link H)) :
  0 ≤ os_write o → length (junk_data j) = MAX_PACKET ∧ bytes (junk_data j) →
  cmd_at j + 248 ≤ msize_at j ∨ msize_at j + 8 ≤ cmd_at j →
  rsp_at j + 248 ≤ msize_at j ∨ msize_at j + 8 ≤ rsp_at j →
  ready j (t_link s) → dtm_idle (lk_hw (t_link s)) → (dtm_bound < fuel)%nat →
  0 ≤ addr < 256 → 0 ≤ v < 2 ^ 64 →
  (∃ l, dmi_read (sim_backend debug k (link_socket o j)) fuel addr v s =
      Ret (0, fst (dtm_read addr (lk_hw (t_link s)))) (with_link s l) ∧
    ready j l ∧ lk_hw l = snd (dtm_read addr (lk_hw (t_link s))) ∧ dtm_idle (lk_hw l)) ∧
  (∃ l, dmi_write (sim_backend debug k (link_socket o j)) fuel addr v s = Ret 0 (with_link s l) ∧
    ready j l ∧ lk_hw l = dtm_write addr v (lk_hw (t_link s)) ∧ dtm_idle (lk_hw l)).
Proof.
  intros Ho Hj Hc Hr Hrd Hi Hf Ha Hv.
  exact (carrier_access _ (Carrier0 := sim_carrier debug k o j Ho Hj Hc Hr) fuel addr v s Hrd Hi Hf Ha Hv).
Qed.

Definition demo_vars : jtag_vars :=
  {| cmd_at := 0; rsp_at := 0x100; msize_at := 0x200; junk_data := replicate MAX_PACKET 0x55 |}.
Definition demo_os : sock_os := {|
  os_socket := 3; os_getfl := 0; os_setfl := 0; os_bind := 0; os_listen := 0; os_accept := 4;
  os_poll := 1; os_read := (0, []); os_write := 10;
|}.
Definition demo_sim_net : net (link dbg) :=
  Net (λ l, (3, l)) (λ _ l, (None, l)) (λ _ _ l, (0, l)) (λ l, (tt, l)) (λ _, []).
Definition demo_link : tool (link dbg) :=
  Tool (Link (Jtag (Host (write_bytes 0 (replicate 0x208 0) ∅) []) 3 4 [])
             (Dbg ∅ 0 0 {[ 0x11 := 0xabc ]} None) []) [] ∅ 0.

Lemma sim_link_access_witness :
  (∃ l, dmi_read (sim_backend false demo_sim_net (link_socket demo_os demo_vars)) 3 0x11 0 demo_link = Ret (0, 0xabc) (with_link demo_link l) ∧
    ready demo_vars l ∧ lk_hw l = Dbg ∅ 0 0 {[ 0x11 := 0xabc ]} None ∧ dtm_idle (lk_hw l)) ∧
  (∃ l, dmi_write (sim_backend false demo_sim_net (link_socket demo_os demo_vars)) 3 0x11 0 demo_link = Ret 0 (with_link demo_link l) ∧
    ready demo_vars l ∧ lk_hw l = dbg_write 0x11 0 (lk_hw (t_link demo_link)) ∧ dtm_idle (lk_hw l)).
Proof.
  pose proof (sim_link_access false demo_sim_net demo_os demo_vars 3 0x11 0 demo_link) as Hx.
  apply Hx; clear Hx; [cbn; lia|split; [done|decided]|cbn; lia|cbn; lia| |done|cbn; lia|lia|lia].
  constructor; [cbn; lia|cbn; lia|decided|decided|decided|done].
Defined.

(** C12: over JTAG, [dmi_read] and [dmi_write] of both kinds of FPGA reach the registers
    behind the transport module: [jtag_command] puts operation, data and address into
    their places of the 74-bit register, shifts it, and takes status and data from
    theirs, for every library of the class [UrjRegister] and every module of the class
    [Dtm]; afterwards the register is ready for the next access. *)
Theorem jtag_link_access {B H : Type} `{!Dtm H} (j : urjtag B) `{!UrjRegister j} debug u fuel addr v (s : tool B) b :
  b = bscane2_backend debug u j ∨ b = ecp5_backend debug u j →
  urj_live (t_link s) → dtm_idle (urj_hw (t_link s)) → (dtm_bound < fuel)%nat →
  0 ≤ addr < 256 → 0 ≤ v < 2 ^ 64 →
  (∃ l, dmi_read b fuel addr v s = Ret (0, fst (dtm_read addr (urj_hw (t_link s)))) (with_link s l) ∧
    urj_live l ∧ urj_hw l = snd (dtm_read addr (urj_hw (t_link s))) ∧ dtm_idle (urj_hw l)) ∧
  (∃ l, dmi_write b fuel addr v s = Ret 0 (with_link s l) ∧
    urj_live l ∧ urj_hw l = dtm_write addr v (urj_hw (t_link s)) ∧ dtm_idle (urj_hw l)).
Proof.
  intros [->| ->];
    [exact (carrier_access _ (Carrier0 := bscane2_carrier j debug u) fuel addr v s)
    |exact (carrier_access _ (Carrier0 := ecp5_carrier j debug u) fuel addr v s)].
Qed.

Definition demo_jtag : tool urj_demo := Tool (UrjDemo 0 0 (Dbg ∅ 0 0 {[ 0x11 := 0xabc ]} None)) [] ∅ 0.
Definition demo_urj_dbg : urj_lib urj_demo :=
  UrjLib (λ _ l, (0, l)) (λ _, []) (λ _, true) (λ _, true) (λ _, 0) (λ _, []) 0.

Lemma jtag_link_access_witness :
  ∃ l, dmi_read (ecp5_backend false demo_urj_dbg urj_demo_lib) 3 0x11 0 demo_jtag =
      Ret (0, 0xabc) (with_link demo_jtag l) ∧ ud_hw l = Dbg ∅ 0 0 {[ 0x11 := 0xabc ]} None.
Proof.
  pose proof (jtag_link_access urj_demo_lib false demo_urj_dbg 3 0x11 0 demo_jtag
    (ecp5_backend false demo_urj_dbg urj_demo_lib)) as Hx.
  destruct Hx as [(l & H1 & _ & H2 & _) _]; [by right|exact I|done|cbn; lia|lia|lia|].
  exists l. split; [exact H1|exact H2].
Defined.

(** ** Over any carrier *)

(** C8: loading a file that is not empty into the memory of the SoC and saving as many
    bytes from the same address, over every carrier (through the packets, the socket and
    the simulation, or through the JTAG register), gives the contents back, filled with
    zeros to a multiple of eight bytes; when the file saved to exists already and is
    longer, its bytes behind that stay, since it is not truncated.  The address may be
    any: the doublewords from it on, as the Wishbone master addresses them, are memory. *)
Theorem load_save_roundtrip {B H : Type} `{!Dtm H, !WbTarget (dtm_backend H)} (b : backend B) `{!Carrier b}
    fuel junk name name' contents addr s :
  carried (t_link s) → dtm_idle (hw_of (t_link s)) → (dtm_bound < fuel)%nat →
  t_fs s !! name = Some contents → bytes contents → contents ≠ [] →
  0 ≤ addr < 2 ^ 64 →
  wb_room (dtm_backend H) addr (length (words_of (S (length contents)) contents)) →
  Z.of_nat (length contents) + 8 ≤ INT_MAX → (length contents ≤ t_disk s)%nat →
  ∃ s1 s2 k, load_file b fuel name addr s = Ret tt s1 ∧
    save_file b fuel junk name' addr (Z.of_nat (length contents)) s1 = Ret tt s2 ∧
    t_fs s2 !! name' = Some (contents ++ replicate k 0 ++
      drop (length contents + k) (default [] (t_fs s !! name'))) ∧ (k < 8)%nat ∧
    (8 | Z.of_nat (length contents + k)).
Proof.
  intros Hc Hi Hf Hn Hb Hne Ha Hroom Hmax Hdisk.
  set (t := Tool (hw_of (t_link s)) (t_log s) (t_fs s) (t_disk s)). assert (agree b s t) as Hst by done.
  destruct (load_save_ok (dtm_backend H) fuel junk name name' contents addr t) as (t1 & t2 & k & H1 & H2 & H3 & Hk); try done.
  pose proof (refines_load b fuel name addr s t Hst) as R1. rewrite H1 in R1.
  destruct (load_file b fuel name addr s) as [[] s1| | |]; try done. destruct R1 as [_ Hst1].
  pose proof (refines_save b fuel junk name' addr (Z.of_nat (length contents)) s1 t1 Hst1) as R2. rewrite H2 in R2.
  destruct (save_file b fuel junk name' addr _ s1) as [[] s2| | |] eqn:E2; try done. destruct R2 as [_ Hst2].
  exists s1, s2, k. split; [done|]. split; [exact E2|]. split; [|done]. by rewrite (ag_fs _ _ _ Hst2).
Qed.

(** Over JTAG, to a file that is longer. *)
Lemma load_save_roundtrip_witness :
  let s := Tool (UrjDemo 0 0 (Dbg ∅ 0 0 ∅ None)) []
    {[ lit "boot" := [1; 2; 3; 4; 5; 6; 7; 8; 9; 10]; lit "copy" := replicate 20 77 ]} 100 in
  ∃ s1 s2 k, load_file (ecp5_backend false demo_urj_dbg urj_demo_lib) 3 (lit "boot") 0x1000 s = Ret tt s1 ∧
    save_file (ecp5_backend false demo_urj_dbg urj_demo_lib) 3 0 (lit "copy") 0x1000 10 s1 = Ret tt s2 ∧
    t_fs s2 !! lit "copy" = Some ([1; 2; 3; 4; 5; 6; 7; 8; 9; 10] ++ replicate k 0 ++
      drop (10 + k) (replicate 20 77)) ∧ (k < 8)%nat ∧ (8 | Z.of_nat (10 + k)).
Proof.
  intros s. apply (load_save_roundtrip (ecp5_backend false demo_urj_dbg urj_demo_lib)
    (Carrier0 := ecp5_carrier urj_demo_lib false demo_urj_dbg) 3 0 (lit "boot") (lit "copy")
    [1; 2; 3; 4; 5; 6; 7; 8; 9; 10] 0x1000 s); [exact I|done|cbn; lia|done|decided|done|lia|by intros i _|unfold INT_MAX; cbn; lia|cbn; lia].
Defined.

(** ** Registers and the log *)

(** C36: "gpr" shows the registers from the given one on, as many as asked for but
    none above 95, each with its name and the value it has, and changes none of them;
    only from register 97 on does the unsigned count wrap round, and nearly 2^64
    registers would be read. *)
Theorem gpr_read_shows {B : Type} (b : backend B) `{!DmiTarget b} core `{!GprTarget b core} fuel reg count s :
  (busy_bound < fuel)%nat → 0 ≤ core < 15 → idle (t_link s) → 0 ≤ count < 2 ^ 63 →
  let r0 := Z.land reg 0x7f in
  (r0 ≤ 96 →
   ∃ l, gpr_read b core fuel reg count s =
       Ret tt (says (with_link s l) (gpr_lines (gspr (t_link s)) (seqZ r0 (Z.min count (96 - r0))))) ∧
     idle l ∧ ∀ r, gspr l r = gspr (t_link s) r) ∧
  (96 < r0 → gpr_count r0 count = 2 ^ 64 - (r0 - 96)).
Proof.
  intros Hf Hc Hi Hn r0. split; intros Hr; [by apply gpr_read_ok|]. apply gpr_count_wraps; [|done].
  assert (r0 = reg `mod` 2 ^ 7) as -> by apply (Z.land_ones reg 7 ltac:(lia)).
  pose proof (Z.mod_pos_bound reg (2 ^ 7) ltac:(lia)). lia.
Qed.

(** A stopped core: the link register is 5, the trace has two entries, of which the
    second is the older one. *)
Definition demo_core0 : tool dbg :=
  Tool (Dbg ∅ 0 0 (list_to_map ([(0x1020, 5); (0x16, 0x80000000); (0x3000, 1)] ++
      zip (seqZ 0x2000 8) [10; 11; 12; 13; 20; 21; 22; 23])) None) [] ∅ 100.

Lemma gpr_read_shows_witness :
  ∃ l, gpr_read dbg_backend 0 3 31 2 demo_core0 =
      Ret tt (says (with_link demo_core0 l)
        [Out "r%ld" [PZ 31]; Out ":	%016lx" [PZ 0]; Out "%s" [PS (lit "lr")]; Out ":	%016lx" [PZ 5]]) ∧
    idle l ∧ ∀ r, gspr l r = gspr (t_link demo_core0) r.
Proof.
  pose proof (gpr_read_shows dbg_backend 0 3 31 2 demo_core0) as Hx.
  destruct Hx as [Hx _]; [cbn; lia|lia|done|lia|]. apply Hx. by vm_compute.
Defined.

(** C37: with the trace stopped, "log dump" writes the whole ring to the file in the
    order in which it was traced, from the entry the write pointer stands at, the
    oldest one, round to the newest, four words to an entry; the file holds nothing
    else, and the log address register is restored. *)
Theorem log_dump_chronological {B : Type} (b : backend B) `{!DmiTarget b} core `{!LogTarget b core}
    fuel junk name s :
  (busy_bound < fuel)%nat → 0 ≤ core < 15 → idle (t_link s) → log_stopped (t_link s) = true →
  2 ^ (log_bits + 2) ≤ Z.of_nat (t_disk s) →
  ∃ s', log_dump b core fuel junk name s = Ret tt s' ∧
    t_fs s' !! name = Some (word_bytes
      (ring_words b core (log_word (t_link s)) (4 * log_wr (t_link s)) (Z.to_nat (2 ^ (log_bits + 2))))) ∧
    idle (t_link s') ∧ log_at (t_link s') = log_at (t_link s) ∧ log_same (t_link s) (t_link s').
Proof. intros. by apply log_dump_ok. Qed.

Lemma log_dump_chronological_witness :
  ∃ s', log_dump dbg_backend 0 3 0 (lit "log") demo_core0 = Ret tt s' ∧
    t_fs s' !! lit "log" = Some (word_bytes [20; 21; 22; 23; 10; 11; 12; 13]) ∧
    idle (t_link s') ∧ log_at (t_link s') = 0x80000000 ∧ log_same (t_link demo_core0) (t_link s').
Proof.
  pose proof (log_dump_chronological dbg_backend 0 3 0 (lit "log") demo_core0) as Hx.
  apply Hx; [cbn; lia|lia|done|reflexivity|cbn; lia].
Defined.

(** ** The log formatter *)

(** The fields of a log entry do not overlap and cover what the structure
    says: reading a field of an entry gives back the value it was packed with, in
    the field's width, for every field and all values of the others. *)
Lemma log_field_roundtrip vals f :
  fld (enc_entry vals) f = vals f `mod` 2 ^ width_of f.
Proof. apply fld_enc_entry. Qed.

(** C39: on every log file, of any contents and length, [fmt_log] prints without an
    access outside its tables, ends with status 0, and its last line counts the
    completed instructions (entries with a load/store completion or a valid
    execute) and the clocks (the whole 32-byte entries). *)
Theorem fmt_main_counts junk file s :
  let es := entries (S (length file)) file in
  ∃ lines, fmt_main 1 junk None file s =
    Exit 0 (s ++ lines ++ [Out "%ld instructions completed, %.2f CPI"
      [PZ (Z.of_nat (length (List.filter completes es))); PZ (Z.of_nat (length es));
       PZ (Z.of_nat (length (List.filter completes es)))]]).
Proof. apply fmt_main_ok. Qed.
