(* ===== verification/MmuProps.v ===== *)
(** * The MMU test: properties

    The theorems about the page tables of [tests/mmu/mmu.c] and the walk and the TLB
    of [mmu.vhdl] that read them, with instances of each. *)
From S2P Require Import Prelude CMem MemTypes Mmu MmuTest MmuSpec MmuMap MmuRun MmuRefine.

(** A memory of zeros with room for [n] tables, and 32 kB before them. *)
Definition test_mem (n : nat) : mem := write_bytes 0x8000 (replicate (Z.to_nat (tables_end n - 0x8000)) 0) ∅.

Lemma mapped_zeros a n m : mapped (write_bytes a (replicate n 0) m) a n.
Proof.
  apply mapped_intro. intros i Hi. rewrite lookup_write_bytes, decide_True by (rewrite length_replicate; lia).
  apply lookup_lt_is_Some_2. rewrite length_replicate. lia.
Qed.

Lemma test_mem_ok n : mem_bytes (test_mem n) ∧ mapped (test_mem n) pgdir (Z.to_nat (tables_end n - pgdir)).
Proof.
  split.
  - apply mem_bytes_write; [by apply Forall_replicate|apply map_Forall_empty].
  - apply mapped_intro. intros i Hi. replace (pgdir + i) with (0x8000 + (0x8000 + i)) by layout.
    apply (mapped_lookup _ _ (Z.to_nat (tables_end n - 0x8000))); [apply mapped_zeros|]. unfold tables_end in *. layout.
Qed.

(** ** Refinement *)

(** C9: Every sequence of calls the specification permits runs to its end in the
    program, on the unit with its TLB, with the results the specification gives:
    [map] and [unmap] insert and delete in a map from pages to entries, reads and
    writes go through that map to the memory outside of the tables, and faults are
    reported in DAR and DSISR, whatever entries the TLB loses on the way. *)
Theorem mmu_refines n m cs rs a :
  tables_end n ≤ 2 ^ 56 → mem_bytes m → mapped m pgdir (Z.to_nat (tables_end n - pgdir)) →
  spec_calls n cs (as_start m) = Some (rs, a) →
  ∃ s0 s, init_mmu (mmu_start m) = Ret tt s0 ∧ run_calls cs s0 = Ret rs s ∧
    eas_mapped s = as_eas a ∧ (dar (ms_spr s), dsisr (ms_spr s)) = as_fault a ∧
    (∀ p, p < pgdir ∨ tables_end n ≤ p → ms_mem s !! p = as_mem a !! p).
Proof.
  intros Hn Hb Hm Hs. destruct (init_related n m Hn Hb Hm) as (s0 & H0 & R0).
  destruct (calls_refine _ _ _ _ _ _ R0 Hs) as (s & H & R). exists s0, s.
  split; [done|]. split; [done|]. split; [apply R|]. split; [symmetry; apply R|apply R].
Qed.

(** A page is mapped, written, read back through a second mapping, and unmapped. *)
Definition sample_calls : list call :=
  [CMap 0x124000 0x8000 DFLT_PERM; CWrite 0x124010 0xbadc0ffee; CMap 0x1124000 0x8000 (Z.lor REF PERM_RD);
   CRead 0x1124010 0; CWrite 0x1124010 5; CEvict 1 0x124; CUnmap 0x124000; CRead 0x124010 7; CUnmapAll;
   CRead 0x1124010 9].

Definition sample_results : list (Z * Z) :=
  [(0, 0); (0, 0); (0, 0); (0, 0xbadc0ffee); (0x300, 0); (0, 0); (0, 0); (0x300, 7); (0, 0); (0x300, 9)].

Lemma mmu_refines_witness :
  ∃ s0 s, init_mmu (mmu_start (test_mem 2)) = Ret tt s0 ∧ run_calls sample_calls s0 = Ret sample_results s ∧
    (dar (ms_spr s), dsisr (ms_spr s)) = (0x1124010, 0x40000000).
Proof.
  assert ((fst <$> spec_calls 2 sample_calls (as_start (test_mem 2))) = Some sample_results ∧
          (as_fault ∘ snd <$> spec_calls 2 sample_calls (as_start (test_mem 2))) = Some (0x1124010, 0x40000000)) as [E1 E2].
  { split; vm_compute; reflexivity. }
  destruct (spec_calls 2 sample_calls (as_start (test_mem 2))) as [[rs a]|] eqn:E; [|discriminate E1].
  injection E1 as ->. injection E2 as Ef.
  destruct (mmu_refines 2 (test_mem 2) sample_calls sample_results a) as (s0 & s & H0 & H & _ & Hf & _);
    [discriminate|apply test_mem_ok|apply test_mem_ok|exact E|].
  exists s0, s. rewrite Hf. auto.
Defined.

(** ** The TLB *)

(** C10: After any sequence of permitted calls, every access, a fetch, a load or a store
    in either state, finds what the address space says about its page; the answer
    with the TLB is the answer of a walk of the tree in memory. *)
Theorem tlb_coherent n m cs rs a k ea :
  tables_end n ≤ 2 ^ 56 → mem_bytes m → mapped m pgdir (Z.to_nat (tables_end n - pgdir)) →
  spec_calls n cs (as_start m) = Some (rs, a) → 0 ≤ ea < 2 ^ 39 → access_ok k = true →
  ∃ s0 s, init_mmu (mmu_start m) = Ret tt s0 ∧ run_calls cs s0 = Ret rs s ∧
    fst (translate (ms_mem s) k ea (ms_mmu s)) = Some (space_lookup (as_pt a) k ea) ∧
    walk (ms_mem s) (ptcr (ms_mmu s)) (pid (ms_mmu s)) k ea = Some (space_lookup (as_pt a) k ea).
Proof.
  intros Hn Hb Hm Hs Hea Hk. destruct (init_related n m Hn Hb Hm) as (s0 & H0 & R0).
  destruct (calls_refine _ _ _ _ _ _ R0 Hs) as (s & H & R). destruct (rel_space _ _ _ R) as (pg & S & _).
  exists s0, s. destruct (translate_ok _ _ _ _ k ea S Hea Hk) as (u & -> & _), (sp_regs _ _ _ _ S) as [-> ->].
  rewrite (walk_tree _ _ _ _ _ (sp_tree _ _ _ _ S) Hea). auto.
Qed.

(** A store to a page that has just been unmapped is not valid. *)
Lemma tlb_coherent_witness :
  ∃ s0 s, init_mmu (mmu_start (test_mem 1)) = Ret tt s0 ∧
    run_calls [CMap 0x124000 0x8000 DFLT_PERM; CWrite 0x124010 1; CUnmap 0x124000] s0 = Ret [(0, 0); (0, 0); (0, 0)] s ∧
    fst (translate (ms_mem s) (Access false true true) 0x124010 (ms_mmu s)) = Some WalkInvalid.
Proof.
  set (cs := [CMap 0x124000 0x8000 DFLT_PERM; CWrite 0x124010 1; CUnmap 0x124000]).
  assert ((fst <$> spec_calls 1 cs (as_start (test_mem 1))) = Some [(0, 0); (0, 0); (0, 0)] ∧
          ((λ x, space_lookup (as_pt x.2) (Access false true true) 0x124010) <$> spec_calls 1 cs (as_start (test_mem 1)))
            = Some WalkInvalid) as [E1 E2].
  { split; vm_compute; reflexivity. }
  destruct (spec_calls 1 cs (as_start (test_mem 1))) as [[rs a]|] eqn:E; [|discriminate E1].
  injection E1 as ->. injection E2 as Ef.
  destruct (tlb_coherent 1 (test_mem 1) cs [(0, 0); (0, 0); (0, 0)] a (Access false true true) 0x124010)
    as (s0 & s & H0 & H & Ht & _);
    [discriminate|apply test_mem_ok|apply test_mem_ok|exact E|lia|reflexivity|].
  exists s0, s. rewrite Ht, Ef. auto.
Defined.

(** ** Clearing memory *)

(** C22: [zero_memory] clears exactly the bytes it is given, in two rounds at most, when
    they end at a cache line or before the first one; otherwise it never ends: with a
    part of a line left to clear at its start, the loop makes no progress. *)
Theorem zero_memory_spec ptr n m :
  0 ≤ ptr → 0 ≤ n → ptr + n < 2 ^ 64 → mapped m ptr (Z.to_nat n) →
  if decide ((ptr + n) `mod` 64 = 0 ∨ n ≤ (- ptr) `mod` 64)
  then zero_memory 2 ptr n m = Ret tt (write_bytes ptr (replicate (Z.to_nat n) 0) m)
  else ∀ fuel, zero_memory fuel ptr n m = OutOfFuel.
Proof.
  intros Hp Hn Hlt Hm. case_decide as Hd.
  - destruct Hd as [He|Hi]; [|by apply zero_memory_inside; [lia|done|]].
    apply zero_memory_ok; try done. apply Z.mod_divide; [lia|done].
  - intros fuel. apply Decidable.not_or in Hd as [He Hi]. apply zero_memory_diverges; try done; [|lia].
    intros H. apply He, Z.mod_divide; [lia|done].
Qed.

(** A table is cleared; the first hundred bytes of one are not. *)
Lemma zero_memory_spec_witness :
  (∃ m', zero_memory 2 0x14000 4096 (test_mem 1) = Ret tt m') ∧ zero_memory 1000 0x14000 100 (test_mem 1) = OutOfFuel.
Proof.
  assert (∀ n, 0 ≤ n ≤ 4096 → mapped (test_mem 1) 0x14000 (Z.to_nat n)) as Hm.
  { intros n Hn. apply (sub_mapped (tables_end 1)); [apply test_mem_ok|layout|]. unfold tables_end. layout. }
  split.
  - eexists. apply (zero_memory_spec 0x14000 4096 (test_mem 1)); [lia|lia|lia|apply Hm; lia].
  - apply (zero_memory_spec 0x14000 100 (test_mem 1)); [lia|lia|lia|apply Hm; lia].
Defined.

(** ** The test program *)

Definition test_line (num : Z) : list Z := lit "test " ++ [48 + num `div` 10; 48 + num `mod` 10; 58] ++ lit "PASS" ++ crlf.

(** The test program, from a memory of zeros, prints that each of its twenty-one
    tests passes and returns 0: the accesses and fetches it makes through the unit
    succeed, fault and report their faults as the tests expect. *)
Lemma mmu_main_passes :
  ∃ s, main (TState (mmu_start (test_mem 4)) [] 0) = Ret 0 (TState s (concat (test_line <$> seqZ 1 21)) 0).
Proof.
  assert (match main (TState (mmu_start (test_mem 4)) [] 0) with
          | Ret 0 t => Some (ts_out t, ts_fail t)
          | _ => None
          end = Some (concat (test_line <$> seqZ 1 21), 0)) as E by (vm_compute; reflexivity).
  destruct (main _) as [[| |] [s out f]| | |]; try discriminate E. injection E as -> ->. by exists s.
Qed.
