(* ===== verification/XicsProps.v ===== *)
(** * Properties of the interrupt test

    The clocked controller against the one of [Xics], what the handler does with it in
    any state it can reach, the entry of the interrupt, and the whole test program with
    interrupts taken between any two of its statements. *)
From stdpp Require Import functions.
From S2P Require Import Prelude CMem Soc Io Console Xics XicsSpec XicsClk IsrEntry.

(** C23: The clocked controller, from any state of its registers and latches: once the
    lines and registers have been left alone for four clocks, accesses and changes of
    the lines that are at least four clocks apart read and leave in its registers what
    they do with the controller without latches, and when they are over the source
    presented and the line to the core are those of that controller.  Sooner than that
    it can present, and interrupt the core with, a source that is not the most
    favoured: the UART, on the clock of the store that requests a more favoured IPI. *)
Theorem xics_clocks_refine :
  (∀ h ls k ops, (4 ≤ k)%nat → Forall (λ '(op, k), xop_ok op ∧ (4 ≤ k)%nat) ops →
     let '(vs, (h', ls')) := hw_run ops (idle_clks k ls h, ls) in
     let '(vs', x) := spec_run ops (held h ls) in
     vs = vs' ∧ held h' ls' = x ∧
     p_xisr (h_icp h') = fst (presented x) ∧ p_irq (h_icp h') = irq x ∧ p_core_irq (h_icp h') = irq x) ∧
  (∃ h ls, settled h ls ∧
     let '(_, (h', _)) := hw_op (IcpStore 1 XICS_MFRR 0x04) 0 (h, ls) in
     p_xisr (h_icp h') = 16 ∧ p_core_irq (h_icp h') = true ∧ presented (held h' ls) = (2, 0x04)).
Proof.
  split.
  - intros h ls k ops Hk Hops.
    pose proof (hw_run_ok ops (idle_clks k ls h) ls _ (idle_settles k h ls Hk) (held_idles k h ls ls) Hops) as H.
    destruct (hw_run _ _) as [vs [h' ls']], (spec_run _ _) as [vs' x]. cbn [fst snd] in H.
    destruct H as (-> & Hs & <-). split; [done|]. split; [done|]. split_and!; apply Hs.
  - set (ls := true :: replicate 15 false).
    exists (idle_clks 4 ls (XHw (Icp 0 0xff 0xff false 0 false false) (Ics (6 :: replicate 15 7) ls 0 0xff 0 false))), ls.
    split; [by apply idle_settles|]. vm_compute. done.
Qed.

(** From reset, with any contents of the latches: the source 0 raised and given
    priority 6, CPPR set, and XIRR read. *)
Lemma xics_clocks_refine_witness :
  let h := XHw (Icp 0 0 0xff false 0 false true) (Ics (replicate 16 7) (replicate 16 true) 3 0 0 false) in
  let ops := [(Lines (true :: replicate 15 false), 4%nat); (IcsStore 4 0x800 (bswap32 6), 5%nat);
              (IcpStore 1 XICS_XIRR 0xff, 4%nat); (IcpLoad 4 XICS_XIRR, 7%nat)] in
  fst (hw_run ops (idle_clks 4 (replicate 16 false) h, replicate 16 false)) = [0; 0; 0; bswap32 0xff000010].
Proof.
  intros h ops.
  assert (Forall (λ '(op, k), xop_ok op ∧ (4 ≤ k)%nat) ops) as Hops.
  { assert (∀ n off, n = 1%nat ∨ n = 4%nat → off `mod` 4 = 0 → 0 ≤ off < 0x1000 → word_access n off ∧ 0 ≤ off < 0x1000) as Hw.
    { intros n off Hn Hm Ho. split; [split; [done|]|done]. by apply Z.mod_divide. }
    unfold ops. repeat (apply Forall_cons; split); [..|done]; (split; [|lia]); [done|..]; by apply Hw; auto. }
  pose proof (proj1 xics_clocks_refine h (replicate 16 false) 4%nat ops (le_n 4) Hops) as H.
  assert (fst (spec_run ops (held h (replicate 16 false))) = [0; 0; 0; bswap32 0xff000010]) as E by (vm_compute; reflexivity).
  destruct (hw_run _ _) as [vs [h' ls']], (spec_run _ _) as [vs' x]. cbn [fst] in *. by destruct H as (-> & _).
Defined.

(** C25: Whatever accesses have been made to the controller, when its latches have
    settled (lines and registers left alone for four clocks) and the line to the core is
    raised, it presents a pending interrupt, none is more favoured, and it is more
    favoured than CPPR allows.  The handler, whose accesses are that far apart as well,
    serves an IPI or the UART, records it, leaves CPPR as it was and that interrupt no
    longer pending; for any other source it stops in its assertion.  It never finds a
    spurious interrupt. *)
Theorem isr_serves u s h ls : uart_base u = UART_BASE →
  xics_reach u (dev (xm s)) → settled h ls → held h ls = dev (xm s) →
  ipi_running s = false → p_core_irq (h_icp h) = true →
  let x := dev (xm s) in
  let src := p_xisr (h_icp h) in
  ∃ p, pending x src p ∧ (∀ src' p', pending x src' p' → p ≤ p') ∧ p < cppr x ∧
    (src = 2 ∧ (∃ ev, take_irq u s = Ret tt (with_dev s (set_mfrr 0xff x) ev (Z.lor (isrs_run s) ISR_IPI) false true)) ∧
       (∀ q, ~ pending (set_mfrr 0xff x) src q) ∨
     src = 16 ∧ (∃ ev, take_irq u s = Ret tt (with_dev s (set_level 0 false x) ev (Z.lor (isrs_run s) ISR_UART) false true)) ∧
       (∀ q, ~ pending (set_level 0 false x) src q) ∨
     src ≠ 2 ∧ src ≠ 16 ∧ ∃ s', take_irq u s = Exit 138 s').
Proof.
  intros Hu Hr Hs Hh Hi Hirq x src. apply xics_reach_ok in Hr as Hx. fold x in Hx, Hh.
  pose proof (st_xisr _ _ Hs) as Hsrc. pose proof (st_core _ _ Hs) as Hc. rewrite Hh in Hsrc, Hc. fold src in Hsrc.
  rewrite Hirq in Hc. symmetry in Hc. apply Z.ltb_lt in Hc. rewrite Hsrc. clear src Hsrc.
  pose proof (take_irq_ok u Hu s Hx Hi) as Hk. fold x in Hk.
  destruct (presented_ok x Hx) as [(E & _)|[Hp Hbest]]; [pose proof (xo_cppr _ Hx); lia|].
  assert (fst (presented x) ≠ 0) as Hnz by (destruct Hp as [(-> & _)|(i & -> & _)]; lia).
  exists (snd (presented x)). split_and!; [done|done|done|].
  destruct (served x (isrs_run s)) as [[x' isrs]|] eqn:E.
  - pose proof (λ p, served_quiet _ _ _ _ p Hx E Hnz) as Hq. unfold served in E.
    destruct (decide (fst (presented x) = 2)) as [E2|N2]; [|destruct (decide (fst (presented x) = 16)) as [E3|N3]].
    + rewrite E2 in *. injection E as <- <-. by left.
    + rewrite E3 in *. injection E as <- <-. by right; left.
    + exfalso. destruct (fst (presented x)) as [|q|q]; [done| |done]. revert E. repeat (destruct q as [q|q|]; try done).
  - right; right. unfold served in E. split_and!; [| |done]; intros E'; by rewrite E' in E.
Qed.

(** The UART has raised its line at priority 6 and an IPI is requested at priority 4:
    the IPI is served. *)
Definition two_pending : xics :=
  bus_store (Bus := xics_bus (uart_of true)) 1 (XICS_ICP_BASE + XICS_XIRR) 0xff
    (bus_store (Bus := xics_bus (uart_of true)) 1 (XICS_ICP_BASE + XICS_MFRR) 0x04
      (bus_store (Bus := xics_bus (uart_of true)) 4 (XICS_ICS_BASE + 0x800) (bswap32 6) (set_level 0 true xics_reset))).

Definition two_pending_hw : xhw :=
  idle_clks 4 (levels two_pending)
    (XHw (Icp 0 (cppr two_pending) (mfrr two_pending) false 0 false false)
         (Ics (xives two_pending) (replicate 16 false) 0 0xff 0 false)).

Lemma isr_serves_witness :
  ∃ ev, let s := XState (Machine ∅ two_pending []) 0 false 0 0 true [] in
  take_irq (uart_of true) s = Ret tt (with_dev s (set_mfrr 0xff two_pending) ev ISR_IPI false true).
Proof.
  pose (s := XState (Machine ∅ two_pending []) 0 false 0 0 true []).
  destruct (isr_serves (uart_of true) s two_pending_hw (levels two_pending) eq_refl) as (p & _ & _ & _ & H).
  - repeat constructor; first [by left|by right|by apply Z.mod_divide].
  - by apply idle_settles.
  - unfold two_pending_hw. rewrite held_idles. reflexivity.
  - reflexivity.
  - vm_compute. reflexivity.
  - assert (p_xisr (h_icp two_pending_hw) = 2) as E by (vm_compute; reflexivity). rewrite E in H.
    destruct H as [(_ & H & _)|[(H & _)|(H2 & _)]]; [exact H|discriminate H|by destruct H2].
Defined.

(** C24: The entry of the external interrupt saves enough: for a C function that keeps
    the ABI, the interrupted code goes on at the next instruction with its 32 registers,
    its LR, CTR, CR and MSR.  The function is called with a stack of its own below the
    red zone of the interrupted code, and finds the memory from there up as it was
    except for five words: NIA, LR, CTR, CR and MSR are stored at 1240 bytes and more
    above the stack pointer of the interrupted code, as the offsets, which are in bytes,
    are multiplied by eight again.  XER is not saved: it is what the function leaves. *)
Theorem isr_entry_preserves handler isr c m :
  cpu_ok c → msr_ok (reg c MSR) → stack_ok (gpr c 1) m → abi handler (gpr c 1 - 872) (entered c m) →
  let sp := gpr c 1 in
  let m1 := entered c m in
  ∃ c1 c2 m2 c', handler (c1, m1) = Ret tt (c2, m2) ∧ reg c1 NIA = isr ∧ gpr c1 1 = sp - 872 ∧
    isr_entry handler isr (take_external c, m) = Ret tt (c', m2) ∧
    (∀ r, 0 ≤ r < 32 → gpr c' r = gpr c r) ∧
    (∀ r, r ∈ [LR; CTR; CR; NIA; MSR] → reg c' r = reg c r) ∧ reg c' XER = reg c2 XER ∧
    (∀ i r, [NIA; LR; CTR; CR; MSR] !! i = Some r → bytes_at m1 (sp + 1240 + 64 * Z.of_nat i) (le_split 8 (reg c r))) ∧
    (∀ k, sp - 512 ≤ k → (∀ i, 0 ≤ i < 5 → k < sp + 1240 + 64 * i ∨ sp + 1240 + 64 * i + 8 ≤ k) → m1 !! k = m !! k).
Proof.
  intros Hc Hmo Hs Ha sp m1. destruct (isr_entry_ok handler isr c m Hc Hmo Hs Ha)
    as (c1 & c2 & m2 & c' & E & Hn & H1 & Ee & Hg & Hlr & Hctr & Hcr & Hnia & Hmsr & Hxer).
  exists c1, c2, m2, c'.
  do 5 (split; [done|]). split; [intros r; rewrite !elem_of_cons; by intros [->|[->|[->|[->|[->|[]%elem_of_nil]]]]]|].
  split; [done|]. split; [intros i r; by apply saved_outside|apply saved_frame].
Qed.

(** A function that returns at once, with the stack at 0x10000 in memory. *)
Lemma isr_entry_preserves_witness :
  let c := Cpu (λ r, if r =? 1 then 0x10000 else 0) (λ r, match r with NIA => 0x1234 | MSR => 0x9000000000008003 | _ => 0 end) in
  let m := write_bytes (0x10000 - 872) (replicate 2376 0) ∅ in
  ∃ c' m', isr_entry (mret tt) 0x4000 (take_external c, m) = Ret tt (c', m') ∧ reg c' NIA = 0x1234 ∧ gpr c' 1 = 0x10000.
Proof.
  intros c m. destruct (isr_entry_preserves (mret tt) 0x4000 c m) as (c1 & c2 & m2 & c' & _ & _ & _ & E & Hg & Hr & _).
  - constructor; [intros r; unfold c; cbn [gpr]; destruct (r =? 1); lia| |vm_compute; reflexivity|reflexivity].
    intros []; vm_compute; done.
  - constructor; [reflexivity|reflexivity|discriminate].
  - constructor; [vm_compute; discriminate|vm_compute; discriminate|].
    apply (bytes_at_mapped _ _ (replicate 2376 0)), bytes_at_write.
  - intros c0 Hc0. by exists c0, (entered c m).
  - exists c', m2. split; [exact E|]. split; [rewrite (Hr NIA) by (do 3 right; left)|rewrite (Hg 1) by lia]; reflexivity.
Defined.

(** C26: From reset, with interrupts taken between any two statements of the program
    and every delay long enough for those that are pending to be taken, no assertion of
    the test program fails and it gets stuck nowhere: every execution ends, after 120
    steps at most, having printed that the four tests pass.  That depends on the
    arguments of [ics_write_xive(0, 0xff)] at the end of the second test: with the
    source masked instead, every such execution stops at the assertion of line 249 in the third
    test, which waits for a UART interrupt that does not come.  And it depends on the
    delays: an execution in which an interrupt does not arrive within its sixteen
    iterations stops at the assertion of line 216. *)
Theorem xics_main_passes std :
  let u := uart_of std in
  (∀ n c, nsteps (prompt_step u) n (Running (xics_main u) xics_start) c →
     (n ≤ 120)%nat ∧
     match c with
     | Running [] s => out s = expected_out
     | Running _ _ => ∃ c', prompt_step u c c'
     | Stopped _ _ => False
     end) ∧
  (∀ n c, nsteps (prompt_step u) n (Running (xics_main_with u (ics_write_xive u 0xff 0)) xics_start) c →
     (n ≤ 120)%nat ∧
     match c with
     | Running [] _ => False
     | Running _ _ => ∃ c', prompt_step u c c'
     | Stopped line _ => line = 249
     end) ∧
  ∃ s, rtc (step u) (Running (xics_main u) xics_start) (Stopped 216 s).
Proof.
  intros u. split; [|split].
  - assert (safe u (λ _, false) (λ s, bool_decide (out s = expected_out)) 120 (Running (xics_main u) xics_start) = true) as Hs
      by (destruct std; vm_compute; reflexivity).
    intros n c Hn. destruct (safe_execution _ _ _ _ _ _ _ Hs Hn) as [Hle Hc]. split; [done|].
    destruct c as [[|st l] s|line s]; [by apply bool_decide_eq_true in Hc|done|done].
  - assert (safe u (Z.eqb 249) (λ _, false) 120 (Running (xics_main_with u (ics_write_xive u 0xff 0)) xics_start) = true) as Hs
      by (destruct std; vm_compute; reflexivity).
    intros n c Hn. destruct (safe_execution _ _ _ _ _ _ _ Hs Hn) as [Hle Hc]. split; [done|].
    destruct c as [[|st l] s|line s]; [done|done|by apply Z.eqb_eq in Hc].
  - set (c := Running (xics_main u) xics_start).
    assert (match follow u true 120 c with Stopped line _ => line | _ => 0 end = 216) as E
      by (destruct std; vm_compute; reflexivity).
    pose proof (follow_steps u true 120 c) as Hst. destruct (follow u true 120 c) as [l s|line s]; [done|].
    cbn in E. subst line. by exists s.
Qed.

(** Taking every interrupt at once, the program reaches its end. *)
Lemma xics_main_passes_witness :
  ∃ s, rtc (prompt_step (uart_of true)) (Running (xics_main (uart_of true)) xics_start) (Running [] s) ∧ out s = expected_out.
Proof.
  set (c := Running (xics_main (uart_of true)) xics_start).
  assert (match follow (uart_of true) false 120 c with Running [] _ => true | _ => false end = true) as E
    by (vm_compute; reflexivity).
  pose proof (follow_prompt (uart_of true) 120 c) as Hst.
  destruct (follow (uart_of true) false 120 c) as [[|st l] s|line s]; try discriminate E.
  exists s. split; [exact Hst|]. apply rtc_nsteps in Hst as [n Hn].
  exact (proj2 (proj1 (xics_main_passes true) n _ Hn)).
Defined.
